(** * Certificate sharing tool: a shallow embedding of index.js

    The program reads participant rows from a spreadsheet, resolves a Drive
    folder for each participant, grants read access and writes the outcome
    back to the sheet.  This file embeds the engine of [CertificateSharing]
    (hashKey, sleepWithCountdown, throttle, isRetryableRateLimit, wrapError,
    getSpreadsheetDataFlexible, findFolderByName, hasPermission,
    grantPermission, updateCell, processParticipants, the single pass of
    run) and proves properties of it.

    Conventions of the embedding.
    - A JavaScript string is a [string]: a sequence of code units below
      256, that is of the characters U+0000 to U+00FF.  [toLowerCase] and
      [trim] are the built-ins on these strings: the capital letters are
      A to Z and U+00C0 to U+00DE without U+00D7, the spaces are U+0009 to
      U+000D, U+0020 and U+00A0.  A character above U+007F is written by
      its code, as in [String "201"%char "MILE"].
    - A JavaScript number that the engine uses as an integer is a [Z].
    - The provider (Drive, Sheets), the clock and [Math.random] are an
      environment [Env] of oracles, indexed by how many requests, draws or
      clock readings were made before; the engine threads a [World] that
      counts them and holds the mutable state of a pass.
    - An [async] method is a computation [M A]: from a world to a run,
      which is a normal value or a thrown error, the world it ends in, and
      the outbound calls and pauses it made, in order.  A loop that the
      source does not bound by its data takes fuel; running out of fuel is
      [None].
    - The reading of the sheet runs before the pass and outside [M]: its
      service is a [Sheet.Api] of oracles by request number, and the
      reading returns the requests it made beside its result.
    - Console output, the progress bar and the log file are left out, but
      for the warning of updateCell; a write to the sheet is recorded by
      its row, column and value, without the sheet's name. *)

From Stdlib Require Import ZArith List Bool String Ascii DecimalString Lia Permutation Arith.
Import ListNotations.
Open Scope string_scope.
Open Scope list_scope.
Open Scope Z_scope.

(** ** Strings *)

Module JsString.

(** The lower case of a code unit below 256: the capital letters are A to
    Z (65 to 90), and in the Latin-1 range U+00C0 to U+00D6 (192 to 214)
    and U+00D8 to U+00DE (216 to 222); the lower-case letter is 32 above.
    The multiplication sign (215) is no letter. *)
Definition lower_ascii (c : ascii) : ascii :=
  let n := nat_of_ascii c in
  if (((65 <=? n) && (n <=? 90)) || ((192 <=? n) && (n <=? 214))
      || ((216 <=? n) && (n <=? 222)))%nat
  then ascii_of_nat (n + 32) else c.

(** [String.prototype.toLowerCase]. *)
Fixpoint toLowerCase (s : string) : string :=
  match s with
  | EmptyString => EmptyString
  | String c r => String (lower_ascii c) (toLowerCase r)
  end.

(** The white space and the line terminators that [trim] strips, among
    the code units below 256: tab, line feed, vertical tab, form feed,
    carriage return (9 to 13), space (32) and no-break space (160). *)
Definition is_space (c : ascii) : bool :=
  let n := nat_of_ascii c in
  (((9 <=? n) && (n <=? 13)) || (n =? 32) || (n =? 160))%nat.

Fixpoint trimStart (s : string) : string :=
  match s with
  | EmptyString => EmptyString
  | String c r => if is_space c then trimStart r else s
  end.

Fixpoint rev_string (acc s : string) : string :=
  match s with
  | EmptyString => acc
  | String c r => rev_string (String c acc) r
  end.

(** [String.prototype.trim]. *)
Definition trim (s : string) : string :=
  rev_string EmptyString (trimStart (rev_string EmptyString (trimStart s))).

Fixpoint startsWith (p s : string) : bool :=
  match p, s with
  | EmptyString, _ => true
  | String a p', String b s' => Ascii.eqb a b && startsWith p' s'
  | String _ _, EmptyString => false
  end.

(** [String.prototype.includes]. *)
Fixpoint includes (p s : string) : bool :=
  startsWith p s ||
  match s with
  | EmptyString => false
  | String _ r => includes p r
  end.

(** Truthiness of a string: the empty string is falsy. *)
Definition truthy (s : string) : bool :=
  match s with EmptyString => false | _ => true end.

Fixpoint charCodes (s : string) : list Z :=
  match s with
  | EmptyString => []
  | String c r => Z.of_nat (nat_of_ascii c) :: charCodes r
  end.

(** [s.replace(/'/g, "\\'")]. *)
Fixpoint escapeQuotes (s : string) : string :=
  match s with
  | EmptyString => EmptyString
  | String c r =>
      if Ascii.eqb c "'"%char
      then String "\"%char (String "'"%char (escapeQuotes r))
      else String c (escapeQuotes r)
  end.

End JsString.
Import JsString.

(** ** 32-bit arithmetic and hashKey *)

(** [x | 0]: ToInt32. *)
Definition toInt32 (x : Z) : Z := (x + 2^31) mod 2^32 - 2^31.

(** [x >>> 0]: ToUint32. *)
Definition toUint32 (x : Z) : Z := x mod 2^32.

(** [x << 5] on a number: ToInt32 of the shifted 32-bit pattern. *)
Definition shl5 (x : Z) : Z := toInt32 (Z.shiftl (toInt32 x) 5).

(** The body of the [for] loop of hashKey, over the code units. *)
Fixpoint hashLoop (codes : list Z) (hash : Z) : Z :=
  match codes with
  | [] => hash
  | c :: rest => hashLoop rest (toInt32 ((shl5 hash + hash) + c))
  end.

Definition hashKey (str : string) : Z :=
  toUint32 (hashLoop (charCodes str) 5381).

(** ** Participants and the sharding filter *)

Record Participant := mkParticipant {
  rowIndex : Z;
  nama : string;
  email : string;
  folderId : string;
  isShared : string;
  isFolderExists : string;
  lastLog : string
}.

(** The shard key: FolderId when truthy, else the lower-cased name. *)
Definition shardKey (p : Participant) : string :=
  if truthy (folderId p) then folderId p else toLowerCase (nama p).

(** [h % this.shardTotal]: the remainder of JavaScript truncates. *)
Definition assignedShard (shardTotal : Z) (p : Participant) : Z :=
  Z.rem (hashKey (shardKey p)) shardTotal.

Definition inShard (shardTotal shardIndex : Z) (p : Participant) : bool :=
  assignedShard shardTotal p =? shardIndex.

(** The sharding step of processParticipants. *)
Definition applySharding (shardTotal shardIndex : Z) (normalized : list Participant)
  : list Participant :=
  if 0 <? shardTotal
  then filter (inShard shardTotal shardIndex) normalized
  else normalized.

(** The worker indices [0 .. shardTotal - 1]. *)
Definition shardIndices (shardTotal : Z) : list Z :=
  map Z.of_nat (seq 0 (Z.to_nat shardTotal)).

(** ** Errors thrown by the API client *)

(** A status or code field of an error object: a number or a string. *)
Inductive JsVal :=
| VNum (z : Z)
| VStr (s : string).

Definition valTruthy (v : JsVal) : bool :=
  match v with
  | VNum z => negb (z =? 0)
  | VStr s => truthy s
  end.

(** An element of [error.errors]. *)
Record ErrItem := mkErrItem {
  reason : option string;
  domain : option string
}.

(** The context object that wrapError attaches as [__ctx]. *)
Inductive ErrCtx :=
| CtxQuery (query : string)
| CtxPermission (fileId email role : string).

(** An error object, with the fields the engine reads.  [__op] and
    [__ctx] are absent until wrapError sets them. *)
Record JsError := mkJsError {
  response_status : option JsVal;        (* error.response.status *)
  code : option JsVal;                   (* error.code *)
  data_errors : option (list ErrItem);   (* error.response.data.error.errors *)
  data_message : option string;          (* error.response.data.error.message *)
  own_errors : option (list ErrItem);    (* error.errors *)
  message : option string;               (* error.message *)
  as_string : string;                    (* String(error) *)
  __op : option string;
  __ctx : option ErrCtx
}.

(** [a || b] on optional values. *)
Definition valOr (a b : option JsVal) : option JsVal :=
  match a with
  | Some v => if valTruthy v then a else b
  | None => b
  end.

Definition strOr (a : option string) (b : string) : string :=
  match a with
  | Some s => if truthy s then s else b
  | None => b
  end.

(** [errors?.[0]?.reason] *)
Definition firstReason (errs : option (list ErrItem)) : option string :=
  match errs with
  | Some (e :: _) => reason e
  | _ => None
  end.

Definition isRetryableRateLimit (error : JsError) : bool :=
  let status := valOr (response_status error) (code error) in
  let r := strOr (firstReason (data_errors error))
                 (strOr (firstReason (own_errors error)) "") in
  match status with
  | Some (VNum 429) => true
  | Some (VNum 403) =>
      includes "rateLimitExceeded" r ||
      includes "userRateLimitExceeded" r ||
      includes "sharingRateLimitExceeded" r
  | _ => false
  end.

(** wrapError: the error objects of the client are ordinary objects, so the
    two assignments succeed and the same error comes back. *)
Definition wrapError (op : string) (ctx : ErrCtx) (error : JsError) : JsError :=
  {| response_status := response_status error;
     code := code error;
     data_errors := data_errors error;
     data_message := data_message error;
     own_errors := own_errors error;
     message := message error;
     as_string := as_string error;
     __op := Some op;
     __ctx := Some ctx |}.

(** ** The provider, the clock and the random source *)

Record DriveFile := mkFile {
  id : string;
  name : string
}.

Record FilesPage := mkPage {
  files : list DriveFile;
  nextPageToken : option string
}.

Record Permission := mkPermission {
  emailAddress : option string;
  perm_role : string
}.

(** The [q] of a files.list request. *)
Inductive Query :=
| NameContains (targetName : string)
| ChildrenOf (parentId : string).

Definition renderQuery (q : Query) : string :=
  match q with
  | NameContains t =>
      ("mimeType='application/vnd.google-apps.folder' and name contains '"
        ++ escapeQuotes t ++ "' and trashed=false")%string
  | ChildrenOf p =>
      ("'" ++ p ++ "' in parents and mimeType='application/vnd.google-apps.folder' and trashed=false")%string
  end.

Inductive Res (A : Type) :=
| Ok (a : A)
| Err (e : JsError).
Arguments Ok {A} a.
Arguments Err {A} e.

(** What the outside answers.  The first argument of a provider oracle is
    the number of provider requests made before this one. *)
Record Env := mkEnv {
  filesList : nat -> Query -> Z -> option string -> Res FilesPage;
  permissionsList : nat -> string -> Res (list Permission);
  permissionsCreate : nat -> string -> string -> string -> Res string;
  valuesUpdate : nat -> Z -> string -> string -> Res unit;
  mathRandom : nat -> Z;          (* the n-th draw, scaled by the caller *)
  clock : nat -> Z;               (* the n-th reading of the clock, in ms *)
  toLocaleString : Z -> string    (* the id-ID rendering of a clock value *)
}.

(** Every outbound call and every pause of the engine. *)
Inductive Event :=
| EvSleep (ms : Z)
| EvFilesList (q : Query) (pageSize : Z) (pageToken : option string)
| EvPermissionsList (fileId : string)
| EvPermissionsCreate (fileId email role : string)
| EvValuesUpdate (row : Z) (col value : string)
| EvWarn (col : string) (row : Z).

Record Stats := mkStats {
  total : Z;
  done : Z;
  skipped : Z;
  errors : Z
}.

(** The mutable state of one pass: the counters of the request, random and
    clock oracles, [this.lastApiCallAt], and the [stats] and [seen] locals
    of processParticipants. *)
Record World := mkWorld {
  requests : nat;
  draws : nat;
  clockReads : nat;
  lastApiCallAt : Z;
  stats : Stats;
  seen : list string
}.

Record Config := mkConfig {
  parentFolderId : string;
  dryRun : bool;
  throttleMs : Z;
  maxPerRun : Z;
  envMaxPerRun : option Z;     (* MAX_PER_RUN, when it is a finite number *)
  shardTotal : Z;
  shardIndex : Z
}.

(** ** Computations *)

Inductive Result (A : Type) :=
| Normal (a : A)
| Throw (e : JsError).
Arguments Normal {A} a.
Arguments Throw {A} e.

Record Run (A : Type) := mkRun {
  result : Result A;
  after : World;
  events : list Event
}.
Arguments mkRun {A} result after events.
Arguments result {A} r.
Arguments after {A} r.
Arguments events {A} r.

(** [None]: the fuel ran out. *)
Definition M (A : Type) : Type := World -> option (Run A).

Definition ret {A} (a : A) : M A :=
  fun w => Some (mkRun (Normal a) w []).

Definition throw {A} (e : JsError) : M A :=
  fun w => Some (mkRun (Throw e) w []).

Definition outOfFuel {A} : M A := fun _ => None.

Definition bind {A B} (m : M A) (k : A -> M B) : M B :=
  fun w =>
    match m w with
    | None => None
    | Some r =>
        match result r with
        | Throw e => Some (mkRun (Throw e) (after r) (events r))
        | Normal a =>
            match k a (after r) with
            | None => None
            | Some r' => Some (mkRun (result r') (after r') (events r ++ events r'))
            end
        end
    end.

(** [try { m } catch (e) { h e }] *)
Definition tryCatch {A} (m : M A) (h : JsError -> M A) : M A :=
  fun w =>
    match m w with
    | None => None
    | Some r =>
        match result r with
        | Normal a => Some r
        | Throw e =>
            match h e (after r) with
            | None => None
            | Some r' => Some (mkRun (result r') (after r') (events r ++ events r'))
            end
        end
    end.

(** Runs [m] and hands its completion, normal or thrown, to the caller. *)
Definition attempt {A} (m : M A) : M (Result A) :=
  tryCatch (bind m (fun a => ret (Normal a))) (fun e => ret (Throw e)).

Notation "x <- c ;; k" := (bind c (fun x => k))
  (at level 61, c at next level, right associativity).
Notation "c ;;; k" := (bind c (fun _ => k))
  (at level 61, right associativity).

Definition emit (ev : Event) : M unit :=
  fun w => Some (mkRun (Normal tt) w [ev]).

Definition modify (f : World -> World) : M unit :=
  fun w => Some (mkRun (Normal tt) (f w) []).

Definition gets {A} (f : World -> A) : M A :=
  fun w => Some (mkRun (Normal (f w)) w []).

Definition liftRes {A} (r : Res A) : M A :=
  match r with
  | Ok a => ret a
  | Err e => throw e
  end.

Definition bumpRequests (w : World) : World :=
  mkWorld (S (requests w)) (draws w) (clockReads w) (lastApiCallAt w) (stats w) (seen w).

Definition bumpDraws (w : World) : World :=
  mkWorld (requests w) (S (draws w)) (clockReads w) (lastApiCallAt w) (stats w) (seen w).

Definition bumpClock (w : World) : World :=
  mkWorld (requests w) (draws w) (S (clockReads w)) (lastApiCallAt w) (stats w) (seen w).

Definition setLastApiCallAt (t : Z) (w : World) : World :=
  mkWorld (requests w) (draws w) (clockReads w) t (stats w) (seen w).

Definition setStats (s : Stats) (w : World) : World :=
  mkWorld (requests w) (draws w) (clockReads w) (lastApiCallAt w) s (seen w).

Definition addSeen (k : string) (w : World) : World :=
  mkWorld (requests w) (draws w) (clockReads w) (lastApiCallAt w) (stats w) (k :: seen w).

(** ** The engine *)

Section Engine.

Variable E : Env.
Variable cfg : Config.

(** [this.sleep(ms)]: the pause is recorded, the clock is the oracle's. *)
Definition sleep (ms : Z) : M unit := emit (EvSleep ms).

(** [Math.floor(Math.random() * k)] *)
Definition randomBelow (k : Z) : M Z :=
  n <- gets draws ;;
  modify bumpDraws ;;;
  ret (mathRandom E n mod k).

(** [Date.now()] *)
Definition dateNow : M Z :=
  n <- gets clockReads ;;
  modify bumpClock ;;;
  ret (clock E n).

Definition getCurrentTimestamp : M string :=
  t <- dateNow ;;
  ret (toLocaleString E t).

(** [Number(config.get('throttleMs')) || 2500] *)
Definition minDelay : Z :=
  if throttleMs cfg =? 0 then 2500 else throttleMs cfg.

Definition throttle : M unit :=
  now <- dateNow ;;
  last <- gets lastApiCallAt ;;
  let elapsed := now - last in
  (if elapsed <? minDelay
   then jitter <- randomBelow 400 ;; sleep (minDelay - elapsed + jitter)
   else ret tt) ;;;
  t <- dateNow ;;
  modify (setLastApiCallAt t).

(** The four provider calls. *)
Definition driveFilesList (q : Query) (pageSize : Z) (pageToken : option string)
  : M FilesPage :=
  n <- gets requests ;;
  modify bumpRequests ;;;
  emit (EvFilesList q pageSize pageToken) ;;;
  liftRes (filesList E n q pageSize pageToken).

Definition drivePermissionsList (fileId : string) : M (list Permission) :=
  n <- gets requests ;;
  modify bumpRequests ;;;
  emit (EvPermissionsList fileId) ;;;
  liftRes (permissionsList E n fileId).

Definition drivePermissionsCreate (fileId email role : string) : M string :=
  n <- gets requests ;;
  modify bumpRequests ;;;
  emit (EvPermissionsCreate fileId email role) ;;;
  liftRes (permissionsCreate E n fileId email role).

Definition sheetsValuesUpdate (row : Z) (col value : string) : M unit :=
  n <- gets requests ;;
  modify bumpRequests ;;;
  emit (EvValuesUpdate row col value) ;;;
  liftRes (valuesUpdate E n row col value).

(** [Math.min(60000, Math.pow(2, attempt) * 1000)] *)
Definition backoffBase (attempt : Z) : Z := Z.min 60000 (2 ^ attempt * 1000).

(** The retry loop that findFolderByName (global search), hasPermission
    and grantPermission each write out: [while (true) { try { await
    this.throttle(); ... return ...; } catch (err) { attempt++; if
    (retryable && attempt < maxAttempts) { sleep; continue; } throw
    this.wrapError(op, ctx, err); } }]. *)
Fixpoint retryLoop {A} (fuel : nat) (maxAttempts : Z) (op : string)
    (ctx : ErrCtx) (call : M A) (attempt : Z) : M A :=
  match fuel with
  | O => outOfFuel
  | S fuel' =>
      tryCatch (throttle ;;; call)
        (fun err =>
           let attempt := attempt + 1 in
           if isRetryableRateLimit err && (attempt <? maxAttempts)
           then
             jitter <- randomBelow 500 ;;
             sleep (backoffBase attempt + jitter) ;;;
             retryLoop fuel' maxAttempts op ctx call attempt
           else throw (wrapError op ctx err))
  end.

Definition nameMatches (targetLower : string) (f : DriveFile) : bool :=
  String.eqb (toLowerCase (name f)) targetLower.

(** [files.filter(exact match)] and [files.length > 0 ? files[0].id : null] *)
Definition exactMatchId (targetLower : string) (response : FilesPage)
  : option string :=
  match filter (nameMatches targetLower) (files response) with
  | f :: _ => Some (id f)
  | [] => None
  end.

(** The global search of findFolderByName, without its outer [try]. *)
Definition globalSearchLoop (fuel : nat) (targetName : string)
  : M (option string) :=
  let targetLower := toLowerCase targetName in
  let query := NameContains targetName in
  retryLoop fuel 5 "drive.files.list" (CtxQuery (renderQuery query))
    (response <- driveFilesList query 10 None ;;
     ret (exactMatchId targetLower response))
    0.

Definition globalSearch (fuel : nat) (targetName : string) : M (option string) :=
  tryCatch (globalSearchLoop fuel targetName) (fun _ => ret None).

(** [res.data.nextPageToken || undefined] *)
Definition nextToken (p : FilesPage) : option string :=
  match nextPageToken p with
  | Some t => if truthy t then Some t else None
  | None => None
  end.

(** The [do ... while (pageToken)] loop of listSubfolders. *)
Fixpoint listSubfoldersFrom (fuel : nat) (parentId : string)
    (all : list DriveFile) (pageToken : option string) : M (list DriveFile) :=
  match fuel with
  | O => outOfFuel
  | S fuel' =>
      throttle ;;;
      res <- driveFilesList (ChildrenOf parentId) 100 pageToken ;;
      let all := all ++ files res in
      match nextToken res with
      | Some t => listSubfoldersFrom fuel' parentId all (Some t)
      | None => ret all
      end
  end.

Definition listSubfolders (fuel : nat) (parentId : string) : M (list DriveFile) :=
  listSubfoldersFrom fuel parentId [] None.

Record QItem := mkQItem {
  qid : string;
  depth : Z
}.

Definition maxDepth : Z := 3.

(** The [while (queue.length)] loop of findFolderByName. *)
Fixpoint bfsLoop (fuel : nat) (targetLower : string) (queue : list QItem)
  : M (option string) :=
  match fuel with
  | O => outOfFuel
  | S fuel' =>
      match queue with
      | [] => ret None
      | current :: queue =>
          if depth current >? maxDepth
          then bfsLoop fuel' targetLower queue
          else
            r <- attempt (listSubfolders fuel' (qid current)) ;;
            match r with
            | Normal children =>
                match find (nameMatches targetLower) children with
                | Some hit => ret (Some (id hit))
                | None =>
                    let queue :=
                      if depth current <? maxDepth
                      then queue ++ map (fun c => mkQItem (id c) (depth current + 1)) children
                      else queue in
                    bfsLoop fuel' targetLower queue
                end
            | Throw err =>
                if isRetryableRateLimit err
                then
                  sleep 1000 ;;;
                  bfsLoop fuel' targetLower (queue ++ [mkQItem (qid current) (depth current)])
                else bfsLoop fuel' targetLower queue
            end
      end
  end.

(** findFolderByName; a falsy [parentFolderId] is the empty string. *)
Definition findFolderByName (fuel : nat) (name parentFolderId : string)
  : M (option string) :=
  let targetName := name in
  let targetLower := toLowerCase targetName in
  if negb (truthy targetName) then ret None
  else if negb (truthy parentFolderId) then globalSearch fuel targetName
  else bfsLoop fuel targetLower [mkQItem parentFolderId 0].

Definition permissionMatches (email role : string) (p : Permission) : bool :=
  match emailAddress p with
  | Some a =>
      truthy a && String.eqb (toLowerCase a) (toLowerCase email)
               && String.eqb (perm_role p) role
  | None => false
  end.

(** hasPermission, without its outer [try]. *)
Definition hasPermissionLoop (fuel : nat) (fileId email role : string) : M bool :=
  retryLoop fuel 5 "drive.permissions.list" (CtxPermission fileId email role)
    (permissions <- drivePermissionsList fileId ;;
     ret (existsb (permissionMatches email role) permissions))
    0.

Definition hasPermission (fuel : nat) (fileId email role : string) : M bool :=
  tryCatch (hasPermissionLoop fuel fileId email role) (fun _ => ret false).

Inductive GrantResult :=
| DryRunSentinel             (* { status: 'DRY_RUN' } *)
| Created (data : string).   (* response.data *)

Definition grantPermission (fuel : nat) (fileId email : string) : M GrantResult :=
  let role := "reader" in
  if dryRun cfg then ret DryRunSentinel
  else
    retryLoop fuel 6 "drive.permissions.create" (CtxPermission fileId email role)
      (data <- drivePermissionsCreate fileId email role ;;
       ret (Created data))
      0.

Definition updateCell (row : Z) (col value : string) : M unit :=
  tryCatch (sheetsValuesUpdate row col value)
           (fun _ => emit (EvWarn col row)).

End Engine.

(** ** The sheet: columns, rows and log lines *)

Record Columns := mkColumns {
  nameCol : Z;
  emailCol : Z;
  folderIdCol : Z;
  isSharedCol : Z;
  isFolderExistsCol : Z;
  lastLogCol : Z
}.

(** The [while (n > 0)] loop of toCol; [n] shrinks at every turn, so
    [Z.to_nat n] turns are enough. *)
Fixpoint toColLoop (turns : nat) (n : Z) (s : string) : string :=
  match turns with
  | O => s
  | S turns' =>
      if 0 <? n
      then
        let rem := (n - 1) mod 26 in
        toColLoop turns' ((n - 1) / 26)
                  (String (ascii_of_nat (Z.to_nat (65 + rem))) s)
      else s
  end.

Definition toCol (index : Z) : string :=
  toColLoop (Z.to_nat (index + 1)) (index + 1) "".

(** [columns.xCol !== -1 ? columns.toCol(columns.xCol) : 'D'] *)
Definition colOr (c : Z) (fallback : string) : string :=
  if negb (c =? -1) then toCol c else fallback.

(** [row[c] || ''] *)
Definition cell (row : list string) (c : Z) : string :=
  if c <? 0 then "" else nth (Z.to_nat c) row "".

(** The callback of [values.slice(1).map((row, index) => ...)] in
    getSpreadsheetDataFlexible. *)
Definition participantOfRow (cols : Columns) (index : Z) (row : list string)
  : Participant :=
  mkParticipant (index + 2)
    (cell row (nameCol cols)) (cell row (emailCol cols))
    (cell row (folderIdCol cols)) (cell row (isSharedCol cols))
    (cell row (isFolderExistsCol cols)) (cell row (lastLogCol cols)).

(** The [map] over the data rows, from the row at position [index]. *)
Fixpoint participantsFrom (cols : Columns) (index : Z) (rows : list (list string))
  : list Participant :=
  match rows with
  | [] => []
  | row :: rest =>
      participantOfRow cols index row :: participantsFrom cols (index + 1) rest
  end.

Definition participantsOfRows (cols : Columns) (rows : list (list string))
  : list Participant :=
  participantsFrom cols 0 rows.

Module Render.

Local Open Scope string_scope.

Definition dq : string := String (ascii_of_nat 34) EmptyString.

Definition numToString (z : Z) : string :=
  DecimalString.NilZero.string_of_int (Z.to_int z).

Definition valToString (v : JsVal) : string :=
  match v with
  | VNum z => numToString z
  | VStr s => s
  end.

Definition hexDigit (n : nat) : ascii :=
  match get n "0123456789abcdef" with
  | Some c => c
  | None => "0"%char
  end.

Definition jsonEscapeChar (c : ascii) : string :=
  let n := nat_of_ascii c in
  let bs := String "\"%char EmptyString in
  if (n =? 34)%nat then bs ++ dq
  else if (n =? 92)%nat then bs ++ bs
  else if (n =? 8)%nat then bs ++ "b"
  else if (n =? 12)%nat then bs ++ "f"
  else if (n =? 10)%nat then bs ++ "n"
  else if (n =? 13)%nat then bs ++ "r"
  else if (n =? 9)%nat then bs ++ "t"
  else if (n <? 32)%nat
       then bs ++ "u00" ++ String (hexDigit (n / 16)%nat) (String (hexDigit (n mod 16)%nat) "")
  else String c "".

Fixpoint jsonEscape (s : string) : string :=
  match s with
  | EmptyString => EmptyString
  | String c r => jsonEscapeChar c ++ jsonEscape r
  end.

Definition jsonString (s : string) : string := dq ++ jsonEscape s ++ dq.

Definition jsonField (k v : string) : string := jsonString k ++ ":" ++ jsonString v.

(** [JSON.stringify(error.__ctx)] *)
Definition jsonOfCtx (c : ErrCtx) : string :=
  match c with
  | CtxQuery q => "{" ++ jsonField "query" q ++ "}"
  | CtxPermission f e r =>
      "{" ++ jsonField "fileId" f ++ "," ++ jsonField "email" e ++ ","
          ++ jsonField "role" r ++ "}"
  end.

Fixpoint join (sep : string) (l : list string) : string :=
  match l with
  | [] => ""
  | [x] => x
  | x :: rest => x ++ sep ++ join sep rest
  end.

(** [errors.map(e => e.reason).filter(Boolean)] *)
Fixpoint reasonsOf (errs : list ErrItem) : list string :=
  match errs with
  | [] => []
  | e :: rest =>
      match reason e with
      | Some r => if truthy r then r :: reasonsOf rest else reasonsOf rest
      | None => reasonsOf rest
      end
  end.

(** formatErrorSummary, with extractErrorDetails inlined. *)
Definition formatErrorSummary (error : JsError) : string :=
  let status := valOr (valOr (response_status error) (code error)) None in
  let reasons := match data_errors error with
                 | Some errs => reasonsOf errs
                 | None => []
                 end in
  let message := strOr (data_message error)
                       (strOr (message error) (as_string error)) in
  let reasonStr := match reasons with
                   | [] => "unknown"
                   | _ => join "|" reasons
                   end in
  "[HTTP " ++ match status with
              | Some v => valToString v
              | None => "n/a"
              end ++ "] " ++ reasonStr ++ " - " ++ message.

Definition invalidEmailLog (ts email : string) : string :=
  "[" ++ ts ++ "] SKIP: INVALID EMAIL '" ++ email ++ "'".

Definition duplicateLog (ts : string) : string :=
  "[" ++ ts ++ "] SKIP: Duplicate entry".

Definition alreadySharedLog (ts : string) : string :=
  "[" ++ ts ++ "] SKIP: Already shared".

Definition folderNotFoundLog (ts nama : string) : string :=
  "[" ++ ts ++ "] FOLDER NOT FOUND: '" ++ nama ++ "'".

Definition hasAccessLog (ts role : string) : string :=
  "[" ++ ts ++ "] SKIP: Already has " ++ role ++ " access".

(** The arrow of the source is U+2192, outside the code units of the
    model: the log line carries its three UTF-8 bytes. *)
Definition arrow : string :=
  String (ascii_of_nat 226) (String (ascii_of_nat 134) (String (ascii_of_nat 146) "")).

Definition grantedLog (ts status role email : string) : string :=
  "[" ++ ts ++ "] " ++ status ++ " " ++ role ++ " " ++ arrow ++ " " ++ email.

Definition errorLog (ts : string) (error : JsError) : string :=
  let summary := formatErrorSummary error in
  let ctxInfo := match __op error with
                 | Some op => if truthy op then " op=" ++ op else ""
                 | None => ""
                 end in
  let more := match __ctx error with
              | Some c => " ctx=" ++ jsonOfCtx c
              | None => ""
              end in
  "[" ++ ts ++ "] ERROR:" ++ ctxInfo ++ more ++ " " ++ summary.

End Render.

(** ** The participant pipeline *)

Inductive SkipReason :=
| InvalidEmail
| Duplicate
| AlreadyShared.

(** The branch in which the loop body of processParticipants ends. *)
Inductive Outcome :=
| Skipped (why : SkipReason)
| FolderNotFound
| AlreadyGranted
| Granted
| Error (e : JsError).

(** What one turn of the loop did: the record, the branch, and the calls
    and pauses of that turn. *)
Record Report := mkReport {
  subject : Participant;
  outcome : Outcome;
  trail : list Event
}.

(** The events of [m], also handed to the caller. *)
Definition listen {A} (m : M A) : M (A * list Event) :=
  fun w =>
    match m w with
    | None => None
    | Some r =>
        Some (mkRun (match result r with
                     | Normal a => Normal (a, events r)
                     | Throw e => Throw e
                     end) (after r) (events r))
    end.

Definition incTotal (s : Stats) : Stats :=
  mkStats (total s + 1) (done s) (skipped s) (errors s).
Definition incDone (s : Stats) : Stats :=
  mkStats (total s) (done s + 1) (skipped s) (errors s).
Definition incSkipped (s : Stats) : Stats :=
  mkStats (total s) (done s) (skipped s + 1) (errors s).
Definition incErrors (s : Stats) : Stats :=
  mkStats (total s) (done s) (skipped s) (errors s + 1).

Definition bumpStats (f : Stats -> Stats) : M unit :=
  modify (fun w => setStats (f (stats w)) w).

(** The [map] of the normalization step. *)
Definition normalizeOne (p : Participant) : Participant :=
  mkParticipant (rowIndex p) (trim (nama p)) (toLowerCase (trim (email p)))
                (folderId p) (isShared p) (isFolderExists p) (lastLog p).

Definition hasNameAndEmail (p : Participant) : bool :=
  truthy (nama p) && truthy (email p).

(** [String(p.isShared || '').toLowerCase() !== 'true'] *)
Definition notYetShared (p : Participant) : bool :=
  negb (String.eqb (toLowerCase (isShared p)) "true").

(** [l.slice(0, n)] *)
Definition slice0 {A} (l : list A) (n : Z) : list A :=
  if n <? 0
  then firstn (List.length l - Z.to_nat (- n))%nat l
  else firstn (Z.to_nat n) l.

(** A [null] folder id is as falsy as the empty one. *)
Definition orEmpty (o : option string) : string :=
  match o with
  | Some s => s
  | None => ""
  end.

Definition dedupKey (nama email : string) : string :=
  (toLowerCase nama ++ "|" ++ email)%string.

Section Pipeline.

Variable E : Env.
Variable cfg : Config.
Variable columns : Columns.

Definition role : string := "reader".

(** [(Number.isFinite(envMax) && envMax > 0) ? envMax :
    (Number(config.get('maxPerRun')) || 300)] *)
Definition resolvedMaxPerRun : Z :=
  let fromConfig := if maxPerRun cfg =? 0 then 300 else maxPerRun cfg in
  match envMaxPerRun cfg with
  | Some m => if 0 <? m then m else fromConfig
  | None => fromConfig
  end.

(** The records that the loop of processParticipants goes through. *)
Definition workingParticipants (participants : list Participant)
  : list Participant :=
  let normalized := filter hasNameAndEmail (map normalizeOne participants) in
  let normalized := filter notYetShared normalized in
  let normalized := applySharding (shardTotal cfg) (shardIndex cfg) normalized in
  slice0 normalized resolvedMaxPerRun.

(** [let folderId = participant.folderId; if (!folderId) { folderId =
    await this.findFolderByName(nama, parentFolderId); }] *)
Definition resolveFolder (fuel : nat) (participant : Participant)
  : M (option string) :=
  if negb (truthy (folderId participant))
  then findFolderByName E cfg fuel (nama participant) (parentFolderId cfg)
  else ret (Some (folderId participant)).

(** The branch [if (!folderId) { ... continue; }]. *)
Definition recordNotFound (participant : Participant) : M Outcome :=
  bumpStats incErrors ;;;
  updateCell E (rowIndex participant) (colOr (isFolderExistsCol columns) "E") "FALSE" ;;;
  ts <- getCurrentTimestamp E ;;
  updateCell E (rowIndex participant) (colOr (lastLogCol columns) "F")
             (Render.folderNotFoundLog ts (nama participant)) ;;;
  ret FolderNotFound.

(** The branch [if (hasPermission) { ... continue; }]. *)
Definition recordAlreadyGranted (participant : Participant) : M Outcome :=
  bumpStats incSkipped ;;;
  updateCell E (rowIndex participant) (colOr (isSharedCol columns) "D") "TRUE" ;;;
  ts <- getCurrentTimestamp E ;;
  updateCell E (rowIndex participant) (colOr (lastLogCol columns) "F")
             (Render.hasAccessLog ts role) ;;;
  ret AlreadyGranted.

(** The statements from [// Grant permission] to the end of the [try]
    block. *)
Definition grantAndRecord (fuel : nat) (participant : Participant)
    (folderId' : string) : M Outcome :=
  grantPermission E cfg fuel folderId' (email participant) ;;;
  bumpStats incDone ;;;
  updateCell E (rowIndex participant) (colOr (isSharedCol columns) "D") "TRUE" ;;;
  let status := if dryRun cfg then "DRY_RUN" else "GRANTED" in
  ts <- getCurrentTimestamp E ;;
  updateCell E (rowIndex participant) (colOr (lastLogCol columns) "F")
             (Render.grantedLog ts status role (email participant)) ;;;
  jitter <- randomBelow E 200 ;;
  sleep (Z.max 0 (minDelay cfg / 2) + jitter) ;;;
  ret Granted.

(** The statements of the [try] block after the folder was looked up. *)
Definition shareFolder (fuel : nat) (participant : Participant)
    (found : option string) : M Outcome :=
  let folderId' := orEmpty found in
  if negb (truthy folderId') then recordNotFound participant
  else
    updateCell E (rowIndex participant) (colOr (isFolderExistsCol columns) "E") "TRUE" ;;;
    (if negb (truthy (folderId participant))
     then updateCell E (rowIndex participant) (colOr (folderIdCol columns) "C") folderId'
     else ret tt) ;;;
    has <- hasPermission E cfg fuel folderId' (email participant) role ;;
    if has then recordAlreadyGranted participant
    else grantAndRecord fuel participant folderId'.

(** The [try] block of the loop body. *)
Definition processBody (fuel : nat) (participant : Participant) : M Outcome :=
  let rowIndex := rowIndex participant in
  let nama := nama participant in
  let email := email participant in
  if negb (includes "@" email) then
    bumpStats incSkipped ;;;
    updateCell E rowIndex (colOr (isSharedCol columns) "D") "FALSE" ;;;
    ts <- getCurrentTimestamp E ;;
    updateCell E rowIndex (colOr (lastLogCol columns) "F")
               (Render.invalidEmailLog ts email) ;;;
    ret (Skipped InvalidEmail)
  else
    let key := dedupKey nama email in
    seenNow <- gets seen ;;
    if existsb (String.eqb key) seenNow then
      bumpStats incSkipped ;;;
      ts <- getCurrentTimestamp E ;;
      updateCell E rowIndex "F" (Render.duplicateLog ts) ;;;
      ret (Skipped Duplicate)
    else
      modify (addSeen key) ;;;
      if truthy (isShared participant)
         && String.eqb (toLowerCase (isShared participant)) "true" then
        bumpStats incSkipped ;;;
        ts <- getCurrentTimestamp E ;;
        updateCell E rowIndex (colOr (lastLogCol columns) "F")
                   (Render.alreadySharedLog ts) ;;;
        ret (Skipped AlreadyShared)
      else
        found <- resolveFolder fuel participant ;;
        shareFolder fuel participant found.

(** The [catch] block of the loop body. *)
Definition processCatch (participant : Participant) (error : JsError) : M Outcome :=
  bumpStats incErrors ;;;
  ts <- getCurrentTimestamp E ;;
  let logLine := Render.errorLog ts error in
  updateCell E (rowIndex participant) (colOr (isSharedCol columns) "D") "FALSE" ;;;
  updateCell E (rowIndex participant) (colOr (lastLogCol columns) "F") logLine ;;;
  ret (Error error).

(** One turn of the [for] loop. *)
Definition processOne (fuel : nat) (participant : Participant) : M Outcome :=
  bumpStats incTotal ;;;
  tryCatch (processBody fuel participant) (processCatch participant).

Fixpoint processLoop (fuel : nat) (working : list Participant) : M (list Report) :=
  match working with
  | [] => ret []
  | participant :: rest =>
      r <- listen (processOne fuel participant) ;;
      reports <- processLoop fuel rest ;;
      ret (mkReport participant (fst r) (snd r) :: reports)
  end.

Definition freshLocals (w : World) : World :=
  mkWorld (requests w) (draws w) (clockReads w) (lastApiCallAt w)
          (mkStats 0 0 0 0) [].

(** processParticipants: the reports of the turns; the final [stats] are
    in the world that comes back. *)
Definition processParticipants (fuel : nat) (participants : list Participant)
  : M (list Report) :=
  modify freshLocals ;;;
  processLoop fuel (workingParticipants participants).

End Pipeline.

(** ** Specifications of computations *)

(** [finishes m w Q]: from [w] the computation [m] comes to an end, with
    fuel to spare, and its run satisfies [Q]. *)
Definition finishes {A} (m : M A) (w : World) (Q : Run A -> Prop) : Prop :=
  exists r, m w = Some r /\ Q r.

(** The run of [m] followed by a second run. *)
Definition andThen {A B} (r : Run A) (r' : Run B) : Run B :=
  mkRun (result r') (after r') (events r ++ events r').

(** The run that stops at a throw of [r]. *)
Definition stopped {A B} (r : Run A) (e : JsError) : Run B :=
  mkRun (Throw e) (after r) (events r).

(** What throttle can leave in the events: nothing, or one pause. *)
Definition ThrottleTrace (evs : list Event) : Prop :=
  evs = [] \/ exists ms, 0 < ms /\ evs = [EvSleep ms].

(** The events of a retry loop: each failed attempt that is retried leaves
    the events [thr] of its throttle, the call, and the pause of
    [backoffBase attempt + jitter]; the last attempt leaves the events of
    its throttle and the call. *)
Fixpoint retryTrace (callEv : Event) (attempt : Z)
    (retried : list (list Event * Z)) (last : list Event) : list Event :=
  match retried with
  | [] => last ++ [callEv]
  | (thr, jitter) :: rest =>
      thr ++ [callEv; EvSleep (backoffBase attempt + jitter)]
          ++ retryTrace callEv (attempt + 1) rest last
  end.

Definition RetriedOk (seg : list Event * Z) : Prop :=
  ThrottleTrace (fst seg) /\ 0 <= snd seg < 500.

Definition resultOfRes {A} (r : Res A) : Result A :=
  match r with
  | Ok a => Normal a
  | Err e => Throw e
  end.

Definition mapRes {A B} (f : A -> B) (r : Res A) : Res B :=
  match r with
  | Ok a => Ok (f a)
  | Err e => Err e
  end.

(** The events of updateCell: the write, and the warning when it failed. *)
Definition updateCellEvents (E : Env) (w : World) (row : Z) (col value : string)
  : list Event :=
  EvValuesUpdate row col value ::
  match valuesUpdate E (requests w) row col value with
  | Ok _ => []
  | Err _ => [EvWarn col row]
  end.

(** The outcome of a retry loop, from the provider's answer to its last
    attempt. *)
Definition finalResult {A} (op : string) (ctx : ErrCtx) (answer : Res A) : Result A :=
  match answer with
  | Ok a => Normal a
  | Err e => Throw (wrapError op ctx e)
  end.

(** The milliseconds of all pauses in a list of events. *)
Fixpoint sleptMs (evs : list Event) : Z :=
  match evs with
  | [] => 0
  | EvSleep ms :: rest => ms + sleptMs rest
  | _ :: rest => sleptMs rest
  end.

(** [backoffBase attempt + ... + backoffBase (attempt + k - 1)] *)
Fixpoint backoffTotal (attempt : Z) (k : nat) : Z :=
  match k with
  | O => 0
  | S k' => backoffBase attempt + backoffTotal (attempt + 1) k'
  end.

(** The contract of a retry-wrapped operation [run] with attempt ceiling
    [N], whose attempts the provider answers with [respond]: when the first
    [k < N] attempts fail with retryable errors,
    - if attempt [k + 1] succeeds, the operation returns its value after
      [k + 1] attempts, having paused [backoffBase n + jitter] after the
      failed attempt [n];
    - if attempt [k + 1 = N] fails with a retryable error too, the
      operation throws that error with [op] and [ctx] attached. *)
Definition RetryContract {A} (N : Z) (op : string) (ctx : ErrCtx) (callEv : Event)
    (respond : nat -> Res A) (run : nat -> M A) : Prop :=
  forall (fuel : nat) (w : World) (k : nat),
    (Z.to_nat N <= fuel)%nat ->
    Z.of_nat k < N ->
    (forall i, (i < k)%nat ->
       exists e, respond (requests w + i)%nat = Err e /\ isRetryableRateLimit e = true) ->
    (forall a, respond (requests w + k)%nat = Ok a ->
       exists w' retried last,
         run fuel w = Some (mkRun (Normal a) w' (retryTrace callEv 1 retried last)) /\
         List.length retried = k /\ Forall RetriedOk retried /\ ThrottleTrace last /\
         requests w' = (requests w + k + 1)%nat /\
         backoffTotal 1 k <= sleptMs (retryTrace callEv 1 retried last)) /\
    (forall e, Z.of_nat k + 1 = N ->
       respond (requests w + k)%nat = Err e -> isRetryableRateLimit e = true ->
       exists w' retried last,
         run fuel w = Some (mkRun (Throw (wrapError op ctx e)) w'
                                  (retryTrace callEv 1 retried last)) /\
         __op (wrapError op ctx e) = Some op /\ __ctx (wrapError op ctx e) = Some ctx /\
         List.length retried = k /\ Forall RetriedOk retried /\ ThrottleTrace last /\
         requests w' = (requests w + k + 1)%nat).

(** Kinds of events. *)
Definition isPause (ev : Event) : bool :=
  match ev with EvSleep _ => true | _ => false end.

Definition isFolderListing (ev : Event) : bool :=
  match ev with EvFilesList _ _ _ => true | _ => false end.

Definition isPermissionCheck (ev : Event) : bool :=
  match ev with EvPermissionsList _ => true | _ => false end.

Definition isGrantCall (ev : Event) : bool :=
  match ev with EvPermissionsCreate _ _ _ => true | _ => false end.

(** A write to a cell of [row], or the warning about it. *)
Definition isSheetEventOf (row : Z) (ev : Event) : bool :=
  match ev with
  | EvValuesUpdate r _ _ => r =? row
  | EvWarn _ r => r =? row
  | _ => false
  end.

(** [m] relates the world it starts from to the one it ends in by [R], and
    every event it leaves satisfies [P]. *)
Definition Obeys {A} (R : World -> World -> Prop) (P : Event -> Prop) (m : M A)
  : Prop :=
  forall w r, m w = Some r -> R w (after r) /\ Forall P (events r).

(** The locals of processParticipants are untouched. *)
Definition sameLocals (w w' : World) : Prop :=
  stats w' = stats w /\ seen w' = seen w.

(** [ensures m w Q]: if [m] comes to an end from [w], its run satisfies
    [Q]. *)
Definition ensures {A} (m : M A) (w : World) (Q : Run A -> Prop) : Prop :=
  forall r, m w = Some r -> Q r.

(** [m] never throws. *)
Definition NoThrow {A} (m : M A) : Prop :=
  forall w r, m w = Some r -> exists a, result r = Normal a.

(** The counter that an outcome adds to. *)
Definition tally (o : Outcome) (s : Stats) : Stats :=
  match o with
  | Skipped _ | AlreadyGranted => incSkipped s
  | FolderNotFound | Error _ => incErrors s
  | Granted => incDone s
  end.

Definition keyOf (p : Participant) : string := dedupKey (nama p) (email p).

Definition hasValidEmail (p : Participant) : bool := includes "@" (email p).

Definition seenHas (key : string) (seenNow : list string) : bool :=
  existsb (String.eqb key) seenNow.

(** [seen] after the turn of [p]. *)
Definition seenAfter (p : Participant) (seenNow : list string) : list string :=
  if hasValidEmail p && negb (seenHas (keyOf p) seenNow)
  then keyOf p :: seenNow
  else seenNow.

(** The events of a folder resolution, of a permission check and of a
    grant. *)
Definition ResolutionEvent (ev : Event) : Prop :=
  isPause ev = true \/ isFolderListing ev = true.

Definition CheckEvent (ev : Event) : Prop :=
  isPause ev = true \/ isPermissionCheck ev = true.

Definition GrantEvent (fileId email : string) (ev : Event) : Prop :=
  isPause ev = true \/ ev = EvPermissionsCreate fileId email "reader".

Definition SheetEvent (row : Z) (ev : Event) : Prop :=
  isSheetEventOf row ev = true.

(** ** What one turn of the loop may do *)

(** The events of the turn of [p]: pauses, folder listings, permission
    checks, writes to the row of [p], and, outside simulation mode, the
    creation of a reader grant for the email of [p]. *)
Definition RecordEvent (cfg : Config) (p : Participant) (ev : Event) : Prop :=
  ResolutionEvent ev \/ CheckEvent ev \/ SheetEvent (rowIndex p) ev \/
  (dryRun cfg = false /\ exists f, ev = EvPermissionsCreate f (email p) "reader").

(** No provider call for a folder: only writes to the row of the record. *)
Definition OnlySheetEvents (p : Participant) (evs : list Event) : Prop :=
  Forall (SheetEvent (rowIndex p)) evs.

Definition pastDuplicateCheck (p : Participant) (w : World) : Prop :=
  hasValidEmail p = true /\ seenHas (keyOf p) (seen w) = false.

(** What the branch taken says about the record and the events. *)
Definition BranchFacts (cfg : Config) (columns : Columns) (p : Participant)
    (w : World) (o : Outcome) (evs : list Event) : Prop :=
  match o with
  | Skipped InvalidEmail =>
      hasValidEmail p = false /\ OnlySheetEvents p evs
  | Skipped Duplicate =>
      hasValidEmail p = true /\ seenHas (keyOf p) (seen w) = true /\
      OnlySheetEvents p evs /\
      exists ts rest,
        evs = EvValuesUpdate (rowIndex p) "F" (Render.duplicateLog ts) :: rest
  | Skipped AlreadyShared =>
      pastDuplicateCheck p w /\ notYetShared p = false /\ OnlySheetEvents p evs
  | FolderNotFound =>
      pastDuplicateCheck p w /\
      Forall (fun ev => isGrantCall ev = false /\ isPermissionCheck ev = false) evs /\
      In (EvValuesUpdate (rowIndex p) (colOr (isFolderExistsCol columns) "E") "FALSE") evs /\
      exists ts,
        In (EvValuesUpdate (rowIndex p) (colOr (lastLogCol columns) "F")
                           (Render.folderNotFoundLog ts (nama p))) evs
  | AlreadyGranted =>
      pastDuplicateCheck p w /\
      Forall (fun ev => isGrantCall ev = false) evs /\
      In (EvValuesUpdate (rowIndex p) (colOr (isSharedCol columns) "D") "TRUE") evs
  | Granted =>
      pastDuplicateCheck p w /\
      In (EvValuesUpdate (rowIndex p) (colOr (isSharedCol columns) "D") "TRUE") evs /\
      (exists ts,
         In (EvValuesUpdate (rowIndex p) (colOr (lastLogCol columns) "F")
               (Render.grantedLog ts (if dryRun cfg then "DRY_RUN" else "GRANTED")
                                  "reader" (email p))) evs) /\
      (dryRun cfg = true -> Forall (fun ev => isGrantCall ev = false) evs)
  | Error e =>
      pastDuplicateCheck p w /\ dryRun cfg = false /\
      __op e = Some "drive.permissions.create" /\
      (exists f, __ctx e = Some (CtxPermission f (email p) "reader") /\
                 In (EvPermissionsCreate f (email p) "reader") evs) /\
      In (EvValuesUpdate (rowIndex p) (colOr (isSharedCol columns) "D") "FALSE") evs
  end.

(** The facts of a finished turn. *)
Definition TurnFacts (cfg : Config) (columns : Columns) (p : Participant)
    (w : World) (r : Run Outcome) : Prop :=
  exists o,
    result r = Normal o /\
    stats (after r) = tally o (incTotal (stats w)) /\
    seen (after r) = seenAfter p (seen w) /\
    Forall (RecordEvent cfg p) (events r) /\
    BranchFacts cfg columns p w o (events r).

(** The world in which the turn of [p] resolves the folder, and the one in
    which it checks the permission, after a resolution that ended in [w2]:
    the turn counts the record, adds its key to [seen] and writes
    isFolderExists and, when it was not cached, FolderId. *)
Definition atResolution (p : Participant) (w : World) : World :=
  addSeen (keyOf p) (setStats (incTotal (stats w)) w).

Definition atCheck (p : Participant) (w2 : World) : World :=
  if negb (truthy (folderId p))
  then bumpRequests (bumpRequests w2)
  else bumpRequests w2.

(** The listing of the permissions of [fileId] fails for a check that
    starts at the request number [n]: the provider answers the first [k]
    requests of the check, [k < 5], with retryable rate limits and the next
    one with an error that is not retried, because it is no retryable rate
    limit or because it is the fifth.  Nothing is said of the answers to
    other requests. *)
Definition CheckFails (E : Env) (fileId : string) (n : nat) : Prop :=
  exists (k : nat) (e : JsError),
    (k < 5)%nat /\
    (forall i, (i < k)%nat ->
       exists e', permissionsList E (n + i) fileId = Err e' /\
                  isRetryableRateLimit e' = true) /\
    permissionsList E (n + k) fileId = Err e /\
    (isRetryableRateLimit e = false \/ k = 4%nat).

(** ** What a pass is made of *)

(** The turns of a pass, one after the other: each report is a finished
    turn from the world the turn before it left. *)
Fixpoint Turns (cfg : Config) (columns : Columns) (w : World)
    (reports : list Report) (w' : World) : Prop :=
  match reports with
  | [] => w' = w
  | rep :: rest =>
      exists w1,
        TurnFacts cfg columns (subject rep) w
                  (mkRun (Normal (outcome rep)) w1 (trail rep)) /\
        Turns cfg columns w1 rest w'
  end.

(** The counters after the turns of [reports]. *)
Definition tallyAll (reports : list Report) (s : Stats) : Stats :=
  fold_left (fun acc rep => tally (outcome rep) (incTotal acc)) reports s.

(** The report of a turn put before the run of the turns that follow. *)
Definition thenRest (rep : Report) (o : option (Run (list Report)))
  : option (Run (list Report)) :=
  match o with
  | None => None
  | Some r' =>
      Some (mkRun (match result r' with
                   | Normal reports => Normal (rep :: reports)
                   | Throw e => Throw e
                   end) (after r') (trail rep ++ events r'))
  end.

(** The facts of a finished pass over [working]. *)
Definition PassFacts (cfg : Config) (columns : Columns) (working : list Participant)
    (w : World) (r : Run (list Report)) : Prop :=
  exists reports,
    result r = Normal reports /\
    map subject reports = working /\
    events r = flat_map trail reports /\
    Turns cfg columns w reports (after r).

(** [l] without its element at position [i]. *)
Definition without {A} (i : nat) (l : list A) : list A :=
  firstn i l ++ skipn (S i) l.

(** ** The folder tree that a search walks *)

Section FolderTree.

(** The child folders of a folder, in the order in which the provider
    lists them. *)
Variable kids : string -> list DriveFile.

(** The folders [n + 1] levels below [root], in breadth-first order. *)
Fixpoint level (n : nat) (root : string) : list DriveFile :=
  match n with
  | O => kids root
  | S n' => flat_map (fun f => kids (id f)) (level n' root)
  end.

(** The id of the first folder of [fs] whose name is the target. *)
Definition firstMatch (targetLower : string) (fs : list DriveFile) : option string :=
  match find (nameMatches targetLower) fs with
  | Some hit => Some (id hit)
  | None => None
  end.

(** The search that looks at the children of the folders [frontier], then
    at the children of those, [n] levels further down. *)
Fixpoint searchLevels (targetLower : string) (n : nat) (frontier : list string)
  : option string :=
  match find (nameMatches targetLower) (flat_map kids frontier) with
  | Some hit => Some (id hit)
  | None =>
      match n with
      | O => None
      | S n' => searchLevels targetLower n' (map id (flat_map kids frontier))
      end
  end.

(** The folders whose children that search lists. *)
Fixpoint listedFolders (n : nat) (frontier : list string) : list string :=
  frontier ++
  match n with
  | O => []
  | S n' => listedFolders n' (map id (flat_map kids frontier))
  end.

(** The folders one to four levels below [root], in breadth-first
    order. *)
Definition breadthFirst (root : string) : list DriveFile :=
  level 0 root ++ level 1 root ++ level 2 root ++ level 3 root.

(** What the search answers from a queue that holds the rest [cur] of the
    folders at one depth and the children [acc] queued so far. *)
Definition searchFrom (targetLower : string) (n : nat) (cur acc : list string)
  : option string :=
  match find (nameMatches targetLower) (flat_map kids cur) with
  | Some hit => Some (id hit)
  | None =>
      match n with
      | O => None
      | S n' => searchLevels targetLower n' (acc ++ map id (flat_map kids cur))
      end
  end.

Definition listedFrom (n : nat) (cur acc : list string) : list string :=
  cur ++
  match n with
  | O => []
  | S n' => listedFolders n' (acc ++ map id (flat_map kids cur))
  end.

End FolderTree.

(** A pause, or the listing of the children of a folder of [allowed]. *)
Definition ListingIn (allowed : list string) (ev : Event) : Prop :=
  isPause ev = true \/
  exists pid tok, ev = EvFilesList (ChildrenOf pid) 100 tok /\ In pid allowed.

(** From the request number [from] on, the provider lists the children
    of every folder in full, without an error: listSubfolders returns
    [kids pid] whenever it has fuel for the pages.  Nothing is asked of
    the requests before [from], nor of the other calls. *)
Definition Lists (E : Env) (cfg : Config) (kids : string -> list DriveFile)
    (from : nat) : Prop :=
  forall pid w, (from <= requests w)%nat -> exists n w' evs,
    (requests w <= requests w')%nat /\
    Forall (ListingIn [pid]) evs /\
    forall fuel, (n <= fuel)%nat ->
      listSubfolders E cfg fuel pid w = Some (mkRun (Normal (kids pid)) w' evs).

(** The provider served [f] in a page of the children of [pid], at a
    request from number [lo] on and before number [hi]. *)
Definition ServedUnder (E : Env) (lo hi : nat) (pid : string) (f : DriveFile) : Prop :=
  exists n tok page,
    (lo <= n < hi)%nat /\
    filesList E n (ChildrenOf pid) 100 tok = Ok page /\ In f (files page).

(** [Below E lo hi root d pid]: by what the provider served between the
    requests [lo] and [hi], the folder [pid] is [d] levels below [root]. *)
Inductive Below (E : Env) (lo hi : nat) (root : string) : nat -> string -> Prop :=
| Below_root : Below E lo hi root 0 root
| Below_child (d : nat) (pid : string) (f : DriveFile) :
    Below E lo hi root d pid -> ServedUnder E lo hi pid f ->
    Below E lo hi root (S d) (id f).

(** A pause, or the listing of the children of a folder that the provider
    showed at most 3 levels below [root]. *)
Definition ListingWithin (E : Env) (lo hi : nat) (root : string) (ev : Event) : Prop :=
  isPause ev = true \/
  exists pid tok d,
    ev = EvFilesList (ChildrenOf pid) 100 tok /\ (d <= 3)%nat /\
    Below E lo hi root d pid.

(** A queue item stands for a folder that the provider showed at the depth
    of the item. *)
Definition QueuedBelow (E : Env) (lo hi : nat) (root : string) (item : QItem) : Prop :=
  exists d, depth item = Z.of_nat d /\ Below E lo hi root d (qid item).

(** The queue items of the folders [ids] at depth [d]. *)
Definition itemsAt (d : Z) (ids : list string) : list QItem :=
  map (fun i => mkQItem i d) ids.

(** ** Sample sheets and providers *)

Module Sample.

(** Nama | Email | FolderId | isShared | isFolderExists | LastLog *)
Definition columns : Columns := mkColumns 0 1 2 3 4 5.

Definition config (parent : string) (simulate : bool) : Config :=
  mkConfig parent simulate 2500 300 None 0 0.

Definition world0 : World := mkWorld 0 0 0 0 (mkStats 0 0 0 0) [].

Definition rateLimited : JsError :=
  mkJsError (Some (VNum 429)) None
            (Some [mkErrItem (Some "rateLimitExceeded") (Some "usageLimits")])
            (Some "Rate Limit Exceeded") None (Some "Rate Limit Exceeded")
            "Error: Rate Limit Exceeded" None None.

Definition forbidden : JsError :=
  mkJsError (Some (VNum 403)) None
            (Some [mkErrItem (Some "forbidden") (Some "global")])
            (Some "Forbidden") None (Some "Forbidden")
            "Error: Forbidden" None None.

(** The chain P > A > B > C > J: the folder of Jane Doe is four levels
    below the parent P. *)
Definition chainKids (pid : string) : list DriveFile :=
  if String.eqb pid "P" then [mkFile "A" "Cohort 2024"]
  else if String.eqb pid "A" then [mkFile "B" "Class 7"]
  else if String.eqb pid "B" then [mkFile "C" "Group 2"]
  else if String.eqb pid "C" then [mkFile "J" "Jane Doe"]
  else [].

(** A provider that lists [kids] in one page, finds nothing by a global
    search, has no grants yet, and accepts every call. *)
Definition driveOf (kids : string -> list DriveFile) : Env :=
  mkEnv (fun _ q _ _ =>
           match q with
           | ChildrenOf pid => Ok (mkPage (kids pid) None)
           | NameContains _ => Ok (mkPage [] None)
           end)
        (fun _ _ => Ok [])
        (fun _ _ _ _ => Ok "permission-1")
        (fun _ _ _ _ => Ok tt)
        (fun _ => 0)
        (fun n => Z.of_nat n * 10000)
        (fun _ => "1/1/2025 10.00.00").

Definition chainDrive : Env := driveOf chainKids.

(** A parent without folders. *)
Definition emptyDrive : Env := driveOf (fun _ => []).

(** Two cohorts under the parent P, each with a folder of Jane Doe. *)
Definition forkKids (pid : string) : list DriveFile :=
  if String.eqb pid "P" then [mkFile "A" "Cohort A"; mkFile "B" "Cohort B"]
  else if String.eqb pid "A" then [mkFile "J1" "Jane Doe"]
  else if String.eqb pid "B" then [mkFile "J2" "Jane Doe"]
  else [].

(** The provider of [forkKids] that answers the second request, the
    listing of A, with a rate limit. *)
Definition stutteringDrive : Env :=
  mkEnv (fun n q _ _ =>
           match q with
           | ChildrenOf pid =>
               if (n =? 1)%nat then Err rateLimited
               else Ok (mkPage (forkKids pid) None)
           | NameContains _ => Ok (mkPage [] None)
           end)
        (fun _ _ => Ok [])
        (fun _ _ _ _ => Ok "permission-1")
        (fun _ _ _ _ => Ok tt)
        (fun _ => 0)
        (fun n => Z.of_nat n * 10000)
        (fun _ => "1/1/2025 10.00.00").

(** Jane's folder right under the parent. *)
Definition flatKids (pid : string) : list DriveFile :=
  if String.eqb pid "P" then [mkFile "J" "Jane Doe"] else [].

Definition flatDrive : Env := driveOf flatKids.

(** The provider of [flatDrive], with a spreadsheet that rejects every
    write. *)
Definition readOnlySheet : Env :=
  mkEnv (filesList flatDrive) (permissionsList flatDrive)
        (permissionsCreate flatDrive)
        (fun _ _ _ _ => Err forbidden)
        (mathRandom flatDrive) (clock flatDrive) (toLocaleString flatDrive).

(** The provider of [flatDrive], where the listing of permissions fails
    with a rate limit at the first two requests of a retry loop and the
    creation of a grant always fails so. *)
Definition busyDrive : Env :=
  mkEnv (filesList flatDrive)
        (fun n _ => if (n <? 2)%nat then Err rateLimited else Ok [])
        (fun _ _ _ _ => Err rateLimited)
        (valuesUpdate flatDrive)
        (mathRandom flatDrive) (clock flatDrive) (toLocaleString flatDrive).

(** The provider of [flatDrive], where the listing of permissions is
    refused at the request number 1 and at no other. *)
Definition blinkingDrive : Env :=
  mkEnv (filesList flatDrive)
        (fun n _ => if (n =? 1)%nat then Err forbidden else Ok [])
        (permissionsCreate flatDrive)
        (valuesUpdate flatDrive)
        (mathRandom flatDrive) (clock flatDrive) (toLocaleString flatDrive).

Definition jane : Participant :=
  mkParticipant 2 "Jane Doe" "jane@ex.com" "" "" "" "".

Definition janeCached : Participant :=
  mkParticipant 2 "Jane Doe" "jane@ex.com" "J" "" "" "".

Definition bob : Participant :=
  mkParticipant 3 "Bob Johnson" "bob@ex.com" "" "" "" "".

Definition noEmail : Participant :=
  mkParticipant 2 "Ann Lee" "ann-at-ex.com" "" "" "" "".

Definition noEmailAgain : Participant :=
  mkParticipant 3 "ann lee" "ANN-AT-EX.COM" "" "" "" "".

(** Strings with code units above 127, written by their codes: 201 is the
    capital E with acute accent, 233 the small one, 160 the no-break
    space. *)
Definition emileUpper : string := String "201"%char "MILE".

Definition emileLower : string := String "233"%char "mile".

Definition nbsp : string := String "160"%char "".

(** The folder of the small-letter name right under the parent. *)
Definition accentKids (pid : string) : list DriveFile :=
  if String.eqb pid "P" then [mkFile "E" emileLower] else [].

(** The provider of [accentKids], where the folder E is shared with the
    capital-letter name at ex.com. *)
Definition accentDrive : Env :=
  mkEnv (filesList (driveOf accentKids))
        (fun _ _ => Ok [mkPermission (Some (emileUpper ++ "@EX.COM")%string) "reader"])
        (permissionsCreate flatDrive)
        (valuesUpdate flatDrive)
        (mathRandom flatDrive) (clock flatDrive) (toLocaleString flatDrive).

End Sample.

(** ** Runs that differ by warnings only *)

(** [E] with another spreadsheet behind it. *)
Definition withSheet (E : Env) (answer : nat -> Z -> string -> string -> Res unit)
  : Env :=
  mkEnv (filesList E) (permissionsList E) (permissionsCreate E) answer
        (mathRandom E) (clock E) (toLocaleString E).

Definition isWarning (ev : Event) : bool :=
  match ev with EvWarn _ _ => true | _ => false end.

(** The calls and pauses among the events, without the warnings. *)
Definition calls (evs : list Event) : list Event :=
  filter (fun ev => negb (isWarning ev)) evs.

(** Both runs end, with the same completion, in the same world and after
    the same calls, or both run out of fuel. *)
Definition alike {A} (o1 o2 : option (Run A)) : Prop :=
  match o1, o2 with
  | None, None => True
  | Some r1, Some r2 =>
      result r1 = result r2 /\ after r1 = after r2 /\
      calls (events r1) = calls (events r2)
  | _, _ => False
  end.

(** The pure 32-bit djb2 hash: [h * 33 + c] at every code unit. *)
Fixpoint djb2 (codes : list Z) (hash : Z) : Z :=
  match codes with
  | [] => hash
  | c :: rest => djb2 rest (hash * 33 + c)
  end.

(** ** A1 column letters *)

(** The number that the letters of an A1 column spell, in bijective base
    26: A is 1, Z is 26, AA is 27. *)
Fixpoint colNumber (s : string) (acc : Z) : Z :=
  match s with
  | EmptyString => acc
  | String c r => colNumber r (acc * 26 + (Z.of_nat (nat_of_ascii c) - 64))
  end.

(** The zero-based index of an A1 column. *)
Definition colIndex (s : string) : Z := colNumber s 0 - 1.

Definition isUpperLetter (c : ascii) : bool :=
  ((65 <=? nat_of_ascii c) && (nat_of_ascii c <=? 90))%nat.

(** Every character of [s] satisfies [f]. *)
Fixpoint allChars (f : ascii -> bool) (s : string) : bool :=
  match s with
  | EmptyString => true
  | String c r => f c && allChars f r
  end.

(** ** Reading the sheet *)

Module Sheet.

(** [this.sheets.spreadsheets.values]: what the service answers to the
    request number [n] of a reading, for a spreadsheet id and a range.
    [None] is a response without [values]. *)
Record Api := mkApi {
  values_get : nat -> string -> string -> Res (option (list (list string)));
  values_update : nat -> string -> string -> list (list string) -> Res unit
}.

(** The requests of a reading. *)
Inductive Call :=
| Get (spreadsheetId range : string)
| Update (spreadsheetId range : string) (values : list (list string)).

(** [{ participants, headers, columns }] *)
Record Data := mkData {
  participants : list Participant;
  headers : list string;
  columns : Columns
}.

End Sheet.

(** [l.indexOf(x)]: the first position of [x], or -1. *)
Fixpoint indexOfFrom (x : string) (l : list string) (i : Z) : Z :=
  match l with
  | [] => -1
  | y :: rest => if String.eqb y x then i else indexOfFrom x rest (i + 1)
  end.

Definition indexOf (x : string) (l : list string) : Z := indexOfFrom x l 0.

(** [l.includes(x)] *)
Definition includesItem (x : string) (l : list string) : bool :=
  existsb (String.eqb x) l.

Definition nameCandidates : list string :=
  ["nama peserta"; "nama"; "nama lengkap"; "name"; "full name"; "participant name"].

Definition emailCandidates : list string :=
  ["email address"; "email"; "e-mail"; "gmail"; "participant email"].

(** [for (const name of candidates) { const idx = lower.indexOf(name);
    if (idx !== -1) return idx; } return -1;] *)
Fixpoint findIndexByNames (lower : list string) (candidates : list string) : Z :=
  match candidates with
  | [] => -1
  | name :: rest =>
      let idx := indexOf name lower in
      if negb (idx =? -1) then idx else findIndexByNames lower rest
  end.

Definition extras : list string :=
  ["FolderId"; "isShared"; "isFolderExists"; "LastLog"].

(** [extras.filter(h => !headers.includes(h))] *)
Definition missingColumns (headers : list string) : list string :=
  filter (fun h => negb (includesItem h headers)) extras.

(** [(headerRes.data.values && headerRes.data.values[0]) || []] *)
Definition firstRow (values : option (list (list string))) : list string :=
  match values with
  | Some (row :: _) => row
  | _ => []
  end.

(** [headers.map(h => (h || '').toString().trim().toLowerCase())] *)
Definition lowerHeaders (headers : list string) : list string :=
  map (fun h => toLowerCase (trim h)) headers.

(** The statements of getSpreadsheetDataFlexible from the lookup of the
    bookkeeping columns on: [headers] holds the appended columns, and [n]
    requests were made before. *)
Definition readRows (api : Sheet.Api) (sheetId sheetName : string) (n : nat)
    (headers : list string) (nameCol emailCol : Z)
  : option Sheet.Data * list Sheet.Call :=
  let folderIdCol := indexOf "FolderId" headers in
  let isSharedCol := indexOf "isShared" headers in
  let isFolderExistsCol := indexOf "isFolderExists" headers in
  let lastLogCol := indexOf "LastLog" headers in
  let range := (sheetName ++ "!A:ZZ")%string in
  match Sheet.values_get api n sheetId range with
  | Err _ => (None, [Sheet.Get sheetId range])
  | Ok valuesRes =>
      let values := match valuesRes with Some v => v | None => [] end in
      if (List.length values <=? 1)%nat then (None, [Sheet.Get sheetId range])
      else
        let columns := mkColumns nameCol emailCol folderIdCol isSharedCol
                                 isFolderExistsCol lastLogCol in
        (Some (Sheet.mkData (participantsOfRows columns (tl values)) headers columns),
         [Sheet.Get sheetId range])
  end.

(** getSpreadsheetDataFlexible: the data or [null], and the requests made,
    in order.  Every error is caught and answered with [null]. *)
Definition getSpreadsheetDataFlexible (api : Sheet.Api) (sheetId sheetName : string)
    (n : nat) : option Sheet.Data * list Sheet.Call :=
  let headerRange := (sheetName ++ "!1:1")%string in
  let headerCall := Sheet.Get sheetId headerRange in
  match Sheet.values_get api n sheetId headerRange with
  | Err _ => (None, [headerCall])
  | Ok headerRes =>
      let headers := firstRow headerRes in
      if (List.length headers =? 0)%nat then (None, [headerCall])
      else
        let lower := lowerHeaders headers in
        let nameCol := findIndexByNames lower nameCandidates in
        let emailCol := findIndexByNames lower emailCandidates in
        if (nameCol =? -1) || (emailCol =? -1) then (None, [headerCall])
        else
          let missing := missingColumns headers in
          if (0 <? List.length missing)%nat then
            let startCol := toCol (Z.of_nat (List.length headers)) in
            let range := (sheetName ++ "!" ++ startCol ++ "1")%string in
            let updateCall := Sheet.Update sheetId range [missing] in
            match Sheet.values_update api (S n) sheetId range [missing] with
            | Err _ => (None, [headerCall; updateCall])
            | Ok _ =>
                let rest := readRows api sheetId sheetName (S (S n))
                                     (headers ++ missing) nameCol emailCol in
                (fst rest, headerCall :: updateCall :: snd rest)
            end
          else
            let rest := readRows api sheetId sheetName (S n) headers nameCol emailCol in
            (fst rest, headerCall :: snd rest)
  end.

(** The single pass of run: [const data = await
    this.getSpreadsheetDataFlexible(); if (!data) return; await
    this.processParticipants(data);].  The requests of the reading, and the
    pass, which is empty when there is no data. *)
Definition singlePass (api : Sheet.Api) (E : Env) (cfg : Config)
    (sheetId sheetName : string) (fuel : nat)
  : list Sheet.Call * M (list Report) :=
  let reading := getSpreadsheetDataFlexible api sheetId sheetName 0 in
  match fst reading with
  | None => (snd reading, ret [])
  | Some data =>
      (snd reading,
       processParticipants E cfg (Sheet.columns data) fuel (Sheet.participants data))
  end.

(** The six columns of a reading: name, email, FolderId, isShared,
    isFolderExists, LastLog. *)
Definition columnList (c : Columns) : list Z :=
  [nameCol c; emailCol c; folderIdCol c; isSharedCol c; isFolderExistsCol c;
   lastLogCol c].

Definition isUpdate (c : Sheet.Call) : bool :=
  match c with
  | Sheet.Update _ _ _ => true
  | Sheet.Get _ _ => false
  end.

(** ** The countdown between two passes *)




(** ** Listings in pages *)

(** The provider answers the listing of the children of [pid] with the
    pages [pages], one per request from request number [n] on: the first
    for the token [tok], each next one for the token of the page before it,
    and the last page alone carries no token. *)
Fixpoint Paged (E : Env) (pid : string) (n : nat) (tok : option string)
    (pages : list FilesPage) : Prop :=
  match pages with
  | [] => False
  | page :: rest =>
      filesList E n (ChildrenOf pid) 100 tok = Ok page /\
      match rest with
      | [] => nextToken page = None
      | _ :: _ =>
          exists t, nextToken page = Some t /\ Paged E pid (S n) (Some t) rest
      end
  end.

(** The requests for those pages. *)
Fixpoint pageRequests (pid : string) (tok : option string) (pages : list FilesPage)
  : list Event :=
  match pages with
  | [] => []
  | page :: rest =>
      EvFilesList (ChildrenOf pid) 100 tok :: pageRequests pid (nextToken page) rest
  end.

(** The provider served the folder [f] in a listing, at a request from
    number [lo] on and before number [hi]. *)
Definition Served (E : Env) (lo hi : nat) (f : DriveFile) : Prop :=
  exists n q pageSize tok page,
    (lo <= n < hi)%nat /\
    filesList E n q pageSize tok = Ok page /\ In f (files page).

(** ** Counting outcomes *)

Definition isDone (o : Outcome) : bool :=
  match o with Granted => true | _ => false end.

Definition isSkip (o : Outcome) : bool :=
  match o with Skipped _ | AlreadyGranted => true | _ => false end.

Definition isFailure (o : Outcome) : bool :=
  match o with FolderNotFound | Error _ => true | _ => false end.

(** How many of the reports have an outcome of the kind [f]. *)
Definition countOutcomes (f : Outcome -> bool) (reports : list Report) : Z :=
  Z.of_nat (List.length (filter (fun rep => f (outcome rep)) reports)).

(** The records that pass the filters of processParticipants, before the
    batch limit. *)
Definition eligible (cfg : Config) (participants : list Participant)
  : list Participant :=
  applySharding (shardTotal cfg) (shardIndex cfg)
    (filter notYetShared (filter hasNameAndEmail (map normalizeOne participants))).

(** No condition on the worlds of a run. *)
Definition anyWorld (w w' : World) : Prop := True.

(** ** What a turn may touch *)

(** The folder of a record: its cached FolderId, or else a folder that the
    provider listed under the name of the record, up to case. *)
Definition FolderOf (E : Env) (p : Participant) (f : string) : Prop :=
  if truthy (folderId p) then f = folderId p
  else exists d lo hi,
         Served E lo hi d /\ id d = f /\
         toLowerCase (name d) = toLowerCase (nama p).

(** What a turn may write to a cell: TRUE or FALSE to isShared and to
    isFolderExists, the id of the folder of the record to FolderId, a line
    that starts with a timestamp in brackets to LastLog, and the duplicate
    notice to column F. *)
Definition CellWrite (E : Env) (columns : Columns) (p : Participant)
    (col value : string) : Prop :=
  (col = colOr (isSharedCol columns) "D" /\ (value = "TRUE" \/ value = "FALSE")) \/
  (col = colOr (isFolderExistsCol columns) "E" /\ (value = "TRUE" \/ value = "FALSE")) \/
  (col = colOr (folderIdCol columns) "C" /\ truthy (folderId p) = false /\
   truthy value = true /\ FolderOf E p value) \/
  (col = colOr (lastLogCol columns) "F" /\
   exists ts rest, value = ("[" ++ ts ++ "] " ++ rest)%string) \/
  (col = "F" /\ exists ts, value = Render.duplicateLog ts).

(** What the turn of the record [p] may do: pause; list folders, when the
    record has no cached FolderId; list the permissions of the folder of
    the record; create a reader grant on that folder for the email of the
    record, outside simulation mode and when the email has an [@]; write
    to the cells above, in the row of the record. *)
Definition TurnEvent (E : Env) (cfg : Config) (columns : Columns) (p : Participant)
    (ev : Event) : Prop :=
  match ev with
  | EvSleep _ => True
  | EvFilesList _ _ _ => truthy (folderId p) = false
  | EvPermissionsList f => FolderOf E p f
  | EvPermissionsCreate f e ro =>
      dryRun cfg = false /\ ro = "reader" /\ e = email p /\
      includes "@" e = true /\ FolderOf E p f
  | EvValuesUpdate row col value =>
      row = rowIndex p /\ CellWrite E columns p col value
  | EvWarn col row =>
      row = rowIndex p /\ exists value, CellWrite E columns p col value
  end.

(** ** Orders and ends *)

(** Every request to create a permission on a folder comes after a listing
    of the permissions of that folder. *)
Definition GrantsChecked (evs : list Event) : Prop :=
  forall before f e ro later,
    evs = before ++ EvPermissionsCreate f e ro :: later ->
    In (EvPermissionsList f) before.

(** [m] leaves its grants checked. *)
Definition Checked {A} (m : M A) : Prop :=
  forall w r, m w = Some r -> GrantsChecked (events r).

(** Not a request to create a permission. *)
Definition NoGrant (ev : Event) : Prop := isGrantCall ev = false.

(** A request to create a permission names the folder [f]. *)
Definition GrantOn (f : string) (ev : Event) : Prop :=
  match ev with
  | EvPermissionsCreate f' _ _ => f' = f
  | _ => True
  end.

(** [m] comes to an end from every world. *)
Definition Terminates {A} (m : M A) : Prop :=
  forall w, exists r, m w = Some r.

(** The values that [m] returns satisfy [V]. *)
Definition Returns {A} (V : A -> Prop) (m : M A) : Prop :=
  forall w r a, m w = Some r -> result r = Normal a -> V a.

Definition isErrorOutcome (o : Outcome) : bool :=
  match o with Error _ => true | _ => false end.

(** ** The write-backs of a turn *)

(** The writes to the sheet among the events, in order: row, column and
    value. *)
Fixpoint sheetWrites (evs : list Event) : list (Z * string * string) :=
  match evs with
  | [] => []
  | EvValuesUpdate row col value :: rest => (row, col, value) :: sheetWrites rest
  | _ :: rest => sheetWrites rest
  end.

(** The write of the folder id that was found, for a record without a
    cached FolderId. *)
Definition folderIdWrite (columns : Columns) (p : Participant) (f : string)
  : list (Z * string * string) :=
  if truthy (folderId p) then []
  else [(rowIndex p, colOr (folderIdCol columns) "C", f)].

(** The writes of a turn, by its outcome. *)
Definition TurnWrites (cfg : Config) (columns : Columns) (p : Participant)
    (o : Outcome) (ws : list (Z * string * string)) : Prop :=
  let row := rowIndex p in
  let shared := colOr (isSharedCol columns) "D" in
  let exists' := colOr (isFolderExistsCol columns) "E" in
  let log := colOr (lastLogCol columns) "F" in
  match o with
  | Skipped InvalidEmail =>
      exists ts, ws = [(row, shared, "FALSE");
                       (row, log, Render.invalidEmailLog ts (email p))]
  | Skipped Duplicate =>
      exists ts, ws = [(row, "F", Render.duplicateLog ts)]
  | Skipped AlreadyShared =>
      exists ts, ws = [(row, log, Render.alreadySharedLog ts)]
  | FolderNotFound =>
      exists ts, ws = [(row, exists', "FALSE");
                       (row, log, Render.folderNotFoundLog ts (nama p))]
  | AlreadyGranted =>
      exists ts f, truthy f = true /\
        ws = (row, exists', "TRUE") :: folderIdWrite columns p f
             ++ [(row, shared, "TRUE"); (row, log, Render.hasAccessLog ts "reader")]
  | Granted =>
      exists ts f, truthy f = true /\
        ws = (row, exists', "TRUE") :: folderIdWrite columns p f
             ++ [(row, shared, "TRUE");
                 (row, log, Render.grantedLog ts (if dryRun cfg then "DRY_RUN" else "GRANTED")
                                              "reader" (email p))]
  | Error e =>
      exists ts f, truthy f = true /\
        ws = (row, exists', "TRUE") :: folderIdWrite columns p f
             ++ [(row, shared, "FALSE"); (row, log, Render.errorLog ts e)]
  end.

(** The value that was sent last to a cell, if any was. *)
Fixpoint lastWritten (row : Z) (col : string) (ws : list (Z * string * string))
  : option string :=
  match ws with
  | [] => None
  | (r, c, v) :: rest =>
      match lastWritten row col rest with
      | Some later => Some later
      | None => if (r =? row) && (c =? col)%string then Some v else None
      end
  end.

(** What a turn leaves under isShared, by its outcome. *)
Definition sharedCellAfter (o : Outcome) : option string :=
  match o with
  | Granted | AlreadyGranted => Some "TRUE"
  | Error _ | Skipped InvalidEmail => Some "FALSE"
  | _ => None
  end.

(** ** More sample providers *)

Module Sample2.

(** The provider of [flatDrive] that refuses every request to create a
    grant as forbidden. *)
Definition lockedDrive : Env :=
  mkEnv (filesList Sample.flatDrive) (permissionsList Sample.flatDrive)
        (fun _ _ _ _ => Err Sample.forbidden)
        (valuesUpdate Sample.flatDrive)
        (mathRandom Sample.flatDrive) (clock Sample.flatDrive)
        (toLocaleString Sample.flatDrive).

(** The provider of [flatDrive] that answers every listing of child
    folders with a rate limit. *)
Definition jammedDrive : Env :=
  mkEnv (fun _ q _ _ =>
           match q with
           | ChildrenOf _ => Err Sample.rateLimited
           | NameContains _ => Ok (mkPage [] None)
           end)
        (permissionsList Sample.flatDrive) (permissionsCreate Sample.flatDrive)
        (valuesUpdate Sample.flatDrive)
        (mathRandom Sample.flatDrive) (clock Sample.flatDrive)
        (toLocaleString Sample.flatDrive).

(** The provider of [flatDrive] that lists the children of P in two
    pages. *)
Definition pagedDrive : Env :=
  mkEnv (fun _ q _ tok =>
           match q, tok with
           | ChildrenOf _, None => Ok (mkPage [mkFile "A" "Ann Lee"] (Some "t1"))
           | ChildrenOf _, Some _ => Ok (mkPage [mkFile "J" "Jane Doe"] None)
           | NameContains _, _ => Ok (mkPage [] None)
           end)
        (permissionsList Sample.flatDrive) (permissionsCreate Sample.flatDrive)
        (valuesUpdate Sample.flatDrive)
        (mathRandom Sample.flatDrive) (clock Sample.flatDrive)
        (toLocaleString Sample.flatDrive).

(** The provider of [flatDrive] that refuses every search. *)
Definition searchDown : Env :=
  mkEnv (fun _ _ _ _ => Err Sample.forbidden)
        (permissionsList Sample.flatDrive) (permissionsCreate Sample.flatDrive)
        (valuesUpdate Sample.flatDrive)
        (mathRandom Sample.flatDrive) (clock Sample.flatDrive)
        (toLocaleString Sample.flatDrive).

(** A sheet with the header Nama Peserta | E-Mail and one data row: the
    first request reads the header, the third one the rows. *)
Definition newSheet : Sheet.Api :=
  Sheet.mkApi
    (fun n _ _ =>
       match n with
       | O => Ok (Some [["Nama Peserta"; " E-Mail "]])
       | _ => Ok (Some [["Nama Peserta"; " E-Mail "; "FolderId"; "isShared";
                         "isFolderExists"; "LastLog"];
                        ["Jane Doe"; "jane@ex.com"]])
       end)
    (fun _ _ _ _ => Ok tt).

End Sample2.

(** * Properties *)

(** ** Letters and spaces above U+007F *)

(** toLowerCase lowers the capital letters from U+00C0 to U+00DE and leaves
    the multiplication sign (215), the sharp s (223) and the small letters
    as they are; trim strips the no-break space like the other spaces. *)
Lemma latin1_strings :
  toLowerCase Sample.emileUpper = Sample.emileLower /\
  toLowerCase Sample.emileLower = Sample.emileLower /\
  toLowerCase (String "192"%char (String "214"%char (String "216"%char
                 (String "222"%char ""))))
  = String "224"%char (String "246"%char (String "248"%char
                 (String "254"%char ""))) /\
  toLowerCase (String "215"%char (String "223"%char (String "255"%char "")))
  = String "215"%char (String "223"%char (String "255"%char "")) /\
  trim (Sample.nbsp ++ " a b " ++ Sample.nbsp)%string = "a b" /\
  trim Sample.nbsp = "".
Proof. repeat split. Qed.

(** The name in capital letters finds the folder of the name in small
    letters, and its email is found among the permissions in the other
    case. *)
Lemma latin1_names :
  (exists w' evs,
     findFolderByName Sample.accentDrive (Sample.config "P" false) 10
                      Sample.emileUpper "P" Sample.world0 =
     Some (mkRun (Normal (Some "E")) w' evs)) /\
  (exists w' evs,
     hasPermission Sample.accentDrive (Sample.config "P" false) 10
                   "E" (Sample.emileLower ++ "@ex.com")%string "reader" Sample.world0 =
     Some (mkRun (Normal true) w' evs)).
Proof.
  split; eexists; eexists; vm_compute; reflexivity.
Qed.

(** ** The sharding function *)

Lemma toUint32_range (x : Z) : 0 <= toUint32 x < 2 ^ 32.
Proof. unfold toUint32. apply Z.mod_pos_bound. lia. Qed.

Lemma hashKey_range (s : string) : 0 <= hashKey s < 2 ^ 32.
Proof. unfold hashKey. apply toUint32_range. Qed.

Lemma toInt32_mod (x : Z) : toInt32 x mod 2 ^ 32 = x mod 2 ^ 32.
Proof.
  unfold toInt32.
  rewrite <- Zminus_mod_idemp_l, Z.mod_mod by lia.
  rewrite Zminus_mod_idemp_l. f_equal. lia.
Qed.

Lemma shl5_mod (x : Z) : shl5 x mod 2 ^ 32 = (x * 32) mod 2 ^ 32.
Proof.
  unfold shl5. rewrite toInt32_mod, Z.shiftl_mul_pow2 by lia.
  change (2 ^ 5) with 32.
  rewrite <- Zmult_mod_idemp_l, toInt32_mod, Zmult_mod_idemp_l. reflexivity.
Qed.

Lemma hashLoop_djb2 (codes : list Z) :
  forall h h',
    h mod 2 ^ 32 = h' mod 2 ^ 32 ->
    hashLoop codes h mod 2 ^ 32 = djb2 codes h' mod 2 ^ 32.
Proof.
  induction codes as [|c rest IH]; intros h h' Hh; [exact Hh|].
  cbn [hashLoop djb2]. apply IH. rewrite toInt32_mod.
  replace (h' * 33 + c) with (h' * 32 + (h' + c)) by lia.
  rewrite <- !Z.add_assoc.
  rewrite <- Zplus_mod_idemp_l, shl5_mod, Zplus_mod_idemp_l.
  rewrite (Zplus_mod (h * 32) (h + c)), (Zplus_mod (h' * 32) (h' + c)).
  rewrite <- (Zmult_mod_idemp_l h), <- (Zmult_mod_idemp_l h').
  rewrite <- (Zplus_mod_idemp_l h c), <- (Zplus_mod_idemp_l h' c).
  rewrite Hh. reflexivity.
Qed.

(** hashKey is djb2 in 32 bits, as an unsigned number. *)
Lemma hashKey_djb2 (s : string) :
  hashKey s = djb2 (charCodes s) 5381 mod 2 ^ 32.
Proof. unfold hashKey, toUint32. apply hashLoop_djb2. reflexivity. Qed.

Lemma assignedShard_mod (shardTotal : Z) (p : Participant) :
  0 < shardTotal ->
  assignedShard shardTotal p = hashKey (shardKey p) mod shardTotal.
Proof.
  intros Hpos. unfold assignedShard.
  pose proof (hashKey_range (shardKey p)) as Hr.
  apply Z.rem_mod_nonneg; lia.
Qed.

Lemma assignedShard_range (shardTotal : Z) (p : Participant) :
  0 < shardTotal -> 0 <= assignedShard shardTotal p < shardTotal.
Proof.
  intros Hpos. rewrite assignedShard_mod by assumption.
  apply Z.mod_pos_bound. assumption.
Qed.

Lemma applySharding_In (shardTotal i : Z) (l : list Participant) (p : Participant) :
  0 < shardTotal ->
  In p (applySharding shardTotal i l) <-> In p l /\ assignedShard shardTotal p = i.
Proof.
  intros Hpos. unfold applySharding.
  replace (0 <? shardTotal) with true by (symmetry; apply Z.ltb_lt; assumption).
  rewrite filter_In. unfold inShard. rewrite Z.eqb_eq. tauto.
Qed.

Lemma shardIndices_In (shardTotal i : Z) :
  In i (shardIndices shardTotal) <-> 0 <= i < shardTotal.
Proof.
  unfold shardIndices. rewrite in_map_iff. split.
  - intros [n [Hn Hin]]. apply in_seq in Hin. lia.
  - intros Hi. exists (Z.to_nat i). split; [lia|]. apply in_seq. lia.
Qed.

Lemma shardIndices_NoDup (shardTotal : Z) : NoDup (shardIndices shardTotal).
Proof.
  unfold shardIndices. apply Finite.Injective_map_NoDup.
  - intros a b Hab. lia.
  - apply seq_NoDup.
Qed.

(** Adding a record to the input adds it to the shard that owns it and to
    no other. *)
Lemma shards_cons_absent (shardTotal : Z) (p : Participant) (l : list Participant)
    (idxs : list Z) :
  ~ In (assignedShard shardTotal p) idxs ->
  flat_map (fun i => filter (inShard shardTotal i) (p :: l)) idxs =
  flat_map (fun i => filter (inShard shardTotal i) l) idxs.
Proof.
  induction idxs as [|i idxs IH]; intros Hnot; [reflexivity|].
  cbn [flat_map]. rewrite IH by (intros Hin; apply Hnot; right; exact Hin).
  change (filter (inShard shardTotal i) (p :: l))
    with (if inShard shardTotal i p then p :: filter (inShard shardTotal i) l
          else filter (inShard shardTotal i) l).
  unfold inShard at 1.
  destruct (assignedShard shardTotal p =? i) eqn:Heq; [|reflexivity].
  apply Z.eqb_eq in Heq. exfalso. apply Hnot. left. symmetry. exact Heq.
Qed.

Lemma shards_cons_present (shardTotal : Z) (p : Participant) (l : list Participant)
    (idxs : list Z) :
  NoDup idxs ->
  In (assignedShard shardTotal p) idxs ->
  Permutation (flat_map (fun i => filter (inShard shardTotal i) (p :: l)) idxs)
              (p :: flat_map (fun i => filter (inShard shardTotal i) l) idxs).
Proof.
  induction idxs as [|i idxs IH]; intros Hnd Hin; [destruct Hin|].
  inversion Hnd as [|? ? Hni Hnd']; subst.
  cbn [flat_map].
  change (filter (inShard shardTotal i) (p :: l))
    with (if inShard shardTotal i p then p :: filter (inShard shardTotal i) l
          else filter (inShard shardTotal i) l).
  unfold inShard at 1.
  destruct (assignedShard shardTotal p =? i) eqn:Heq.
  - apply Z.eqb_eq in Heq.
    rewrite shards_cons_absent by (rewrite Heq; exact Hni).
    reflexivity.
  - apply Z.eqb_neq in Heq. destruct Hin as [Hin|Hin]; [congruence|].
    rewrite (IH Hnd' Hin). symmetry. apply Permutation_middle.
Qed.

Lemma shards_cover (shardTotal : Z) (l : list Participant) :
  0 < shardTotal ->
  Permutation
    (flat_map (fun i => filter (inShard shardTotal i) l) (shardIndices shardTotal)) l.
Proof.
  intros Hpos. induction l as [|p l IH].
  - induction (shardIndices shardTotal) as [|i idxs IHi]; [constructor|exact IHi].
  - rewrite shards_cons_present.
    + constructor. exact IH.
    + apply shardIndices_NoDup.
    + apply shardIndices_In. apply assignedShard_range. exact Hpos.
Qed.

(** C2. For every [shardTotal >= 1] the shard of a record is
    [hashKey key mod shardTotal], an index in [0, shardTotal); the subsets
    that the workers [0 .. shardTotal - 1] keep are pairwise disjoint,
    every record is in exactly one of them, together they are the whole
    list (as a permutation), and the shard depends on the key only. *)
Theorem sharding_partitions (shardTotal : Z) (normalized : list Participant)
    (Htotal : 1 <= shardTotal) :
  (forall p, shardKey p = if truthy (folderId p) then folderId p
                          else toLowerCase (nama p)) /\
  (forall p, assignedShard shardTotal p = hashKey (shardKey p) mod shardTotal /\
             0 <= assignedShard shardTotal p < shardTotal) /\
  (forall p i, In p (applySharding shardTotal i normalized) <->
               In p normalized /\ assignedShard shardTotal p = i) /\
  (forall p, In p normalized ->
     exists i, (0 <= i < shardTotal /\ In p (applySharding shardTotal i normalized)) /\
       forall j, In p (applySharding shardTotal j normalized) -> j = i) /\
  (forall i j p, i <> j ->
     In p (applySharding shardTotal i normalized) ->
     ~ In p (applySharding shardTotal j normalized)) /\
  Permutation
    (flat_map (fun i => applySharding shardTotal i normalized)
              (shardIndices shardTotal))
    normalized /\
  (forall p q, shardKey p = shardKey q ->
     assignedShard shardTotal p = assignedShard shardTotal q).
Proof.
  assert (Hpos : 0 < shardTotal) by lia.
  split; [reflexivity|].
  split; [intros p; split;
          [apply assignedShard_mod | apply assignedShard_range]; exact Hpos|].
  split; [intros p i; apply applySharding_In; exact Hpos|].
  split.
  { intros p Hin. exists (assignedShard shardTotal p). split.
    - split; [apply assignedShard_range; exact Hpos|].
      apply applySharding_In; [exact Hpos|]. split; [exact Hin|reflexivity].
    - intros j Hj. apply applySharding_In in Hj; [|exact Hpos].
      symmetry. apply Hj. }
  split.
  { intros i j p Hij Hi Hj.
    apply applySharding_In in Hi; [|exact Hpos].
    apply applySharding_In in Hj; [|exact Hpos].
    destruct Hi as [_ Hi]. destruct Hj as [_ Hj]. congruence. }
  split.
  { unfold applySharding.
    replace (0 <? shardTotal) with true by (symmetry; apply Z.ltb_lt; exact Hpos).
    apply shards_cover. exact Hpos. }
  intros p q Hk. unfold assignedShard. rewrite Hk. reflexivity.
Qed.

(** ** Rules for computations *)

Lemma finishes_ret {A} (a : A) (w : World) (Q : Run A -> Prop) :
  Q (mkRun (Normal a) w []) -> finishes (ret a) w Q.
Proof. intros HQ. exists (mkRun (Normal a) w []). split; [reflexivity|exact HQ]. Qed.

Lemma finishes_run {A} (m : M A) (w : World) (r0 : Run A) (Q : Run A -> Prop) :
  m w = Some r0 -> Q r0 -> finishes m w Q.
Proof. intros Hrun HQ. exists r0. split; assumption. Qed.

Lemma finishes_bind {A B} (m : M A) (k : A -> M B) (w : World) (Q : Run B -> Prop) :
  finishes m w (fun r =>
    match result r with
    | Throw e => Q (stopped r e)
    | Normal a => finishes (k a) (after r) (fun r' => Q (andThen r r'))
    end) ->
  finishes (bind m k) w Q.
Proof.
  intros [r [Hr HQ]]. unfold finishes, bind. rewrite Hr.
  destruct (result r) as [a|e].
  - destruct HQ as [r' [Hr' HQ']]. rewrite Hr'. eexists. split; [reflexivity|exact HQ'].
  - eexists. split; [reflexivity|exact HQ].
Qed.

Lemma finishes_tryCatch {A} (m : M A) (h : JsError -> M A) (w : World)
    (Q : Run A -> Prop) :
  finishes m w (fun r =>
    match result r with
    | Normal a => Q r
    | Throw e => finishes (h e) (after r) (fun r' => Q (andThen r r'))
    end) ->
  finishes (tryCatch m h) w Q.
Proof.
  intros [r [Hr HQ]]. unfold finishes, tryCatch. rewrite Hr.
  destruct (result r) as [a|e].
  - eexists. split; [reflexivity|exact HQ].
  - destruct HQ as [r' [Hr' HQ']]. rewrite Hr'. eexists. split; [reflexivity|exact HQ'].
Qed.

(** The converse rules: what a finished [bind] or [tryCatch] was made of. *)
Lemma bind_inv {A B} (m : M A) (k : A -> M B) (w : World) (r : Run B) :
  bind m k w = Some r ->
  exists r1, m w = Some r1 /\
    match result r1 with
    | Throw e => r = stopped r1 e
    | Normal a => exists r2, k a (after r1) = Some r2 /\ r = andThen r1 r2
    end.
Proof.
  unfold bind. destruct (m w) as [r1|]; [|discriminate].
  intros H. exists r1. split; [reflexivity|].
  destruct (result r1) as [a|e].
  - destruct (k a (after r1)) as [r2|]; [|discriminate].
    exists r2. split; [reflexivity|]. injection H as <-. reflexivity.
  - injection H as <-. reflexivity.
Qed.

Lemma tryCatch_inv {A} (m : M A) (h : JsError -> M A) (w : World) (r : Run A) :
  tryCatch m h w = Some r ->
  exists r1, m w = Some r1 /\
    match result r1 with
    | Normal a => r = r1
    | Throw e => exists r2, h e (after r1) = Some r2 /\ r = andThen r1 r2
    end.
Proof.
  unfold tryCatch. destruct (m w) as [r1|]; [|discriminate].
  intros H. exists r1. split; [reflexivity|].
  destruct (result r1) as [a|e].
  - injection H as <-. reflexivity.
  - destruct (h e (after r1)) as [r2|]; [|discriminate].
    exists r2. split; [reflexivity|]. injection H as <-. reflexivity.
Qed.

(** ** The primitive operations *)

Section Primitives.

Variable E : Env.
Variable cfg : Config.

Lemma dateNow_run (w : World) :
  dateNow E w = Some (mkRun (Normal (clock E (clockReads w))) (bumpClock w) []).
Proof. reflexivity. Qed.

Lemma randomBelow_run (k : Z) (w : World) :
  randomBelow E k w =
  Some (mkRun (Normal (mathRandom E (draws w) mod k)) (bumpDraws w) []).
Proof. reflexivity. Qed.

Lemma getCurrentTimestamp_run (w : World) :
  getCurrentTimestamp E w =
  Some (mkRun (Normal (toLocaleString E (clock E (clockReads w)))) (bumpClock w) []).
Proof. reflexivity. Qed.

Lemma sleep_run (ms : Z) (w : World) :
  sleep ms w = Some (mkRun (Normal tt) w [EvSleep ms]).
Proof. reflexivity. Qed.

(** throttle makes no request, leaves the locals alone and never throws. *)
Lemma throttle_run (w : World) :
  exists w' evs,
    throttle E cfg w = Some (mkRun (Normal tt) w' evs) /\
    requests w' = requests w /\ stats w' = stats w /\ seen w' = seen w /\
    ThrottleTrace evs.
Proof.
  unfold throttle, bind. rewrite dateNow_run. cbn.
  destruct (clock E (clockReads w) - lastApiCallAt w <? minDelay cfg) eqn:Hlt; cbn.
  - eexists. eexists. split; [reflexivity|]. cbn. repeat split.
    right. eexists. split; [|reflexivity].
    apply Z.ltb_lt in Hlt.
    pose proof (Z.mod_pos_bound (mathRandom E (draws w)) 400 ltac:(lia)). lia.
  - eexists. eexists. split; [reflexivity|]. cbn. repeat split. left. reflexivity.
Qed.

Lemma driveFilesList_run (q : Query) (pageSize : Z) (tok : option string) (w : World) :
  driveFilesList E q pageSize tok w =
  Some (mkRun (resultOfRes (filesList E (requests w) q pageSize tok))
              (bumpRequests w) [EvFilesList q pageSize tok]).
Proof.
  unfold driveFilesList, bind. cbn.
  destruct (filesList E (requests w) q pageSize tok); reflexivity.
Qed.

Lemma drivePermissionsList_run (fileId : string) (w : World) :
  drivePermissionsList E fileId w =
  Some (mkRun (resultOfRes (permissionsList E (requests w) fileId))
              (bumpRequests w) [EvPermissionsList fileId]).
Proof.
  unfold drivePermissionsList, bind. cbn.
  destruct (permissionsList E (requests w) fileId); reflexivity.
Qed.

Lemma drivePermissionsCreate_run (fileId email role : string) (w : World) :
  drivePermissionsCreate E fileId email role w =
  Some (mkRun (resultOfRes (permissionsCreate E (requests w) fileId email role))
              (bumpRequests w) [EvPermissionsCreate fileId email role]).
Proof.
  unfold drivePermissionsCreate, bind. cbn.
  destruct (permissionsCreate E (requests w) fileId email role); reflexivity.
Qed.

Lemma updateCell_run (row : Z) (col value : string) (w : World) :
  updateCell E row col value w =
  Some (mkRun (Normal tt) (bumpRequests w) (updateCellEvents E w row col value)).
Proof.
  unfold updateCell, tryCatch, sheetsValuesUpdate, bind, updateCellEvents. cbn.
  destruct (valuesUpdate E (requests w) row col value) as [[]|e]; reflexivity.
Qed.

End Primitives.

(** ** The retry loop *)

Section RetryFacts.

Context {A : Type}.
Variable E : Env.
Variable cfg : Config.
Variable maxAttempts : Z.
Variable op : string.
Variable ctx : ErrCtx.
Variable call : M A.
Variable respond : nat -> Res A.
Variable callEv : Event.

(** The call makes one request and completes as the provider answers. *)
Hypothesis call_run : forall w,
  call w = Some (mkRun (resultOfRes (respond (requests w))) (bumpRequests w) [callEv]).

Lemma throttled_call_run (w : World) :
  exists w' thr,
    (throttle E cfg ;;; call) w =
      Some (mkRun (resultOfRes (respond (requests w))) w' (thr ++ [callEv])) /\
    requests w' = S (requests w) /\ stats w' = stats w /\ seen w' = seen w /\
    ThrottleTrace thr.
Proof.
  destruct (throttle_run E cfg w) as [w1 [thr [Hthr [Hreq [Hst [Hseen Htr]]]]]].
  exists (bumpRequests w1), thr. unfold bind. rewrite Hthr. cbn.
  rewrite call_run. rewrite Hreq. cbn.
  repeat split; try assumption.
Qed.

(** With fuel for the attempts that remain, the loop ends after some
    number [k] of retried attempts: those failed with a retryable error
    below the ceiling, the next attempt succeeded or was not retried. *)
Lemma retryLoop_finishes (fuel : nat) : forall (attempt : Z) (w : World),
  (1 <= fuel)%nat -> maxAttempts - attempt <= Z.of_nat fuel ->
  exists (k : nat) (w' : World) (retried : list (list Event * Z)) (last : list Event),
    retryLoop E cfg fuel maxAttempts op ctx call attempt w =
      Some (mkRun (finalResult op ctx (respond (requests w + k)))
                  w' (retryTrace callEv (attempt + 1) retried last)) /\
    List.length retried = k /\ Forall RetriedOk retried /\ ThrottleTrace last /\
    (forall i, (i < k)%nat ->
       exists e, respond (requests w + i) = Err e /\ isRetryableRateLimit e = true) /\
    (k = 0%nat \/ attempt + Z.of_nat k < maxAttempts) /\
    match respond (requests w + k) with
    | Ok _ => True
    | Err e => isRetryableRateLimit e = false \/ maxAttempts <= attempt + Z.of_nat k + 1
    end /\
    requests w' = S (requests w + k) /\ stats w' = stats w /\ seen w' = seen w.
Proof.
  induction fuel as [|fuel' IH]; intros attempt w Hpos Hfuel; [lia|].
  destruct (throttled_call_run w) as [w1 [thr [Hrun [Hreq [Hst [Hseen Hthr]]]]]].
  cbn [retryLoop]. unfold tryCatch. rewrite Hrun. cbn [result after events].
  destruct (respond (requests w)) as [a|e] eqn:Hans; cbn [resultOfRes].
  - exists 0%nat, w1, [], thr. rewrite Nat.add_0_r, Hans.
    split; [reflexivity|]. split; [reflexivity|]. split; [constructor|].
    split; [exact Hthr|]. split; [intros i Hi; lia|].
    split; [left; reflexivity|]. split; [exact I|].
    split; [exact Hreq|]. split; assumption.
  - destruct (isRetryableRateLimit e && (attempt + 1 <? maxAttempts)) eqn:Hretry.
    + apply andb_true_iff in Hretry. destruct Hretry as [Hre Hlt].
      apply Z.ltb_lt in Hlt.
      unfold bind at 1. rewrite randomBelow_run. cbn [result after events].
      unfold bind at 1. rewrite sleep_run. cbn [result after events].
      destruct (IH (attempt + 1) (bumpDraws w1) ltac:(lia) ltac:(lia))
        as [k [w' [retried [last [Hloop [Hlen [Hok [Hlast [Hfail [Hk [Hfin [Hreq' [Hst' Hseen']]]]]]]]]]]]].
      rewrite Hloop. cbn [result after events].
      assert (Hidx : forall j, (requests (bumpDraws w1) + j)%nat = (requests w + S j)%nat).
      { intros j. cbn. rewrite Hreq. lia. }
      exists (S k), w', ((thr, mathRandom E (draws w1) mod 500) :: retried), last.
      rewrite <- Hidx.
      split.
      { f_equal. f_equal. cbn [retryTrace app]. rewrite <- app_assoc. reflexivity. }
      split; [cbn; rewrite Hlen; reflexivity|].
      split.
      { constructor; [|exact Hok]. split; [exact Hthr|]. cbn.
        apply Z.mod_pos_bound. lia. }
      split; [exact Hlast|].
      split.
      { intros i Hi. destruct i as [|i].
        - exists e. rewrite Nat.add_0_r. split; assumption.
        - rewrite <- Hidx. apply Hfail. lia. }
      split; [right; destruct Hk as [Hk|Hk]; lia|].
      split.
      { destruct (respond (requests (bumpDraws w1) + k)); [exact I|].
        destruct Hfin as [Hfin|Hfin]; [left; exact Hfin|right; lia]. }
      split; [rewrite Hreq', Hidx; reflexivity|].
      split; [rewrite Hst'; exact Hst|rewrite Hseen'; exact Hseen].
    + exists 0%nat, w1, [], thr. rewrite Nat.add_0_r, Hans.
      split; [cbn; rewrite app_nil_r; reflexivity|].
      split; [reflexivity|]. split; [constructor|].
      split; [exact Hthr|]. split; [intros i Hi; lia|].
      split; [left; reflexivity|].
      split.
      { apply andb_false_iff in Hretry. destruct Hretry as [Hre|Hlt].
        - left. exact Hre.
        - right. apply Z.ltb_ge in Hlt. lia. }
      split; [exact Hreq|]. split; assumption.
Qed.

(** Whatever the loop throws carries [op] and [ctx], and the call was made. *)
Lemma retryLoop_throws (fuel : nat) : forall (attempt : Z) (w : World) (r : Run A),
  retryLoop E cfg fuel maxAttempts op ctx call attempt w = Some r ->
  In callEv (events r) /\
  forall e, result r = Throw e -> __op e = Some op /\ __ctx e = Some ctx.
Proof.
  induction fuel as [|fuel' IH]; intros attempt w r H; [discriminate|].
  destruct (throttled_call_run w) as [w1 [thr [Hrun _]]].
  cbn [retryLoop] in H. unfold tryCatch in H. rewrite Hrun in H.
  cbn [result after events] in H.
  assert (Hin : In callEv (thr ++ [callEv])) by (apply in_or_app; right; left; reflexivity).
  destruct (respond (requests w)) as [a|e0]; cbn [resultOfRes] in H.
  - injection H as <-. cbn. split; [exact Hin|]. intros e He. discriminate.
  - destruct (isRetryableRateLimit e0 && (attempt + 1 <? maxAttempts)).
    + unfold bind at 1 in H. rewrite randomBelow_run in H. cbn [result after events] in H.
      unfold bind at 1 in H. rewrite sleep_run in H. cbn [result after events] in H.
      destruct (retryLoop E cfg fuel' maxAttempts op ctx call (attempt + 1) (bumpDraws w1))
        as [r'|] eqn:Hrec; [|discriminate].
      destruct (IH _ _ _ Hrec) as [_ Hthrow].
      cbn [result after events] in H. injection H as <-. cbn.
      split; [apply in_or_app; left; exact Hin|exact Hthrow].
    + injection H as <-. cbn. split; [apply in_or_app; left; exact Hin|].
      intros e He. injection He as <-. split; reflexivity.
Qed.

Hypothesis call_not_pause : sleptMs [callEv] = 0.

Lemma sleptMs_app (l1 l2 : list Event) :
  sleptMs (l1 ++ l2) = sleptMs l1 + sleptMs l2.
Proof.
  induction l1 as [|ev l1 IH]; [reflexivity|].
  destruct ev; cbn [app sleptMs]; rewrite IH; lia.
Qed.

Lemma throttleTrace_slept (thr : list Event) :
  ThrottleTrace thr -> 0 <= sleptMs thr.
Proof.
  intros [->|[ms [Hms ->]]]; cbn; lia.
Qed.

Lemma retryTrace_slept (retried : list (list Event * Z)) (last : list Event) :
  forall attempt,
    Forall RetriedOk retried -> ThrottleTrace last ->
    backoffTotal attempt (List.length retried)
      <= sleptMs (retryTrace callEv attempt retried last).
Proof.
  induction retried as [|[thr j] rest IH]; intros attempt Hok Hlast.
  - cbn [retryTrace List.length backoffTotal]. rewrite sleptMs_app, call_not_pause.
    pose proof (throttleTrace_slept last Hlast). lia.
  - inversion Hok as [|? ? [Hthr Hj] Hrest]; subst. cbn in Hthr, Hj.
    cbn [retryTrace List.length backoffTotal].
    rewrite sleptMs_app.
    change ([callEv; EvSleep (backoffBase attempt + j)]
              ++ retryTrace callEv (attempt + 1) rest last)
      with ([callEv] ++ EvSleep (backoffBase attempt + j)
              :: retryTrace callEv (attempt + 1) rest last).
    rewrite sleptMs_app, call_not_pause. cbn [sleptMs].
    pose proof (throttleTrace_slept thr Hthr).
    pose proof (IH (attempt + 1) Hrest Hlast). lia.
Qed.

Lemma retryLoop_contract :
  1 <= maxAttempts ->
  RetryContract maxAttempts op ctx callEv respond
    (fun fuel => retryLoop E cfg fuel maxAttempts op ctx call 0).
Proof.
  intros HN fuel w k Hfuel Hk Hfail.
  destruct (retryLoop_finishes fuel 0 w ltac:(lia) ltac:(lia))
    as [k' [w' [retried [last [Hloop [Hlen [Hok [Hlast [Hfail' [Hk' [Hfin [Hreq _]]]]]]]]]]]].
  assert (Hle : (k <= k')%nat).
  { destruct (Nat.le_gt_cases k k') as [Hle|Hgt]; [exact Hle|exfalso].
    destruct (Hfail k' Hgt) as [e [He Hre]]. rewrite He in Hfin.
    destruct Hfin as [Hfin|Hfin]; [congruence|lia]. }
  split.
  - intros a Ha.
    assert (k' = k).
    { destruct (Nat.eq_dec k' k) as [Heq|Hne]; [exact Heq|exfalso].
      destruct (Hfail' k ltac:(lia)) as [e [He _]]. congruence. }
    subst k. rewrite Ha in Hloop. exists w', retried, last.
    split; [exact Hloop|]. split; [exact Hlen|]. split; [exact Hok|].
    split; [exact Hlast|]. split; [lia|].
    rewrite <- Hlen. apply retryTrace_slept; assumption.
  - intros e HkN He Hre.
    assert (k' = k) by (destruct Hk' as [Hk'|Hk']; lia).
    subst k. rewrite He in Hloop. exists w', retried, last.
    split; [exact Hloop|]. split; [reflexivity|]. split; [reflexivity|].
    split; [exact Hlen|]. split; [exact Hok|]. split; [exact Hlast|]. lia.
Qed.

End RetryFacts.

(** ** The three retry-wrapped operations *)

Section Operations.

Variable E : Env.
Variable cfg : Config.

Lemma globalSearchCall_run (targetName : string) (w : World) :
  (response <- driveFilesList E (NameContains targetName) 10 None ;;
   ret (exactMatchId (toLowerCase targetName) response)) w =
  Some (mkRun
          (resultOfRes (mapRes (exactMatchId (toLowerCase targetName))
                               (filesList E (requests w) (NameContains targetName) 10 None)))
          (bumpRequests w) [EvFilesList (NameContains targetName) 10 None]).
Proof.
  unfold bind. rewrite driveFilesList_run. cbn [result after events].
  destruct (filesList E (requests w) (NameContains targetName) 10 None); reflexivity.
Qed.

Lemma permissionsListCall_run (fileId email role : string) (w : World) :
  (permissions <- drivePermissionsList E fileId ;;
   ret (existsb (permissionMatches email role) permissions)) w =
  Some (mkRun
          (resultOfRes (mapRes (existsb (permissionMatches email role))
                               (permissionsList E (requests w) fileId)))
          (bumpRequests w) [EvPermissionsList fileId]).
Proof.
  unfold bind. rewrite drivePermissionsList_run. cbn [result after events].
  destruct (permissionsList E (requests w) fileId); reflexivity.
Qed.

Lemma permissionsCreateCall_run (fileId email role : string) (w : World) :
  (data <- drivePermissionsCreate E fileId email role ;; ret (Created data)) w =
  Some (mkRun
          (resultOfRes (mapRes Created
                               (permissionsCreate E (requests w) fileId email role)))
          (bumpRequests w) [EvPermissionsCreate fileId email role]).
Proof.
  unfold bind. rewrite drivePermissionsCreate_run. cbn [result after events].
  destruct (permissionsCreate E (requests w) fileId email role); reflexivity.
Qed.

(** C4. Each retry-wrapped operation keeps the retry contract with its
    ceiling: 5 attempts for the global folder search and for the listing
    of permissions, 6 for the creation of a grant.  After [k] retryable
    failures below the ceiling a success is returned after [k + 1]
    attempts, with a pause of [min 60000 (2^n * 1000)] ms plus a jitter
    in [0, 500) after the failed attempt [n]; when the attempt that
    reaches the ceiling fails too, the error is thrown with the name of
    the operation and its context attached. *)
Theorem retry_policy :
  (forall targetName,
     RetryContract 5 "drive.files.list"
       (CtxQuery (renderQuery (NameContains targetName)))
       (EvFilesList (NameContains targetName) 10 None)
       (fun n => mapRes (exactMatchId (toLowerCase targetName))
                        (filesList E n (NameContains targetName) 10 None))
       (fun fuel => globalSearchLoop E cfg fuel targetName)) /\
  (forall fileId email role,
     RetryContract 5 "drive.permissions.list"
       (CtxPermission fileId email role)
       (EvPermissionsList fileId)
       (fun n => mapRes (existsb (permissionMatches email role))
                        (permissionsList E n fileId))
       (fun fuel => hasPermissionLoop E cfg fuel fileId email role)) /\
  (dryRun cfg = false ->
   forall fileId email,
     RetryContract 6 "drive.permissions.create"
       (CtxPermission fileId email "reader")
       (EvPermissionsCreate fileId email "reader")
       (fun n => mapRes Created (permissionsCreate E n fileId email "reader"))
       (fun fuel => grantPermission E cfg fuel fileId email)) /\
  (forall n, backoffBase n = Z.min 60000 (2 ^ n * 1000)).
Proof.
  split; [|split; [|split]].
  - intros targetName. unfold globalSearchLoop.
    apply retryLoop_contract; [apply globalSearchCall_run|reflexivity|lia].
  - intros fileId email role. unfold hasPermissionLoop.
    apply retryLoop_contract; [apply permissionsListCall_run|reflexivity|lia].
  - intros Hwet fileId email. unfold grantPermission. rewrite Hwet.
    apply retryLoop_contract; [apply permissionsCreateCall_run|reflexivity|lia].
  - reflexivity.
Qed.

End Operations.

(** ** hasPermission *)

Section HasPermission.

Variable E : Env.
Variable cfg : Config.

Lemma permissionMatches_spec (email role : string) (p : Permission) :
  permissionMatches email role p = true ->
  exists a, emailAddress p = Some a /\
            toLowerCase a = toLowerCase email /\ perm_role p = role.
Proof.
  unfold permissionMatches. destruct (emailAddress p) as [a|]; [|discriminate].
  intros H. apply andb_true_iff in H. destruct H as [H Hrole].
  apply andb_true_iff in H. destruct H as [_ Hmail].
  exists a. split; [reflexivity|].
  split; [apply String.eqb_eq; exact Hmail|apply String.eqb_eq; exact Hrole].
Qed.

(** What hasPermission answers, from the provider's answer to its last
    listing. *)
Lemma hasPermission_run (fuel : nat) (fileId email role : string) (w : World) :
  (5 <= fuel)%nat ->
  exists (k : nat) (w' : World) (evs : list Event),
    hasPermission E cfg fuel fileId email role w =
      Some (mkRun (Normal
                     match permissionsList E (requests w + k) fileId with
                     | Ok permissions =>
                         existsb (permissionMatches email role) permissions
                     | Err _ => false
                     end) w' evs) /\
    (k < 5)%nat /\ requests w' = S (requests w + k) /\
    stats w' = stats w /\ seen w' = seen w /\
    (forall i, (i < k)%nat ->
       exists e, permissionsList E (requests w + i) fileId = Err e /\
                 isRetryableRateLimit e = true) /\
    match permissionsList E (requests w + k) fileId with
    | Ok _ => True
    | Err e => isRetryableRateLimit e = false \/ k = 4%nat
    end.
Proof.
  intros Hfuel.
  destruct (retryLoop_finishes E cfg 5 "drive.permissions.list"
              (CtxPermission fileId email role) _
              (fun n => mapRes (existsb (permissionMatches email role))
                               (permissionsList E n fileId))
              _ (permissionsListCall_run E fileId email role) fuel 0 w
              ltac:(lia) ltac:(lia))
    as [k [w' [retried [last [Hloop [Hlen [Hok [Hlast [Hfail [Hk [Hfin [Hreq [Hst Hseen]]]]]]]]]]]]].
  fold (hasPermissionLoop E cfg fuel fileId email role) in Hloop.
  assert (Hk5 : (k < 5)%nat) by (destruct Hk as [Hk|Hk]; lia).
  assert (Hfail' : forall i, (i < k)%nat ->
            exists e, permissionsList E (requests w + i) fileId = Err e /\
                      isRetryableRateLimit e = true).
  { intros i Hi. destruct (Hfail i Hi) as [e [He Hre]].
    destruct (permissionsList E (requests w + i) fileId) as [ps|e']; [discriminate|].
    exists e'. cbn in He. injection He as <-. split; [reflexivity|exact Hre]. }
  unfold hasPermission, tryCatch. rewrite Hloop. cbn [result after events].
  destruct (permissionsList E (requests w + k) fileId) as [ps|e] eqn:Hans;
    cbn [mapRes finalResult] in *.
  - exists k, w', (retryTrace (EvPermissionsList fileId) (0 + 1) retried last).
    rewrite Hans.
    split; [reflexivity|]. split; [exact Hk5|]. split; [exact Hreq|].
    split; [exact Hst|]. split; [exact Hseen|]. split; [exact Hfail'|exact I].
  - exists k, w', (retryTrace (EvPermissionsList fileId) (0 + 1) retried last ++ []).
    rewrite Hans.
    split; [reflexivity|]. split; [exact Hk5|]. split; [exact Hreq|].
    split; [exact Hst|]. split; [exact Hseen|]. split; [exact Hfail'|].
    destruct Hfin as [Hfin|Hfin]; [left; exact Hfin|right; lia].
Qed.

End HasPermission.

(** ** What a computation may touch and emit *)

Section ObeysRules.

Variable R : World -> World -> Prop.
Variable P : Event -> Prop.
Hypothesis R_refl : forall w, R w w.
Hypothesis R_trans : forall w1 w2 w3, R w1 w2 -> R w2 w3 -> R w1 w3.

Lemma obeys_ret {A} (a : A) : Obeys R P (ret a).
Proof.
  intros w r H. injection H as <-. split; [apply R_refl|constructor].
Qed.

Lemma obeys_throw {A} (e : JsError) : Obeys R P (@throw A e).
Proof.
  intros w r H. injection H as <-. split; [apply R_refl|constructor].
Qed.

Lemma obeys_outOfFuel {A} : Obeys R P (@outOfFuel A).
Proof. intros w r H. discriminate. Qed.

Lemma obeys_bind {A B} (m : M A) (k : A -> M B) :
  Obeys R P m -> (forall a, Obeys R P (k a)) -> Obeys R P (bind m k).
Proof.
  intros Hm Hk w r H. apply bind_inv in H. destruct H as [r1 [Hr1 H]].
  destruct (Hm w r1 Hr1) as [HR1 HP1].
  destruct (result r1) as [a|e].
  - destruct H as [r2 [Hr2 ->]]. destruct (Hk a _ _ Hr2) as [HR2 HP2].
    split; [eapply R_trans; eassumption|].
    cbn. apply Forall_app. split; assumption.
  - subst r. split; assumption.
Qed.

Lemma obeys_tryCatch {A} (m : M A) (h : JsError -> M A) :
  Obeys R P m -> (forall e, Obeys R P (h e)) -> Obeys R P (tryCatch m h).
Proof.
  intros Hm Hh w r H. apply tryCatch_inv in H. destruct H as [r1 [Hr1 H]].
  destruct (Hm w r1 Hr1) as [HR1 HP1].
  destruct (result r1) as [a|e].
  - subst r. split; assumption.
  - destruct H as [r2 [Hr2 ->]]. destruct (Hh e _ _ Hr2) as [HR2 HP2].
    split; [eapply R_trans; eassumption|].
    cbn. apply Forall_app. split; assumption.
Qed.

Lemma obeys_attempt {A} (m : M A) : Obeys R P m -> Obeys R P (attempt m).
Proof.
  intros Hm. unfold attempt. apply obeys_tryCatch.
  - apply obeys_bind; [exact Hm|]. intros a. apply obeys_ret.
  - intros e. apply obeys_ret.
Qed.

Lemma obeys_if {A} (b : bool) (m1 m2 : M A) :
  Obeys R P m1 -> Obeys R P m2 -> Obeys R P (if b then m1 else m2).
Proof. destruct b; intros; assumption. Qed.

End ObeysRules.

Lemma sameLocals_refl (w : World) : sameLocals w w.
Proof. split; reflexivity. Qed.

Lemma sameLocals_trans (w1 w2 w3 : World) :
  sameLocals w1 w2 -> sameLocals w2 w3 -> sameLocals w1 w3.
Proof. intros [H1 H2] [H3 H4]. split; congruence. Qed.

(** Closes the side conditions of the rules: the relation is reflexive and
    transitive. *)
Ltac obeys_side :=
  solve [ exact sameLocals_refl | exact sameLocals_trans | intros; exact I ].

(** Applies a rule and closes its side conditions. *)
Ltac obeys_rule lem := apply lem; try obeys_side.

Section EngineObeys.

Variable E : Env.
Variable cfg : Config.
Variable P : Event -> Prop.

Lemma dateNow_obeys : Obeys sameLocals P (dateNow E).
Proof.
  intros w r H. rewrite dateNow_run in H. injection H as <-.
  split; [split; reflexivity|constructor].
Qed.

Lemma randomBelow_obeys (k : Z) : Obeys sameLocals P (randomBelow E k).
Proof.
  intros w r H. rewrite randomBelow_run in H. injection H as <-.
  split; [split; reflexivity|constructor].
Qed.

Hypothesis pauses_ok : forall ms, P (EvSleep ms).

Lemma sleep_obeys (ms : Z) : Obeys sameLocals P (sleep ms).
Proof.
  intros w r H. rewrite sleep_run in H. injection H as <-.
  split; [split; reflexivity|constructor; [apply pauses_ok|constructor]].
Qed.

Lemma throttle_obeys : Obeys sameLocals P (throttle E cfg).
Proof.
  intros w r H.
  destruct (throttle_run E cfg w) as [w' [evs [Hrun [_ [Hst [Hseen Htr]]]]]].
  rewrite Hrun in H. injection H as <-. cbn.
  split; [split; assumption|].
  destruct Htr as [->|[ms [_ ->]]]; [constructor|].
  constructor; [apply pauses_ok|constructor].
Qed.

Lemma retryLoop_obeys {A} (maxAttempts : Z) (op : string) (ctx : ErrCtx)
    (call : M A) (fuel : nat) :
  Obeys sameLocals P call ->
  forall attempt,
    Obeys sameLocals P (retryLoop E cfg fuel maxAttempts op ctx call attempt).
Proof.
  intros Hcall. induction fuel as [|fuel' IH]; intros attempt; cbn [retryLoop].
  - apply obeys_outOfFuel.
  - obeys_rule @obeys_tryCatch.
    + obeys_rule @obeys_bind; [apply throttle_obeys|intros _; exact Hcall].
    + intros e. apply obeys_if.
      * obeys_rule @obeys_bind; [apply randomBelow_obeys|].
        intros j. obeys_rule @obeys_bind; [apply sleep_obeys|].
        intros _. apply IH.
      * obeys_rule @obeys_throw.
Qed.

End EngineObeys.

(** ** Rules for runs that come to an end *)

Lemma ensures_ret {A} (a : A) (w : World) (Q : Run A -> Prop) :
  Q (mkRun (Normal a) w []) -> ensures (ret a) w Q.
Proof. intros HQ r H. injection H as <-. exact HQ. Qed.

Lemma ensures_run {A} (m : M A) (w : World) (r0 : Run A) (Q : Run A -> Prop) :
  m w = Some r0 -> Q r0 -> ensures m w Q.
Proof. intros Hrun HQ r H. rewrite Hrun in H. injection H as <-. exact HQ. Qed.

Lemma ensures_bind {A B} (m : M A) (k : A -> M B) (w : World) (Q : Run B -> Prop) :
  ensures m w (fun r =>
    match result r with
    | Throw e => Q (stopped r e)
    | Normal a => ensures (k a) (after r) (fun r' => Q (andThen r r'))
    end) ->
  ensures (bind m k) w Q.
Proof.
  intros Hm r H. apply bind_inv in H. destruct H as [r1 [Hr1 H]].
  specialize (Hm r1 Hr1). cbv beta in Hm.
  destruct (result r1) as [a|e].
  - destruct H as [r2 [Hr2 ->]]. apply Hm. exact Hr2.
  - subst r. exact Hm.
Qed.

Lemma ensures_tryCatch {A} (m : M A) (h : JsError -> M A) (w : World)
    (Q : Run A -> Prop) :
  ensures m w (fun r =>
    match result r with
    | Normal a => Q r
    | Throw e => ensures (h e) (after r) (fun r' => Q (andThen r r'))
    end) ->
  ensures (tryCatch m h) w Q.
Proof.
  intros Hm r H. apply tryCatch_inv in H. destruct H as [r1 [Hr1 H]].
  specialize (Hm r1 Hr1). cbv beta in Hm.
  destruct (result r1) as [a|e].
  - subst r. exact Hm.
  - destruct H as [r2 [Hr2 ->]]. apply Hm. exact Hr2.
Qed.

(** A computation that obeys [R] and [P] and never throws, as a rule. *)
Lemma ensures_call {A} (R : World -> World -> Prop) (P : Event -> Prop)
    (m : M A) (w : World) (Q : Run A -> Prop) :
  Obeys R P m -> NoThrow m ->
  (forall a w' evs, R w w' -> Forall P evs -> Q (mkRun (Normal a) w' evs)) ->
  ensures m w Q.
Proof.
  intros Hob Hnt HQ r Hr.
  destruct (Hob w r Hr) as [HR HP]. destruct (Hnt w r Hr) as [a Ha].
  destruct r as [res w' evs]. cbn in *. subst res. apply HQ; assumption.
Qed.

Lemma ensures_call_throwing {A} (R : World -> World -> Prop) (P : Event -> Prop)
    (m : M A) (w : World) (Q : Run A -> Prop) :
  Obeys R P m ->
  (forall res w' evs, R w w' -> Forall P evs -> Q (mkRun res w' evs)) ->
  ensures m w Q.
Proof.
  intros Hob HQ r Hr. destruct (Hob w r Hr) as [HR HP].
  destruct r as [res w' evs]. apply HQ; assumption.
Qed.

(** *** Computations that never throw *)

Lemma noThrow_ret {A} (a : A) : NoThrow (ret a).
Proof. intros w r H. injection H as <-. exists a. reflexivity. Qed.

Lemma noThrow_outOfFuel {A} : NoThrow (@outOfFuel A).
Proof. intros w r H. discriminate. Qed.

Lemma noThrow_bind {A B} (m : M A) (k : A -> M B) :
  NoThrow m -> (forall a, NoThrow (k a)) -> NoThrow (bind m k).
Proof.
  intros Hm Hk w r H. apply bind_inv in H. destruct H as [r1 [Hr1 H]].
  destruct (Hm w r1 Hr1) as [a Ha]. rewrite Ha in H.
  destruct H as [r2 [Hr2 ->]]. cbn. apply (Hk a _ _ Hr2).
Qed.

Lemma noThrow_tryCatch {A} (m : M A) (h : JsError -> M A) :
  (forall e, NoThrow (h e)) -> NoThrow (tryCatch m h).
Proof.
  intros Hh w r H. apply tryCatch_inv in H. destruct H as [r1 [Hr1 H]].
  destruct (result r1) as [a|e] eqn:Hres.
  - subst r. exists a. exact Hres.
  - destruct H as [r2 [Hr2 ->]]. cbn. apply (Hh e _ _ Hr2).
Qed.

Lemma noThrow_attempt {A} (m : M A) : NoThrow (attempt m).
Proof. unfold attempt. apply noThrow_tryCatch. intros e. apply noThrow_ret. Qed.

Lemma noThrow_emit (ev : Event) : NoThrow (emit ev).
Proof. intros w r H. injection H as <-. exists tt. reflexivity. Qed.

(** ** What the operations of the engine touch and emit *)

Section EngineFacts.

Variable E : Env.
Variable cfg : Config.

Lemma driveFilesList_obeys (q : Query) (pageSize : Z) (tok : option string) :
  Obeys sameLocals ResolutionEvent (driveFilesList E q pageSize tok).
Proof.
  intros w r H. rewrite driveFilesList_run in H. injection H as <-.
  split; [split; reflexivity|]. constructor; [right; reflexivity|constructor].
Qed.

Lemma resolution_pause (ms : Z) : ResolutionEvent (EvSleep ms).
Proof. left. reflexivity. Qed.

Lemma check_pause (ms : Z) : CheckEvent (EvSleep ms).
Proof. left. reflexivity. Qed.

Lemma grant_pause (fileId email : string) (ms : Z) :
  GrantEvent fileId email (EvSleep ms).
Proof. left. reflexivity. Qed.

Lemma globalSearch_obeys (fuel : nat) (targetName : string) :
  Obeys sameLocals ResolutionEvent (globalSearch E cfg fuel targetName).
Proof.
  unfold globalSearch, globalSearchLoop.
  obeys_rule @obeys_tryCatch.
  - apply retryLoop_obeys; [apply resolution_pause|].
    obeys_rule @obeys_bind; [apply driveFilesList_obeys|].
    intros a. obeys_rule @obeys_ret.
  - intros e. obeys_rule @obeys_ret.
Qed.

Lemma globalSearch_noThrow (fuel : nat) (targetName : string) :
  NoThrow (globalSearch E cfg fuel targetName).
Proof.
  unfold globalSearch. apply noThrow_tryCatch. intros e. apply noThrow_ret.
Qed.

Lemma listSubfoldersFrom_obeys (fuel : nat) (parentId : string) :
  forall all tok,
    Obeys sameLocals ResolutionEvent (listSubfoldersFrom E cfg fuel parentId all tok).
Proof.
  induction fuel as [|fuel' IH]; intros all tok; cbn [listSubfoldersFrom].
  - apply obeys_outOfFuel.
  - obeys_rule @obeys_bind; [apply throttle_obeys; apply resolution_pause|].
    intros _. obeys_rule @obeys_bind; [apply driveFilesList_obeys|].
    intros res. destruct (nextToken res); [apply IH|obeys_rule @obeys_ret].
Qed.

Lemma bfsLoop_obeys (fuel : nat) (targetLower : string) :
  forall queue, Obeys sameLocals ResolutionEvent (bfsLoop E cfg fuel targetLower queue).
Proof.
  induction fuel as [|fuel' IH]; intros queue; cbn [bfsLoop].
  - apply obeys_outOfFuel.
  - destruct queue as [|current queue]; [obeys_rule @obeys_ret|].
    destruct (depth current >? maxDepth); [apply IH|].
    obeys_rule @obeys_bind.
    + obeys_rule @obeys_attempt. apply listSubfoldersFrom_obeys.
    + intros [children|err].
      * destruct (find (nameMatches targetLower) children);
          [obeys_rule @obeys_ret|apply IH].
      * destruct (isRetryableRateLimit err); [|apply IH].
        obeys_rule @obeys_bind; [apply sleep_obeys; apply resolution_pause|].
        intros _. apply IH.
Qed.

Lemma bfsLoop_noThrow (fuel : nat) (targetLower : string) :
  forall queue, NoThrow (bfsLoop E cfg fuel targetLower queue).
Proof.
  induction fuel as [|fuel' IH]; intros queue; cbn [bfsLoop].
  - apply noThrow_outOfFuel.
  - destruct queue as [|current queue]; [apply noThrow_ret|].
    destruct (depth current >? maxDepth); [apply IH|].
    apply noThrow_bind; [apply noThrow_attempt|].
    intros [children|err].
    + destruct (find (nameMatches targetLower) children);
        [apply noThrow_ret|apply IH].
    + destruct (isRetryableRateLimit err); [|apply IH].
      apply noThrow_bind; [apply noThrow_emit|]. intros _. apply IH.
Qed.

Lemma findFolderByName_obeys (fuel : nat) (name parent : string) :
  Obeys sameLocals ResolutionEvent (findFolderByName E cfg fuel name parent).
Proof.
  unfold findFolderByName.
  destruct (negb (truthy name)); [obeys_rule @obeys_ret|].
  destruct (negb (truthy parent)); [apply globalSearch_obeys|apply bfsLoop_obeys].
Qed.

Lemma findFolderByName_noThrow (fuel : nat) (name parent : string) :
  NoThrow (findFolderByName E cfg fuel name parent).
Proof.
  unfold findFolderByName.
  destruct (negb (truthy name)); [apply noThrow_ret|].
  destruct (negb (truthy parent)); [apply globalSearch_noThrow|apply bfsLoop_noThrow].
Qed.

Lemma hasPermission_obeys (fuel : nat) (fileId email role : string) :
  Obeys sameLocals CheckEvent (hasPermission E cfg fuel fileId email role).
Proof.
  unfold hasPermission, hasPermissionLoop.
  obeys_rule @obeys_tryCatch.
  - apply retryLoop_obeys; [apply check_pause|].
    obeys_rule @obeys_bind.
    + intros w r H. rewrite drivePermissionsList_run in H. injection H as <-.
      split; [split; reflexivity|]. constructor; [right; reflexivity|constructor].
    + intros a. obeys_rule @obeys_ret.
  - intros e. obeys_rule @obeys_ret.
Qed.

Lemma hasPermission_noThrow (fuel : nat) (fileId email role : string) :
  NoThrow (hasPermission E cfg fuel fileId email role).
Proof.
  unfold hasPermission. apply noThrow_tryCatch. intros e. apply noThrow_ret.
Qed.

Lemma grantPermission_obeys (fuel : nat) (fileId email : string) :
  Obeys sameLocals (GrantEvent fileId email) (grantPermission E cfg fuel fileId email).
Proof.
  unfold grantPermission. destruct (dryRun cfg); [obeys_rule @obeys_ret|].
  apply retryLoop_obeys; [apply grant_pause|].
  obeys_rule @obeys_bind.
  - intros w r H. rewrite drivePermissionsCreate_run in H. injection H as <-.
    split; [split; reflexivity|]. constructor; [right; reflexivity|constructor].
  - intros a. obeys_rule @obeys_ret.
Qed.

(** In simulation mode grantPermission returns the sentinel and does
    nothing else. *)
Lemma grantPermission_dryRun (fuel : nat) (fileId email : string) (w : World) :
  dryRun cfg = true ->
  grantPermission E cfg fuel fileId email w = Some (mkRun (Normal DryRunSentinel) w []).
Proof. intros Hdry. unfold grantPermission. rewrite Hdry. reflexivity. Qed.

(** What a throw of grantPermission carries. *)
Lemma grantPermission_throws (fuel : nat) (fileId email : string) (w : World)
    (r : Run GrantResult) (e : JsError) :
  grantPermission E cfg fuel fileId email w = Some r ->
  result r = Throw e ->
  dryRun cfg = false /\
  __op e = Some "drive.permissions.create" /\
  __ctx e = Some (CtxPermission fileId email "reader") /\
  In (EvPermissionsCreate fileId email "reader") (events r).
Proof.
  unfold grantPermission. destruct (dryRun cfg).
  - intros H He. injection H as <-. discriminate.
  - intros H He.
    destruct (retryLoop_throws E cfg 6 "drive.permissions.create"
                (CtxPermission fileId email "reader") _
                (fun n => mapRes Created (permissionsCreate E n fileId email "reader"))
                _ (permissionsCreateCall_run E fileId email "reader")
                fuel 0 w r H) as [Hin Hthrow].
    destruct (Hthrow e He) as [Hop Hctx].
    split; [reflexivity|]. split; [exact Hop|]. split; [exact Hctx|exact Hin].
Qed.

(** Outside simulation mode a finished grantPermission made the call. *)
Lemma grantPermission_calls (fuel : nat) (fileId email : string) (w : World)
    (r : Run GrantResult) :
  dryRun cfg = false ->
  grantPermission E cfg fuel fileId email w = Some r ->
  In (EvPermissionsCreate fileId email "reader") (events r).
Proof.
  unfold grantPermission. intros ->. intros H.
  apply (retryLoop_throws E cfg 6 "drive.permissions.create"
           (CtxPermission fileId email "reader") _
           (fun n => mapRes Created (permissionsCreate E n fileId email "reader"))
           _ (permissionsCreateCall_run E fileId email "reader") fuel 0 w r H).
Qed.

End EngineFacts.

(** ** One turn of the loop *)

(** Unfolds the runs that were put together and projects their fields. *)
Ltac tidy :=
  unfold andThen, stopped;
  cbn [result after events app stats seen
       setStats addSeen bumpRequests bumpClock bumpDraws].

(** Runs the next step of a sequence with its equation [lem]. *)
Ltac run_with lem :=
  eapply ensures_bind; eapply ensures_run; [apply lem|]; tidy.

Ltac finish_with lem :=
  eapply finishes_bind; eapply finishes_run; [apply lem|]; tidy.

(** An event of one kind is not of another. *)
Ltac kind_of_event :=
  let ev := fresh "ev" in
  let Hev := fresh "Hev" in
  intros ev Hev;
  unfold ResolutionEvent, CheckEvent, SheetEvent in Hev;
  destruct ev; cbn in Hev;
  try discriminate; try (destruct Hev; discriminate);
  repeat split; reflexivity.

Section TurnFacts.

Variable E : Env.
Variable cfg : Config.
Variable columns : Columns.

Lemma bumpStats_run (f : Stats -> Stats) (w : World) :
  bumpStats f w = Some (mkRun (Normal tt) (setStats (f (stats w)) w) []).
Proof. reflexivity. Qed.

Lemma updateCellEvents_sheet (w : World) (row : Z) (col value : string) :
  Forall (SheetEvent row) (updateCellEvents E w row col value).
Proof.
  unfold updateCellEvents, SheetEvent.
  destruct (valuesUpdate E (requests w) row col value);
    repeat constructor; cbn; apply Z.eqb_refl.
Qed.

Lemma updateCellEvents_head (w : World) (row : Z) (col value : string) :
  In (EvValuesUpdate row col value) (updateCellEvents E w row col value).
Proof. left. reflexivity. Qed.

Lemma record_sheet (p : Participant) (evs : list Event) :
  Forall (SheetEvent (rowIndex p)) evs -> Forall (RecordEvent cfg p) evs.
Proof.
  apply Forall_impl. intros ev Hev. right. right. left. exact Hev.
Qed.

Lemma record_resolution (p : Participant) (evs : list Event) :
  Forall ResolutionEvent evs -> Forall (RecordEvent cfg p) evs.
Proof. apply Forall_impl. intros ev Hev. left. exact Hev. Qed.

Lemma record_check (p : Participant) (evs : list Event) :
  Forall CheckEvent evs -> Forall (RecordEvent cfg p) evs.
Proof. apply Forall_impl. intros ev Hev. right. left. exact Hev. Qed.

Lemma record_grant (p : Participant) (f : string) (evs : list Event) :
  dryRun cfg = false ->
  Forall (GrantEvent f (email p)) evs -> Forall (RecordEvent cfg p) evs.
Proof.
  intros Hwet. apply Forall_impl. intros ev [Hev|Hev].
  - left. left. exact Hev.
  - right. right. right. split; [exact Hwet|]. exists f. exact Hev.
Qed.

Lemma pause_record (p : Participant) (ms : Z) : RecordEvent cfg p (EvSleep ms).
Proof. left. left. reflexivity. Qed.

Lemma resolveFolder_obeys (fuel : nat) (p : Participant) :
  Obeys sameLocals ResolutionEvent (resolveFolder E cfg fuel p).
Proof.
  unfold resolveFolder. destruct (negb (truthy (folderId p)));
    [apply findFolderByName_obeys|obeys_rule @obeys_ret].
Qed.

Lemma resolveFolder_noThrow (fuel : nat) (p : Participant) :
  NoThrow (resolveFolder E cfg fuel p).
Proof.
  unfold resolveFolder. destruct (negb (truthy (folderId p)));
    [apply findFolderByName_noThrow|apply noThrow_ret].
Qed.

(** The write of FolderId, made when the id was not cached. *)
Lemma folderIdWrite_run (p : Participant) (found : option string) (w1 : World) :
  exists evs,
    (if negb (truthy (folderId p))
     then updateCell E (rowIndex p) (colOr (folderIdCol columns) "C") (orEmpty found)
     else ret tt) (bumpRequests w1) =
      Some (mkRun (Normal tt) (atCheck p w1) evs) /\
    Forall (SheetEvent (rowIndex p)) evs.
Proof.
  unfold atCheck. destruct (negb (truthy (folderId p))).
  - eexists. split; [apply updateCell_run|apply updateCellEvents_sheet].
  - exists []. split; [reflexivity|constructor].
Qed.

Lemma atCheck_locals (p : Participant) (w1 : World) :
  stats (atCheck p w1) = stats w1 /\ seen (atCheck p w1) = seen w1.
Proof. unfold atCheck. destruct (negb (truthy (folderId p))); split; reflexivity. Qed.

(** The events of a turn are events of its record. *)
Ltac events_ok :=
  repeat (apply Forall_app; split);
  first [ apply Forall_nil
        | apply record_sheet; apply updateCellEvents_sheet
        | apply record_sheet; assumption
        | apply record_resolution; assumption
        | apply record_check; assumption
        | eapply record_grant; eassumption
        | apply updateCellEvents_sheet
        | constructor; [apply pause_record|apply Forall_nil] ].

(** Finds a write among the events of a turn. *)
Ltac find_in_right :=
  first [ apply updateCellEvents_head
        | apply in_or_app; left; apply updateCellEvents_head
        | apply in_or_app; right; find_in_right ].

Ltac find_in := rewrite <- ?app_assoc; find_in_right.

Ltac find_hyp_right H :=
  first [ exact H
        | apply in_or_app; left; exact H
        | apply in_or_app; right; find_hyp_right H ].

Ltac find_hyp H := rewrite <- ?app_assoc; find_hyp_right H.

Ltac no_grant :=
  repeat (apply Forall_app; split);
  first [ apply Forall_nil
        | eapply Forall_impl; [|apply updateCellEvents_sheet]; kind_of_event
        | eapply Forall_impl; [|eassumption]; kind_of_event
        | constructor; [reflexivity|apply Forall_nil] ].

(** Every finished turn ends in one branch, adds to the counter of that
    branch, and leaves only events of its record. *)
Lemma processOne_ensures (fuel : nat) (p : Participant) (w : World) :
  ensures (processOne E cfg columns fuel p) w (TurnFacts cfg columns p w).
Proof.
  unfold processOne.
  run_with bumpStats_run.
  apply ensures_tryCatch.
  unfold processBody, shareFolder, recordNotFound, recordAlreadyGranted, grantAndRecord.
  destruct (includes "@" (email p)) eqn:Hvalid; cbn [negb].
  2:{ run_with bumpStats_run. run_with updateCell_run.
      run_with getCurrentTimestamp_run. run_with updateCell_run.
      apply ensures_ret. tidy.
      exists (Skipped InvalidEmail). split; [reflexivity|].
      split; [reflexivity|].
      split; [unfold seenAfter, hasValidEmail; rewrite Hvalid; reflexivity|].
      split; [events_ok|].
      cbn [BranchFacts]. split; [exact Hvalid|].
      unfold OnlySheetEvents. events_ok. }
  eapply ensures_bind; eapply ensures_run; [reflexivity|]; tidy.
  fold (keyOf p). fold (seenHas (keyOf p) (seen w)).
  destruct (seenHas (keyOf p) (seen w)) eqn:Hseen.
  { run_with bumpStats_run. run_with getCurrentTimestamp_run.
    run_with updateCell_run. apply ensures_ret. tidy.
    exists (Skipped Duplicate). split; [reflexivity|].
    split; [reflexivity|].
    split; [unfold seenAfter, hasValidEmail; rewrite Hvalid, Hseen; reflexivity|].
    split; [events_ok|].
    cbn [BranchFacts]. split; [exact Hvalid|]. split; [exact Hseen|].
    split; [unfold OnlySheetEvents; events_ok|].
    eexists. eexists. rewrite app_nil_r. unfold updateCellEvents. reflexivity. }
  eapply ensures_bind; eapply ensures_run; [reflexivity|]; tidy.
  assert (Hseen' : seenAfter p (seen w) = keyOf p :: seen w).
  { unfold seenAfter, hasValidEmail. rewrite Hvalid, Hseen. reflexivity. }
  assert (Hpast : pastDuplicateCheck p w) by (split; assumption).
  destruct (truthy (isShared p) && (toLowerCase (isShared p) =? "true")%string)
    eqn:Hshared.
  { run_with bumpStats_run. run_with getCurrentTimestamp_run.
    run_with updateCell_run. apply ensures_ret. tidy.
    exists (Skipped AlreadyShared). split; [reflexivity|].
    split; [reflexivity|]. split; [symmetry; exact Hseen'|].
    split; [events_ok|].
    cbn [BranchFacts]. split; [exact Hpast|].
    split; [|unfold OnlySheetEvents; events_ok].
    unfold notYetShared. apply andb_true_iff in Hshared.
    destruct Hshared as [_ Hs]. rewrite Hs. reflexivity. }
  eapply ensures_bind.
  eapply ensures_call; [apply resolveFolder_obeys|apply resolveFolder_noThrow|].
  intros found w1 evs1 [Hst1 Hseen1] Hevs1. tidy.
  cbn [stats seen addSeen setStats] in Hst1, Hseen1.
  destruct (negb (truthy (orEmpty found))) eqn:Hfound.
  { run_with bumpStats_run. run_with updateCell_run.
    run_with getCurrentTimestamp_run. run_with updateCell_run.
    apply ensures_ret. tidy.
    exists FolderNotFound. split; [reflexivity|]. tidy.
    split; [rewrite Hst1; reflexivity|].
    split; [rewrite Hseen1, Hseen'; reflexivity|].
    split; [events_ok|].
    cbn [BranchFacts]. split; [exact Hpast|].
    split; [no_grant|]. split; [find_in|eexists; find_in]. }
  run_with updateCell_run.
  destruct (folderIdWrite_run p found w1) as [evs2 [Hrun2 Hevs2]].
  eapply ensures_bind; eapply ensures_run; [exact Hrun2|]; tidy.
  destruct (atCheck_locals p w1) as [Hst2 Hseen2].
  rewrite Hst1 in Hst2. rewrite Hseen1 in Hseen2.
  eapply ensures_bind.
  eapply ensures_call; [apply hasPermission_obeys|apply hasPermission_noThrow|].
  intros has w3 evs3 [Hst3 Hseen3] Hevs3. tidy.
  rewrite Hst2 in Hst3. rewrite Hseen2 in Hseen3.
  destruct has.
  { run_with bumpStats_run. run_with updateCell_run.
    run_with getCurrentTimestamp_run. run_with updateCell_run.
    apply ensures_ret. tidy.
    exists AlreadyGranted. split; [reflexivity|]. tidy.
    split; [rewrite Hst3; reflexivity|].
    split; [rewrite Hseen3, Hseen'; reflexivity|].
    split; [events_ok|].
    cbn [BranchFacts]. split; [exact Hpast|].
    split; [no_grant|find_in]. }
  destruct (dryRun cfg) eqn:Hdry.
  { run_with grantPermission_dryRun; [exact Hdry|].
    run_with bumpStats_run. run_with updateCell_run.
    run_with getCurrentTimestamp_run. run_with updateCell_run.
    run_with randomBelow_run. run_with sleep_run.
    apply ensures_ret. tidy.
    exists Granted. split; [reflexivity|]. tidy.
    split; [rewrite Hst3; reflexivity|].
    split; [rewrite Hseen3, Hseen'; reflexivity|].
    split; [events_ok|].
    cbn [BranchFacts]. rewrite Hdry. split; [exact Hpast|].
    split; [find_in|]. split; [eexists; find_in|].
    intros _. no_grant. }
  eapply ensures_bind.
  intros rg Hrg.
  destruct (grantPermission_obeys E cfg fuel (orEmpty found) (email p) w3 rg Hrg)
    as [[Hst4 Hseen4] Hevs4].
  rewrite Hst3 in Hst4. rewrite Hseen3 in Hseen4.
  destruct (result rg) as [g|err] eqn:Hres.
  { run_with bumpStats_run. run_with updateCell_run.
    run_with getCurrentTimestamp_run. run_with updateCell_run.
    run_with randomBelow_run. run_with sleep_run.
    apply ensures_ret. tidy.
    exists Granted. split; [reflexivity|]. tidy.
    split; [rewrite Hst4; reflexivity|].
    split; [rewrite Hseen4, Hseen'; reflexivity|].
    split; [events_ok|].
    cbn [BranchFacts]. rewrite Hdry. split; [exact Hpast|].
    split; [find_in|]. split; [eexists; find_in|].
    intros Habs. discriminate. }
  destruct (grantPermission_throws E cfg fuel _ _ w3 rg err Hrg Hres)
    as [_ [Hop [Hctx Hcall]]].
  tidy. unfold processCatch.
  run_with bumpStats_run. run_with getCurrentTimestamp_run.
  run_with updateCell_run. run_with updateCell_run.
  apply ensures_ret. tidy.
  exists (Error err). split; [reflexivity|]. tidy.
  split; [rewrite Hst4; reflexivity|].
  split; [rewrite Hseen4, Hseen'; reflexivity|].
  split; [events_ok|].
  cbn [BranchFacts]. split; [exact Hpast|]. split; [exact Hdry|].
  split; [exact Hop|].
  split; [|find_in].
  exists (orEmpty found). split; [exact Hctx|find_hyp Hcall].
Qed.

End TurnFacts.

(** ** The loop over the batch *)

Section LoopFacts.

Variable E : Env.
Variable cfg : Config.
Variable columns : Columns.

Lemma processLoop_cons (fuel : nat) (p : Participant) (rest : list Participant)
    (w w' : World) (o : Outcome) (evs : list Event) :
  processOne E cfg columns fuel p w = Some (mkRun (Normal o) w' evs) ->
  processLoop E cfg columns fuel (p :: rest) w =
  thenRest (mkReport p o evs) (processLoop E cfg columns fuel rest w').
Proof.
  intros Hone. cbn [processLoop]. unfold bind at 1, listen. rewrite Hone.
  cbn [result after events]. unfold bind, thenRest.
  destruct (processLoop E cfg columns fuel rest w') as [r'|]; [|reflexivity].
  destruct (result r') as [reports|e]; cbn; rewrite ?app_nil_r; reflexivity.
Qed.

Lemma processLoop_ensures (fuel : nat) (working : list Participant) :
  forall w, ensures (processLoop E cfg columns fuel working) w
                    (PassFacts cfg columns working w).
Proof.
  induction working as [|p rest IH]; intros w r H.
  - injection H as <-. exists []. repeat split.
  - destruct (processOne E cfg columns fuel p w) as [r1|] eqn:Hone.
    2:{ cbn [processLoop] in H. unfold bind at 1, listen in H.
        rewrite Hone in H. discriminate. }
    pose proof (processOne_ensures E cfg columns fuel p w r1 Hone) as Hfacts.
    assert (Hnormal : exists o, result r1 = Normal o)
      by (destruct Hfacts as [o [Ho _]]; exists o; exact Ho).
    destruct Hnormal as [o Ho]. destruct r1 as [res1 w1 evs1].
    cbn in Ho. subst res1.
    rewrite (processLoop_cons fuel p rest w w1 o evs1 Hone) in H.
    unfold thenRest in H.
    destruct (processLoop E cfg columns fuel rest w1) as [r'|] eqn:Hrest;
      [|discriminate].
    destruct (IH w1 r' Hrest) as [reports [Hres [Hsubj [Hevs Hturns]]]].
    rewrite Hres in H. injection H as <-.
    exists (mkReport p o evs1 :: reports). cbn.
    split; [reflexivity|]. split; [rewrite Hsubj; reflexivity|].
    split; [rewrite Hevs; reflexivity|].
    exists w1. split; [exact Hfacts|exact Hturns].
Qed.

Lemma processParticipants_ensures (fuel : nat) (participants : list Participant)
    (w : World) :
  ensures (processParticipants E cfg columns fuel participants) w
          (PassFacts cfg columns (workingParticipants cfg participants)
                     (freshLocals w)).
Proof.
  intros r H. unfold processParticipants in H.
  apply bind_inv in H. destruct H as [r1 [Hr1 H]].
  injection Hr1 as <-. cbn [result after] in H.
  destruct H as [r2 [Hr2 ->]].
  destruct (processLoop_ensures fuel _ _ r2 Hr2) as [reports [Hres [Hsubj [Hevs Ht]]]].
  exists reports. unfold andThen. cbn.
  split; [exact Hres|]. split; [exact Hsubj|]. split; [exact Hevs|exact Ht].
Qed.

(** *** The set of seen keys along a pass *)

Lemma seenHas_cons (k k' : string) (s : list string) :
  seenHas k (k' :: s) = (String.eqb k k' || seenHas k s)%bool.
Proof. reflexivity. Qed.

Lemma seenAfter_keeps (p : Participant) (k : string) (s : list string) :
  seenHas k s = true -> seenHas k (seenAfter p s) = true.
Proof.
  intros H. unfold seenAfter.
  destruct (hasValidEmail p && negb (seenHas (keyOf p) s)); [|exact H].
  rewrite seenHas_cons, H. apply orb_true_r.
Qed.

Lemma seenAfter_has (p : Participant) (s : list string) :
  hasValidEmail p = true -> seenHas (keyOf p) (seenAfter p s) = true.
Proof.
  intros Hvalid. unfold seenAfter. rewrite Hvalid. cbn [andb].
  destruct (seenHas (keyOf p) s) eqn:Hs; cbn [negb]; [exact Hs|].
  rewrite seenHas_cons, String.eqb_refl. reflexivity.
Qed.

Lemma seenAfter_char (p : Participant) (k : string) (s : list string) :
  seenHas k (seenAfter p s) = true ->
  seenHas k s = true \/ (hasValidEmail p = true /\ keyOf p = k).
Proof.
  unfold seenAfter. destruct (hasValidEmail p) eqn:Hvalid; cbn [andb].
  - destruct (negb (seenHas (keyOf p) s)); [|intros H; left; exact H].
    rewrite seenHas_cons. intros H. apply orb_true_iff in H.
    destruct H as [H|H]; [right|left; exact H].
    apply String.eqb_eq in H. split; [reflexivity|symmetry; exact H].
  - intros H. left. exact H.
Qed.

Lemma Turns_seen_keeps (reports : list Report) :
  forall w w' k,
    Turns cfg columns w reports w' ->
    seenHas k (seen w) = true -> seenHas k (seen w') = true.
Proof.
  induction reports as [|rep rest IH]; intros w w' k Ht Hk.
  - cbn in Ht. subst w'. exact Hk.
  - destruct Ht as [w1 [[o [_ [_ [Hseen _]]]] Hrest]]. cbn in Hseen.
    apply (IH w1 w' k Hrest). rewrite Hseen. apply seenAfter_keeps. exact Hk.
Qed.

Lemma Turns_seen_char (reports : list Report) :
  forall w w' k,
    Turns cfg columns w reports w' ->
    seenHas k (seen w') = true ->
    seenHas k (seen w) = true \/
    exists c, In c reports /\ hasValidEmail (subject c) = true /\
              keyOf (subject c) = k.
Proof.
  induction reports as [|rep rest IH]; intros w w' k Ht Hk.
  - cbn in Ht. subst w'. left. exact Hk.
  - destruct Ht as [w1 [[o [_ [_ [Hseen _]]]] Hrest]]. cbn in Hseen.
    destruct (IH w1 w' k Hrest Hk) as [H1|[c [Hin Hc]]].
    + rewrite Hseen in H1. apply seenAfter_char in H1.
      destruct H1 as [H1|H1]; [left; exact H1|].
      right. exists rep. split; [left; reflexivity|exact H1].
    + right. exists c. split; [right; exact Hin|exact Hc].
Qed.

Lemma Turns_app (l1 l2 : list Report) :
  forall w w',
    Turns cfg columns w (l1 ++ l2) w' ->
    exists wm, Turns cfg columns w l1 wm /\ Turns cfg columns wm l2 w'.
Proof.
  induction l1 as [|rep l1 IH]; intros w w' Ht.
  - exists w. split; [reflexivity|exact Ht].
  - destruct Ht as [w1 [Hfacts Hrest]].
    destruct (IH w1 w' Hrest) as [wm [H1 H2]].
    exists wm. split; [|exact H2]. exists w1. split; assumption.
Qed.

Lemma Turns_stats (reports : list Report) :
  forall w w',
    Turns cfg columns w reports w' -> stats w' = tallyAll reports (stats w).
Proof.
  induction reports as [|rep rest IH]; intros w w' Ht.
  - cbn in Ht. subst w'. reflexivity.
  - destruct Ht as [w1 [[o [Ho [Hst _]]] Hrest]]. cbn in Ho, Hst.
    injection Ho as <-. rewrite (IH w1 w' Hrest), Hst. reflexivity.
Qed.

Lemma Turns_events (reports : list Report) :
  forall w w' rep,
    Turns cfg columns w reports w' -> In rep reports ->
    Forall (RecordEvent cfg (subject rep)) (trail rep).
Proof.
  induction reports as [|rep0 rest IH]; intros w w' rep Ht Hin; [destruct Hin|].
  destruct Ht as [w1 [[o [_ [_ [_ [Hevs _]]]]] Hrest]]. cbn in Hevs.
  destruct Hin as [<-|Hin]; [exact Hevs|]. apply (IH w1 w' rep Hrest Hin).
Qed.

End LoopFacts.

(** ** The breadth-first search of findFolderByName *)

Section BreadthFirst.

Variable E : Env.
Variable cfg : Config.
Variable kids : string -> list DriveFile.
Variable targetLower : string.
Variable from : nat.
Hypothesis lists : Lists E cfg kids from.

Lemma find_append {A} (f : A -> bool) (l1 l2 : list A) :
  find f (l1 ++ l2) = match find f l1 with
                      | Some x => Some x
                      | None => find f l2
                      end.
Proof.
  induction l1 as [|a l1 IH]; [reflexivity|].
  cbn. destruct (f a); [reflexivity|exact IH].
Qed.

Lemma attempt_normal {A} (m : M A) (w w' : World) (a : A) (evs : list Event) :
  m w = Some (mkRun (Normal a) w' evs) ->
  attempt m w = Some (mkRun (Normal (Normal a)) w' evs).
Proof.
  intros H. unfold attempt, tryCatch, bind. rewrite H. cbn.
  rewrite app_nil_r. reflexivity.
Qed.

Lemma listingIn_mono (S1 S2 : list string) (evs : list Event) :
  (forall pid, In pid S1 -> In pid S2) ->
  Forall (ListingIn S1) evs -> Forall (ListingIn S2) evs.
Proof.
  intros Hsub. apply Forall_impl. intros ev [Hev|[pid [tok [Hev Hin]]]].
  - left. exact Hev.
  - right. exists pid, tok. split; [exact Hev|apply Hsub; exact Hin].
Qed.

Lemma searchLevels_from (n : nat) (frontier : list string) :
  searchLevels kids targetLower n frontier = searchFrom kids targetLower n frontier [].
Proof. destruct n; reflexivity. Qed.

Lemma listedFolders_from (n : nat) (frontier : list string) :
  listedFolders kids n frontier = listedFrom kids n frontier [].
Proof. destruct n; reflexivity. Qed.

Lemma bfs_levels (n : nat) :
  (n <= 3)%nat ->
  forall cur acc w,
    (from <= requests w)%nat ->
    (n = 0%nat -> acc = []) ->
    exists N w' evs,
      (requests w <= requests w')%nat /\
      Forall (ListingIn (listedFrom kids n cur acc)) evs /\
      forall fuel, (N <= fuel)%nat ->
        bfsLoop E cfg fuel targetLower
                (itemsAt (3 - Z.of_nat n) cur ++ itemsAt (3 - Z.of_nat n + 1) acc) w =
        Some (mkRun (Normal (searchFrom kids targetLower n cur acc)) w' evs).
Proof.
  induction n as [|n' IHn]; intros Hn.
  - (* the deepest level that is listed *)
    induction cur as [|c cur' IHc]; intros acc w Hw Hacc.
    + rewrite (Hacc eq_refl). exists 1%nat, w, [].
      split; [lia|]. split; [constructor|].
      intros fuel Hfuel. destruct fuel as [|fuel']; [lia|]. reflexivity.
    + rewrite (Hacc eq_refl). unfold itemsAt in *. cbn [map app] in *.
      destruct (lists c w Hw) as [n1 [w1 [evs1 [Hle1 [Hevs1 Hrun1]]]]].
      destruct (find (nameMatches targetLower) (kids c)) as [hit|] eqn:Hfind.
      * exists (S n1), w1, evs1. split; [exact Hle1|]. split.
        { eapply listingIn_mono; [|exact Hevs1].
          intros pid [<-|[]]. left. reflexivity. }
        intros fuel Hfuel. destruct fuel as [|fuel']; [lia|].
        cbn [bfsLoop depth qid]. change (3 - Z.of_nat 0 >? maxDepth) with false.
        cbv iota. unfold bind.
        rewrite (attempt_normal _ _ _ _ _ (Hrun1 fuel' ltac:(lia))).
        cbn [result after events]. rewrite Hfind. cbn.
        unfold searchFrom. cbn [flat_map]. rewrite find_append, Hfind.
        rewrite app_nil_r. reflexivity.
      * destruct (IHc [] w1 ltac:(lia) ltac:(reflexivity))
          as [N [w' [evs [Hle [Hevs Hrun]]]]].
        exists (S (Nat.max n1 N)), w', (evs1 ++ evs). split; [lia|]. split.
        { apply Forall_app. split.
          - eapply listingIn_mono; [|exact Hevs1].
            intros pid [<-|[]]. left. reflexivity.
          - eapply listingIn_mono; [|exact Hevs].
            intros pid Hin. unfold listedFrom in *. rewrite app_nil_r in *.
            right. exact Hin. }
        intros fuel Hfuel. destruct fuel as [|fuel']; [lia|].
        cbn [bfsLoop depth qid]. change (3 - Z.of_nat 0 >? maxDepth) with false.
        cbv iota. unfold bind.
        rewrite (attempt_normal _ _ _ _ _ (Hrun1 fuel' ltac:(lia))).
        cbn [result after events]. rewrite Hfind.
        change (3 - Z.of_nat 0 <? maxDepth) with false. cbv iota.
        rewrite app_nil_r in Hrun. rewrite app_nil_r.
        rewrite (Hrun fuel' ltac:(lia)). cbn [result after events].
        unfold searchFrom. cbn [flat_map]. rewrite find_append, Hfind. reflexivity.
  - (* a level whose children are queued *)
    assert (Hgt : (3 - Z.of_nat (S n') >? maxDepth) = false)
      by (unfold maxDepth; rewrite Z.gtb_ltb; apply Z.ltb_ge; lia).
    assert (Hlt : (3 - Z.of_nat (S n') <? maxDepth) = true)
      by (unfold maxDepth; apply Z.ltb_lt; lia).
    assert (Hnext : 3 - Z.of_nat (S n') + 1 = 3 - Z.of_nat n') by lia.
    induction cur as [|c cur' IHc]; intros acc w Hw _.
    + destruct (IHn ltac:(lia) acc [] w Hw ltac:(reflexivity))
        as [N [w' [evs [Hle [Hevs Hrun]]]]].
      exists N, w', evs. split; [exact Hle|]. split.
      { eapply listingIn_mono; [|exact Hevs].
        intros pid Hin. unfold listedFrom at 1. cbn [flat_map map app].
        rewrite app_nil_r, listedFolders_from. exact Hin. }
      intros fuel Hfuel. rewrite Hnext. cbn [itemsAt map app].
      specialize (Hrun fuel Hfuel).
      cbn [itemsAt map] in Hrun. rewrite app_nil_r in Hrun.
      rewrite Hrun. unfold searchFrom at 2. cbn [flat_map map find].
      rewrite app_nil_r, searchLevels_from. reflexivity.
    + destruct (lists c w Hw) as [n1 [w1 [evs1 [Hle1 [Hevs1 Hrun1]]]]].
      destruct (find (nameMatches targetLower) (kids c)) as [hit|] eqn:Hfind.
      * exists (S n1), w1, evs1. split; [exact Hle1|]. split.
        { eapply listingIn_mono; [|exact Hevs1].
          intros pid [<-|[]]. left. reflexivity. }
        intros fuel Hfuel. destruct fuel as [|fuel']; [lia|].
        cbn [itemsAt map app bfsLoop depth qid]. rewrite Hgt.
        unfold bind.
        rewrite (attempt_normal _ _ _ _ _ (Hrun1 fuel' ltac:(lia))).
        cbn [result after events]. rewrite Hfind. cbn.
        unfold searchFrom. cbn [flat_map]. rewrite find_append, Hfind.
        rewrite app_nil_r. reflexivity.
      * destruct (IHc (acc ++ map id (kids c)) w1 ltac:(lia) ltac:(discriminate))
          as [N [w' [evs [Hle [Hevs Hrun]]]]].
        exists (S (Nat.max n1 N)), w', (evs1 ++ evs). split; [lia|]. split.
        { apply Forall_app. split.
          - eapply listingIn_mono; [|exact Hevs1].
            intros pid [<-|[]]. left. reflexivity.
          - eapply listingIn_mono; [|exact Hevs].
            intros pid Hin. unfold listedFrom in *. cbn [flat_map].
            rewrite map_app, app_assoc. right. exact Hin. }
        intros fuel Hfuel. destruct fuel as [|fuel']; [lia|].
        cbn [itemsAt map app bfsLoop depth qid]. rewrite Hgt.
        unfold bind.
        rewrite (attempt_normal _ _ _ _ _ (Hrun1 fuel' ltac:(lia))).
        cbn [result after events]. rewrite Hfind, Hlt.
        specialize (Hrun fuel' ltac:(lia)).
        unfold itemsAt in Hrun. rewrite map_app, map_map, app_assoc in Hrun.
        unfold itemsAt. rewrite Hrun. cbn [result after events].
        unfold searchFrom. cbn [flat_map]. rewrite find_append, Hfind.
        rewrite map_app, app_assoc. reflexivity.
Qed.

End BreadthFirst.

Section FolderSearch.

Variable E : Env.
Variable cfg : Config.
Variable kids : string -> list DriveFile.

Lemma flat_map_ids (l : list DriveFile) :
  flat_map kids (map id l) = flat_map (fun f => kids (id f)) l.
Proof.
  induction l as [|f l IH]; [reflexivity|]. cbn. rewrite IH. reflexivity.
Qed.

Lemma frontier_levels (root : string) :
  flat_map kids [root] = level kids 0 root /\
  flat_map kids (map id (level kids 0 root)) = level kids 1 root /\
  flat_map kids (map id (level kids 1 root)) = level kids 2 root /\
  flat_map kids (map id (level kids 2 root)) = level kids 3 root.
Proof.
  split; [cbn; apply app_nil_r|].
  split; [apply flat_map_ids|]. split; apply flat_map_ids.
Qed.

(** Level by level is breadth-first. *)
Lemma searchLevels_breadthFirst (targetLower root : string) :
  searchLevels kids targetLower 3 [root] =
  firstMatch targetLower (breadthFirst kids root).
Proof.
  destruct (frontier_levels root) as [H0 [H1 [H2 H3]]].
  unfold firstMatch, breadthFirst. cbn [searchLevels].
  rewrite H0, H1, H2, H3. rewrite !find_append.
  destruct (find (nameMatches targetLower) (level kids 0 root)); [reflexivity|].
  destruct (find (nameMatches targetLower) (level kids 1 root)); [reflexivity|].
  destruct (find (nameMatches targetLower) (level kids 2 root)); [reflexivity|].
  reflexivity.
Qed.

(** The folders that are listed are the root and the folders one to
    three levels below it. *)
Lemma listedFolders_levels (root pid : string) :
  In pid (listedFolders kids 3 [root]) ->
  pid = root \/
  In pid (map id (level kids 0 root ++ level kids 1 root ++ level kids 2 root)).
Proof.
  destruct (frontier_levels root) as [H0 [H1 [H2 H3]]].
  cbn [listedFolders]. rewrite H0, H1, H2. rewrite !map_app.
  rewrite !in_app_iff. cbn [In].
  intros [[H|[]]|[H|[H|[H|[]]]]]; auto.
Qed.

(** A provider that, from the request [from] on, answers every listing
    with all children in one page lists in full. *)
Lemma onePage_lists (from : nat) :
  (forall n pid tok, (from <= n)%nat ->
     filesList E n (ChildrenOf pid) 100 tok = Ok (mkPage (kids pid) None)) ->
  Lists E cfg kids from.
Proof.
  intros Hpage pid w Hw.
  destruct (throttle_run E cfg w) as [w1 [thr [Hthr [Hreq [_ [_ Htrace]]]]]].
  exists 1%nat, (bumpRequests w1),
         (thr ++ [EvFilesList (ChildrenOf pid) 100 None] ++ []).
  split; [cbn [requests bumpRequests]; lia|].
  split.
  - apply Forall_app. split.
    + destruct Htrace as [->|[ms [_ ->]]]; [constructor|].
      constructor; [left; reflexivity|constructor].
    + constructor; [|constructor]. right. exists pid, None.
      split; [reflexivity|left; reflexivity].
  - intros fuel Hfuel. destruct fuel as [|fuel']; [lia|].
    unfold listSubfolders. cbn [listSubfoldersFrom]. unfold bind at 1.
    rewrite Hthr. cbn [result after events].
    unfold bind at 1. rewrite driveFilesList_run.
    rewrite Hpage by (rewrite Hreq; exact Hw).
    cbn [resultOfRes result after events nextToken nextPageToken files app].
    reflexivity.
Qed.

End FolderSearch.

(** ** The depth of the search, whatever the provider answers *)

Lemma attempt_inv {A} (m : M A) (w : World) (r : Run (Result A)) :
  attempt m w = Some r ->
  exists r0, m w = Some r0 /\ result r = Normal (result r0) /\ after r = after r0.
Proof.
  unfold attempt, tryCatch, bind. destruct (m w) as [r0|]; [|discriminate].
  intros H. exists r0. split; [reflexivity|].
  destruct (result r0) as [a|e]; cbn in H; injection H as <-; split; reflexivity.
Qed.

Lemma attempt_events {A} (m : M A) (w : World) (r : Run (Result A)) (r0 : Run A) :
  attempt m w = Some r -> m w = Some r0 -> events r = events r0.
Proof.
  unfold attempt, tryCatch, bind. intros H H0. rewrite H0 in H.
  destruct (result r0) as [a|e]; cbn in H; injection H as <-; cbn;
    rewrite ?app_nil_r; reflexivity.
Qed.

Lemma servedUnder_mono (E : Env) (lo hi lo' hi' : nat) (pid : string) (f : DriveFile) :
  (lo' <= lo)%nat -> (hi <= hi')%nat ->
  ServedUnder E lo hi pid f -> ServedUnder E lo' hi' pid f.
Proof.
  intros Hlo Hhi [n [tok [page [Hn H]]]]. exists n, tok, page.
  split; [lia|exact H].
Qed.

Lemma below_mono (E : Env) (lo hi hi' : nat) (root : string) (d : nat) (pid : string) :
  (hi <= hi')%nat -> Below E lo hi root d pid -> Below E lo hi' root d pid.
Proof.
  intros Hhi H. induction H as [|d pid f _ IH Hs]; [constructor|].
  apply (Below_child E lo hi' root d pid f IH).
  apply (servedUnder_mono E lo hi lo hi'); [lia|exact Hhi|exact Hs].
Qed.

Lemma queuedBelow_mono (E : Env) (lo hi hi' : nat) (root : string)
    (queue : list QItem) :
  (hi <= hi')%nat ->
  Forall (QueuedBelow E lo hi root) queue -> Forall (QueuedBelow E lo hi' root) queue.
Proof.
  intros Hhi. apply Forall_impl. intros item [d [Hd Hb]].
  exists d. split; [exact Hd|]. apply (below_mono E lo hi hi'); assumption.
Qed.

(** The listings of one folder are listings within the depth when the
    folder is. *)
Lemma listing_within (E : Env) (lo hi : nat) (root pid : string) (d : nat)
    (evs : list Event) :
  (d <= 3)%nat -> Below E lo hi root d pid ->
  Forall (ListingIn [pid]) evs -> Forall (ListingWithin E lo hi root) evs.
Proof.
  intros Hd Hb. apply Forall_impl. intros ev [Hev|[pid' [tok [Hev [<-|[]]]]]].
  - left. exact Hev.
  - right. exists pid, tok, d. split; [exact Hev|]. split; assumption.
Qed.

Section DepthBound.

Variable E : Env.
Variable cfg : Config.

Lemma listSubfoldersFrom_listing (fuel : nat) (pid : string) :
  forall all tok,
    Obeys sameLocals (ListingIn [pid]) (listSubfoldersFrom E cfg fuel pid all tok).
Proof.
  induction fuel as [|fuel' IH]; intros all tok; cbn [listSubfoldersFrom].
  - apply obeys_outOfFuel.
  - obeys_rule @obeys_bind;
      [apply throttle_obeys; intros ms; left; reflexivity|].
    intros _. obeys_rule @obeys_bind.
    + intros w r H. rewrite driveFilesList_run in H. injection H as <-.
      split; [split; reflexivity|].
      constructor; [|constructor]. right. exists pid, tok.
      split; [reflexivity|left; reflexivity].
    + intros res. destruct (nextToken res); [apply IH|obeys_rule @obeys_ret].
Qed.

(** The entries that a listing returns were served as children of the
    folder, during the listing. *)
Lemma listSubfoldersFrom_children (pid : string) (fuel : nat) :
  forall all tok w r,
    listSubfoldersFrom E cfg fuel pid all tok w = Some r ->
    (requests w <= requests (after r))%nat /\
    forall l, result r = Normal l ->
      forall f, In f l ->
        In f all \/ ServedUnder E (requests w) (requests (after r)) pid f.
Proof.
  induction fuel as [|fuel' IH]; intros all tok w r H; [discriminate|].
  cbn [listSubfoldersFrom] in H.
  destruct (throttle_run E cfg w) as [w1 [thr [Hthr [Hreq _]]]].
  unfold bind at 1 in H. rewrite Hthr in H. cbn [result after events] in H.
  unfold bind at 1 in H. rewrite driveFilesList_run, Hreq in H.
  destruct (filesList E (requests w) (ChildrenOf pid) 100 tok) as [page|e] eqn:Hpage;
    cbn [resultOfRes result after events] in H.
  - destruct (nextToken page) as [t|].
    + destruct (listSubfoldersFrom E cfg fuel' pid (all ++ files page) (Some t)
                  (bumpRequests w1)) as [r'|] eqn:Hrec; [|discriminate].
      destruct (IH _ _ _ _ Hrec) as [Hle Hin]. cbn [requests bumpRequests] in Hle, Hin.
      rewrite Hreq in Hle, Hin.
      cbn [result after events] in H. injection H as <-. cbn [result after].
      split; [lia|]. intros l Hl f Hf.
      destruct (Hin l Hl f Hf) as [Hold|Hnew].
      * apply in_app_or in Hold. destruct Hold as [Hold|Hold]; [left; exact Hold|].
        right. exists (requests w), tok, page.
        split; [lia|]. split; assumption.
      * right.
        apply (servedUnder_mono E (S (requests w)) (requests (after r'))); [lia|lia|].
        exact Hnew.
    + cbn in H. injection H as <-. cbn [result after requests bumpRequests].
      rewrite Hreq. split; [lia|]. intros l Hl f Hf. injection Hl as <-.
      apply in_app_or in Hf. destruct Hf as [Hf|Hf]; [left; exact Hf|].
      right. exists (requests w), tok, page.
      split; [lia|]. split; assumption.
  - injection H as <-. cbn [result after requests bumpRequests]. rewrite Hreq.
    split; [lia|]. intros l Hl. discriminate.
Qed.

(** The search lists only folders that the provider showed at most 3
    levels below the root, and returns only a child of such a folder. *)
Lemma bfsLoop_within (root : string) (lo : nat) (targetLower : string) (fuel : nat) :
  forall queue w r,
    (lo <= requests w)%nat ->
    Forall (QueuedBelow E lo (requests w) root) queue ->
    bfsLoop E cfg fuel targetLower queue w = Some r ->
    (requests w <= requests (after r))%nat /\
    Forall (ListingWithin E lo (requests (after r)) root) (events r) /\
    forall fid, result r = Normal (Some fid) ->
      exists d pid f,
        (d <= 3)%nat /\ Below E lo (requests (after r)) root d pid /\
        ServedUnder E lo (requests (after r)) pid f /\
        id f = fid /\ nameMatches targetLower f = true.
Proof.
  induction fuel as [|fuel' IH]; intros queue w r Hlo Hq H; [discriminate|].
  cbn [bfsLoop] in H.
  destruct queue as [|current queue].
  { injection H as <-. cbn. split; [lia|]. split; [constructor|].
    intros fid Hfid. discriminate. }
  apply Forall_cons_iff in Hq. destruct Hq as [[d [Hd Hbelow]] Hq].
  destruct (depth current >? maxDepth) eqn:Hgt; [exact (IH _ _ _ Hlo Hq H)|].
  assert (Hd3 : (d <= 3)%nat).
  { unfold maxDepth in Hgt. rewrite Z.gtb_ltb in Hgt. apply Z.ltb_ge in Hgt. lia. }
  apply bind_inv in H. destruct H as [r1 [Hr1 H]].
  pose proof Hr1 as Hatt.
  apply attempt_inv in Hr1. destruct Hr1 as [r0 [Hr0 [Hres1 Haft1]]].
  pose proof (attempt_events _ _ _ _ Hatt Hr0) as Hevs1.
  destruct (listSubfoldersFrom_children _ _ _ _ _ _ Hr0) as [Hle0 Hin0].
  destruct (listSubfoldersFrom_listing _ _ _ _ _ _ Hr0) as [_ Hevs0].
  rewrite Hres1 in H. destruct H as [r2 [Hr2 ->]]. rewrite Haft1 in Hr2.
  unfold andThen. cbn [result after events]. rewrite Hevs1.
  assert (Hlo0 : (lo <= requests (after r0))%nat) by lia.
  assert (Hown : forall hi, (requests w <= hi)%nat ->
            Forall (ListingWithin E lo hi root) (events r0)).
  { intros hi Hhi. apply (listing_within E lo hi root (qid current) d); [exact Hd3| |exact Hevs0].
    apply (below_mono E lo (requests w) hi); assumption. }
  destruct (result r0) as [children|err] eqn:Hres0.
  - destruct (find (nameMatches targetLower) children) as [hit|] eqn:Hfind.
    + injection Hr2 as <-. cbn [result after events]. rewrite app_nil_r.
      split; [exact Hle0|]. split; [apply Hown; exact Hle0|].
      intros fid Hfid. injection Hfid as <-.
      apply find_some in Hfind. destruct Hfind as [Hhit Hmatch].
      exists d, (qid current), hit. split; [exact Hd3|].
      split; [apply (below_mono E lo (requests w)); assumption|].
      split; [|split; [reflexivity|exact Hmatch]].
      destruct (Hin0 children eq_refl hit Hhit) as [[]|Hs].
      apply (servedUnder_mono E (requests w) (requests (after r0))); [lia|lia|exact Hs].
    + assert (Hnext : Forall (QueuedBelow E lo (requests (after r0)) root)
                (if depth current <? maxDepth
                 then queue ++ map (fun c => mkQItem (id c) (depth current + 1)) children
                 else queue)).
      { destruct (depth current <? maxDepth).
        - apply Forall_app. split.
          + apply (queuedBelow_mono E lo (requests w)); assumption.
          + apply Forall_forall. intros item Hitem.
            apply in_map_iff in Hitem. destruct Hitem as [c [<- Hc]].
            exists (S d). cbn [depth qid]. split; [lia|].
            apply (Below_child E lo (requests (after r0)) root d (qid current) c).
            * apply (below_mono E lo (requests w)); assumption.
            * destruct (Hin0 children eq_refl c Hc) as [[]|Hs].
              apply (servedUnder_mono E (requests w) (requests (after r0)));
                [lia|lia|exact Hs].
        - apply (queuedBelow_mono E lo (requests w)); assumption. }
      destruct (IH _ _ _ Hlo0 Hnext Hr2) as [Hle [Hevs Hfound]].
      split; [lia|]. split; [|exact Hfound].
      apply Forall_app. split; [apply Hown; lia|exact Hevs].
  - destruct (isRetryableRateLimit err).
    + apply bind_inv in Hr2. destruct Hr2 as [r3 [Hr3 Hr2]].
      rewrite sleep_run in Hr3. injection Hr3 as <-. cbn [result after] in Hr2.
      destruct Hr2 as [r4 [Hr4 ->]]. cbn [andThen result after events].
      assert (Hnext : Forall (QueuedBelow E lo (requests (after r0)) root)
                (queue ++ [mkQItem (qid current) (depth current)])).
      { apply Forall_app. split.
        - apply (queuedBelow_mono E lo (requests w)); assumption.
        - constructor; [|constructor]. exists d. cbn [depth qid].
          split; [exact Hd|]. apply (below_mono E lo (requests w)); assumption. }
      destruct (IH _ _ _ Hlo0 Hnext Hr4) as [Hle [Hevs Hfound]].
      split; [lia|]. split; [|exact Hfound].
      apply Forall_app. split; [apply Hown; lia|].
      constructor; [left; reflexivity|exact Hevs].
    + assert (Hnext : Forall (QueuedBelow E lo (requests (after r0)) root) queue)
        by (apply (queuedBelow_mono E lo (requests w)); assumption).
      destruct (IH _ _ _ Hlo0 Hnext Hr2) as [Hle [Hevs Hfound]].
      split; [lia|]. split; [|exact Hfound].
      apply Forall_app. split; [apply Hown; lia|exact Hevs].
Qed.

End DepthBound.

(** ** Folder resolution under a parent *)

(** C3, as the code has it.  Under a parent, and whatever the provider
    answers (errors, rate limits and pages included), findFolderByName
    never throws, lists the children of no folder but the parent and
    folders that the provider showed 1 to 3 levels below it, and returns
    only the id of a folder that the provider served as a child of a
    folder it listed, so at most 4 levels below the parent, whose name is
    the target up to case.  When, from the first request of the search on,
    the provider lists every folder in full, the search comes to an end
    and returns the id of the first folder, in breadth-first order among
    the folders 1 to 4 levels below the parent, whose name is the target
    up to case, and null when there is none. *)
Theorem findFolderByName_breadth_first (E : Env) (cfg : Config)
    (target parent : string)
    (Hname : truthy target = true) (Hparent : truthy parent = true) :
  (forall fuel w r,
     findFolderByName E cfg fuel target parent w = Some r ->
     Forall (ListingWithin E (requests w) (requests (after r)) parent) (events r) /\
     exists found,
       result r = Normal found /\
       forall fid, found = Some fid ->
         exists d pid f,
           (d <= 3)%nat /\
           Below E (requests w) (requests (after r)) parent d pid /\
           ServedUnder E (requests w) (requests (after r)) pid f /\
           id f = fid /\ toLowerCase (name f) = toLowerCase target) /\
  (forall (kids : string -> list DriveFile) (w : World),
     Lists E cfg kids (requests w) ->
     exists (N : nat) (w' : World) (evs : list Event),
       (forall fuel, (N <= fuel)%nat ->
          findFolderByName E cfg fuel target parent w =
          Some (mkRun (Normal (firstMatch (toLowerCase target)
                                          (breadthFirst kids parent)))
                      w' evs)) /\
       Forall (ListingIn
                 (parent :: map id (level kids 0 parent ++ level kids 1 parent
                                      ++ level kids 2 parent))) evs).
Proof.
  split.
  - intros fuel w r Hrun.
    destruct (findFolderByName_noThrow E cfg fuel target parent w r Hrun)
      as [found Hfound].
    unfold findFolderByName in Hrun. rewrite Hname, Hparent in Hrun. cbn [negb] in Hrun.
    assert (Hq : Forall (QueuedBelow E (requests w) (requests w) parent)
                        [mkQItem parent 0]).
    { constructor; [|constructor]. exists 0%nat. split; [reflexivity|constructor]. }
    destruct (bfsLoop_within E cfg parent (requests w) _ fuel _ w r (le_n _) Hq Hrun)
      as [_ [Hevs Hhit]].
    split; [exact Hevs|]. exists found. split; [exact Hfound|].
    intros fid ->. destruct (Hhit fid Hfound) as [d [pid [f [Hd [Hb [Hs [Hid Hm]]]]]]].
    exists d, pid, f. split; [exact Hd|]. split; [exact Hb|]. split; [exact Hs|].
    split; [exact Hid|apply String.eqb_eq; exact Hm].
  - intros kids w Hlists.
    destruct (bfs_levels E cfg kids (toLowerCase target) (requests w) Hlists 3 ltac:(lia)
                [parent] [] w (le_n _) ltac:(discriminate))
      as [N [w' [evs [_ [Hevs Hrun]]]]].
    exists N, w', evs. split.
    + intros fuel Hfuel. unfold findFolderByName. rewrite Hname, Hparent. cbn [negb].
      specialize (Hrun fuel Hfuel). cbn [itemsAt map app Z.of_nat] in Hrun.
      change (3 - Z.pos (Pos.of_succ_nat 2)) with 0 in Hrun.
      rewrite Hrun. rewrite <- searchLevels_from, searchLevels_breadthFirst.
      reflexivity.
    + eapply listingIn_mono; [|exact Hevs].
      intros pid Hin. rewrite <- listedFolders_from in Hin.
      apply listedFolders_levels in Hin. destruct Hin as [->|Hin].
      * left. reflexivity.
      * right. exact Hin.
Qed.

(** The theorem at the chain P > A > B > C > J, searched for Jane Doe. *)
Lemma findFolderByName_breadth_first_witness :
  truthy "Jane Doe" = true /\ truthy "P" = true /\
  Lists Sample.chainDrive (Sample.config "P" false) Sample.chainKids 0 /\
  (exists (N : nat) (w' : World) (evs : list Event),
     (forall fuel, (N <= fuel)%nat ->
        findFolderByName Sample.chainDrive (Sample.config "P" false) fuel
                         "Jane Doe" "P" Sample.world0 =
        Some (mkRun (Normal (firstMatch (toLowerCase "Jane Doe")
                                        (breadthFirst Sample.chainKids "P")))
                    w' evs)) /\
     Forall (ListingIn
               ("P" :: map id (level Sample.chainKids 0 "P"
                                 ++ level Sample.chainKids 1 "P"
                                 ++ level Sample.chainKids 2 "P"))) evs) /\
  exists r,
    findFolderByName Sample.stutteringDrive (Sample.config "P" false) 10
                     "Jane Doe" "P" Sample.world0 = Some r /\
    result r = Normal (Some "J2") /\
    Forall (ListingWithin Sample.stutteringDrive 0 (requests (after r)) "P") (events r).
Proof.
  assert (Hlists : Lists Sample.chainDrive (Sample.config "P" false) Sample.chainKids 0)
    by (apply onePage_lists; intros n pid tok _; reflexivity).
  split; [reflexivity|]. split; [reflexivity|]. split; [exact Hlists|].
  split.
  - exact (proj2 (findFolderByName_breadth_first Sample.chainDrive
                    (Sample.config "P" false) "Jane Doe" "P" eq_refl eq_refl)
                 Sample.chainKids Sample.world0 Hlists).
  - eexists.
    eassert (Hrun : findFolderByName Sample.stutteringDrive (Sample.config "P" false) 10
                      "Jane Doe" "P" Sample.world0 = Some _)
      by (vm_compute; reflexivity).
    split; [exact Hrun|]. split; [reflexivity|].
    exact (proj1 (proj1 (findFolderByName_breadth_first Sample.stutteringDrive
                           (Sample.config "P" false) "Jane Doe" "P" eq_refl eq_refl)
                        10%nat Sample.world0 _ Hrun)).
Defined.

(** Why the breadth-first order asks for listings without failure: a
    folder whose listing is rate-limited goes to the end of the queue, and
    a match in a later branch is found first. *)
Lemma soft_retry_reorders :
  firstMatch (toLowerCase "Jane Doe") (breadthFirst Sample.forkKids "P") = Some "J1" /\
  exists w' evs,
    findFolderByName Sample.stutteringDrive (Sample.config "P" false) 10
                     "Jane Doe" "P" Sample.world0 =
    Some (mkRun (Normal (Some "J2")) w' evs).
Proof.
  split; [reflexivity|]. eexists. eexists. vm_compute. reflexivity.
Qed.

(** C3, as it is stated, fails: the folder of Jane Doe is 4 levels below
    the parent, no folder within 3 levels has that name, and the search
    matches its name and returns its id. *)
Lemma depth_limit_counterexample :
  In (mkFile "J" "Jane Doe") (level Sample.chainKids 3 "P") /\
  firstMatch (toLowerCase "Jane Doe")
             (level Sample.chainKids 0 "P" ++ level Sample.chainKids 1 "P"
                ++ level Sample.chainKids 2 "P") = None /\
  exists w' evs,
    findFolderByName Sample.chainDrive (Sample.config "P" false) 10
                     "Jane Doe" "P" Sample.world0 =
    Some (mkRun (Normal (Some "J")) w' evs).
Proof.
  split; [left; reflexivity|]. split; [reflexivity|].
  eexists. eexists. vm_compute. reflexivity.
Qed.

(** ** Turns whose steps are known *)

Lemma notYetShared_guard (p : Participant) :
  notYetShared p = true ->
  truthy (isShared p) && (toLowerCase (isShared p) =? "true")%string = false.
Proof.
  unfold notYetShared. intros H. apply negb_true_iff in H. rewrite H.
  apply andb_false_r.
Qed.

(** Takes a turn through the checks of the email, of duplicates and of
    isShared, up to the lookup of the folder. *)
Ltac past_checks Hpast Hfresh :=
  let Hvalid := fresh "Hvalid" in
  let Hseen := fresh "Hseen" in
  destruct Hpast as [Hvalid Hseen];
  unfold hasValidEmail in Hvalid; unfold seenHas, keyOf in Hseen;
  unfold processOne; finish_with bumpStats_run;
  apply finishes_tryCatch; unfold processBody;
  rewrite Hvalid; cbn [negb];
  eapply finishes_bind; eapply finishes_run; [reflexivity|]; tidy;
  rewrite Hseen;
  eapply finishes_bind; eapply finishes_run; [reflexivity|]; tidy;
  rewrite (notYetShared_guard _ Hfresh).

(** Takes a turn whose folder was found up to the check of the grant. *)
Ltac past_resolution Hres Htruthy :=
  eapply finishes_bind; eapply finishes_run; [exact Hres|]; tidy;
  unfold shareFolder; rewrite Htruthy; cbn [negb];
  finish_with updateCell_run;
  match goal with
  | |- finishes
         (bind (if negb (truthy (folderId ?p))
                then updateCell ?E _ (colOr (folderIdCol ?cols) _) (orEmpty ?found)
                else _) _) (bumpRequests ?w1) _ =>
      let evs2 := fresh "evs2" in
      let Hrun2 := fresh "Hrun2" in
      destruct (folderIdWrite_run E cols p found w1) as [evs2 [Hrun2 _]];
      eapply finishes_bind; eapply finishes_run; [exact Hrun2|]; tidy
  end.

Section KnownTurns.

Variable E : Env.
Variable cfg : Config.
Variable columns : Columns.

(** The turn of a record for which no folder is found. *)
Lemma processOne_notFound (fuel : nat) (p : Participant) (w w2 : World)
    (found : option string) (evs1 : list Event) :
  pastDuplicateCheck p w -> notYetShared p = true ->
  resolveFolder E cfg fuel p (atResolution p w) =
    Some (mkRun (Normal found) w2 evs1) ->
  truthy (orEmpty found) = false ->
  exists w' wa wb ts,
    processOne E cfg columns fuel p w =
      Some (mkRun (Normal FolderNotFound) w'
              (evs1 ++
               updateCellEvents E wa (rowIndex p)
                 (colOr (isFolderExistsCol columns) "E") "FALSE" ++
               updateCellEvents E wb (rowIndex p)
                 (colOr (lastLogCol columns) "F")
                 (Render.folderNotFoundLog ts (nama p)))) /\
    stats w' = incErrors (stats w2).
Proof.
  intros Hpast Hfresh Hres Hfalsy.
  assert (Hfin : finishes (processOne E cfg columns fuel p) w (fun r =>
            exists wa wb ts,
              r = mkRun (Normal FolderNotFound) (after r)
                    (evs1 ++
                     updateCellEvents E wa (rowIndex p)
                       (colOr (isFolderExistsCol columns) "E") "FALSE" ++
                     updateCellEvents E wb (rowIndex p)
                       (colOr (lastLogCol columns) "F")
                       (Render.folderNotFoundLog ts (nama p))) /\
              stats (after r) = incErrors (stats w2))).
  { past_checks Hpast Hfresh.
    eapply finishes_bind; eapply finishes_run; [exact Hres|]; tidy.
    unfold shareFolder. rewrite Hfalsy. cbn [negb]. unfold recordNotFound.
    finish_with bumpStats_run. finish_with updateCell_run.
    finish_with getCurrentTimestamp_run. finish_with updateCell_run.
    apply finishes_ret. tidy.
    eexists. eexists. eexists. rewrite app_nil_r. split; reflexivity. }
  destruct Hfin as [r [Hrun [wa [wb [ts [Hr Hst]]]]]].
  exists (after r), wa, wb, ts. rewrite <- Hr. split; assumption.
Qed.

(** The turn of a record whose key was seen, whatever the fuel. *)
Lemma processOne_duplicate (fuel : nat) (p : Participant) (w : World) :
  hasValidEmail p = true -> seenHas (keyOf p) (seen w) = true ->
  exists w' wa ts,
    processOne E cfg columns fuel p w =
      Some (mkRun (Normal (Skipped Duplicate)) w'
              (updateCellEvents E wa (rowIndex p) "F" (Render.duplicateLog ts))) /\
    stats w' = incSkipped (incTotal (stats w)) /\ seen w' = seen w.
Proof.
  intros Hvalid Hseen. unfold hasValidEmail in Hvalid. unfold seenHas, keyOf in Hseen.
  assert (Hfin : finishes (processOne E cfg columns fuel p) w (fun r =>
            exists wa ts,
              r = mkRun (Normal (Skipped Duplicate)) (after r)
                    (updateCellEvents E wa (rowIndex p) "F" (Render.duplicateLog ts)) /\
              stats (after r) = incSkipped (incTotal (stats w)) /\
              seen (after r) = seen w)).
  { unfold processOne. finish_with bumpStats_run.
    apply finishes_tryCatch. unfold processBody. rewrite Hvalid. cbn [negb].
    eapply finishes_bind; eapply finishes_run; [reflexivity|]; tidy.
    rewrite Hseen.
    finish_with bumpStats_run. finish_with getCurrentTimestamp_run.
    finish_with updateCell_run. apply finishes_ret. tidy.
    eexists. eexists. rewrite app_nil_r. repeat split. }
  destruct Hfin as [r [Hrun [wa [ts [Hr [Hst Hsn]]]]]].
  exists (after r), wa, ts. rewrite <- Hr. repeat split; assumption.
Qed.

(** Outside simulation mode grantPermission comes to an end within its
    six attempts. *)
Lemma grantPermission_finishes (fuel : nat) (fileId email : string) (w : World) :
  dryRun cfg = false -> (6 <= fuel)%nat ->
  exists r, grantPermission E cfg fuel fileId email w = Some r.
Proof.
  intros Hwet Hfuel. unfold grantPermission. rewrite Hwet.
  destruct (retryLoop_finishes E cfg 6 "drive.permissions.create"
              (CtxPermission fileId email "reader") _
              (fun n => mapRes Created (permissionsCreate E n fileId email "reader"))
              _ (permissionsCreateCall_run E fileId email "reader") fuel 0 w
              ltac:(lia) ltac:(lia)) as [k [w' [retried [last [Hrun _]]]]].
  eexists. exact Hrun.
Qed.

(** In simulation mode a turn that reaches the grant ends in Granted. *)
Lemma processOne_grants_dryRun (fuel : nat) (p : Participant) (w w2 w4 : World)
    (found : option string) (evs1 evs3 : list Event) :
  dryRun cfg = true ->
  pastDuplicateCheck p w -> notYetShared p = true ->
  resolveFolder E cfg fuel p (atResolution p w) =
    Some (mkRun (Normal found) w2 evs1) ->
  truthy (orEmpty found) = true ->
  hasPermission E cfg fuel (orEmpty found) (email p) role (atCheck p w2) =
    Some (mkRun (Normal false) w4 evs3) ->
  exists r, processOne E cfg columns fuel p w = Some r /\ result r = Normal Granted.
Proof.
  intros Hdry Hpast Hfresh Hres Htruthy Hhas.
  assert (Hfin : finishes (processOne E cfg columns fuel p) w
                          (fun r => result r = Normal Granted)).
  { past_checks Hpast Hfresh. past_resolution Hres Htruthy.
    eapply finishes_bind; eapply finishes_run; [exact Hhas|]; tidy.
    unfold grantAndRecord.
    finish_with grantPermission_dryRun; [exact Hdry|].
    finish_with bumpStats_run. finish_with updateCell_run.
    finish_with getCurrentTimestamp_run. finish_with updateCell_run.
    finish_with randomBelow_run. finish_with sleep_run.
    apply finishes_ret. reflexivity. }
  exact Hfin.
Qed.

(** Outside simulation mode a turn that finds no grant goes on to create
    one. *)
Lemma processOne_grants (fuel : nat) (p : Participant) (w w2 w4 : World)
    (found : option string) (evs1 evs3 : list Event) :
  dryRun cfg = false -> (6 <= fuel)%nat ->
  pastDuplicateCheck p w -> notYetShared p = true ->
  resolveFolder E cfg fuel p (atResolution p w) =
    Some (mkRun (Normal found) w2 evs1) ->
  truthy (orEmpty found) = true ->
  hasPermission E cfg fuel (orEmpty found) (email p) role (atCheck p w2) =
    Some (mkRun (Normal false) w4 evs3) ->
  exists r,
    processOne E cfg columns fuel p w = Some r /\
    In (EvPermissionsCreate (orEmpty found) (email p) "reader") (events r) /\
    (result r = Normal Granted \/ exists e, result r = Normal (Error e)).
Proof.
  intros Hwet Hfuel Hpast Hfresh Hres Htruthy Hhas.
  destruct (grantPermission_finishes fuel (orEmpty found) (email p) w4 Hwet Hfuel)
    as [rg Hrg].
  pose proof (grantPermission_calls E cfg fuel _ _ w4 rg Hwet Hrg) as Hcall.
  assert (Hfin : finishes (processOne E cfg columns fuel p) w (fun r =>
            In (EvPermissionsCreate (orEmpty found) (email p) "reader") (events r) /\
            (result r = Normal Granted \/ exists e, result r = Normal (Error e)))).
  { past_checks Hpast Hfresh. past_resolution Hres Htruthy.
    eapply finishes_bind; eapply finishes_run; [exact Hhas|]; tidy.
    unfold grantAndRecord.
    eapply finishes_bind; eapply finishes_run; [exact Hrg|].
    destruct (result rg) as [g|err].
    - tidy.
      finish_with bumpStats_run. finish_with updateCell_run.
      finish_with getCurrentTimestamp_run. finish_with updateCell_run.
      finish_with randomBelow_run. finish_with sleep_run.
      apply finishes_ret. tidy. split; [|left; reflexivity].
      rewrite !in_app_iff. tauto.
    - tidy. unfold processCatch.
      finish_with bumpStats_run. finish_with getCurrentTimestamp_run.
      finish_with updateCell_run. finish_with updateCell_run.
      apply finishes_ret. tidy. split; [|right; eexists; reflexivity].
      rewrite !in_app_iff. tauto. }
  exact Hfin.
Qed.

End KnownTurns.

(** ** Folder not found *)

Lemma includes_after (pre p s : string) :
  includes p s = true -> includes p (pre ++ s)%string = true.
Proof.
  intros H. induction pre as [|c pre IH]; [exact H|].
  cbn [String.append includes]. rewrite IH. apply orb_true_r.
Qed.

Lemma incErrors_counts (s : Stats) :
  errors (incErrors (incTotal s)) = errors s + 1 /\
  total (incErrors (incTotal s)) = total s + 1 /\
  done (incErrors (incTotal s)) = done s /\
  skipped (incErrors (incTotal s)) = skipped s.
Proof. repeat split. Qed.

(** C5, as the code has it.  When the lookup of the folder of a record
    that passed the checks yields no folder, neither a cached FolderId nor
    a search hit, the turn ends in FolderNotFound: it writes FALSE to
    isFolderExists and a FOLDER NOT FOUND line to LastLog, the loop goes
    on with the next record, and the outcome is counted in [errors]. *)
Theorem folder_not_found_is_counted (E : Env) (cfg : Config) (columns : Columns)
    (fuel : nat) (p : Participant) (w w2 : World) (found : option string)
    (evs1 : list Event) (rest : list Participant)
    (Hpast : pastDuplicateCheck p w) (Hfresh : notYetShared p = true)
    (Hres : resolveFolder E cfg fuel p (atResolution p w) =
            Some (mkRun (Normal found) w2 evs1))
    (Hnone : truthy (orEmpty found) = false) :
  exists w' events ts,
    processOne E cfg columns fuel p w = Some (mkRun (Normal FolderNotFound) w' events) /\
    In (EvValuesUpdate (rowIndex p) (colOr (isFolderExistsCol columns) "E") "FALSE")
       events /\
    In (EvValuesUpdate (rowIndex p) (colOr (lastLogCol columns) "F")
                       (Render.folderNotFoundLog ts (nama p))) events /\
    includes "FOLDER NOT FOUND" (Render.folderNotFoundLog ts (nama p)) = true /\
    processLoop E cfg columns fuel (p :: rest) w =
      thenRest (mkReport p FolderNotFound events)
               (processLoop E cfg columns fuel rest w') /\
    errors (stats w') = errors (stats w) + 1 /\
    total (stats w') = total (stats w) + 1 /\
    done (stats w') = done (stats w) /\
    skipped (stats w') = skipped (stats w).
Proof.
  destruct (processOne_notFound E cfg columns fuel p w w2 found evs1
              Hpast Hfresh Hres Hnone) as [w' [wa [wb [ts [Hrun Hst]]]]].
  destruct (resolveFolder_obeys E cfg fuel p _ _ Hres) as [[Hst2 _] _].
  cbn in Hst2. rewrite Hst2 in Hst.
  eexists w', _, ts. split; [exact Hrun|].
  split; [apply in_or_app; right; apply in_or_app; left; left; reflexivity|].
  split; [apply in_or_app; right; apply in_or_app; right; left; reflexivity|].
  split.
  { unfold Render.folderNotFoundLog.
    apply (includes_after "["). apply includes_after. reflexivity. }
  split; [apply processLoop_cons; exact Hrun|].
  rewrite Hst. apply incErrors_counts.
Qed.

(** The theorem at a parent without folders, for Jane Doe. *)
Lemma folder_not_found_is_counted_witness :
  exists w2 evs1 w' events ts,
    (pastDuplicateCheck Sample.jane Sample.world0 /\
     notYetShared Sample.jane = true /\
     resolveFolder Sample.emptyDrive (Sample.config "P" false) 10 Sample.jane
                   (atResolution Sample.jane Sample.world0) =
       Some (mkRun (Normal None) w2 evs1) /\
     truthy (orEmpty None) = false) /\
    processOne Sample.emptyDrive (Sample.config "P" false) Sample.columns 10
               Sample.jane Sample.world0 =
      Some (mkRun (Normal FolderNotFound) w' events) /\
    In (EvValuesUpdate 2 "F" (Render.folderNotFoundLog ts "Jane Doe")) events /\
    errors (stats w') = 1.
Proof.
  assert (Hpast : pastDuplicateCheck Sample.jane Sample.world0)
    by (split; reflexivity).
  eassert (Hres : resolveFolder Sample.emptyDrive (Sample.config "P" false) 10
                    Sample.jane (atResolution Sample.jane Sample.world0) =
                  Some (mkRun (Normal None) _ _))
    by (vm_compute; reflexivity).
  destruct (folder_not_found_is_counted Sample.emptyDrive (Sample.config "P" false)
              Sample.columns 10 Sample.jane Sample.world0 _ None _ []
              Hpast eq_refl Hres eq_refl)
    as [w' [events [ts [Hrun [_ [Hlog [_ [_ [Herr _]]]]]]]]].
  eexists. eexists. exists w', events, ts.
  split; [split; [exact Hpast|split; [reflexivity|split; [exact Hres|reflexivity]]]|].
  split; [exact Hrun|]. split; [exact Hlog|exact Herr].
Defined.

(** C5, as it is stated, fails: at a parent without folders the pass over
    Jane Doe ends in FolderNotFound and [errors] is 1. *)
Lemma folder_not_found_counterexample :
  exists r reports,
    processParticipants Sample.emptyDrive (Sample.config "P" false) Sample.columns 10
                        [Sample.jane] Sample.world0 = Some r /\
    result r = Normal reports /\
    map outcome reports = [FolderNotFound] /\
    errors (stats (after r)) = 1.
Proof.
  eexists. eexists. split; [vm_compute; reflexivity|].
  split; [reflexivity|]. split; reflexivity.
Qed.

(** ** Witnesses of the sharding and retry theorems *)

(** The sharding theorem at three workers and two records. *)
Lemma sharding_partitions_witness :
  1 <= 3 /\
  Permutation
    (flat_map (fun i => applySharding 3 i [Sample.jane; Sample.bob]) (shardIndices 3))
    [Sample.jane; Sample.bob] /\
  assignedShard 3 Sample.jane = 0 /\ assignedShard 3 Sample.bob = 1.
Proof.
  split; [lia|]. split.
  - apply (sharding_partitions 3 [Sample.jane; Sample.bob]). lia.
  - split; vm_compute; reflexivity.
Defined.

(** The retry theorem where the listing of permissions is rate-limited
    twice and then answers: hasPermission's loop returns after 3 attempts
    and pauses of at least 2000 and 4000 ms. *)
Lemma retry_policy_witness :
  exists w' retried last,
    hasPermissionLoop Sample.busyDrive (Sample.config "P" false) 5
                      "J" "jane@ex.com" "reader" Sample.world0 =
      Some (mkRun (Normal false) w' (retryTrace (EvPermissionsList "J") 1 retried last)) /\
    List.length retried = 2%nat /\ Forall RetriedOk retried /\
    requests w' = 3%nat /\
    backoffTotal 1 2 = 6000.
Proof.
  destruct (retry_policy Sample.busyDrive (Sample.config "P" false))
    as [_ [Hlist _]].
  destruct (Hlist "J" "jane@ex.com" "reader" 5%nat Sample.world0 2%nat
              ltac:(vm_compute; lia) ltac:(lia)) as [Hok _].
  - intros i Hi. exists Sample.rateLimited.
    destruct i as [|[|i]]; [split; reflexivity|split; reflexivity|lia].
  - destruct (Hok false eq_refl)
      as [w' [retried [last [Hrun [Hlen [Hall [_ [Hreq _]]]]]]]].
    exists w', retried, last.
    split; [exact Hrun|]. split; [exact Hlen|]. split; [exact Hall|].
    split; [exact Hreq|reflexivity].
Defined.

(** ** Simulation mode *)

Lemma record_events_dryRun (cfg : Config) (p : Participant) (evs : list Event) :
  dryRun cfg = true ->
  Forall (RecordEvent cfg p) evs -> Forall (fun ev => isGrantCall ev = false) evs.
Proof.
  intros Hdry. apply Forall_impl.
  intros ev [Hev|[Hev|[Hev|[Hwet _]]]]; try congruence; revert ev Hev; kind_of_event.
Qed.

Lemma pass_events (cfg : Config) (columns : Columns) (working : list Participant)
    (w : World) (r : Run (list Report)) (P : Event -> Prop) :
  PassFacts cfg columns working w r ->
  (forall p evs, Forall (RecordEvent cfg p) evs -> Forall P evs) ->
  Forall P (events r).
Proof.
  intros [reports [_ [_ [Hevs Hturns]]]] HP. rewrite Hevs.
  apply Forall_flat_map. apply Forall_forall. intros rep Hin.
  apply (HP (subject rep)). apply (Turns_events cfg columns reports w (after r) rep Hturns Hin).
Qed.

(** C7. In simulation mode grantPermission returns the sentinel
    [{ status: 'DRY_RUN' }] and makes no call; no turn and no pass creates
    a permission; and a record that reaches the grant is written back with
    TRUE in isShared and a LastLog line tagged DRY_RUN. *)
Theorem dry_run_never_grants (E : Env) (cfg : Config) (columns : Columns)
    (Hdry : dryRun cfg = true) :
  (forall fuel fileId email w,
     grantPermission E cfg fuel fileId email w =
     Some (mkRun (Normal DryRunSentinel) w [])) /\
  (forall fuel participants w r,
     processParticipants E cfg columns fuel participants w = Some r ->
     Forall (fun ev => isGrantCall ev = false) (events r)) /\
  (forall fuel p w w2 w4 found evs1 evs3,
     pastDuplicateCheck p w -> notYetShared p = true ->
     resolveFolder E cfg fuel p (atResolution p w) =
       Some (mkRun (Normal found) w2 evs1) ->
     truthy (orEmpty found) = true ->
     hasPermission E cfg fuel (orEmpty found) (email p) role (atCheck p w2) =
       Some (mkRun (Normal false) w4 evs3) ->
     exists r ts,
       processOne E cfg columns fuel p w = Some r /\
       result r = Normal Granted /\
       Forall (fun ev => isGrantCall ev = false) (events r) /\
       In (EvValuesUpdate (rowIndex p) (colOr (isSharedCol columns) "D") "TRUE")
          (events r) /\
       In (EvValuesUpdate (rowIndex p) (colOr (lastLogCol columns) "F")
                          (Render.grantedLog ts "DRY_RUN" "reader" (email p)))
          (events r) /\
       includes "DRY_RUN" (Render.grantedLog ts "DRY_RUN" "reader" (email p)) = true).
Proof.
  split; [intros; apply grantPermission_dryRun; exact Hdry|].
  split.
  - intros fuel participants w r Hrun.
    apply (pass_events cfg columns _ _ r _
             (processParticipants_ensures E cfg columns fuel participants w r Hrun)).
    intros p evs. apply record_events_dryRun. exact Hdry.
  - intros fuel p w w2 w4 found evs1 evs3 Hpast Hfresh Hres Htruthy Hhas.
    destruct (processOne_grants_dryRun E cfg columns fuel p w w2 w4 found evs1 evs3
                Hdry Hpast Hfresh Hres Htruthy Hhas) as [r [Hrun Hres']].
    destruct (processOne_ensures E cfg columns fuel p w r Hrun)
      as [o [Ho [_ [_ [Hevs Hbranch]]]]].
    rewrite Hres' in Ho. injection Ho as <-. cbn [BranchFacts] in Hbranch.
    rewrite Hdry in Hbranch.
    destruct Hbranch as [_ [Hshared [[ts Hlog] Hnone]]].
    exists r, ts. split; [exact Hrun|]. split; [exact Hres'|].
    split; [apply Hnone; reflexivity|]. split; [exact Hshared|].
    split; [exact Hlog|].
    unfold Render.grantedLog. apply (includes_after "["). apply includes_after.
    reflexivity.
Qed.

(** The theorem at Jane Doe, whose folder is right under the parent. *)
Lemma dry_run_never_grants_witness :
  dryRun (Sample.config "P" true) = true /\
  exists r,
    processParticipants Sample.flatDrive (Sample.config "P" true) Sample.columns 10
                        [Sample.jane] Sample.world0 = Some r /\
    map outcome (match result r with Normal reports => reports | Throw _ => [] end)
      = [Granted] /\
    Forall (fun ev => isGrantCall ev = false) (events r).
Proof.
  split; [reflexivity|].
  eexists. split; [vm_compute; reflexivity|]. split; [reflexivity|].
  refine (proj1 (proj2 (dry_run_never_grants Sample.flatDrive (Sample.config "P" true)
                          Sample.columns eq_refl)) 10%nat [Sample.jane] Sample.world0 _ _).
  vm_compute. reflexivity.
Defined.

(** ** hasPermission fails open *)

(** A check whose listing fails answers [false]. *)
Lemma hasPermission_refused (E : Env) (cfg : Config) (fuel : nat)
    (fileId address role' : string) (w : World) :
  (5 <= fuel)%nat -> CheckFails E fileId (requests w) ->
  exists w' evs,
    hasPermission E cfg fuel fileId address role' w =
    Some (mkRun (Normal false) w' evs).
Proof.
  intros Hfuel [k [e [Hk [Hretry [Hlast Hwhy]]]]].
  destruct (hasPermission_run E cfg fuel fileId address role' w Hfuel)
    as [k' [w' [evs [Hrun [Hk' [_ [_ [_ [Hfail Hfin]]]]]]]]].
  exists w', evs.
  assert (Hsame : k' = k).
  { destruct (Nat.lt_trichotomy k' k) as [Hlt|[Heq|Hgt]]; [exfalso|exact Heq|exfalso].
    - destruct (Hretry k' Hlt) as [e' [He' Hre']]. rewrite He' in Hfin.
      destruct Hfin as [Hno|H4]; [congruence|lia].
    - destruct (Hfail k Hgt) as [e' [He' Hre']]. rewrite Hlast in He'.
      injection He' as <-. destruct Hwhy as [Hno|H4]; [congruence|lia]. }
  subst k'. rewrite Hlast in Hrun. exact Hrun.
Qed.

(** C8. With fuel for its five attempts hasPermission comes to an end and
    never throws.  Its answer is decided by the provider's answer to the
    last listing it made: [false] when that listing failed, whether with
    an error that is not retried or at the fifth retryable failure, and
    [true] only when an entry of the listing has the email, up to case,
    and the role.  So a check whose own listing fails answers [false],
    whatever the provider answers to other requests, and the turn of that
    check goes on to create the grant. *)
Theorem hasPermission_fails_open (E : Env) (cfg : Config) (fuel : nat)
    (fileId address role' : string) (w : World) (Hfuel : (5 <= fuel)%nat) :
  (exists (k : nat) (w' : World) (evs : list Event) (answer : bool),
     hasPermission E cfg fuel fileId address role' w =
       Some (mkRun (Normal answer) w' evs) /\
     (k < 5)%nat /\ requests w' = S (requests w + k) /\
     (forall i, (i < k)%nat ->
        exists e, permissionsList E (requests w + i) fileId = Err e /\
                  isRetryableRateLimit e = true) /\
     match permissionsList E (requests w + k) fileId with
     | Ok permissions =>
         answer = existsb (permissionMatches address role') permissions /\
         (answer = true ->
          exists p a, In p permissions /\ emailAddress p = Some a /\
                      toLowerCase a = toLowerCase address /\ perm_role p = role')
     | Err e =>
         answer = false /\ (isRetryableRateLimit e = false \/ k = 4%nat)
     end /\
     (CheckFails E fileId (requests w) -> answer = false)) /\
  (forall columns p w0 w2 found evs1,
     dryRun cfg = false -> (6 <= fuel)%nat ->
     pastDuplicateCheck p w0 -> notYetShared p = true ->
     resolveFolder E cfg fuel p (atResolution p w0) =
       Some (mkRun (Normal found) w2 evs1) ->
     truthy (orEmpty found) = true ->
     CheckFails E (orEmpty found) (requests (atCheck p w2)) ->
     exists r,
       processOne E cfg columns fuel p w0 = Some r /\
       In (EvPermissionsCreate (orEmpty found) (email p) "reader") (events r) /\
       (result r = Normal Granted \/ exists e, result r = Normal (Error e))).
Proof.
  split.
  - destruct (hasPermission_run E cfg fuel fileId address role' w Hfuel)
      as [k [w' [evs [Hrun [Hk [Hreq [_ [_ [Hfail Hfin]]]]]]]]].
    exists k, w', evs. eexists. split; [exact Hrun|].
    split; [exact Hk|]. split; [exact Hreq|]. split; [exact Hfail|].
    split.
    + destruct (permissionsList E (requests w + k) fileId) as [permissions|e].
      * split; [reflexivity|]. intros Hany. apply existsb_exists in Hany.
        destruct Hany as [p [Hin Hmatch]].
        destruct (permissionMatches_spec address role' p Hmatch) as [a Ha].
        exists p, a. split; [exact Hin|exact Ha].
      * split; [reflexivity|exact Hfin].
    + intros Hfails.
      destruct (hasPermission_refused E cfg fuel fileId address role' w Hfuel Hfails)
        as [w'' [evs'' Hno]].
      rewrite Hrun in Hno. injection Hno as Hno _ _. exact Hno.
  - intros columns p w0 w2 found evs1 Hwet Hfuel6 Hpast Hfresh Hres Htruthy Hfails.
    destruct (hasPermission_refused E cfg fuel (orEmpty found) (email p) role
                (atCheck p w2) Hfuel Hfails) as [w4 [evs3 Hhas]].
    exact (processOne_grants E cfg columns fuel p w0 w2 w4 found evs1 evs3
             Hwet Hfuel6 Hpast Hfresh Hres Htruthy Hhas).
Qed.

(** The theorem at a provider that refuses the listing of permissions at
    the one request of the check of Jane Doe, and at no other: the check
    answers [false] after one attempt, and the turn creates the grant. *)
Lemma hasPermission_fails_open_witness :
  (5 <= 10)%nat /\
  CheckFails Sample.blinkingDrive "J" 1 /\
  permissionsList Sample.blinkingDrive 2 "J" = Ok [] /\
  exists r,
    processOne Sample.blinkingDrive (Sample.config "P" false) Sample.columns 10
               Sample.janeCached Sample.world0 = Some r /\
    In (EvPermissionsCreate "J" "jane@ex.com" "reader") (events r).
Proof.
  assert (Hfails : CheckFails Sample.blinkingDrive "J" 1).
  { exists 0%nat, Sample.forbidden. split; [lia|].
    split; [intros i Hi; lia|]. split; [reflexivity|left; reflexivity]. }
  split; [lia|]. split; [exact Hfails|]. split; [reflexivity|].
  pose proof (hasPermission_fails_open Sample.blinkingDrive (Sample.config "P" false)
                10 "J" "jane@ex.com" "reader" Sample.world0 ltac:(lia))
    as [_ Hturn].
  destruct (Hturn Sample.columns Sample.janeCached Sample.world0
              (atResolution Sample.janeCached Sample.world0) (Some "J") []
              eq_refl ltac:(lia) (conj eq_refl eq_refl) eq_refl eq_refl eq_refl
              Hfails)
    as [r [Hrun [Hcall _]]].
  exists r. split; [exact Hrun|exact Hcall].
Defined.

(** ** updateCell *)

Lemma alike_refl {A} (o : option (Run A)) : alike o o.
Proof. destruct o; cbn; auto. Qed.

Lemma calls_app (l1 l2 : list Event) : calls (l1 ++ l2) = calls l1 ++ calls l2.
Proof. apply filter_app. Qed.

Lemma alike_bind {A B} (m1 m2 : M A) (k1 k2 : A -> M B) (w : World) :
  alike (m1 w) (m2 w) ->
  (forall a w', alike (k1 a w') (k2 a w')) ->
  alike (bind m1 k1 w) (bind m2 k2 w).
Proof.
  unfold bind. destruct (m1 w) as [r1|], (m2 w) as [r2|]; cbn; try tauto.
  intros [Hres [Haft Hev]] Hk. rewrite Hres, Haft.
  destruct (result r2) as [a|e].
  - specialize (Hk a (after r2)).
    destruct (k1 a (after r2)) as [r1'|], (k2 a (after r2)) as [r2'|];
      cbn in *; try tauto.
    destruct Hk as [H1 [H2 H3]]. rewrite !calls_app, Hev, H3. auto.
  - cbn. auto.
Qed.

Lemma alike_tryCatch {A} (m1 m2 : M A) (h1 h2 : JsError -> M A) (w : World) :
  alike (m1 w) (m2 w) ->
  (forall e w', alike (h1 e w') (h2 e w')) ->
  alike (tryCatch m1 h1 w) (tryCatch m2 h2 w).
Proof.
  unfold tryCatch. destruct (m1 w) as [r1|], (m2 w) as [r2|]; cbn; try tauto.
  intros [Hres [Haft Hev]] Hh. rewrite Hres, Haft.
  destruct (result r2) as [a|e] eqn:Hr2.
  - cbn. rewrite Hres. auto.
  - specialize (Hh e (after r2)).
    destruct (h1 e (after r2)) as [r1'|], (h2 e (after r2)) as [r2'|];
      cbn in *; try tauto.
    destruct Hh as [H1 [H2 H3]]. rewrite !calls_app, Hev, H3. auto.
Qed.

Lemma updateCell_alike (E : Env) (answer : nat -> Z -> string -> string -> Res unit)
    (row : Z) (col value : string) (w : World) :
  alike (updateCell (withSheet E answer) row col value w)
        (updateCell E row col value w).
Proof.
  rewrite !updateCell_run. unfold updateCellEvents, withSheet.
  cbn [alike result after events valuesUpdate].
  split; [reflexivity|]. split; [reflexivity|].
  destruct (answer (requests w) row col value),
           (valuesUpdate E (requests w) row col value); reflexivity.
Qed.

(** Walks two computations that differ in their writes to the sheet. *)
Ltac alike_step :=
  first [ apply alike_refl
        | apply updateCell_alike
        | apply alike_bind; [|intros ? ?]
        | apply alike_tryCatch; [|intros ? ?]
        | match goal with
          | |- alike ((if ?b then _ else _) _) ((if ?b then _ else _) _) =>
              destruct b
          end ].

(** What the sheet answers to the writes of a turn changes only the
    warnings of the turn. *)
Lemma processOne_alike (E : Env) (answer : nat -> Z -> string -> string -> Res unit)
    (cfg : Config) (columns : Columns) (fuel : nat) (p : Participant) (w : World) :
  alike (processOne (withSheet E answer) cfg columns fuel p w)
        (processOne E cfg columns fuel p w).
Proof.
  unfold processOne, processBody, processCatch, shareFolder, recordNotFound,
    recordAlreadyGranted, grantAndRecord.
  repeat alike_step.
Qed.

(** C10. updateCell never throws: when the write fails it leaves a warning
    and returns.  So a failed write-back does not end a turn in Error:
    whatever the sheet answers, a turn ends with the same outcome, in the
    same world and counters, after the same calls; a finished turn adds to
    [errors] only for the outcomes FolderNotFound and Error, and Error
    comes only from a failed creation of the grant.  A grant can succeed
    while every write-back of the turn fails. *)
Theorem updateCell_never_raises :
  (forall E row col value w,
     updateCell E row col value w =
     Some (mkRun (Normal tt) (bumpRequests w)
             (EvValuesUpdate row col value ::
              match valuesUpdate E (requests w) row col value with
              | Ok _ => []
              | Err _ => [EvWarn col row]
              end))) /\
  (forall E answer cfg columns fuel p w,
     alike (processOne (withSheet E answer) cfg columns fuel p w)
           (processOne E cfg columns fuel p w)) /\
  (forall E cfg columns fuel p w r,
     processOne E cfg columns fuel p w = Some r ->
     exists o,
       result r = Normal o /\
       stats (after r) = tally o (incTotal (stats w)) /\
       forall e, o = Error e ->
         dryRun cfg = false /\ __op e = Some "drive.permissions.create" /\
         exists f, In (EvPermissionsCreate f (email p) "reader") (events r)) /\
  (exists r,
     processOne Sample.readOnlySheet (Sample.config "P" false) Sample.columns 10
                Sample.jane Sample.world0 = Some r /\
     result r = Normal Granted /\
     In (EvPermissionsCreate "J" "jane@ex.com" "reader") (events r) /\
     In (EvValuesUpdate 2 "D" "TRUE") (events r) /\
     In (EvWarn "D" 2) (events r) /\
     stats (after r) = mkStats 1 1 0 0).
Proof.
  split; [intros; apply updateCell_run|].
  split; [intros; apply processOne_alike|]. split.
  - intros E cfg columns fuel p w r Hrun.
    destruct (processOne_ensures E cfg columns fuel p w r Hrun)
      as [o [Ho [Hst [_ [_ Hbranch]]]]].
    exists o. split; [exact Ho|]. split; [exact Hst|].
    intros e ->. cbn [BranchFacts] in Hbranch.
    destruct Hbranch as [_ [Hwet [Hop [[f [_ Hcall]] _]]]].
    split; [exact Hwet|]. split; [exact Hop|]. exists f. exact Hcall.
  - eexists. split; [vm_compute; reflexivity|].
    split; [reflexivity|].
    cbn [events]. repeat split; cbn; tauto.
Qed.

(** The theorem at the turn of Jane Doe with a sheet that rejects every
    write. *)
Lemma updateCell_never_raises_witness :
  exists r,
    processOne Sample.readOnlySheet (Sample.config "P" false) Sample.columns 10
               Sample.jane Sample.world0 = Some r /\
    exists o, result r = Normal o /\
              stats (after r) = tally o (incTotal (stats Sample.world0)).
Proof.
  eexists. split; [vm_compute; reflexivity|].
  destruct (proj1 (proj2 (proj2 updateCell_never_raises))
              Sample.readOnlySheet (Sample.config "P" false) Sample.columns 10%nat
              Sample.jane Sample.world0 _ ltac:(vm_compute; reflexivity))
    as [o [Ho [Hst _]]].
  exists o. split; [exact Ho|exact Hst].
Defined.

(** ** The working batch *)

Lemma firstn_subset {A} (n : nat) (l : list A) (x : A) :
  In x (firstn n l) -> In x l.
Proof.
  intros H. rewrite <- (firstn_skipn n l). apply in_or_app. left. exact H.
Qed.

Lemma slice0_In {A} (l : list A) (n : Z) (x : A) : In x (slice0 l n) -> In x l.
Proof.
  unfold slice0. destruct (n <? 0); apply firstn_subset.
Qed.

Lemma applySharding_subset (shardTotal shardIndex : Z) (l : list Participant)
    (x : Participant) :
  In x (applySharding shardTotal shardIndex l) -> In x l.
Proof.
  unfold applySharding. destruct (0 <? shardTotal); [|exact (fun H => H)].
  intros H. apply filter_In in H. apply H.
Qed.

(** The records of the batch are normalized, have a name and an email, and
    are not marked shared. *)
Lemma working_members (cfg : Config) (participants : list Participant)
    (s : Participant) :
  In s (workingParticipants cfg participants) ->
  In s (map normalizeOne participants) /\
  hasNameAndEmail s = true /\ notYetShared s = true.
Proof.
  unfold workingParticipants. intros H.
  apply slice0_In, applySharding_subset in H.
  apply filter_In in H. destruct H as [H Hfresh].
  apply filter_In in H. destruct H as [H Hboth].
  split; [exact H|]. split; assumption.
Qed.

Lemma shared_not_fresh (p : Participant) :
  toLowerCase (isShared p) = "true" -> notYetShared (normalizeOne p) = false.
Proof. intros H. unfold notYetShared. cbn. rewrite H. reflexivity. Qed.

(** When every record is marked shared the batch is empty. *)
Lemma working_all_shared (cfg : Config) (participants : list Participant) :
  (forall p, In p participants -> toLowerCase (isShared p) = "true") ->
  workingParticipants cfg participants = [].
Proof.
  intros Hall.
  destruct (workingParticipants cfg participants) as [|s rest] eqn:Hw; [reflexivity|].
  exfalso.
  assert (Hin : In s (workingParticipants cfg participants)) by (rewrite Hw; left; reflexivity).
  apply working_members in Hin. destruct Hin as [Hin [_ Hfresh]].
  apply in_map_iff in Hin. destruct Hin as [p [<- Hp]].
  rewrite (shared_not_fresh p (Hall p Hp)) in Hfresh. discriminate.
Qed.

(** ** Records already marked shared *)

(** C1. No record whose isShared is "true", up to case, gets a turn in a
    pass: every event of the pass belongs to the turn of one record of the
    batch, and the records of the batch are not marked shared.  So no
    grant is created for a record marked shared, and a pass over records
    that are all marked shared makes no call at all. *)
Theorem already_shared_never_granted (E : Env) (cfg : Config) (columns : Columns)
    (fuel : nat) (participants : list Participant) (w : World)
    (r : Run (list Report))
    (Hrun : processParticipants E cfg columns fuel participants w = Some r) :
  exists reports,
    result r = Normal reports /\
    events r = flat_map trail reports /\
    (forall rep, In rep reports ->
       In (subject rep) (map normalizeOne participants) /\
       toLowerCase (isShared (subject rep)) <> "true" /\
       Forall (RecordEvent cfg (subject rep)) (trail rep)) /\
    (forall p, In p participants -> toLowerCase (isShared p) = "true" ->
       forall rep, In rep reports -> subject rep <> normalizeOne p) /\
    ((forall p, In p participants -> toLowerCase (isShared p) = "true") ->
     reports = [] /\ events r = []).
Proof.
  destruct (processParticipants_ensures E cfg columns fuel participants w r Hrun)
    as [reports [Hres [Hsubj [Hevs Hturns]]]].
  assert (Hmember : forall rep, In rep reports ->
            In (subject rep) (workingParticipants cfg participants)).
  { intros rep Hin. rewrite <- Hsubj. apply in_map. exact Hin. }
  exists reports. split; [exact Hres|]. split; [exact Hevs|].
  split.
  { intros rep Hin. destruct (working_members cfg participants _ (Hmember rep Hin))
      as [Hnorm [_ Hfresh]].
    split; [exact Hnorm|]. split.
    - intros Hshared. unfold notYetShared in Hfresh. rewrite Hshared in Hfresh.
      discriminate.
    - apply (Turns_events cfg columns reports _ _ rep Hturns Hin). }
  split.
  { intros p Hp Hshared rep Hin Heq.
    destruct (working_members cfg participants _ (Hmember rep Hin)) as [_ [_ Hfresh]].
    rewrite Heq, (shared_not_fresh p Hshared) in Hfresh. discriminate. }
  intros Hall. rewrite (working_all_shared cfg participants Hall) in Hsubj.
  destruct reports as [|rep rest]; [|discriminate].
  split; [reflexivity|exact Hevs].
Qed.

(** The theorem at a sheet with Jane Doe, marked shared, and Bob Johnson,
    who has no folder: Bob alone gets a turn. *)
Lemma already_shared_never_granted_witness :
  exists r,
    processParticipants Sample.flatDrive (Sample.config "P" false) Sample.columns 10
      [mkParticipant 2 "Jane Doe" "jane@ex.com" "J" "TRUE" "TRUE" ""; Sample.bob]
      Sample.world0 = Some r /\
    exists reports,
      result r = Normal reports /\
      events r = flat_map trail reports /\
      map subject reports = [Sample.bob] /\
      forall rep, In rep reports ->
        toLowerCase (isShared (subject rep)) <> "true".
Proof.
  eexists. split; [vm_compute; reflexivity|].
  destruct (already_shared_never_granted Sample.flatDrive (Sample.config "P" false)
              Sample.columns 10
              [mkParticipant 2 "Jane Doe" "jane@ex.com" "J" "TRUE" "TRUE" ""; Sample.bob]
              Sample.world0 _ ltac:(vm_compute; reflexivity))
    as [reports [Hres [Hevs [Hfresh _]]]].
  exists reports. split; [exact Hres|]. split; [exact Hevs|].
  split; [cbn in Hres; injection Hres as <-; reflexivity|].
  intros rep Hin. apply (Hfresh rep Hin).
Defined.

(** ** Rows without a name or an email *)

Lemma participantsFrom_rows (cols : Columns) (rows : list (list string)) :
  forall index p,
    In p (participantsFrom cols index rows) ->
    index + 2 <= rowIndex p < index + 2 + Z.of_nat (List.length rows).
Proof.
  induction rows as [|row rest IH]; intros index p Hin; [destruct Hin|].
  cbn [participantsFrom List.length] in *. destruct Hin as [<-|Hin].
  - cbn. lia.
  - specialize (IH (index + 1) p Hin). lia.
Qed.

Lemma participantsFrom_split (cols : Columns) (rows : list (list string)) :
  forall index i row,
    nth_error rows i = Some row ->
    participantsFrom cols index rows =
    participantsFrom cols index (firstn i rows)
      ++ participantOfRow cols (index + Z.of_nat i) row
      :: participantsFrom cols (index + Z.of_nat i + 1) (skipn (S i) rows).
Proof.
  induction rows as [|row0 rest IH]; intros index i row Hnth.
  - destruct i; discriminate.
  - destruct i as [|i].
    + injection Hnth as <-. cbn. rewrite Z.add_0_r. reflexivity.
    + cbn [nth_error] in Hnth. cbn [firstn skipn participantsFrom app].
      rewrite (IH (index + 1) i row Hnth).
      replace (index + 1 + Z.of_nat i) with (index + Z.of_nat (S i)) by lia.
      reflexivity.
Qed.

Lemma participantsFrom_length (cols : Columns) (rows : list (list string)) :
  forall index, List.length (participantsFrom cols index rows) = List.length rows.
Proof.
  induction rows as [|row rest IH]; intros index; [reflexivity|].
  cbn. rewrite IH. reflexivity.
Qed.

Lemma without_middle {A} (l1 l2 : list A) (x : A) :
  without (List.length l1) (l1 ++ x :: l2) = l1 ++ l2.
Proof.
  unfold without. induction l1 as [|a l1 IH]; [reflexivity|].
  cbn [List.length app firstn skipn] in *. rewrite IH. reflexivity.
Qed.

(** A record without a name or an email does not reach the batch. *)
Lemma working_drops_blank (cfg : Config) (l1 l2 : list Participant) (x : Participant) :
  hasNameAndEmail (normalizeOne x) = false ->
  workingParticipants cfg (l1 ++ x :: l2) = workingParticipants cfg (l1 ++ l2).
Proof.
  intros Hblank. unfold workingParticipants.
  rewrite !map_app, !filter_app. cbn [map filter]. rewrite Hblank. reflexivity.
Qed.

Lemma blank_row (cols : Columns) (index : Z) (row : list string) :
  trim (cell row (nameCol cols)) = "" \/ trim (cell row (emailCol cols)) = "" ->
  hasNameAndEmail (normalizeOne (participantOfRow cols index row)) = false.
Proof.
  unfold hasNameAndEmail. cbn [nama email normalizeOne participantOfRow].
  intros [->| ->]; [reflexivity|apply andb_false_r].
Qed.

Lemma tallyAll_total (reports : list Report) :
  forall s, total (tallyAll reports s) = total s + Z.of_nat (List.length reports).
Proof.
  induction reports as [|rep rest IH]; intros s.
  - cbn. lia.
  - change (tallyAll (rep :: rest) s)
      with (tallyAll rest (tally (outcome rep) (incTotal s))).
    rewrite IH. cbn [List.length]. destruct (outcome rep) as [why| | | |e]; cbn; lia.
Qed.

Lemma record_event_other_row (cfg : Config) (p : Participant) (row : Z) (ev : Event) :
  rowIndex p <> row -> RecordEvent cfg p ev -> isSheetEventOf row ev = false.
Proof.
  intros Hrow [Hev|[Hev|[Hev|[_ [f ->]]]]]; [| | |reflexivity].
  - revert ev Hev. kind_of_event.
  - revert ev Hev. kind_of_event.
  - unfold SheetEvent in Hev. destruct ev; try reflexivity; cbn in *;
      apply Z.eqb_eq in Hev; apply Z.eqb_neq; congruence.
Qed.

(** C9. A row whose name or whose email is empty after trimming is dropped
    by the normalization: the pass is the pass over the sheet without that
    row, so the row has no turn, no outcome and no share in the counters,
    and no cell of the row is written. *)
Theorem blank_rows_are_dropped (E : Env) (cfg : Config) (columns : Columns)
    (fuel : nat) (rows : list (list string)) (i : nat) (row : list string)
    (w : World)
    (Hrow : nth_error rows i = Some row)
    (Hblank : trim (cell row (nameCol columns)) = "" \/
              trim (cell row (emailCol columns)) = "") :
  workingParticipants cfg (participantsOfRows columns rows) =
    workingParticipants cfg (without i (participantsOfRows columns rows)) /\
  processParticipants E cfg columns fuel (participantsOfRows columns rows) w =
    processParticipants E cfg columns fuel
                        (without i (participantsOfRows columns rows)) w /\
  forall r,
    processParticipants E cfg columns fuel (participantsOfRows columns rows) w = Some r ->
    exists reports,
      result r = Normal reports /\
      events r = flat_map trail reports /\
      (forall rep, In rep reports -> rowIndex (subject rep) <> Z.of_nat i + 2) /\
      Forall (fun ev => isSheetEventOf (Z.of_nat i + 2) ev = false) (events r) /\
      stats (after r) = tallyAll reports (mkStats 0 0 0 0) /\
      total (stats (after r)) = Z.of_nat (List.length reports).
Proof.
  unfold participantsOfRows.
  pose proof (participantsFrom_split columns rows 0 i row Hrow) as Hsplit.
  set (before := participantsFrom columns 0 (firstn i rows)) in *.
  set (x := participantOfRow columns (0 + Z.of_nat i) row) in *.
  set (rest := participantsFrom columns (0 + Z.of_nat i + 1) (skipn (S i) rows)) in *.
  assert (Hlen : List.length before = i).
  { unfold before. rewrite participantsFrom_length, length_firstn.
    apply Nat.min_l. apply Nat.lt_le_incl. apply nth_error_Some. congruence. }
  assert (Hx : hasNameAndEmail (normalizeOne x) = false)
    by (apply blank_row; exact Hblank).
  assert (Hwork : workingParticipants cfg (participantsFrom columns 0 rows) =
                  workingParticipants cfg (without i (participantsFrom columns 0 rows))).
  { rewrite Hsplit. rewrite <- Hlen at 1. rewrite without_middle.
    apply working_drops_blank. exact Hx. }
  split; [exact Hwork|].
  split; [unfold processParticipants; rewrite <- Hwork; reflexivity|].
  intros r Hrun.
  destruct (processParticipants_ensures E cfg columns fuel _ w r Hrun)
    as [reports [Hres [Hsubj [Hevs Hturns]]]].
  assert (Hrows : forall rep, In rep reports ->
            rowIndex (subject rep) <> Z.of_nat i + 2).
  { intros rep Hin.
    assert (Hmem : In (subject rep)
                      (workingParticipants cfg (participantsFrom columns 0 rows)))
      by (rewrite <- Hsubj; apply in_map; exact Hin).
    rewrite Hsplit, (working_drops_blank cfg before rest x Hx) in Hmem.
    apply working_members in Hmem. destruct Hmem as [Hnorm _].
    apply in_map_iff in Hnorm. destruct Hnorm as [q [<- Hq]].
    cbn [rowIndex normalizeOne]. apply in_app_or in Hq. destruct Hq as [Hq|Hq].
    - apply participantsFrom_rows in Hq. rewrite length_firstn in Hq. lia.
    - apply participantsFrom_rows in Hq. lia. }
  exists reports. split; [exact Hres|]. split; [exact Hevs|].
  split; [exact Hrows|]. split.
  { rewrite Hevs. apply Forall_flat_map. apply Forall_forall. intros rep Hin.
    eapply Forall_impl;
      [|apply (Turns_events cfg columns reports _ _ rep Hturns Hin)].
    intros ev. apply record_event_other_row. apply Hrows. exact Hin. }
  pose proof (Turns_stats cfg columns reports _ _ Hturns) as Hst.
  cbn [stats freshLocals] in Hst.
  split; [exact Hst|]. rewrite Hst, tallyAll_total. reflexivity.
Qed.

(** The theorem at a sheet whose second data row has an email of a
    no-break space and a space. *)
Lemma blank_rows_are_dropped_witness :
  exists r,
    processParticipants Sample.flatDrive (Sample.config "P" true) Sample.columns 10
      (participantsOfRows Sample.columns
         [["Jane Doe"; "jane@ex.com"]; ["Bob Johnson"; (Sample.nbsp ++ " ")%string]])
      Sample.world0 = Some r /\
    exists reports,
      result r = Normal reports /\
      (forall rep, In rep reports -> rowIndex (subject rep) <> 3) /\
      Forall (fun ev => isSheetEventOf 3 ev = false) (events r) /\
      total (stats (after r)) = Z.of_nat (List.length reports).
Proof.
  eexists. split; [vm_compute; reflexivity|].
  destruct (blank_rows_are_dropped Sample.flatDrive (Sample.config "P" true)
              Sample.columns 10
              [["Jane Doe"; "jane@ex.com"]; ["Bob Johnson"; (Sample.nbsp ++ " ")%string]]
              1%nat ["Bob Johnson"; (Sample.nbsp ++ " ")%string] Sample.world0
              eq_refl (or_intror eq_refl)) as [_ [_ Hpass]].
  destruct (Hpass _ ltac:(vm_compute; reflexivity))
    as [reports [Hres [_ [Hrows [Hcells [_ Htotal]]]]]].
  exists reports. split; [exact Hres|]. split; [exact Hrows|].
  split; [exact Hcells|exact Htotal].
Defined.

(** ** Duplicates *)

Lemma lower_ascii_idem (c : ascii) : lower_ascii (lower_ascii c) = lower_ascii c.
Proof. destruct c as [[] [] [] [] [] [] [] []]; reflexivity. Qed.

Lemma toLowerCase_idem (s : string) : toLowerCase (toLowerCase s) = toLowerCase s.
Proof.
  induction s as [|c s IH]; [reflexivity|].
  cbn [toLowerCase]. rewrite lower_ascii_idem, IH. reflexivity.
Qed.

(** The emails of the batch are in lower case. *)
Lemma working_email_lower (cfg : Config) (participants : list Participant)
    (s : Participant) :
  In s (workingParticipants cfg participants) -> toLowerCase (email s) = email s.
Proof.
  intros H. apply working_members in H. destruct H as [H _].
  apply in_map_iff in H. destruct H as [p [<- _]].
  cbn [email normalizeOne]. apply toLowerCase_idem.
Qed.

(** The turn of a record whose key was seen is skipped as a duplicate. *)
Lemma turn_duplicate (cfg : Config) (columns : Columns) (p : Participant)
    (w w' : World) (o : Outcome) (evs : list Event) :
  TurnFacts cfg columns p w (mkRun (Normal o) w' evs) ->
  hasValidEmail p = true -> seenHas (keyOf p) (seen w) = true ->
  o = Skipped Duplicate /\
  (exists ts more,
     evs = EvValuesUpdate (rowIndex p) "F" (Render.duplicateLog ts) :: more) /\
  OnlySheetEvents p evs.
Proof.
  intros [o' [Ho [_ [_ [_ Hbranch]]]]] Hvalid Hseen.
  cbn in Ho. injection Ho as <-. cbn [events] in Hbranch.
  destruct o as [[| |]| | | |e]; cbn [BranchFacts] in Hbranch.
  - destruct Hbranch as [H _]. congruence.
  - destruct Hbranch as [_ [_ [Honly Hlog]]]. split; [reflexivity|].
    split; assumption.
  - destruct Hbranch as [[_ H] _]. congruence.
  - destruct Hbranch as [[_ H] _]. congruence.
  - destruct Hbranch as [[_ H] _]. congruence.
  - destruct Hbranch as [[_ H] _]. congruence.
  - destruct Hbranch as [[_ H] _]. congruence.
Qed.

(** The turn of a record with a valid email whose key is new goes past the
    duplicate check. *)
Lemma turn_first (cfg : Config) (columns : Columns) (p : Participant)
    (w w' : World) (o : Outcome) (evs : list Event) :
  TurnFacts cfg columns p w (mkRun (Normal o) w' evs) ->
  hasValidEmail p = true -> seenHas (keyOf p) (seen w) = false ->
  o <> Skipped Duplicate /\ o <> Skipped InvalidEmail.
Proof.
  intros [o' [Ho [_ [_ [_ Hbranch]]]]] Hvalid Hseen.
  cbn in Ho. injection Ho as <-. cbn [events] in Hbranch.
  split; intros ->; cbn [BranchFacts] in Hbranch.
  - destruct Hbranch as [_ [H _]]. congruence.
  - destruct Hbranch as [H _]. congruence.
Qed.

Lemma sheet_events_no_calls (p : Participant) (evs : list Event) :
  OnlySheetEvents p evs ->
  Forall (fun ev => isFolderListing ev = false /\ isPermissionCheck ev = false /\
                    isGrantCall ev = false) evs.
Proof. apply Forall_impl. kind_of_event. Qed.

(** The turn of the later of two records with one key. *)
Lemma later_turn_is_duplicate (cfg : Config) (columns : Columns)
    (before between rest : list Report) (a b : Report) (w w' : World) :
  Turns cfg columns w (before ++ a :: between ++ b :: rest) w' ->
  hasValidEmail (subject a) = true -> hasValidEmail (subject b) = true ->
  keyOf (subject a) = keyOf (subject b) ->
  outcome b = Skipped Duplicate /\
  (exists ts more,
     trail b = EvValuesUpdate (rowIndex (subject b)) "F" (Render.duplicateLog ts) :: more) /\
  OnlySheetEvents (subject b) (trail b).
Proof.
  intros Hturns Hva Hvb Hkey.
  apply Turns_app in Hturns. destruct Hturns as [w1 [_ Hturns]].
  destruct Hturns as [w2 [Ha Hturns]].
  apply Turns_app in Hturns. destruct Hturns as [w3 [Hbetween Hturns]].
  destruct Hturns as [w4 [Hb _]].
  apply (turn_duplicate cfg columns (subject b) w3 w4 _ _ Hb Hvb).
  apply (Turns_seen_keeps cfg columns between w2 w3 _ Hbetween).
  destruct Ha as [o [_ [_ [Hseen _]]]]. cbn in Hseen.
  rewrite Hseen, <- Hkey. apply seenAfter_has. exact Hva.
Qed.

(** C6, as the code has it.  Of two records of the batch with the same
    lower-cased name and email, and an email that contains [@], the later
    one is skipped as a duplicate: its turn writes the duplicate-entry line
    to column F and makes no folder listing, no permission check and no
    grant.  A record with a valid email goes past the duplicate check when
    no earlier record with a valid email has its key; so of the records
    with one pair at most the first goes past it. *)
Theorem duplicates_are_skipped (E : Env) (cfg : Config) (columns : Columns)
    (fuel : nat) (participants : list Participant) (w : World)
    (r : Run (list Report))
    (Hrun : processParticipants E cfg columns fuel participants w = Some r) :
  exists reports,
    result r = Normal reports /\
    map subject reports = workingParticipants cfg participants /\
    (forall before a between b rest,
       reports = before ++ a :: between ++ b :: rest ->
       toLowerCase (nama (subject a)) = toLowerCase (nama (subject b)) ->
       toLowerCase (email (subject a)) = toLowerCase (email (subject b)) ->
       hasValidEmail (subject b) = true ->
       outcome b = Skipped Duplicate /\
       (exists ts more,
          trail b = EvValuesUpdate (rowIndex (subject b)) "F"
                                   (Render.duplicateLog ts) :: more) /\
       Forall (fun ev => isFolderListing ev = false /\ isPermissionCheck ev = false /\
                         isGrantCall ev = false) (trail b)) /\
    (forall before a rest,
       reports = before ++ a :: rest ->
       hasValidEmail (subject a) = true ->
       (forall c, In c before -> hasValidEmail (subject c) = true ->
                  keyOf (subject c) <> keyOf (subject a)) ->
       outcome a <> Skipped Duplicate /\ outcome a <> Skipped InvalidEmail) /\
    (forall fuel' p w0,
       hasValidEmail p = true -> seenHas (keyOf p) (seen w0) = true ->
       exists w' wa ts,
         processOne E cfg columns fuel' p w0 =
         Some (mkRun (Normal (Skipped Duplicate)) w'
                 (updateCellEvents E wa (rowIndex p) "F" (Render.duplicateLog ts)))).
Proof.
  destruct (processParticipants_ensures E cfg columns fuel participants w r Hrun)
    as [reports [Hres [Hsubj [_ Hturns]]]].
  exists reports. split; [exact Hres|]. split; [exact Hsubj|].
  split; [|split;
           [|intros fuel' p w0 Hv Hs;
             destruct (processOne_duplicate E cfg columns fuel' p w0 Hv Hs)
               as [w' [wa [ts [Hone _]]]];
             exists w', wa, ts; exact Hone]].
  - intros before a between b rest Heq Hname Hmail Hvb. subst reports.
    assert (Hlower : forall rep, In rep (before ++ a :: between ++ b :: rest) ->
              toLowerCase (email (subject rep)) = email (subject rep)).
    { intros rep Hin. apply (working_email_lower cfg participants).
      rewrite <- Hsubj. apply in_map. exact Hin. }
    assert (Hsame : email (subject a) = email (subject b)).
    { rewrite <- (Hlower a), <- (Hlower b); [exact Hmail| |].
      - apply in_or_app. right. right. apply in_or_app. right. left. reflexivity.
      - apply in_or_app. right. left. reflexivity. }
    assert (Hva : hasValidEmail (subject a) = true)
      by (unfold hasValidEmail in *; rewrite Hsame; exact Hvb).
    assert (Hkey : keyOf (subject a) = keyOf (subject b))
      by (unfold keyOf, dedupKey; rewrite Hname, Hsame; reflexivity).
    destruct (later_turn_is_duplicate cfg columns before between rest a b _ _
                Hturns Hva Hvb Hkey) as [Ho [Hlog Honly]].
    split; [exact Ho|]. split; [exact Hlog|].
    apply (sheet_events_no_calls (subject b)). exact Honly.
  - intros before a rest Heq Hva Hnew. subst reports.
    apply Turns_app in Hturns. destruct Hturns as [w1 [Hbefore Hturns]].
    destruct Hturns as [w2 [Ha _]].
    apply (turn_first cfg columns (subject a) w1 w2 _ _ Ha Hva).
    destruct (seenHas (keyOf (subject a)) (seen w1)) eqn:Hseen; [exfalso|reflexivity].
    destruct (Turns_seen_char cfg columns before _ _ _ Hbefore Hseen)
      as [Hold|[c [Hin [Hvc Hkc]]]].
    + discriminate.
    + apply (Hnew c Hin Hvc Hkc).
Qed.

(** The theorem at a sheet that lists one participant twice: in capital
    letters, and in small letters between a no-break space and a space. *)
Lemma duplicates_are_skipped_witness :
  exists r,
    processParticipants Sample.flatDrive (Sample.config "P" true) Sample.columns 10
      [mkParticipant 2 Sample.emileUpper "emile@ex.com" "J" "" "" "";
       mkParticipant 3 (Sample.nbsp ++ Sample.emileLower ++ " ")%string "Emile@Ex.com"
                     "J" "" "" ""]
      Sample.world0 = Some r /\
    exists a b,
      result r = Normal [a; b] /\
      outcome a = Granted /\ outcome b = Skipped Duplicate /\
      Forall (fun ev => isFolderListing ev = false /\ isPermissionCheck ev = false /\
                        isGrantCall ev = false) (trail b).
Proof.
  eexists. split; [vm_compute; reflexivity|].
  destruct (duplicates_are_skipped Sample.flatDrive (Sample.config "P" true)
              Sample.columns 10
              [mkParticipant 2 Sample.emileUpper "emile@ex.com" "J" "" "" "";
               mkParticipant 3 (Sample.nbsp ++ Sample.emileLower ++ " ")%string
                             "Emile@Ex.com" "J" "" "" ""]
              Sample.world0 _ ltac:(vm_compute; reflexivity))
    as [reports [Hres [_ [Hlater _]]]].
  cbn [result] in Hres. injection Hres as <-.
  eexists. eexists. split; [reflexivity|]. split; [reflexivity|].
  specialize (Hlater [] _ [] _ [] eq_refl eq_refl eq_refl eq_refl).
  destruct Hlater as [Ho [_ Hnone]]. split; [exact Ho|exact Hnone].
Defined.

(** Why the theorem speaks of keys: the separator can occur in a name or
    an email, and two records with different pairs can have one key. *)
Lemma separator_collision :
  keyOf (mkParticipant 2 "ann|lee" "x@ex.com" "" "" "" "") =
  keyOf (mkParticipant 3 "ann" "lee|x@ex.com" "" "" "" "") /\
  exists r a b,
    processParticipants Sample.flatDrive (Sample.config "P" true) Sample.columns 10
      [mkParticipant 2 "ann|lee" "x@ex.com" "J" "" "" "";
       mkParticipant 3 "ann" "lee|x@ex.com" "J" "" "" ""]
      Sample.world0 = Some r /\
    result r = Normal [a; b] /\
    outcome a = Granted /\ outcome b = Skipped Duplicate.
Proof.
  split; [reflexivity|].
  eexists. eexists. eexists. split; [vm_compute; reflexivity|].
  split; [reflexivity|]. split; reflexivity.
Qed.

(** C6, as it is stated, fails: of two records with one pair whose email
    has no [@], neither goes past the duplicate check and the later one is
    skipped for its email, not as a duplicate. *)
Lemma duplicates_counterexample :
  exists r a b,
    processParticipants Sample.flatDrive (Sample.config "P" false) Sample.columns 10
                        [Sample.noEmail; Sample.noEmailAgain] Sample.world0 = Some r /\
    result r = Normal [a; b] /\
    toLowerCase (nama (subject a)) = toLowerCase (nama (subject b)) /\
    toLowerCase (email (subject a)) = toLowerCase (email (subject b)) /\
    outcome a = Skipped InvalidEmail /\
    outcome b = Skipped InvalidEmail /\
    outcome b <> Skipped Duplicate.
Proof.
  eexists. eexists. eexists. split; [vm_compute; reflexivity|].
  split; [reflexivity|]. repeat split. discriminate.
Qed.

(** * The rest of the engine *)

(** ** Column letters *)

Lemma colNumber_app (d s : string) (acc : Z) :
  colNumber (d ++ s) acc = colNumber s (colNumber d acc).
Proof.
  revert acc. induction d as [|c d IH]; intros acc; [reflexivity|].
  cbn [String.append colNumber]. apply IH.
Qed.

Lemma string_app_assoc (a b c : string) : ((a ++ b) ++ c = a ++ (b ++ c))%string.
Proof. induction a as [|x a IH]; [reflexivity|]. cbn. rewrite IH. reflexivity. Qed.

Lemma string_app_nil_r (a : string) : (a ++ "" = a)%string.
Proof. induction a as [|x a IH]; [reflexivity|]. cbn. rewrite IH. reflexivity. Qed.

Lemma allChars_app (f : ascii -> bool) (d s : string) :
  allChars f (d ++ s) = allChars f d && allChars f s.
Proof.
  induction d as [|c d IH]; [reflexivity|].
  cbn [String.append allChars]. rewrite IH. apply andb_assoc.
Qed.

(** The loop of toCol puts the letters of [n] before [s]. *)
Lemma toColLoop_letters (turns : nat) :
  forall n s, 0 <= n <= Z.of_nat turns ->
    exists d, toColLoop turns n s = (d ++ s)%string /\
              colNumber d 0 = n /\ allChars isUpperLetter d = true /\
              (0 < n -> d <> ""%string).
Proof.
  induction turns as [|turns' IH]; intros n s Hn.
  - exists ""%string. assert (n = 0) by lia. subst n.
    repeat split. lia.
  - cbn [toColLoop]. destruct (0 <? n) eqn:Hpos.
    + apply Z.ltb_lt in Hpos.
      pose proof (Z.mod_pos_bound (n - 1) 26 ltac:(lia)) as Hrem.
      pose proof (Z.div_mod (n - 1) 26 ltac:(lia)) as Hdm.
      set (rem := (n - 1) mod 26) in *.
      set (c := ascii_of_nat (Z.to_nat (65 + rem))).
      assert (Hc : Z.of_nat (nat_of_ascii c) = 65 + rem).
      { unfold c. rewrite nat_ascii_embedding by lia. lia. }
      destruct (IH ((n - 1) / 26) (String c s)) as [d [Hd [Hnum [Hup _]]]].
      { split; [apply Z.div_pos; lia|].
        assert ((n - 1) / 26 <= n - 1) by (apply Z.div_le_upper_bound; lia). lia. }
      exists (d ++ String c "")%string.
      split.
      { rewrite Hd. rewrite string_app_assoc. reflexivity. }
      split.
      { rewrite colNumber_app, Hnum. cbn [colNumber]. rewrite Hc. lia. }
      split.
      { rewrite allChars_app, Hup. cbn [allChars andb]. rewrite andb_true_r.
        unfold isUpperLetter.
        apply andb_true_iff. split; apply Nat.leb_le; lia. }
      intros _. destruct d; discriminate.
    + apply Z.ltb_ge in Hpos. assert (n = 0) by lia. subst n.
      exists ""%string. repeat split. lia.
Qed.

(** The letters of a column spell its index back. *)
Lemma toCol_letters (index : Z) :
  0 <= index ->
  colIndex (toCol index) = index /\
  allChars isUpperLetter (toCol index) = true /\
  toCol index <> ""%string.
Proof.
  intros Hindex. unfold toCol, colIndex.
  destruct (toColLoop_letters (Z.to_nat (index + 1)) (index + 1) ""%string
              ltac:(lia)) as [d [Hd [Hnum [Hup Hne]]]].
  rewrite Hd, string_app_nil_r.
  split; [lia|]. split; [exact Hup|apply Hne; lia].
Qed.

Lemma toCol_injective (i j : Z) : 0 <= i -> 0 <= j -> toCol i = toCol j -> i = j.
Proof.
  intros Hi Hj Heq.
  destruct (toCol_letters i Hi) as [Hci _]. destruct (toCol_letters j Hj) as [Hcj _].
  rewrite Heq in Hci. congruence.
Qed.

(** X1. toCol turns the zero-based index of a column into its A1 letters:
    only capital letters, at least one, and the letters spell the index
    back, so two columns never get the same letters.  An index below zero
    gives no letter at all. *)
Theorem toCol_round_trip :
  (forall index, 0 <= index ->
     colIndex (toCol index) = index /\
     allChars isUpperLetter (toCol index) = true /\
     toCol index <> ""%string) /\
  (forall i j, 0 <= i -> 0 <= j -> toCol i = toCol j -> i = j) /\
  (forall index, index < 0 -> toCol index = ""%string) /\
  toCol 0 = "A"%string /\ toCol 25 = "Z"%string /\ toCol 26 = "AA"%string /\
  toCol 701 = "ZZ"%string /\ toCol 702 = "AAA"%string.
Proof.
  split; [exact toCol_letters|]. split; [exact toCol_injective|].
  split.
  { intros index Hneg. unfold toCol.
    destruct (Z.to_nat (index + 1)) as [|t]; [reflexivity|].
    cbn [toColLoop]. replace (0 <? index + 1) with false; [reflexivity|].
    symmetry. apply Z.ltb_ge. lia. }
  repeat split; vm_compute; reflexivity.
Qed.

(** ** The hash of the sharding key *)

Lemma charCodes_app (s t : string) :
  charCodes (s ++ t) = charCodes s ++ charCodes t.
Proof.
  induction s as [|c s IH]; [reflexivity|].
  cbn [String.append charCodes app]. rewrite IH. reflexivity.
Qed.

Lemma djb2_app (l1 l2 : list Z) :
  forall h, djb2 (l1 ++ l2) h = djb2 l2 (djb2 l1 h).
Proof.
  induction l1 as [|c l1 IH]; intros h; [reflexivity|].
  cbn [app djb2]. apply IH.
Qed.

(** X2. hashKey is the djb2 hash in 32 bits: with the sign forced at every
    step and the result read as unsigned, it is [h * 33 + c] over the code
    units, from 5381, modulo [2^32].  So the hash of a string followed by
    one more character comes from the hash of the string alone, and the
    hash of the empty string is 5381. *)
Theorem hashKey_is_djb2 :
  (forall s, hashKey s = djb2 (charCodes s) 5381 mod 2 ^ 32) /\
  (forall s c,
     hashKey (s ++ String c "") =
     (hashKey s * 33 + Z.of_nat (nat_of_ascii c)) mod 2 ^ 32) /\
  (forall s, 0 <= hashKey s < 2 ^ 32) /\
  hashKey "" = 5381.
Proof.
  split; [exact hashKey_djb2|]. split.
  - intros s c. rewrite !hashKey_djb2, charCodes_app, djb2_app.
    cbn [charCodes djb2].
    rewrite <- (Zplus_mod_idemp_l (_ mod _ * 33)), Zmult_mod_idemp_l.
    rewrite Zplus_mod_idemp_l. reflexivity.
  - split; [exact hashKey_range|reflexivity].
Qed.

(** ** The throttle *)

(** X3. throttle reads the clock twice, makes no request and never throws.
    When less than [minDelay] ms have passed since the last stamp it pauses
    once, for the rest of the delay and a jitter below 400 ms, and else not
    at all; then it stamps [lastApiCallAt] with the second reading.  So
    when the clock has moved on by the pause at least, two stamps in a row
    are [minDelay] ms apart or more.  [minDelay] is the configured
    throttleMs, and 2500 when that is 0. *)
Theorem throttle_spaces_calls (E : Env) (cfg : Config) (w : World) :
  let now := clock E (clockReads w) in
  let stamp := clock E (S (clockReads w)) in
  let elapsed := now - lastApiCallAt w in
  exists w' evs,
    throttle E cfg w = Some (mkRun (Normal tt) w' evs) /\
    requests w' = requests w /\ clockReads w' = S (S (clockReads w)) /\
    lastApiCallAt w' = stamp /\ stats w' = stats w /\ seen w' = seen w /\
    (minDelay cfg <= elapsed -> evs = [] /\ draws w' = draws w) /\
    (elapsed < minDelay cfg ->
     exists jitter, 0 <= jitter < 400 /\
       evs = [EvSleep (minDelay cfg - elapsed + jitter)] /\ draws w' = S (draws w)) /\
    (now + sleptMs evs <= stamp -> minDelay cfg <= stamp - lastApiCallAt w) /\
    minDelay cfg = (if throttleMs cfg =? 0 then 2500 else throttleMs cfg).
Proof.
  cbv zeta. unfold throttle, bind. rewrite dateNow_run. cbn.
  destruct (clock E (clockReads w) - lastApiCallAt w <? minDelay cfg) eqn:Hlt; cbn.
  - apply Z.ltb_lt in Hlt.
    pose proof (Z.mod_pos_bound (mathRandom E (draws w)) 400 ltac:(lia)) as Hj.
    eexists. eexists. split; [reflexivity|]. cbn.
    repeat split; try lia.
    exists (mathRandom E (draws w) mod 400). repeat split; lia.
  - apply Z.ltb_ge in Hlt.
    eexists. eexists. split; [reflexivity|]. cbn.
    repeat split; try lia.
Qed.

(** ** The attempts of grantPermission *)

Lemma retryTrace_calls (callEv : Event) (P : Event -> bool)
    (retried : list (list Event * Z)) (last : list Event) :
  P callEv = true -> (forall ms, P (EvSleep ms) = false) ->
  forall attempt,
    Forall RetriedOk retried -> ThrottleTrace last ->
    List.length (filter P (retryTrace callEv attempt retried last))
    = S (List.length retried).
Proof.
  intros Hcall Hpause.
  assert (Hthr : forall thr, ThrottleTrace thr -> filter P thr = []).
  { intros thr [->|[ms [_ ->]]]; [reflexivity|]. cbn. rewrite Hpause. reflexivity. }
  induction retried as [|[thr j] rest IH]; intros attempt Hok Hlast.
  - cbn [retryTrace]. rewrite filter_app, (Hthr last Hlast). cbn. rewrite Hcall.
    reflexivity.
  - inversion Hok as [|? ? [Hthr1 _] Hrest]; subst. cbn in Hthr1.
    cbn [retryTrace]. rewrite filter_app, (Hthr thr Hthr1).
    cbn [app filter]. rewrite Hcall, Hpause. cbn [List.length].
    rewrite (IH (attempt + 1) Hrest Hlast). reflexivity.
Qed.

(** X4. Outside simulation mode, and whatever the provider answers,
    grantPermission comes to an end within six requests to create the
    grant.  The requests before the last were answered with retryable
    rate-limit errors; the answer to the last one decides: its data is
    returned, or its error is thrown with the operation and its context
    attached.  An error that is not a retryable rate limit is thrown at
    once, after a single request and without a pause for backoff. *)
Theorem grantPermission_attempts (E : Env) (cfg : Config) (fuel : nat)
    (fileId address : string) (w : World)
    (Hwet : dryRun cfg = false) (Hfuel : (6 <= fuel)%nat) :
  exists (k : nat) (w' : World) (evs : list Event),
    grantPermission E cfg fuel fileId address w =
      Some (mkRun (finalResult "drive.permissions.create"
                     (CtxPermission fileId address "reader")
                     (mapRes Created
                        (permissionsCreate E (requests w + k) fileId address "reader")))
                  w' evs) /\
    (k < 6)%nat /\
    requests w' = S (requests w + k) /\
    List.length (filter isGrantCall evs) = S k /\
    (forall i, (i < k)%nat ->
       exists e, permissionsCreate E (requests w + i) fileId address "reader" = Err e /\
                 isRetryableRateLimit e = true) /\
    (forall e, permissionsCreate E (requests w) fileId address "reader" = Err e ->
       isRetryableRateLimit e = false ->
       k = 0%nat /\ ThrottleTrace (filter isPause evs)) /\
    (forall e, permissionsCreate E (requests w + k) fileId address "reader" = Err e ->
       isRetryableRateLimit e = false \/ k = 5%nat).
Proof.
  destruct (retryLoop_finishes E cfg 6 "drive.permissions.create"
              (CtxPermission fileId address "reader") _
              (fun n => mapRes Created (permissionsCreate E n fileId address "reader"))
              _ (permissionsCreateCall_run E fileId address "reader") fuel 0 w
              ltac:(lia) ltac:(lia))
    as [k [w' [retried [last [Hloop [Hlen [Hok [Hlast [Hfail [Hk [Hfin [Hreq _]]]]]]]]]]]].
  assert (Hfail' : forall i, (i < k)%nat ->
            exists e, permissionsCreate E (requests w + i) fileId address "reader" = Err e /\
                      isRetryableRateLimit e = true).
  { intros i Hi. destruct (Hfail i Hi) as [e [He Hre]].
    destruct (permissionsCreate E (requests w + i) fileId address "reader") as [d|e'];
      [discriminate|].
    exists e'. cbn in He. injection He as <-. split; [reflexivity|exact Hre]. }
  exists k, w', (retryTrace (EvPermissionsCreate fileId address "reader") (0 + 1)
                            retried last).
  split; [unfold grantPermission; rewrite Hwet; exact Hloop|].
  split; [destruct Hk as [Hk|Hk]; lia|].
  split; [exact Hreq|].
  split.
  { rewrite <- Hlen. apply retryTrace_calls; try assumption; reflexivity. }
  split; [exact Hfail'|].
  split.
  { intros e He Hre.
    assert (Hk0 : k = 0%nat).
    { destruct k as [|k']; [reflexivity|exfalso].
      destruct (Hfail' 0%nat ltac:(lia)) as [e' [He' Hre']].
      rewrite Nat.add_0_r in He'. congruence. }
    split; [exact Hk0|]. rewrite Hk0 in Hlen.
    destruct retried; [|discriminate]. cbn [retryTrace].
    rewrite filter_app. cbn. rewrite app_nil_r.
    destruct Hlast as [->|[ms [Hms ->]]]; [left; reflexivity|].
    right. exists ms. split; [exact Hms|reflexivity]. }
  intros e He. rewrite He in Hfin. cbn in Hfin.
  destruct Hfin as [Hfin|Hfin]; [left; exact Hfin|right].
  destruct Hk as [Hk|Hk]; lia.
Qed.

(** The theorem where every request to create the grant is refused as
    forbidden: one request, and the error comes back wrapped. *)
Lemma grantPermission_attempts_witness :
  dryRun (Sample.config "P" false) = false /\ (6 <= 6)%nat /\
  exists w' evs,
    grantPermission Sample2.lockedDrive (Sample.config "P" false) 6
                    "J" "jane@ex.com" Sample.world0 =
      Some (mkRun (Throw (wrapError "drive.permissions.create"
                            (CtxPermission "J" "jane@ex.com" "reader")
                            Sample.forbidden)) w' evs) /\
    requests w' = 1%nat /\
    List.length (filter isGrantCall evs) = 1%nat.
Proof.
  split; [reflexivity|]. split; [lia|].
  destruct (grantPermission_attempts Sample2.lockedDrive (Sample.config "P" false) 6
              "J" "jane@ex.com" Sample.world0 eq_refl ltac:(lia))
    as [k [w' [evs [Hrun [_ [Hreq [Hcalls [_ [Hfast _]]]]]]]]].
  destruct (Hfast Sample.forbidden eq_refl eq_refl) as [Hk _]. subst k.
  exists w', evs. split; [exact Hrun|]. split; [exact Hreq|exact Hcalls].
Defined.

(** ** The pages of a listing *)

Lemma throttleTrace_no_listing (thr : list Event) :
  ThrottleTrace thr -> filter isFolderListing thr = [].
Proof. intros [->|[ms [_ ->]]]; reflexivity. Qed.

Lemma listSubfoldersFrom_pages (E : Env) (cfg : Config) (pid : string)
    (pages : list FilesPage) :
  forall fuel all tok w,
    Paged E pid (requests w) tok pages -> (List.length pages <= fuel)%nat ->
    exists w' evs,
      listSubfoldersFrom E cfg fuel pid all tok w =
        Some (mkRun (Normal (all ++ flat_map files pages)) w' evs) /\
      requests w' = (requests w + List.length pages)%nat /\
      stats w' = stats w /\ seen w' = seen w /\
      filter isFolderListing evs = pageRequests pid tok pages.
Proof.
  induction pages as [|page rest IH]; intros fuel all tok w Hpaged Hfuel;
    [destruct Hpaged|].
  destruct fuel as [|fuel']; [cbn in Hfuel; lia|].
  destruct Hpaged as [Hpage Hrest].
  destruct (throttle_run E cfg w) as [w1 [thr [Hthr [Hreq [Hst [Hseen Htrace]]]]]].
  cbn [listSubfoldersFrom]. unfold bind at 1. rewrite Hthr. cbn [result after events].
  unfold bind at 1. rewrite driveFilesList_run, Hreq, Hpage.
  cbn [resultOfRes result after events].
  destruct rest as [|page2 rest'].
  - rewrite Hrest. cbn [flat_map]. rewrite app_nil_r.
    unfold ret. cbn [result after events].
    eexists. eexists. split; [reflexivity|].
    cbn [List.length requests bumpRequests stats seen pageRequests].
    split; [rewrite Hreq; lia|]. split; [exact Hst|]. split; [exact Hseen|].
    rewrite filter_app, (throttleTrace_no_listing thr Htrace). reflexivity.
  - destruct Hrest as [t [Htok Hrest]]. rewrite Htok.
    destruct (IH fuel' (all ++ files page) (Some t) (bumpRequests w1))
      as [w' [evs [Hrun [Hreq' [Hst' [Hseen' Hevs]]]]]].
    { cbn [requests bumpRequests]. rewrite Hreq. exact Hrest. }
    { cbn [List.length] in *. lia. }
    rewrite Hrun. cbn [result after events].
    eexists. eexists. split.
    { cbn [flat_map]. rewrite <- !app_assoc. reflexivity. }
    cbn [requests bumpRequests stats seen] in Hreq', Hst', Hseen'.
    split; [rewrite Hreq', Hreq; cbn [List.length]; lia|].
    split; [congruence|]. split; [congruence|].
    rewrite !filter_app, (throttleTrace_no_listing thr Htrace), Hevs.
    cbn [pageRequests app filter isFolderListing]. rewrite Htok. reflexivity.
Qed.

(** X5. listSubfolders follows the page tokens: when the provider answers
    the listing of a folder in pages, the first request carries no token,
    each next request carries the token of the page before it, every
    request asks for 100 entries, and the loop ends at the first page
    without a token.  The result is the entries of all pages, in order,
    after as many requests as there are pages. *)
Theorem listSubfolders_concatenates_pages (E : Env) (cfg : Config) (pid : string)
    (pages : list FilesPage) (fuel : nat) (w : World)
    (Hpaged : Paged E pid (requests w) None pages)
    (Hfuel : (List.length pages <= fuel)%nat) :
  exists w' evs,
    listSubfolders E cfg fuel pid w =
      Some (mkRun (Normal (flat_map files pages)) w' evs) /\
    requests w' = (requests w + List.length pages)%nat /\
    filter isFolderListing evs = pageRequests pid None pages.
Proof.
  destruct (listSubfoldersFrom_pages E cfg pid pages fuel [] None w Hpaged Hfuel)
    as [w' [evs [Hrun [Hreq [_ [_ Hevs]]]]]].
  exists w', evs. split; [exact Hrun|]. split; [exact Hreq|exact Hevs].
Qed.

(** The theorem at a folder that is listed in two pages. *)
Lemma listSubfolders_concatenates_pages_witness :
  exists w' evs,
    listSubfolders Sample2.pagedDrive (Sample.config "P" false) 2 "P" Sample.world0 =
      Some (mkRun (Normal [mkFile "A" "Ann Lee"; mkFile "J" "Jane Doe"]) w' evs) /\
    requests w' = 2%nat /\
    filter isFolderListing evs =
      [EvFilesList (ChildrenOf "P") 100 None;
       EvFilesList (ChildrenOf "P") 100 (Some "t1")].
Proof.
  apply (listSubfolders_concatenates_pages Sample2.pagedDrive (Sample.config "P" false)
           "P" [mkPage [mkFile "A" "Ann Lee"] (Some "t1");
                mkPage [mkFile "J" "Jane Doe"] None] 2 Sample.world0).
  - cbn. split; [reflexivity|]. exists "t1". split; [reflexivity|].
    split; reflexivity.
  - cbn. lia.
Defined.

(** ** A listing that is always rate-limited *)

Lemma attempt_thrown {A} (m : M A) (w w' : World) (e : JsError) (evs : list Event) :
  m w = Some (mkRun (Throw e) w' evs) ->
  attempt m w = Some (mkRun (Normal (Throw e)) w' (evs ++ [])).
Proof. intros H. unfold attempt, tryCatch, bind. rewrite H. reflexivity. Qed.

Lemma listSubfolders_limited (E : Env) (cfg : Config) :
  (forall n pid tok, exists e,
     filesList E n (ChildrenOf pid) 100 tok = Err e /\ isRetryableRateLimit e = true) ->
  forall fuel pid w,
    exists e w' evs,
      listSubfolders E cfg (S fuel) pid w = Some (mkRun (Throw e) w' evs) /\
      isRetryableRateLimit e = true.
Proof.
  intros Hlimited fuel pid w.
  destruct (throttle_run E cfg w) as [w1 [thr [Hthr _]]].
  destruct (Hlimited (requests w1) pid None) as [e [He Hre]].
  exists e. unfold listSubfolders. cbn [listSubfoldersFrom].
  unfold bind at 1. rewrite Hthr. cbn [result after events].
  unfold bind at 1. rewrite driveFilesList_run, He. cbn [resultOfRes result after events].
  eexists. eexists. split; [reflexivity|exact Hre].
Qed.

Lemma bfsLoop_starves (E : Env) (cfg : Config) (targetLower : string) :
  (forall n pid tok, exists e,
     filesList E n (ChildrenOf pid) 100 tok = Err e /\ isRetryableRateLimit e = true) ->
  forall fuel queue w,
    queue <> [] -> Forall (fun item => depth item <= maxDepth) queue ->
    bfsLoop E cfg fuel targetLower queue w = None.
Proof.
  intros Hlimited. induction fuel as [|fuel' IH]; intros queue w Hne Hdepth;
    [reflexivity|].
  destruct queue as [|current queue]; [congruence|].
  inversion Hdepth as [|? ? Hcur Hrest]; subst.
  cbn [bfsLoop]. replace (depth current >? maxDepth) with false
    by (symmetry; rewrite Z.gtb_ltb; apply Z.ltb_ge; exact Hcur).
  destruct fuel' as [|fuel''].
  - reflexivity.
  - destruct (listSubfolders_limited E cfg Hlimited fuel'' (qid current) w)
      as [e [w1 [evs [Hlist Hre]]]].
    unfold bind at 1. rewrite (attempt_thrown _ _ _ _ _ Hlist).
    cbn [result after events]. rewrite Hre.
    unfold bind at 1. rewrite sleep_run. cbn [result after events].
    rewrite IH; [reflexivity| |].
    + destruct queue; discriminate.
    + apply Forall_app. split; [exact Hrest|]. constructor; [exact Hcur|constructor].
Qed.

(** X6. The search under a parent has no bound on its soft retries: a
    folder whose listing fails with a retryable rate limit is put back at
    the end of the queue after a pause of one second, whatever the number
    of failures before.  So when every listing of child folders is answered
    with a rate limit, findFolderByName never returns: no amount of fuel
    yields a result. *)
Theorem findFolderByName_retries_without_bound (E : Env) (cfg : Config)
    (target parent : string)
    (Hname : truthy target = true) (Hparent : truthy parent = true)
    (Hlimited : forall n pid tok, exists e,
       filesList E n (ChildrenOf pid) 100 tok = Err e /\
       isRetryableRateLimit e = true) :
  forall fuel w, findFolderByName E cfg fuel target parent w = None.
Proof.
  intros fuel w. unfold findFolderByName. rewrite Hname, Hparent. cbn [negb].
  apply bfsLoop_starves; [exact Hlimited|discriminate|].
  constructor; [cbn; unfold maxDepth; lia|constructor].
Qed.

(** The theorem at a provider that rate-limits every listing. *)
Lemma findFolderByName_retries_without_bound_witness :
  truthy "Jane Doe" = true /\ truthy "P" = true /\
  (forall n pid tok, exists e,
     filesList Sample2.jammedDrive n (ChildrenOf pid) 100 tok = Err e /\
     isRetryableRateLimit e = true) /\
  findFolderByName Sample2.jammedDrive (Sample.config "P" false) 1000
                   "Jane Doe" "P" Sample.world0 = None.
Proof.
  assert (Hlimited : forall n pid tok, exists e,
            filesList Sample2.jammedDrive n (ChildrenOf pid) 100 tok = Err e /\
            isRetryableRateLimit e = true)
    by (intros n pid tok; exists Sample.rateLimited; split; reflexivity).
  split; [reflexivity|]. split; [reflexivity|]. split; [exact Hlimited|].
  exact (findFolderByName_retries_without_bound Sample2.jammedDrive
           (Sample.config "P" false) "Jane Doe" "P" eq_refl eq_refl Hlimited
           1000%nat Sample.world0).
Defined.

(** ** What a search can return *)

Lemma served_mono (E : Env) (lo hi lo' hi' : nat) (f : DriveFile) :
  (lo' <= lo)%nat -> (hi <= hi')%nat -> Served E lo hi f -> Served E lo' hi' f.
Proof.
  intros Hlo Hhi [n [q [ps [tok [page [Hn H]]]]]].
  exists n, q, ps, tok, page. split; [lia|exact H].
Qed.

Section Soundness.

Variable E : Env.
Variable cfg : Config.

(** The entries that a listing returns were served by the provider during
    the listing. *)
Lemma listSubfoldersFrom_served (pid : string) (fuel : nat) :
  forall all tok w r,
    listSubfoldersFrom E cfg fuel pid all tok w = Some r ->
    (requests w <= requests (after r))%nat /\
    forall l, result r = Normal l ->
      forall f, In f l -> In f all \/ Served E (requests w) (requests (after r)) f.
Proof.
  induction fuel as [|fuel' IH]; intros all tok w r H; [discriminate|].
  cbn [listSubfoldersFrom] in H.
  destruct (throttle_run E cfg w) as [w1 [thr [Hthr [Hreq _]]]].
  unfold bind at 1 in H. rewrite Hthr in H. cbn [result after events] in H.
  unfold bind at 1 in H. rewrite driveFilesList_run, Hreq in H.
  destruct (filesList E (requests w) (ChildrenOf pid) 100 tok) as [page|e] eqn:Hpage;
    cbn [resultOfRes result after events] in H.
  - destruct (nextToken page) as [t|].
    + destruct (listSubfoldersFrom E cfg fuel' pid (all ++ files page) (Some t)
                  (bumpRequests w1)) as [r'|] eqn:Hrec; [|discriminate].
      destruct (IH _ _ _ _ Hrec) as [Hle Hin]. cbn [requests bumpRequests] in Hle, Hin.
      rewrite Hreq in Hle, Hin.
      cbn [result after events] in H. injection H as <-. cbn [result after].
      split; [lia|]. intros l Hl f Hf.
      destruct (Hin l Hl f Hf) as [Hold|Hnew].
      * apply in_app_or in Hold. destruct Hold as [Hold|Hold]; [left; exact Hold|].
        right. exists (requests w), (ChildrenOf pid), 100, tok, page.
        split; [lia|]. split; assumption.
      * right. apply (served_mono E (S (requests w)) (requests (after r'))); [lia|lia|].
        exact Hnew.
    + cbn in H. injection H as <-. cbn [result after requests bumpRequests].
      rewrite Hreq. split; [lia|]. intros l Hl f Hf. injection Hl as <-.
      apply in_app_or in Hf. destruct Hf as [Hf|Hf]; [left; exact Hf|].
      right. exists (requests w), (ChildrenOf pid), 100, tok, page.
      split; [lia|]. split; assumption.
  - injection H as <-. cbn [result after requests bumpRequests]. rewrite Hreq.
    split; [lia|]. intros l Hl. discriminate.
Qed.

Lemma bfsLoop_served (targetLower : string) (fuel : nat) :
  forall queue w r,
    bfsLoop E cfg fuel targetLower queue w = Some r ->
    (requests w <= requests (after r))%nat /\
    forall fid, result r = Normal (Some fid) ->
      exists f, Served E (requests w) (requests (after r)) f /\
                id f = fid /\ nameMatches targetLower f = true.
Proof.
  induction fuel as [|fuel' IH]; intros queue w r H; [discriminate|].
  cbn [bfsLoop] in H.
  destruct queue as [|current queue].
  { injection H as <-. cbn. split; [lia|]. intros fid Hfid. discriminate. }
  destruct (depth current >? maxDepth); [apply (IH _ _ _ H)|].
  apply bind_inv in H. destruct H as [r1 [Hr1 H]].
  apply attempt_inv in Hr1. destruct Hr1 as [r0 [Hr0 [Hres1 Haft1]]].
  destruct (listSubfoldersFrom_served _ _ _ _ _ _ Hr0) as [Hle0 Hin0].
  rewrite Hres1 in H. destruct H as [r2 [Hr2 ->]]. rewrite Haft1 in Hr2.
  unfold andThen. cbn [result after]. 
  destruct (result r0) as [children|err] eqn:Hres0.
  - destruct (find (nameMatches targetLower) children) as [hit|] eqn:Hfind.
    + injection Hr2 as <-. cbn [result after]. split; [exact Hle0|].
      intros fid Hfid. injection Hfid as <-.
      apply find_some in Hfind. destruct Hfind as [Hhit Hmatch].
      exists hit. split; [|split; [reflexivity|exact Hmatch]].
      destruct (Hin0 children eq_refl hit Hhit) as [[]|Hs]. exact Hs.
    + destruct (IH _ _ _ Hr2) as [Hle Hfound]. split; [lia|].
      intros fid Hfid. destruct (Hfound fid Hfid) as [f [Hs Hf]].
      exists f. split; [|exact Hf].
      apply (served_mono E (requests (after r0)) (requests (after r2))); [lia|lia|exact Hs].
  - destruct (isRetryableRateLimit err).
    + apply bind_inv in Hr2. destruct Hr2 as [r3 [Hr3 Hr2]].
      rewrite sleep_run in Hr3. injection Hr3 as <-. cbn [result after] in Hr2.
      destruct Hr2 as [r4 [Hr4 ->]]. cbn [andThen result after].
      destruct (IH _ _ _ Hr4) as [Hle Hfound]. split; [lia|].
      intros fid Hfid. destruct (Hfound fid Hfid) as [f [Hs Hf]].
      exists f. split; [|exact Hf].
      apply (served_mono E (requests (after r0)) (requests (after r4))); [lia|lia|exact Hs].
    + destruct (IH _ _ _ Hr2) as [Hle Hfound]. split; [lia|].
      intros fid Hfid. destruct (Hfound fid Hfid) as [f [Hs Hf]].
      exists f. split; [|exact Hf].
      apply (served_mono E (requests (after r0)) (requests (after r2))); [lia|lia|exact Hs].
Qed.

End Soundness.

Section RetryAnswers.

Context {A : Type}.
Variable E : Env.
Variable cfg : Config.
Variable maxAttempts : Z.
Variable op : string.
Variable ctx : ErrCtx.
Variable call : M A.
Variable respond : nat -> Res A.
Variable callEv : Event.

Hypothesis call_run : forall w,
  call w = Some (mkRun (resultOfRes (respond (requests w))) (bumpRequests w) [callEv]).

(** What a retry loop returns is what the provider answered to one of its
    requests. *)
Lemma retryLoop_answer (fuel : nat) : forall (attempt : Z) (w : World) (r : Run A),
  retryLoop E cfg fuel maxAttempts op ctx call attempt w = Some r ->
  (requests w <= requests (after r))%nat /\
  forall a, result r = Normal a ->
    exists n, (requests w <= n < requests (after r))%nat /\ respond n = Ok a.
Proof.
  induction fuel as [|fuel' IH]; intros attempt w r H; [discriminate|].
  destruct (throttled_call_run E cfg call respond callEv call_run w)
    as [w1 [thr [Hrun [Hreq _]]]].
  cbn [retryLoop] in H. unfold tryCatch in H. rewrite Hrun in H.
  cbn [result after events] in H.
  destruct (respond (requests w)) as [a0|e0] eqn:Hans; cbn [resultOfRes] in H.
  - injection H as <-. cbn [result after]. split; [lia|].
    intros a Ha. injection Ha as <-. exists (requests w). split; [lia|exact Hans].
  - destruct (isRetryableRateLimit e0 && (attempt + 1 <? maxAttempts)).
    + unfold bind at 1 in H. rewrite randomBelow_run in H. cbn [result after events] in H.
      unfold bind at 1 in H. rewrite sleep_run in H. cbn [result after events] in H.
      destruct (retryLoop E cfg fuel' maxAttempts op ctx call (attempt + 1) (bumpDraws w1))
        as [r'|] eqn:Hrec; [|discriminate].
      destruct (IH _ _ _ Hrec) as [Hle Hanswer]. cbn [requests bumpDraws] in Hle, Hanswer.
      cbn [result after events] in H. injection H as <-. cbn [result after].
      split; [lia|]. intros a Ha. destruct (Hanswer a Ha) as [n [Hn Hok]].
      exists n. split; [lia|exact Hok].
    + injection H as <-. cbn [result after]. split; [lia|]. intros a Ha. discriminate.
Qed.

End RetryAnswers.

Lemma exactMatchId_hit (targetLower : string) (page : FilesPage) (fid : string) :
  exactMatchId targetLower page = Some fid ->
  exists f, In f (files page) /\ id f = fid /\ nameMatches targetLower f = true.
Proof.
  unfold exactMatchId.
  destruct (filter (nameMatches targetLower) (files page)) as [|f rest] eqn:Hfilter;
    [discriminate|].
  intros H. injection H as <-.
  assert (Hin : In f (filter (nameMatches targetLower) (files page)))
    by (rewrite Hfilter; left; reflexivity).
  apply filter_In in Hin. exists f. split; [apply Hin|]. split; [reflexivity|apply Hin].
Qed.

(** What findFolderByName returns was listed under that name. *)
Lemma findFolderByName_served (E : Env) (cfg : Config) (fuel : nat)
    (target parent : string) (w : World) (r : Run (option string)) (fid : string) :
  findFolderByName E cfg fuel target parent w = Some r ->
  result r = Normal (Some fid) ->
  truthy target = true /\
  exists f,
    Served E (requests w) (requests (after r)) f /\
    id f = fid /\ toLowerCase (name f) = toLowerCase target.
Proof.
  intros Hrun Hres. unfold findFolderByName in Hrun.
  destruct (truthy target) eqn:Hname; cbn [negb] in Hrun.
  2:{ injection Hrun as <-. discriminate. }
  split; [reflexivity|].
  destruct (negb (truthy parent)).
  - unfold globalSearch in Hrun. apply tryCatch_inv in Hrun.
    destruct Hrun as [r1 [Hr1 Hrun]].
    destruct (retryLoop_answer E cfg 5 "drive.files.list" _ _
                (fun n => mapRes (exactMatchId (toLowerCase target))
                                 (filesList E n (NameContains target) 10 None))
                _ (globalSearchCall_run E target) fuel 0 w r1 Hr1)
      as [_ Hanswer].
    destruct (result r1) as [a|e] eqn:Hres1.
    + subst r1. rewrite Hres in Hres1. injection Hres1 as <-.
      destruct (Hanswer (Some fid) eq_refl) as [n [Hn Hok]].
      destruct (filesList E n (NameContains target) 10 None) as [page|e] eqn:Hpage;
        [|discriminate].
      cbn in Hok. injection Hok as Hok.
      destruct (exactMatchId_hit _ _ _ Hok) as [f [Hin [Hid Hmatch]]].
      exists f. split; [|split; [exact Hid|apply String.eqb_eq; exact Hmatch]].
      exists n, (NameContains target), 10, None, page.
      split; [exact Hn|]. split; assumption.
    + destruct Hrun as [r2 [Hr2 ->]]. injection Hr2 as <-. discriminate.
  - destruct (bfsLoop_served E cfg _ _ _ _ _ Hrun) as [_ Hfound].
    destruct (Hfound fid Hres) as [f [Hs [Hid Hmatch]]].
    exists f. split; [exact Hs|]. split; [exact Hid|apply String.eqb_eq; exact Hmatch].
Qed.

(** X7. findFolderByName returns only what the provider listed under that
    name: an id that it returns, by the global search or by the search
    under a parent, is the id of a folder that the provider served in a
    listing during the search, and the name of that folder is the target
    up to case, as toLowerCase compares them; and the target was not
    empty. *)
Theorem findFolderByName_sound (E : Env) (cfg : Config) (fuel : nat)
    (target parent : string) (w : World) (r : Run (option string)) (fid : string)
    (Hrun : findFolderByName E cfg fuel target parent w = Some r)
    (Hres : result r = Normal (Some fid)) :
  truthy target = true /\
  exists f,
    Served E (requests w) (requests (after r)) f /\
    id f = fid /\ toLowerCase (name f) = toLowerCase target.
Proof. exact (findFolderByName_served E cfg fuel target parent w r fid Hrun Hres). Qed.

(** The theorem at the chain of folders, searched for jane doe. *)
Lemma findFolderByName_sound_witness :
  exists r f,
    findFolderByName Sample.chainDrive (Sample.config "P" false) 10
                     "jane doe" "P" Sample.world0 = Some r /\
    result r = Normal (Some "J") /\
    Served Sample.chainDrive 0 (requests (after r)) f /\
    id f = "J" /\ toLowerCase (name f) = "jane doe".
Proof.
  eexists.
  eassert (Hrun : findFolderByName Sample.chainDrive (Sample.config "P" false) 10
                    "jane doe" "P" Sample.world0 = Some _)
    by (vm_compute; reflexivity).
  destruct (findFolderByName_sound Sample.chainDrive (Sample.config "P" false) 10
              "jane doe" "P" Sample.world0 _ "J" Hrun eq_refl)
    as [_ [f [Hs [Hid Hname]]]].
  exists f. split; [exact Hrun|]. split; [reflexivity|].
  split; [exact Hs|]. split; [exact Hid|exact Hname].
Defined.

(** ** A search that the provider refuses *)

Lemma globalSearch_down (E : Env) (cfg : Config) (fuel : nat) (target : string)
    (w : World) :
  (5 <= fuel)%nat ->
  (forall n, exists e, filesList E n (NameContains target) 10 None = Err e) ->
  exists k w' evs,
    globalSearch E cfg fuel target w = Some (mkRun (Normal None) w' evs) /\
    (k < 5)%nat /\ requests w' = S (requests w + k) /\
    List.length (filter isFolderListing evs) = S k.
Proof.
  intros Hfuel Hdown.
  destruct (retryLoop_finishes E cfg 5 "drive.files.list"
              (CtxQuery (renderQuery (NameContains target))) _
              (fun n => mapRes (exactMatchId (toLowerCase target))
                               (filesList E n (NameContains target) 10 None))
              _ (globalSearchCall_run E target) fuel 0 w ltac:(lia) ltac:(lia))
    as [k [w' [retried [last [Hloop [Hlen [Hok [Hlast [_ [Hk [_ [Hreq _]]]]]]]]]]]].
  fold (globalSearchLoop E cfg fuel target) in Hloop.
  destruct (Hdown (requests w + k)%nat) as [e He]. rewrite He in Hloop.
  cbn [mapRes finalResult] in Hloop.
  exists k, w'. eexists. split.
  { unfold globalSearch, tryCatch. rewrite Hloop. cbn [result after events].
    reflexivity. }
  split; [destruct Hk as [Hk|Hk]; lia|]. split; [exact Hreq|].
  cbn [events]. rewrite app_nil_r, <- Hlen.
  apply retryTrace_calls; try assumption; reflexivity.
Qed.

(** X8. A search that fails is reported as a missing folder.  Without a
    parent folder in the configuration, for a record without a cached
    FolderId, when the provider answers every search request with an
    error, the global search gives up within five requests and answers
    null, and the turn of the record ends in FolderNotFound: it writes the
    FOLDER NOT FOUND line, adds one to [errors], lists no permissions and
    creates no grant. *)
Theorem search_outage_reports_not_found (E : Env) (cfg : Config) (columns : Columns)
    (fuel : nat) (p : Participant) (w : World)
    (Hfuel : (5 <= fuel)%nat)
    (Hpast : pastDuplicateCheck p w) (Hfresh : notYetShared p = true)
    (Hname : truthy (nama p) = true)
    (Hnocache : truthy (folderId p) = false)
    (Hnoparent : truthy (parentFolderId cfg) = false)
    (Hdown : forall n, exists e, filesList E n (NameContains (nama p)) 10 None = Err e) :
  exists w' evs ts,
    processOne E cfg columns fuel p w = Some (mkRun (Normal FolderNotFound) w' evs) /\
    In (EvValuesUpdate (rowIndex p) (colOr (lastLogCol columns) "F")
                       (Render.folderNotFoundLog ts (nama p))) evs /\
    Forall (fun ev => isGrantCall ev = false /\ isPermissionCheck ev = false) evs /\
    (1 <= List.length (filter isFolderListing evs) <= 5)%nat /\
    stats w' = incErrors (incTotal (stats w)).
Proof.
  destruct (globalSearch_down E cfg fuel (nama p) (atResolution p w) Hfuel Hdown)
    as [k [w2 [evs1 [Hsearch [Hk [_ Hcount]]]]]].
  assert (Hres : resolveFolder E cfg fuel p (atResolution p w) =
                 Some (mkRun (Normal None) w2 evs1)).
  { unfold resolveFolder, findFolderByName.
    rewrite Hnocache, Hname, Hnoparent. cbn [negb]. exact Hsearch. }
  destruct (processOne_notFound E cfg columns fuel p w w2 None evs1
              Hpast Hfresh Hres eq_refl) as [w' [wa [wb [ts [Hrun Hst]]]]].
  destruct (resolveFolder_obeys E cfg fuel p _ _ Hres) as [[Hst2 _] _].
  cbn in Hst2. rewrite Hst2 in Hst.
  destruct (processOne_ensures E cfg columns fuel p w _ Hrun)
    as [o [Ho [_ [_ [_ Hbranch]]]]].
  cbn [result] in Ho. injection Ho as <-. cbn [BranchFacts events] in Hbranch.
  destruct Hbranch as [_ [Hnone _]].
  eexists w', _, ts. split; [exact Hrun|].
  split; [apply in_or_app; right; apply in_or_app; right; left; reflexivity|].
  split; [exact Hnone|]. split; [|exact Hst].
  rewrite !filter_app, !length_app, Hcount.
  unfold updateCellEvents.
  destruct (valuesUpdate E (requests wa) _ _ _), (valuesUpdate E (requests wb) _ _ _);
    cbn; lia.
Qed.

(** The theorem at a provider that refuses every search, for Jane Doe and
    no parent folder. *)
Lemma search_outage_reports_not_found_witness :
  exists w' evs,
    processOne Sample2.searchDown (Sample.config "" false) Sample.columns 5
               Sample.jane Sample.world0 =
      Some (mkRun (Normal FolderNotFound) w' evs) /\
    Forall (fun ev => isGrantCall ev = false /\ isPermissionCheck ev = false) evs /\
    stats w' = mkStats 1 0 0 1.
Proof.
  destruct (search_outage_reports_not_found Sample2.searchDown (Sample.config "" false)
              Sample.columns 5 Sample.jane Sample.world0 ltac:(lia)
              (conj eq_refl eq_refl) eq_refl eq_refl eq_refl eq_refl
              (fun n => ex_intro _ Sample.forbidden eq_refl))
    as [w' [evs [ts [Hrun [_ [Hnone [_ Hst]]]]]]].
  exists w', evs. split; [exact Hrun|]. split; [exact Hnone|exact Hst].
Defined.

(** ** The counters of a pass *)

Lemma tallyAll_cons (rep : Report) (rest : list Report) (s : Stats) :
  tallyAll (rep :: rest) s = tallyAll rest (tally (outcome rep) (incTotal s)).
Proof. reflexivity. Qed.

Lemma tallyAll_counts (reports : list Report) :
  forall s,
    total (tallyAll reports s) = total s + Z.of_nat (List.length reports) /\
    done (tallyAll reports s) = done s + countOutcomes isDone reports /\
    skipped (tallyAll reports s) = skipped s + countOutcomes isSkip reports /\
    errors (tallyAll reports s) = errors s + countOutcomes isFailure reports.
Proof.
  unfold countOutcomes.
  induction reports as [|rep rest IH]; intros s.
  - cbn. repeat split; lia.
  - rewrite tallyAll_cons.
    destruct (IH (tally (outcome rep) (incTotal s))) as [Ht [Hd [Hs He]]].
    rewrite Ht, Hd, Hs, He. cbn [filter List.length].
    destruct (outcome rep) as [why| | | |e]; cbn; repeat split; lia.
Qed.

(** X9. The counters of a pass add up.  A pass that comes to an end
    returns one report for each record of the batch, in order, and leaves
    in [stats]: in [total] the number of records of the batch, in [done]
    the number of Granted outcomes, in [skipped] the number of skipped
    records and of records that had the access already, and in [errors]
    the number of FolderNotFound and Error outcomes.  Every record is
    counted once: [total = done + skipped + errors]. *)
Theorem pass_counters_add_up (E : Env) (cfg : Config) (columns : Columns)
    (fuel : nat) (participants : list Participant) (w : World)
    (r : Run (list Report))
    (Hrun : processParticipants E cfg columns fuel participants w = Some r) :
  exists reports,
    result r = Normal reports /\
    map subject reports = workingParticipants cfg participants /\
    total (stats (after r)) =
      Z.of_nat (List.length (workingParticipants cfg participants)) /\
    done (stats (after r)) = countOutcomes isDone reports /\
    skipped (stats (after r)) = countOutcomes isSkip reports /\
    errors (stats (after r)) = countOutcomes isFailure reports /\
    total (stats (after r)) =
      done (stats (after r)) + skipped (stats (after r)) + errors (stats (after r)).
Proof.
  destruct (processParticipants_ensures E cfg columns fuel participants w r Hrun)
    as [reports [Hres [Hsubj [_ Hturns]]]].
  pose proof (Turns_stats cfg columns reports _ _ Hturns) as Hst.
  cbn [stats freshLocals] in Hst.
  destruct (tallyAll_counts reports (mkStats 0 0 0 0)) as [Ht [Hd [Hs He]]].
  rewrite <- Hst in Ht, Hd, Hs, He. cbn [total done skipped errors] in Ht, Hd, Hs, He.
  exists reports. split; [exact Hres|]. split; [exact Hsubj|].
  split; [rewrite Ht, <- Hsubj, length_map; reflexivity|].
  split; [lia|]. split; [lia|]. split; [lia|].
  rewrite Ht, Hd, Hs, He. unfold countOutcomes.
  clear. induction reports as [|rep rest IH]; [reflexivity|].
  cbn [filter List.length]. destruct (outcome rep) as [why| | | |e];
    cbn [isDone isSkip isFailure List.length]; lia.
Qed.

(** The theorem at a pass over Jane Doe, who has a folder, Bob Johnson,
    who has none, and Jane Doe again. *)
Lemma pass_counters_add_up_witness :
  exists r,
    processParticipants Sample.flatDrive (Sample.config "P" true) Sample.columns 10
      [Sample.jane; Sample.bob; Sample.jane] Sample.world0 = Some r /\
    stats (after r) = mkStats 3 1 1 1 /\
    total (stats (after r)) =
      done (stats (after r)) + skipped (stats (after r)) + errors (stats (after r)).
Proof.
  eexists.
  eassert (Hrun : processParticipants Sample.flatDrive (Sample.config "P" true)
                    Sample.columns 10 [Sample.jane; Sample.bob; Sample.jane]
                    Sample.world0 = Some _)
    by (vm_compute; reflexivity).
  split; [exact Hrun|]. split; [reflexivity|].
  destruct (pass_counters_add_up _ _ _ _ _ _ _ Hrun) as [reports [_ [_ [_ [_ [_ [_ H]]]]]]].
  exact H.
Defined.

(** ** The batch limit *)

Lemma firstn_length_le {A} (n : nat) (l : list A) : (List.length (firstn n l) <= n)%nat.
Proof. rewrite length_firstn. apply Nat.le_min_l. Qed.

(** X10. The batch limit.  The limit of a pass is MAX_PER_RUN when that is
    a number above zero, else the configured maxPerRun, and 300 when that
    is 0.  When the configured maxPerRun is not negative the limit is
    above zero, the batch is the first records, up to the limit, of those
    that pass the filters, in the order of the sheet, and a pass counts at
    most that many records. *)
Theorem batch_limit (cfg : Config) (participants : list Participant)
    (Hconfig : 0 <= maxPerRun cfg) :
  0 < resolvedMaxPerRun cfg /\
  (forall m, envMaxPerRun cfg = Some m -> 0 < m -> resolvedMaxPerRun cfg = m) /\
  ((forall m, envMaxPerRun cfg = Some m -> m <= 0) ->
   resolvedMaxPerRun cfg = if maxPerRun cfg =? 0 then 300 else maxPerRun cfg) /\
  workingParticipants cfg participants =
    firstn (Z.to_nat (resolvedMaxPerRun cfg)) (eligible cfg participants) /\
  Z.of_nat (List.length (workingParticipants cfg participants)) <= resolvedMaxPerRun cfg /\
  forall E columns fuel w r,
    processParticipants E cfg columns fuel participants w = Some r ->
    total (stats (after r)) <= resolvedMaxPerRun cfg.
Proof.
  assert (Hpos : 0 < resolvedMaxPerRun cfg).
  { unfold resolvedMaxPerRun. destruct (maxPerRun cfg =? 0) eqn:Hz.
    - destruct (envMaxPerRun cfg) as [m|]; [|lia].
      destruct (0 <? m) eqn:Hm; [apply Z.ltb_lt in Hm; lia|lia].
    - apply Z.eqb_neq in Hz.
      destruct (envMaxPerRun cfg) as [m|]; [|lia].
      destruct (0 <? m) eqn:Hm; [apply Z.ltb_lt in Hm; lia|lia]. }
  assert (Hwork : workingParticipants cfg participants =
                  firstn (Z.to_nat (resolvedMaxPerRun cfg)) (eligible cfg participants)).
  { unfold workingParticipants, slice0, eligible.
    replace (resolvedMaxPerRun cfg <? 0) with false
      by (symmetry; apply Z.ltb_ge; lia).
    reflexivity. }
  assert (Hlen : Z.of_nat (List.length (workingParticipants cfg participants))
                 <= resolvedMaxPerRun cfg).
  { rewrite Hwork.
    pose proof (firstn_length_le (Z.to_nat (resolvedMaxPerRun cfg))
                                 (eligible cfg participants)). lia. }
  split; [exact Hpos|]. split.
  { intros m Hm Hmpos. unfold resolvedMaxPerRun. rewrite Hm.
    replace (0 <? m) with true by (symmetry; apply Z.ltb_lt; exact Hmpos).
    reflexivity. }
  split.
  { intros Henv. unfold resolvedMaxPerRun.
    destruct (envMaxPerRun cfg) as [m|]; [|reflexivity].
    replace (0 <? m) with false
      by (symmetry; apply Z.ltb_ge; apply Henv; reflexivity).
    reflexivity. }
  split; [exact Hwork|]. split; [exact Hlen|].
  intros E columns fuel w r Hrun.
  destruct (processParticipants_ensures E cfg columns fuel participants w r Hrun)
    as [reports [_ [Hsubj [_ Hturns]]]].
  pose proof (Turns_stats cfg columns reports _ _ Hturns) as Hst.
  cbn [stats freshLocals] in Hst.
  destruct (tallyAll_counts reports (mkStats 0 0 0 0)) as [Ht _].
  rewrite Hst, Ht. cbn [total]. rewrite <- (length_map subject), Hsubj. lia.
Qed.

(** The theorem at a limit of one record, for a sheet with two. *)
Lemma batch_limit_witness :
  0 <= maxPerRun (mkConfig "P" true 2500 1 None 0 0) /\
  workingParticipants (mkConfig "P" true 2500 1 None 0 0) [Sample.jane; Sample.bob]
    = [Sample.jane] /\
  Z.of_nat (List.length (workingParticipants (mkConfig "P" true 2500 1 None 0 0)
                                             [Sample.jane; Sample.bob])) <= 1.
Proof.
  split; [cbn; lia|]. split; [reflexivity|].
  destruct (batch_limit (mkConfig "P" true 2500 1 None 0 0) [Sample.jane; Sample.bob]
              ltac:(cbn; lia)) as [_ [_ [_ [_ [Hlen _]]]]].
  exact Hlen.
Defined.

(** ** What a turn touches *)

Lemma obeys_weaken {A} (R R' : World -> World -> Prop) (P P' : Event -> Prop)
    (m : M A) :
  Obeys R P m -> (forall w w', R w w' -> R' w w') -> (forall ev, P ev -> P' ev) ->
  Obeys R' P' m.
Proof.
  intros Hm HR HP w r H. destruct (Hm w r H) as [H1 H2].
  split; [apply HR; exact H1|]. eapply Forall_impl; [exact HP|exact H2].
Qed.

(** A step that leaves no event. *)
Lemma obeys_quiet {A} (P : Event -> Prop) (m : M A) :
  (forall w, exists a w', m w = Some (mkRun (Normal a) w' [])) ->
  Obeys anyWorld P m.
Proof.
  intros Hm w r H. destruct (Hm w) as [a [w' Hrun]]. rewrite Hrun in H.
  injection H as <-. split; [exact I|constructor].
Qed.

(** The rule of [bind] when what follows depends on a fact [V] of the
    value. *)
Lemma obeys_bind_fact {A B} (P : Event -> Prop) (V : A -> Prop)
    (m : M A) (k : A -> M B) :
  (forall w r, m w = Some r ->
     Forall P (events r) /\ forall a, result r = Normal a -> V a) ->
  (forall a, V a -> Obeys anyWorld P (k a)) ->
  Obeys anyWorld P (bind m k).
Proof.
  intros Hm Hk w r H. apply bind_inv in H. destruct H as [r1 [Hr1 H]].
  destruct (Hm w r1 Hr1) as [HP1 HV]. split; [exact I|].
  destruct (result r1) as [a|e].
  - destruct H as [r2 [Hr2 ->]]. destruct (Hk a (HV a eq_refl) _ _ Hr2) as [_ HP2].
    cbn. apply Forall_app. split; assumption.
  - subst r. exact HP1.
Qed.

Ltac any_side := solve [ intros; exact I ].

Ltac any_rule lem := apply lem; try any_side.

Section TurnEvents.

Variable E : Env.
Variable cfg : Config.
Variable columns : Columns.

Lemma updateCell_events (p : Participant) (w : World) (col value : string) :
  CellWrite E columns p col value ->
  Forall (TurnEvent E cfg columns p) (updateCellEvents E w (rowIndex p) col value).
Proof.
  intros Hcell. unfold updateCellEvents.
  constructor; [split; [reflexivity|exact Hcell]|].
  destruct (valuesUpdate E (requests w) (rowIndex p) col value); constructor;
    [|constructor].
  split; [reflexivity|]. exists value. exact Hcell.
Qed.

Lemma logLine_write (p : Participant) (ts rest : string) :
  CellWrite E columns p (colOr (lastLogCol columns) "F") ("[" ++ ts ++ "] " ++ rest).
Proof. right. right. right. left. split; [reflexivity|]. exists ts, rest. reflexivity. Qed.

Lemma flag_write_shared (p : Participant) (value : string) :
  value = "TRUE" \/ value = "FALSE" ->
  CellWrite E columns p (colOr (isSharedCol columns) "D") value.
Proof. intros H. left. split; [reflexivity|exact H]. Qed.

Lemma flag_write_exists (p : Participant) (value : string) :
  value = "TRUE" \/ value = "FALSE" ->
  CellWrite E columns p (colOr (isFolderExistsCol columns) "E") value.
Proof. intros H. right. left. split; [reflexivity|exact H]. Qed.

(** What the lookup of the folder of a record does and answers. *)
Lemma resolveFolder_events (fuel : nat) (p : Participant) (w : World)
    (r : Run (option string)) :
  resolveFolder E cfg fuel p w = Some r ->
  Forall (TurnEvent E cfg columns p) (events r) /\
  forall found, result r = Normal found -> truthy (orEmpty found) = true ->
    FolderOf E p (orEmpty found).
Proof.
  unfold resolveFolder, FolderOf. destruct (truthy (folderId p)) eqn:Hcached; cbn [negb].
  - intros H. injection H as <-. cbn. split; [constructor|].
    intros found Hfound _. injection Hfound as <-. reflexivity.
  - intros H. split.
    + destruct (findFolderByName_obeys E cfg fuel _ _ _ _ H) as [_ Hevs].
      eapply Forall_impl; [|exact Hevs].
      intros ev [Hev|Hev]; destruct ev; try discriminate; cbn; auto.
    + intros found Hfound Htruthy. destruct found as [fid|]; [|discriminate].
      destruct (findFolderByName_served E cfg fuel _ _ w r fid H Hfound)
        as [_ [d [Hs Hd]]].
      exists d, (requests w), (requests (after r)). split; [exact Hs|exact Hd].
Qed.

Lemma hasPermission_events (fuel : nat) (fileId email role : string) :
  Obeys sameLocals (fun ev => isPause ev = true \/ ev = EvPermissionsList fileId)
        (hasPermission E cfg fuel fileId email role).
Proof.
  unfold hasPermission, hasPermissionLoop.
  obeys_rule @obeys_tryCatch.
  - apply retryLoop_obeys; [intros ms; left; reflexivity|].
    obeys_rule @obeys_bind.
    + intros w r H. rewrite drivePermissionsList_run in H. injection H as <-.
      split; [split; reflexivity|]. constructor; [right; reflexivity|constructor].
    + intros a. obeys_rule @obeys_ret.
  - intros e. obeys_rule @obeys_ret.
Qed.

Lemma bumpStats_quiet (P : Event -> Prop) (f : Stats -> Stats) :
  Obeys anyWorld P (bumpStats f).
Proof. apply obeys_quiet. intros w. eexists. eexists. reflexivity. Qed.

Lemma timestamp_quiet (P : Event -> Prop) : Obeys anyWorld P (getCurrentTimestamp E).
Proof. apply obeys_quiet. intros w. eexists. eexists. apply getCurrentTimestamp_run. Qed.

Lemma randomBelow_quiet (P : Event -> Prop) (k : Z) : Obeys anyWorld P (randomBelow E k).
Proof. apply obeys_quiet. intros w. eexists. eexists. apply randomBelow_run. Qed.

Lemma updateCell_turn (p : Participant) (col value : string) :
  CellWrite E columns p col value ->
  Obeys anyWorld (TurnEvent E cfg columns p) (updateCell E (rowIndex p) col value).
Proof.
  intros Hcell w r H. rewrite updateCell_run in H. injection H as <-.
  split; [exact I|]. apply updateCell_events. exact Hcell.
Qed.

(** Writes a log line, a flag or the duplicate notice. *)
Ltac turn_write :=
  apply updateCell_turn;
  first [ apply logLine_write
        | apply flag_write_shared; auto
        | apply flag_write_exists; auto
        | assumption ].

(** Walks the steps of a branch that only counts and writes. *)
Ltac turn_steps :=
  repeat first
    [ any_rule @obeys_ret
    | apply bumpStats_quiet
    | apply timestamp_quiet
    | apply randomBelow_quiet
    | turn_write
    | any_rule @obeys_bind; [|intros ?] ].

Lemma processCatch_events (p : Participant) (error : JsError) :
  Obeys anyWorld (TurnEvent E cfg columns p) (processCatch E columns p error).
Proof. unfold processCatch, Render.errorLog. turn_steps. Qed.

(** Every event of a finished turn is an event of its record. *)
Lemma processOne_events (fuel : nat) (p : Participant) :
  Obeys anyWorld (TurnEvent E cfg columns p) (processOne E cfg columns fuel p).
Proof.
  unfold processOne.
  any_rule @obeys_bind; [apply bumpStats_quiet|intros _].
  any_rule @obeys_tryCatch; [|intros e; apply processCatch_events].
  unfold processBody, shareFolder, recordNotFound, recordAlreadyGranted, grantAndRecord.
  destruct (includes "@" (email p)) eqn:Hvalid; cbn [negb].
  2:{ unfold Render.invalidEmailLog. turn_steps. }
  any_rule @obeys_bind; [apply obeys_quiet; intros w; eexists; eexists; reflexivity|].
  intros seenNow.
  destruct (existsb (String.eqb (dedupKey (nama p) (email p))) seenNow).
  { any_rule @obeys_bind; [apply bumpStats_quiet|intros _].
    any_rule @obeys_bind; [apply timestamp_quiet|intros ts].
    any_rule @obeys_bind; [|intros _; any_rule @obeys_ret].
    apply updateCell_turn. right. right. right. right.
    split; [reflexivity|]. exists ts. reflexivity. }
  any_rule @obeys_bind; [apply obeys_quiet; intros w; eexists; eexists; reflexivity|].
  intros _.
  destruct (truthy (isShared p) && (toLowerCase (isShared p) =? "true")%string).
  { unfold Render.alreadySharedLog. turn_steps. }
  apply (obeys_bind_fact _ (fun found => truthy (orEmpty found) = true ->
                                         FolderOf E p (orEmpty found))).
  { intros w r H. apply (resolveFolder_events fuel p w r H). }
  intros found Hfolder.
  destruct (negb (truthy (orEmpty found))) eqn:Hnone.
  { unfold Render.folderNotFoundLog. turn_steps. }
  apply negb_false_iff in Hnone. specialize (Hfolder Hnone).
  any_rule @obeys_bind; [turn_write|intros _].
  any_rule @obeys_bind.
  { destruct (negb (truthy (folderId p))) eqn:Hnocache; [|any_rule @obeys_ret].
    apply updateCell_turn. right. right. left.
    split; [reflexivity|]. apply negb_true_iff in Hnocache.
    split; [exact Hnocache|]. split; [exact Hnone|exact Hfolder]. }
  intros _.
  any_rule @obeys_bind.
  { eapply obeys_weaken; [apply hasPermission_events|intros; exact I|].
    intros ev [Hev| ->]; [destruct ev; try discriminate; exact I|exact Hfolder]. }
  intros has. destruct has.
  { unfold Render.hasAccessLog. turn_steps. }
  any_rule @obeys_bind.
  { destruct (dryRun cfg) eqn:Hdry.
    - intros w r H. rewrite (grantPermission_dryRun E cfg fuel _ _ w Hdry) in H.
      injection H as <-. split; [exact I|constructor].
    - eapply obeys_weaken; [apply grantPermission_obeys|intros; exact I|].
      intros ev [Hev| ->]; [destruct ev; try discriminate; exact I|].
      cbn. repeat split; try assumption; reflexivity. }
  intros _. unfold Render.grantedLog.
  any_rule @obeys_bind; [apply bumpStats_quiet|intros _].
  any_rule @obeys_bind; [turn_write|intros _].
  any_rule @obeys_bind; [apply timestamp_quiet|intros ts].
  any_rule @obeys_bind; [turn_write|intros _].
  any_rule @obeys_bind; [apply randomBelow_quiet|intros jitter].
  any_rule @obeys_bind; [|intros _; any_rule @obeys_ret].
  intros w r H. rewrite sleep_run in H. injection H as <-.
  split; [exact I|]. constructor; [exact I|constructor].
Qed.

End TurnEvents.

(** ** What a pass touches *)

Section PassEvents.

Variable E : Env.
Variable cfg : Config.
Variable columns : Columns.

(** What holds of the events of every turn holds of the trail of every
    report. *)
Lemma processLoop_trails (T : Participant -> list Event -> Prop) (fuel : nat)
    (working : list Participant) :
  (forall p w r, processOne E cfg columns fuel p w = Some r -> T p (events r)) ->
  forall w r,
    processLoop E cfg columns fuel working w = Some r ->
    exists reports,
      result r = Normal reports /\
      map subject reports = working /\
      events r = flat_map trail reports /\
      forall rep, In rep reports -> T (subject rep) (trail rep).
Proof.
  intros Hturn. induction working as [|p rest IH]; intros w r H.
  - injection H as <-. exists []. repeat split. intros rep [].
  - destruct (processOne E cfg columns fuel p w) as [r1|] eqn:Hone.
    2:{ cbn [processLoop] in H. unfold bind at 1, listen in H.
        rewrite Hone in H. discriminate. }
    destruct (processOne_ensures E cfg columns fuel p w r1 Hone) as [o [Ho _]].
    pose proof (Hturn p w r1 Hone) as Hevs1.
    destruct r1 as [res1 w1 evs1]. cbn in Ho, Hevs1. subst res1.
    rewrite (processLoop_cons E cfg columns fuel p rest w w1 o evs1 Hone) in H.
    unfold thenRest in H.
    destruct (processLoop E cfg columns fuel rest w1) as [r'|] eqn:Hrest;
      [|discriminate].
    destruct (IH w1 r' Hrest) as [reports [Hres [Hsubj [Hevs Hall]]]].
    rewrite Hres in H. injection H as <-.
    exists (mkReport p o evs1 :: reports). cbn.
    split; [reflexivity|]. split; [rewrite Hsubj; reflexivity|].
    split; [rewrite Hevs; reflexivity|].
    intros rep [<-|Hin]; [exact Hevs1|apply Hall; exact Hin].
Qed.

Lemma processParticipants_trails (T : Participant -> list Event -> Prop) (fuel : nat)
    (participants : list Participant) (w : World) (r : Run (list Report)) :
  (forall p w0 r0, processOne E cfg columns fuel p w0 = Some r0 -> T p (events r0)) ->
  processParticipants E cfg columns fuel participants w = Some r ->
  exists reports,
    result r = Normal reports /\
    map subject reports = workingParticipants cfg participants /\
    events r = flat_map trail reports /\
    forall rep, In rep reports -> T (subject rep) (trail rep).
Proof.
  intros Hturn H. unfold processParticipants in H.
  apply bind_inv in H. destruct H as [r1 [Hr1 H]].
  injection Hr1 as <-. cbn [result after] in H.
  destruct H as [r2 [Hr2 ->]]. cbn [andThen events app result].
  exact (processLoop_trails T fuel _ Hturn _ r2 Hr2).
Qed.

(** Every event of a finished pass is an event of the turn of a record of
    the batch. *)
Lemma processParticipants_events (fuel : nat) (participants : list Participant)
    (w : World) (r : Run (list Report)) (ev : Event) :
  processParticipants E cfg columns fuel participants w = Some r ->
  In ev (events r) ->
  exists p, In p (workingParticipants cfg participants) /\
            TurnEvent E cfg columns p ev.
Proof.
  intros H Hev.
  destruct (processParticipants_trails
              (fun p evs => Forall (TurnEvent E cfg columns p) evs) fuel participants w r
              (fun p w0 r0 H0 => proj2 (processOne_events E cfg columns fuel p w0 r0 H0)) H)
    as [reports [_ [Hsubj [Hevs Hall]]]].
  rewrite Hevs in Hev. apply in_flat_map in Hev. destruct Hev as [rep [Hrep Hev]].
  exists (subject rep). split.
  - rewrite <- Hsubj. apply in_map. exact Hrep.
  - pose proof (Hall rep Hrep) as Hturn. rewrite Forall_forall in Hturn.
    apply Hturn. exact Hev.
Qed.

End PassEvents.

(** X11. A pass grants only what the sheet asks for.  Every request of a
    finished pass to create a permission is made outside simulation mode,
    for the role reader, for the trimmed and lower-cased email of a record
    of the batch, which contains an [@], and on the folder of that record:
    its cached FolderId, or a folder that the provider listed under the
    name of the record, up to case.  The permissions that a pass lists are
    those of such folders too. *)
Theorem grants_go_to_the_folder_of_the_record (E : Env) (cfg : Config)
    (columns : Columns) (fuel : nat) (participants : list Participant) (w : World)
    (r : Run (list Report))
    (Hrun : processParticipants E cfg columns fuel participants w = Some r) :
  (forall f e ro, In (EvPermissionsCreate f e ro) (events r) ->
     dryRun cfg = false /\ ro = "reader" /\ includes "@" e = true /\
     exists p q,
       In p (workingParticipants cfg participants) /\
       In q participants /\ p = normalizeOne q /\
       e = toLowerCase (trim (email q)) /\ FolderOf E p f) /\
  (forall f, In (EvPermissionsList f) (events r) ->
     exists p, In p (workingParticipants cfg participants) /\ FolderOf E p f).
Proof.
  split.
  - intros f e ro Hev.
    destruct (processParticipants_events E cfg columns fuel participants w r _ Hrun Hev)
      as [p [Hp [Hdry [Hro [He [Hat Hfolder]]]]]].
    split; [exact Hdry|]. split; [exact Hro|]. split; [exact Hat|].
    destruct (working_members cfg participants p Hp) as [Hnorm _].
    apply in_map_iff in Hnorm. destruct Hnorm as [q [Hq Hin]].
    exists p, q. split; [exact Hp|]. split; [exact Hin|].
    split; [symmetry; exact Hq|]. split; [|exact Hfolder].
    rewrite He, <- Hq. reflexivity.
  - intros f Hev.
    destruct (processParticipants_events E cfg columns fuel participants w r _ Hrun Hev)
      as [p [Hp Hfolder]].
    exists p. split; [exact Hp|exact Hfolder].
Qed.

(** The theorem at a pass over Jane Doe, whose folder the provider lists
    under the parent. *)
Lemma grants_go_to_the_folder_of_the_record_witness :
  exists r,
    processParticipants Sample.flatDrive (Sample.config "P" false) Sample.columns 10
      [mkParticipant 2 " Jane Doe " "Jane@Ex.com" "" "" "" ""] Sample.world0 = Some r /\
    In (EvPermissionsCreate "J" "jane@ex.com" "reader") (events r) /\
    exists p, FolderOf Sample.flatDrive p "J" /\ nama p = "Jane Doe".
Proof.
  eexists.
  eassert (Hrun : processParticipants Sample.flatDrive (Sample.config "P" false)
                    Sample.columns 10
                    [mkParticipant 2 " Jane Doe " "Jane@Ex.com" "" "" "" ""]
                    Sample.world0 = Some _)
    by (vm_compute; reflexivity).
  split; [exact Hrun|]. split; [cbn; tauto|].
  destruct (proj1 (grants_go_to_the_folder_of_the_record _ _ _ _ _ _ _ Hrun)
              "J" "jane@ex.com" "reader" ltac:(cbn; tauto))
    as [_ [_ [_ [p [q [_ [Hq [Hp [_ Hfolder]]]]]]]]].
  exists p. split; [exact Hfolder|].
  destruct Hq as [<-|[]]. rewrite Hp. reflexivity.
Defined.

(** X13. A pass writes only its bookkeeping.  Every cell that a finished
    pass writes is in the row of a record of the batch, and is one of:
    TRUE or FALSE in the isShared or the isFolderExists column; the id of
    the folder of the record in the FolderId column, for a record without
    a cached id; a line that starts with a timestamp in brackets in the
    LastLog column; the duplicate notice in column F, whatever that column
    holds.  A warning about a failed write names such a cell too.  Over
    the rows of a sheet, the rows written are data rows: never the header
    row, never a row below the data. *)
Theorem pass_writes_only_bookkeeping (E : Env) (cfg : Config) (columns : Columns)
    (fuel : nat) (rows : list (list string)) (w : World) (r : Run (list Report))
    (Hrun : processParticipants E cfg columns fuel (participantsOfRows columns rows) w
            = Some r) :
  (forall row col value, In (EvValuesUpdate row col value) (events r) ->
     2 <= row < 2 + Z.of_nat (List.length rows) /\
     exists p, In p (workingParticipants cfg (participantsOfRows columns rows)) /\
               row = rowIndex p /\ CellWrite E columns p col value) /\
  (forall col row, In (EvWarn col row) (events r) ->
     2 <= row < 2 + Z.of_nat (List.length rows) /\
     exists p value, In p (workingParticipants cfg (participantsOfRows columns rows)) /\
                     row = rowIndex p /\ CellWrite E columns p col value).
Proof.
  assert (Hrows : forall p,
            In p (workingParticipants cfg (participantsOfRows columns rows)) ->
            2 <= rowIndex p < 2 + Z.of_nat (List.length rows)).
  { intros p Hp. destruct (working_members cfg _ p Hp) as [Hnorm _].
    apply in_map_iff in Hnorm. destruct Hnorm as [q [<- Hq]].
    apply participantsFrom_rows in Hq. cbn [rowIndex normalizeOne]. lia. }
  split.
  - intros row col value Hev.
    destruct (processParticipants_events E cfg columns fuel _ w r _ Hrun Hev)
      as [p [Hp [Hrow Hcell]]].
    split; [rewrite Hrow; apply Hrows; exact Hp|].
    exists p. split; [exact Hp|]. split; assumption.
  - intros col row Hev.
    destruct (processParticipants_events E cfg columns fuel _ w r _ Hrun Hev)
      as [p [Hp [Hrow [value Hcell]]]].
    split; [rewrite Hrow; apply Hrows; exact Hp|].
    exists p, value. split; [exact Hp|]. split; assumption.
Qed.

(** The theorem at a sheet with one data row, for Jane Doe. *)
Lemma pass_writes_only_bookkeeping_witness :
  exists r,
    processParticipants Sample.flatDrive (Sample.config "P" true) Sample.columns 10
      (participantsOfRows Sample.columns [["Jane Doe"; "jane@ex.com"]])
      Sample.world0 = Some r /\
    In (EvValuesUpdate 2 "C" "J") (events r) /\
    forall row col value, In (EvValuesUpdate row col value) (events r) -> row = 2.
Proof.
  eexists.
  eassert (Hrun : processParticipants Sample.flatDrive (Sample.config "P" true)
                    Sample.columns 10
                    (participantsOfRows Sample.columns [["Jane Doe"; "jane@ex.com"]])
                    Sample.world0 = Some _)
    by (vm_compute; reflexivity).
  split; [exact Hrun|]. split; [cbn; tauto|].
  intros row col value Hev.
  destruct (proj1 (pass_writes_only_bookkeeping _ _ _ _ _ _ _ Hrun) row col value Hev)
    as [Hrange _].
  cbn in Hrange. lia.
Defined.

(** ** Reading the sheet *)

Lemma indexOfFrom_absent (x : string) (l : list string) :
  forall i, ~ In x l -> indexOfFrom x l i = -1.
Proof.
  induction l as [|y rest IH]; intros i Hnot; [reflexivity|].
  cbn [indexOfFrom]. destruct (String.eqb_spec y x) as [->|Hne].
  - exfalso. apply Hnot. left. reflexivity.
  - apply IH. intros Hin. apply Hnot. right. exact Hin.
Qed.

Lemma indexOfFrom_found (x : string) (l : list string) :
  forall i, In x l ->
    exists k, indexOfFrom x l i = i + Z.of_nat k /\
              nth_error l k = Some x /\
              forall j, (j < k)%nat -> nth_error l j <> Some x.
Proof.
  induction l as [|y rest IH]; intros i Hin; [destruct Hin|].
  cbn [indexOfFrom]. destruct (String.eqb_spec y x) as [->|Hne].
  - exists 0%nat. split; [lia|]. split; [reflexivity|]. intros j Hj. lia.
  - destruct Hin as [Heq|Hin]; [congruence|].
    destruct (IH (i + 1) Hin) as [k [Hk [Hnth Hfirst]]].
    exists (S k). split; [lia|]. split; [exact Hnth|].
    intros [|j] Hj; cbn; [congruence|]. apply Hfirst. lia.
Qed.

(** [indexOf] answers -1, or the first position of the item. *)
Lemma indexOf_spec (x : string) (l : list string) :
  (indexOf x l = -1 /\ ~ In x l) \/
  (0 <= indexOf x l < Z.of_nat (List.length l) /\
   nth_error l (Z.to_nat (indexOf x l)) = Some x /\
   forall j, (j < Z.to_nat (indexOf x l))%nat -> nth_error l j <> Some x).
Proof.
  unfold indexOf. destruct (in_dec string_dec x l) as [Hin|Hnot].
  - right. destruct (indexOfFrom_found x l 0 Hin) as [k [Hk [Hnth Hfirst]]].
    rewrite Hk. cbn [Z.add]. rewrite Nat2Z.id.
    assert (k < List.length l)%nat by (apply nth_error_Some; congruence).
    split; [lia|]. split; [exact Hnth|exact Hfirst].
  - left. split; [apply indexOfFrom_absent; exact Hnot|exact Hnot].
Qed.

Lemma indexOf_app_left (x : string) (l m : list string) :
  In x l -> indexOf x (l ++ m) = indexOf x l.
Proof.
  unfold indexOf. generalize 0. induction l as [|y rest IH]; intros i Hin;
    [destruct Hin|].
  cbn [app indexOfFrom]. destruct (String.eqb_spec y x) as [->|Hne]; [reflexivity|].
  destruct Hin as [Heq|Hin]; [congruence|]. apply IH. exact Hin.
Qed.

Lemma includesItem_In (x : string) (l : list string) :
  includesItem x l = true <-> In x l.
Proof.
  unfold includesItem. rewrite existsb_exists. split.
  - intros [y [Hin Heq]]. apply String.eqb_eq in Heq. subst y. exact Hin.
  - intros Hin. exists x. split; [exact Hin|apply String.eqb_refl].
Qed.

(** After the missing columns are appended, every bookkeeping column is in
    the header. *)
Lemma extras_present (headers : list string) (x : string) :
  In x extras -> In x (headers ++ missingColumns headers).
Proof.
  intros Hx. apply in_or_app.
  destruct (includesItem x headers) eqn:Hinc.
  - left. apply includesItem_In. exact Hinc.
  - right. unfold missingColumns. apply filter_In. split; [exact Hx|].
    rewrite Hinc. reflexivity.
Qed.

Lemma missingColumns_none (headers : list string) :
  missingColumns (headers ++ missingColumns headers) = [].
Proof.
  unfold missingColumns at 1.
  assert (H : forall l, (forall x, In x l -> In x extras) ->
            filter (fun h => negb (includesItem h (headers ++ missingColumns headers))) l
            = []).
  { induction l as [|x l IH]; intros Hsub; [reflexivity|].
    cbn [filter].
    replace (includesItem x (headers ++ missingColumns headers)) with true.
    - cbn. apply IH. intros y Hy. apply Hsub. right. exact Hy.
    - symmetry. apply includesItem_In. apply extras_present. apply Hsub.
      left. reflexivity. }
  apply H. intros x Hx. exact Hx.
Qed.

(** The column that findIndexByNames picks. *)
Lemma findIndexByNames_spec (lower : list string) (candidates : list string) :
  (findIndexByNames lower candidates = -1 /\
   forall c, In c candidates -> ~ In c lower) \/
  (exists before c later,
     candidates = before ++ c :: later /\
     (forall c', In c' before -> ~ In c' lower) /\
     findIndexByNames lower candidates = indexOf c lower /\
     0 <= indexOf c lower < Z.of_nat (List.length lower) /\
     nth_error lower (Z.to_nat (indexOf c lower)) = Some c /\
     forall j, (j < Z.to_nat (indexOf c lower))%nat -> nth_error lower j <> Some c).
Proof.
  induction candidates as [|c rest IH].
  - left. split; [reflexivity|]. intros c [].
  - cbn [findIndexByNames].
    destruct (indexOf_spec c lower) as [[Hidx Hnot]|[Hrange [Hnth Hfirst]]].
    + rewrite Hidx. cbn [Z.eqb negb].
      destruct IH as [[Hnone Hall]|[before [c' [later [Hsplit [Hbefore Hrest]]]]]].
      * left. split; [exact Hnone|]. intros x [<-|Hx]; [exact Hnot|apply Hall; exact Hx].
      * right. exists (c :: before), c', later.
        split; [rewrite Hsplit; reflexivity|].
        split; [intros x [<-|Hx]; [exact Hnot|apply Hbefore; exact Hx]|exact Hrest].
    + right. exists [], c, rest. split; [reflexivity|].
      split; [intros x []|].
      replace (indexOf c lower =? -1) with false by (symmetry; apply Z.eqb_neq; lia).
      cbn [negb]. split; [reflexivity|]. split; [exact Hrange|].
      split; [exact Hnth|exact Hfirst].
Qed.

(** X14. The name and the email column are chosen by the order of the
    candidate names, not by the order of the columns: findIndexByNames
    answers the first column whose header is the first candidate that
    occurs in the header row at all, and -1 when none occurs. *)
Theorem findIndexByNames_priority (lower candidates : list string) :
  (findIndexByNames lower candidates = -1 <->
   forall c, In c candidates -> ~ In c lower) /\
  (findIndexByNames lower candidates <> -1 ->
   exists before c later,
     candidates = before ++ c :: later /\
     (forall c', In c' before -> ~ In c' lower) /\
     0 <= findIndexByNames lower candidates < Z.of_nat (List.length lower) /\
     nth_error lower (Z.to_nat (findIndexByNames lower candidates)) = Some c /\
     forall j, (j < Z.to_nat (findIndexByNames lower candidates))%nat ->
               nth_error lower j <> Some c).
Proof.
  destruct (findIndexByNames_spec lower candidates)
    as [[Hnone Hall]|[before [c [later [Hsplit [Hbefore [Hidx [Hrange [Hnth Hfirst]]]]]]]]].
  - split; [split; [intros _; exact Hall|intros _; exact Hnone]|].
    intros Hne. congruence.
  - split.
    + split; [intros Hnone; lia|].
      intros Hall. exfalso. apply (Hall c).
      * rewrite Hsplit. apply in_or_app. right. left. reflexivity.
      * apply nth_error_In with (n := Z.to_nat (indexOf c lower)). exact Hnth.
    + intros _. exists before, c, later. rewrite Hidx.
      split; [exact Hsplit|]. split; [exact Hbefore|].
      split; [exact Hrange|]. split; [exact Hnth|exact Hfirst].
Qed.

(** The theorem at a header in which the second candidate for the name
    comes before the first one: the first candidate wins. *)
Lemma findIndexByNames_priority_witness :
  findIndexByNames ["name"; "email"; "nama"] nameCandidates = 2 /\
  exists before c later,
    nameCandidates = before ++ c :: later /\
    (forall c', In c' before -> ~ In c' ["name"; "email"; "nama"]) /\
    nth_error ["name"; "email"; "nama"] 2 = Some c.
Proof.
  split; [reflexivity|].
  destruct (proj2 (findIndexByNames_priority ["name"; "email"; "nama"] nameCandidates))
    as [before [c [later [Hsplit [Hbefore [_ [Hnth _]]]]]]].
  - vm_compute. discriminate.
  - exists before, c, later. split; [exact Hsplit|]. split; [exact Hbefore|].
    exact Hnth.
Defined.

Lemma readRows_inv (api : Sheet.Api) (sheetId sheetName : string) (n : nat)
    (headers : list string) (nameCol emailCol : Z) (data : Sheet.Data) :
  fst (readRows api sheetId sheetName n headers nameCol emailCol) = Some data ->
  exists vals,
    Sheet.values_get api n sheetId (sheetName ++ "!A:ZZ") = Ok (Some vals) /\
    (1 < List.length vals)%nat /\
    Sheet.headers data = headers /\
    Sheet.columns data =
      mkColumns nameCol emailCol (indexOf "FolderId" headers) (indexOf "isShared" headers)
                (indexOf "isFolderExists" headers) (indexOf "LastLog" headers) /\
    Sheet.participants data = participantsOfRows (Sheet.columns data) (tl vals) /\
    snd (readRows api sheetId sheetName n headers nameCol emailCol) =
      [Sheet.Get sheetId (sheetName ++ "!A:ZZ")].
Proof.
  unfold readRows.
  destruct (Sheet.values_get api n sheetId (sheetName ++ "!A:ZZ")) as [[vals|]|e];
    cbn [fst snd List.length Nat.leb]; try discriminate.
  destruct (List.length vals <=? 1)%nat eqn:Hlen; cbn [fst snd]; [discriminate|].
  intros H. injection H as <-. exists vals. apply Nat.leb_gt in Hlen.
  repeat split. exact Hlen.
Qed.

(** What a reading that returns data went through. *)
Lemma reading_inv (api : Sheet.Api) (sheetId sheetName : string) (n : nat)
    (data : Sheet.Data) (calls : list Sheet.Call) :
  getSpreadsheetDataFlexible api sheetId sheetName n = (Some data, calls) ->
  exists headerRes vals k,
    Sheet.values_get api n sheetId (sheetName ++ "!1:1") = Ok headerRes /\
    firstRow headerRes <> [] /\
    findIndexByNames (lowerHeaders (firstRow headerRes)) nameCandidates <> -1 /\
    findIndexByNames (lowerHeaders (firstRow headerRes)) emailCandidates <> -1 /\
    Sheet.headers data = firstRow headerRes ++ missingColumns (firstRow headerRes) /\
    Sheet.columns data =
      mkColumns (findIndexByNames (lowerHeaders (firstRow headerRes)) nameCandidates)
                (findIndexByNames (lowerHeaders (firstRow headerRes)) emailCandidates)
                (indexOf "FolderId" (Sheet.headers data))
                (indexOf "isShared" (Sheet.headers data))
                (indexOf "isFolderExists" (Sheet.headers data))
                (indexOf "LastLog" (Sheet.headers data)) /\
    Sheet.values_get api k sheetId (sheetName ++ "!A:ZZ") = Ok (Some vals) /\
    (1 < List.length vals)%nat /\
    Sheet.participants data = participantsOfRows (Sheet.columns data) (tl vals) /\
    ((missingColumns (firstRow headerRes) = [] /\ k = S n /\
      calls = [Sheet.Get sheetId (sheetName ++ "!1:1");
               Sheet.Get sheetId (sheetName ++ "!A:ZZ")]) \/
     (missingColumns (firstRow headerRes) <> [] /\ k = S (S n) /\
      calls = [Sheet.Get sheetId (sheetName ++ "!1:1");
               Sheet.Update sheetId
                 (sheetName ++ "!"
                    ++ toCol (Z.of_nat (List.length (firstRow headerRes))) ++ "1")
                 [missingColumns (firstRow headerRes)];
               Sheet.Get sheetId (sheetName ++ "!A:ZZ")])).
Proof.
  unfold getSpreadsheetDataFlexible.
  destruct (Sheet.values_get api n sheetId (sheetName ++ "!1:1")) as [headerRes|e];
    [|discriminate].
  set (hs := firstRow headerRes).
  destruct (List.length hs =? 0)%nat eqn:Hempty; [discriminate|].
  destruct ((findIndexByNames (lowerHeaders hs) nameCandidates =? -1)
            || (findIndexByNames (lowerHeaders hs) emailCandidates =? -1)) eqn:Hcols;
    [discriminate|].
  apply orb_false_iff in Hcols. destruct Hcols as [Hname Hemail].
  apply Z.eqb_neq in Hname. apply Z.eqb_neq in Hemail.
  assert (Hne : hs <> []).
  { intros Heq. rewrite Heq in Hempty. discriminate. }
  destruct (0 <? List.length (missingColumns hs))%nat eqn:Hmissing.
  - destruct (Sheet.values_update api (S n) sheetId _ [missingColumns hs]) as [[]|e];
      [|discriminate].
    intros H. injection H as Hdata Hcalls.
    destruct (readRows_inv _ _ _ _ _ _ _ _ Hdata)
      as [vals [Hget [Hlen [Hheaders [Hcolumns [Hparts Hsnd]]]]]].
    exists headerRes, vals, (S (S n)). fold hs.
    split; [reflexivity|]. split; [exact Hne|]. split; [exact Hname|].
    split; [exact Hemail|]. split; [exact Hheaders|].
    split; [rewrite Hcolumns, Hheaders; reflexivity|].
    split; [exact Hget|]. split; [exact Hlen|]. split; [exact Hparts|].
    right. split.
    { intros Heq. rewrite Heq in Hmissing. discriminate. }
    split; [reflexivity|]. rewrite <- Hcalls, Hsnd. reflexivity.
  - intros H. injection H as Hdata Hcalls.
    destruct (readRows_inv _ _ _ _ _ _ _ _ Hdata)
      as [vals [Hget [Hlen [Hheaders [Hcolumns [Hparts Hsnd]]]]]].
    assert (Hnone : missingColumns hs = []).
    { destruct (missingColumns hs); [reflexivity|discriminate]. }
    exists headerRes, vals, (S n). fold hs.
    split; [reflexivity|]. split; [exact Hne|]. split; [exact Hname|].
    split; [exact Hemail|].
    split; [rewrite Hnone, app_nil_r; exact Hheaders|].
    split; [rewrite Hcolumns, Hheaders; reflexivity|].
    split; [exact Hget|]. split; [exact Hlen|]. split; [exact Hparts|].
    left. split; [exact Hnone|]. split; [reflexivity|].
    rewrite <- Hcalls, Hsnd. reflexivity.
Qed.

Lemma candidates_disjoint (x : string) :
  In x nameCandidates -> In x emailCandidates -> False.
Proof.
  unfold nameCandidates, emailCandidates. cbn [In].
  intros Hn He.
  repeat match goal with
         | H : _ \/ _ |- _ => destruct H
         | H : False |- _ => destruct H
         end; subst; discriminate.
Qed.

Lemma extras_not_candidates (h : string) :
  In h extras ->
  ~ In (toLowerCase (trim h)) nameCandidates /\
  ~ In (toLowerCase (trim h)) emailCandidates.
Proof.
  unfold extras. cbn [In]. intros H.
  repeat match goal with
         | H : _ \/ _ |- _ => destruct H
         | H : False |- _ => destruct H
         end; subst; split; vm_compute; intuition discriminate.
Qed.

Lemma distinct_columns (hs : list string) (a b : Z) (ha hb : string) :
  nth_error hs (Z.to_nat a) = Some ha -> nth_error hs (Z.to_nat b) = Some hb ->
  ha <> hb -> a <> b.
Proof. intros Ha Hb Hne Heq. subst b. congruence. Qed.

(** The header of a column that findIndexByNames picked. *)
Lemma picked_header (hs missing : list string) (candidates : list string) :
  findIndexByNames (lowerHeaders hs) candidates <> -1 ->
  0 <= findIndexByNames (lowerHeaders hs) candidates
    < Z.of_nat (List.length (hs ++ missing)) /\
  exists h,
    nth_error (hs ++ missing)
              (Z.to_nat (findIndexByNames (lowerHeaders hs) candidates)) = Some h /\
    In (toLowerCase (trim h)) candidates.
Proof.
  intros Hfound.
  destruct (findIndexByNames_spec (lowerHeaders hs) candidates)
    as [[Hnone _]|[before [c [later [Hsplit [_ [Hidx [Hrange [Hnth _]]]]]]]]];
    [congruence|].
  rewrite Hidx. unfold lowerHeaders in *.
  rewrite length_map in Hrange. rewrite nth_error_map in Hnth.
  split; [rewrite length_app; lia|].
  set (i := Z.to_nat (indexOf c (map (fun h => toLowerCase (trim h)) hs))) in *.
  destruct (nth_error hs i) as [h|] eqn:Hh; [|discriminate].
  cbn in Hnth. injection Hnth as Hc.
  exists h. split.
  - rewrite nth_error_app1; [exact Hh|]. apply nth_error_Some. congruence.
  - rewrite Hc, Hsplit. apply in_or_app. right. left. reflexivity.
Qed.

(** The position of a bookkeeping column in the extended header. *)
Lemma bookkeeping_header (hs : list string) (x : string) :
  In x extras ->
  0 <= indexOf x (hs ++ missingColumns hs)
    < Z.of_nat (List.length (hs ++ missingColumns hs)) /\
  nth_error (hs ++ missingColumns hs)
            (Z.to_nat (indexOf x (hs ++ missingColumns hs))) = Some x.
Proof.
  intros Hx.
  destruct (indexOf_spec x (hs ++ missingColumns hs)) as [[_ Hnot]|[Hrange [Hnth _]]].
  - exfalso. apply Hnot. apply extras_present. exact Hx.
  - split; assumption.
Qed.

Lemma colOr_found (c : Z) (fallback : string) : 0 <= c -> colOr c fallback = toCol c.
Proof.
  intros Hc. unfold colOr.
  replace (c =? -1) with false by (symmetry; apply Z.eqb_neq; lia). reflexivity.
Qed.

(** The columns of a reading that returned data. *)
Lemma reading_columns (api : Sheet.Api) (sheetId sheetName : string) (n : nat)
    (data : Sheet.Data) (calls : list Sheet.Call) :
  getSpreadsheetDataFlexible api sheetId sheetName n = (Some data, calls) ->
  Forall (fun c => 0 <= c < Z.of_nat (List.length (Sheet.headers data)))
         (columnList (Sheet.columns data)) /\
  NoDup (columnList (Sheet.columns data)) /\
  nth_error (Sheet.headers data) (Z.to_nat (folderIdCol (Sheet.columns data)))
    = Some "FolderId" /\
  nth_error (Sheet.headers data) (Z.to_nat (isSharedCol (Sheet.columns data)))
    = Some "isShared" /\
  nth_error (Sheet.headers data) (Z.to_nat (isFolderExistsCol (Sheet.columns data)))
    = Some "isFolderExists" /\
  nth_error (Sheet.headers data) (Z.to_nat (lastLogCol (Sheet.columns data)))
    = Some "LastLog" /\
  (exists h, nth_error (Sheet.headers data) (Z.to_nat (nameCol (Sheet.columns data)))
             = Some h /\ In (toLowerCase (trim h)) nameCandidates) /\
  (exists h, nth_error (Sheet.headers data) (Z.to_nat (emailCol (Sheet.columns data)))
             = Some h /\ In (toLowerCase (trim h)) emailCandidates).
Proof.
  intros Hread.
  destruct (reading_inv _ _ _ _ _ _ Hread)
    as [headerRes [vals [k [_ [_ [Hname [Hemail [Hheaders [Hcolumns _]]]]]]]]].
  set (hs := firstRow headerRes) in *.
  rewrite Hcolumns, Hheaders. unfold columnList.
  cbn [nameCol emailCol folderIdCol isSharedCol isFolderExistsCol lastLogCol].
  destruct (picked_header hs (missingColumns hs) nameCandidates Hname)
    as [Rn [hn [Hn Cn]]].
  destruct (picked_header hs (missingColumns hs) emailCandidates Hemail)
    as [Re [he [He Ce]]].
  destruct (bookkeeping_header hs "FolderId" ltac:(cbn; tauto)) as [Rf Hf].
  destruct (bookkeeping_header hs "isShared" ltac:(cbn; tauto)) as [Rs Hs].
  destruct (bookkeeping_header hs "isFolderExists" ltac:(cbn; tauto)) as [Rx Hx].
  destruct (bookkeeping_header hs "LastLog" ltac:(cbn; tauto)) as [Rl Hl].
  assert (Dn : forall x, In x extras -> hn <> x).
  { intros x Hin Heq. subst x. apply (proj1 (extras_not_candidates hn Hin)). exact Cn. }
  assert (De : forall x, In x extras -> he <> x).
  { intros x Hin Heq. subst x. apply (proj2 (extras_not_candidates he Hin)). exact Ce. }
  assert (Dne : hn <> he).
  { intros Heq. subst he. exact (candidates_disjoint _ Cn Ce). }
  split; [repeat (apply Forall_cons; [lia|]); apply Forall_nil|].
  split.
  { repeat (apply NoDup_cons; [|]); try apply NoDup_nil; cbn [In]; intros Hin;
      repeat match goal with
             | H : _ \/ _ |- _ => destruct H
             | H : False |- _ => destruct H
             end;
      match goal with
      | H : ?a = ?b |- _ =>
          revert H;
          first [ eapply (distinct_columns (hs ++ missingColumns hs));
                    [eassumption|eassumption|
                     first [ discriminate
                           | exact Dne
                           | intros Habs; symmetry in Habs; revert Habs; exact Dne
                           | apply Dn; cbn; tauto
                           | apply De; cbn; tauto
                           | intros Habs; symmetry in Habs; revert Habs;
                             first [apply Dn|apply De]; cbn; tauto ]] ]
      end. }
  split; [exact Hf|]. split; [exact Hs|]. split; [exact Hx|]. split; [exact Hl|].
  split; [exists hn; split; assumption|exists he; split; assumption].
Qed.

Lemma reading_letters (api : Sheet.Api) (sheetId sheetName : string) (n : nat)
    (data : Sheet.Data) (calls : list Sheet.Call) :
  getSpreadsheetDataFlexible api sheetId sheetName n = (Some data, calls) ->
  NoDup (map toCol (columnList (Sheet.columns data))).
Proof.
  intros Hread.
  destruct (reading_columns _ _ _ _ _ _ Hread) as [Hrange [Hdistinct _]].
  apply NoDup_map_NoDup_ForallPairs; [|exact Hdistinct].
  intros a b Ha Hb Heq. rewrite Forall_forall in Hrange.
  apply toCol_injective; [apply (Hrange a Ha)|apply (Hrange b Hb)|exact Heq].
Qed.

(** X15. A reading that returns data has found its six columns.  The name
    and the email column are columns of the header whose trimmed,
    lower-cased title is one of the accepted names; the columns FolderId,
    isShared, isFolderExists and LastLog are columns with exactly these
    titles; the six columns are different columns, inside the header, so
    their letters differ; and no write-back of a pass falls back on the
    fixed letters C, D, E and F. *)
Theorem reading_finds_its_columns (api : Sheet.Api) (sheetId sheetName : string)
    (n : nat) (data : Sheet.Data) (calls : list Sheet.Call)
    (Hread : getSpreadsheetDataFlexible api sheetId sheetName n = (Some data, calls)) :
  Forall (fun c => 0 <= c < Z.of_nat (List.length (Sheet.headers data)))
         (columnList (Sheet.columns data)) /\
  NoDup (columnList (Sheet.columns data)) /\
  NoDup (map toCol (columnList (Sheet.columns data))) /\
  nth_error (Sheet.headers data) (Z.to_nat (folderIdCol (Sheet.columns data)))
    = Some "FolderId" /\
  nth_error (Sheet.headers data) (Z.to_nat (isSharedCol (Sheet.columns data)))
    = Some "isShared" /\
  nth_error (Sheet.headers data) (Z.to_nat (isFolderExistsCol (Sheet.columns data)))
    = Some "isFolderExists" /\
  nth_error (Sheet.headers data) (Z.to_nat (lastLogCol (Sheet.columns data)))
    = Some "LastLog" /\
  (exists h, nth_error (Sheet.headers data) (Z.to_nat (nameCol (Sheet.columns data)))
             = Some h /\ In (toLowerCase (trim h)) nameCandidates) /\
  (exists h, nth_error (Sheet.headers data) (Z.to_nat (emailCol (Sheet.columns data)))
             = Some h /\ In (toLowerCase (trim h)) emailCandidates) /\
  colOr (folderIdCol (Sheet.columns data)) "C" = toCol (folderIdCol (Sheet.columns data)) /\
  colOr (isSharedCol (Sheet.columns data)) "D" = toCol (isSharedCol (Sheet.columns data)) /\
  colOr (isFolderExistsCol (Sheet.columns data)) "E"
    = toCol (isFolderExistsCol (Sheet.columns data)) /\
  colOr (lastLogCol (Sheet.columns data)) "F" = toCol (lastLogCol (Sheet.columns data)).
Proof.
  destruct (reading_columns _ _ _ _ _ _ Hread)
    as [Hrange [Hdistinct [Hf [Hs [Hx [Hl [Hn He]]]]]]].
  split; [exact Hrange|]. split; [exact Hdistinct|].
  split; [exact (reading_letters _ _ _ _ _ _ Hread)|].
  split; [exact Hf|]. split; [exact Hs|]. split; [exact Hx|]. split; [exact Hl|].
  split; [exact Hn|]. split; [exact He|].
  rewrite Forall_forall in Hrange.
  repeat split; apply colOr_found; apply Hrange; cbn; tauto.
Qed.

(** The theorem at a sheet with the header Nama Peserta | E-Mail: the
    four bookkeeping columns are appended as C to F. *)
Lemma reading_finds_its_columns_witness :
  exists data calls,
    getSpreadsheetDataFlexible Sample2.newSheet "sheet-1" "Sheet1" 0 = (Some data, calls) /\
    Sheet.columns data = mkColumns 0 1 2 3 4 5 /\
    NoDup (map toCol (columnList (Sheet.columns data))) /\
    map toCol (columnList (Sheet.columns data)) = ["A"; "B"; "C"; "D"; "E"; "F"].
Proof.
  eexists. eexists.
  eassert (Hread : getSpreadsheetDataFlexible Sample2.newSheet "sheet-1" "Sheet1" 0
                   = (Some _, _)) by (vm_compute; reflexivity).
  split; [exact Hread|]. split; [reflexivity|].
  split; [|reflexivity].
  exact (proj1 (proj2 (proj2 (reading_finds_its_columns _ _ _ _ _ _ Hread)))).
Defined.

(** ** The header row *)

Lemma indexOfFrom_shift (x : string) (l : list string) :
  forall i,
    indexOfFrom x l i =
    if indexOfFrom x l 0 =? -1 then -1 else i + indexOfFrom x l 0.
Proof.
  induction l as [|y rest IH]; intros i; [reflexivity|].
  cbn [indexOfFrom]. destruct (String.eqb y x).
  - cbn. lia.
  - rewrite (IH (i + 1)), (IH (0 + 1)).
    destruct (indexOfFrom x rest 0 =? -1) eqn:Hrest; [reflexivity|].
    apply Z.eqb_neq in Hrest.
    assert (Hge : 0 <= indexOfFrom x rest 0).
    { destruct (indexOf_spec x rest) as [[H _]|[H _]]; unfold indexOf in H; lia. }
    replace (0 + 1 + indexOfFrom x rest 0 =? -1) with false
      by (symmetry; apply Z.eqb_neq; lia).
    lia.
Qed.

Lemma indexOf_app_right (x : string) (l m : list string) :
  ~ In x l -> In x m ->
  indexOf x (l ++ m) = Z.of_nat (List.length l) + indexOf x m.
Proof.
  intros Hnot Hin. unfold indexOf.
  assert (H : forall i, indexOfFrom x (l ++ m) i
                        = indexOfFrom x m (i + Z.of_nat (List.length l))).
  { clear Hin. induction l as [|y rest IH]; intros i.
    - cbn. f_equal. lia.
    - cbn [app indexOfFrom List.length].
      destruct (String.eqb_spec y x) as [->|Hne].
      + exfalso. apply Hnot. left. reflexivity.
      + rewrite IH; [f_equal; lia|]. intros Hrest. apply Hnot. right. exact Hrest. }
  rewrite H, indexOfFrom_shift.
  destruct (indexOf_spec x m) as [[_ Habs]|[Hrange _]]; [contradiction|].
  unfold indexOf in Hrange.
  replace (indexOfFrom x m 0 =? -1) with false by (symmetry; apply Z.eqb_neq; lia).
  lia.
Qed.

Lemma missing_not_in_header (hs : list string) (x : string) :
  In x (missingColumns hs) -> In x extras /\ ~ In x hs.
Proof.
  unfold missingColumns. intros H. apply filter_In in H. destruct H as [Hx Hnot].
  split; [exact Hx|]. intros Hin. apply includesItem_In in Hin.
  rewrite Hin in Hnot. discriminate.
Qed.

(** X16. The header row is extended once, and where the reading looks
    next.  A reading requests at most one write: after it has found the
    name and the email column, when a bookkeeping column is missing, and
    then it writes the missing titles, in the order FolderId, isShared,
    isFolderExists, LastLog, into row 1 from the first column after the
    header.  The column that the reading then takes for a missing title
    is the cell that received it.  In the header so extended nothing is
    missing, so a later reading writes no title again. *)
Theorem header_is_extended_once (api : Sheet.Api) (sheetId sheetName : string)
    (n : nat) :
  let reading := getSpreadsheetDataFlexible api sheetId sheetName n in
  (List.length (filter isUpdate (snd reading)) <= 1)%nat /\
  (forall sid range values, In (Sheet.Update sid range values) (snd reading) ->
     exists headerRes,
       Sheet.values_get api n sheetId (sheetName ++ "!1:1") = Ok headerRes /\
       findIndexByNames (lowerHeaders (firstRow headerRes)) nameCandidates <> -1 /\
       findIndexByNames (lowerHeaders (firstRow headerRes)) emailCandidates <> -1 /\
       missingColumns (firstRow headerRes) <> [] /\
       sid = sheetId /\
       range = (sheetName ++ "!"
                  ++ toCol (Z.of_nat (List.length (firstRow headerRes))) ++ "1")%string /\
       values = [missingColumns (firstRow headerRes)]) /\
  (forall hs x, In x (missingColumns hs) ->
     indexOf x (hs ++ missingColumns hs)
     = Z.of_nat (List.length hs) + indexOf x (missingColumns hs) /\
     0 <= indexOf x (missingColumns hs)) /\
  (forall hs x, In x extras -> In x hs ->
     indexOf x (hs ++ missingColumns hs) = indexOf x hs) /\
  (forall hs, missingColumns (hs ++ missingColumns hs) = []).
Proof.
  cbv zeta. split; [|split; [|split; [|split]]].
  - unfold getSpreadsheetDataFlexible, readRows.
    repeat match goal with
           | |- context [match ?x with _ => _ end] => destruct x
           end; cbn; lia.
  - intros sid range values Hin. unfold getSpreadsheetDataFlexible in Hin.
    destruct (Sheet.values_get api n sheetId (sheetName ++ "!1:1")) as [headerRes|e];
      [|cbn in Hin; destruct Hin as [Hin|[]]; discriminate].
    set (hs := firstRow headerRes) in *.
    destruct (List.length hs =? 0)%nat;
      [cbn in Hin; destruct Hin as [Hin|[]]; discriminate|].
    destruct ((findIndexByNames (lowerHeaders hs) nameCandidates =? -1)
              || (findIndexByNames (lowerHeaders hs) emailCandidates =? -1)) eqn:Hcols;
      [cbn in Hin; destruct Hin as [Hin|[]]; discriminate|].
    apply orb_false_iff in Hcols. destruct Hcols as [Hname Hemail].
    apply Z.eqb_neq in Hname. apply Z.eqb_neq in Hemail.
    assert (Hrows : forall k hs', ~ In (Sheet.Update sid range values)
              (snd (readRows api sheetId sheetName k hs'
                      (findIndexByNames (lowerHeaders hs) nameCandidates)
                      (findIndexByNames (lowerHeaders hs) emailCandidates)))).
    { intros k hs'. unfold readRows.
      repeat match goal with
             | |- context [match ?x with _ => _ end] => destruct x
             end; cbn; intros [H|[]]; discriminate. }
    destruct (0 <? List.length (missingColumns hs))%nat eqn:Hmissing.
    + assert (Hne : missingColumns hs <> []).
      { intros Heq. rewrite Heq in Hmissing. discriminate. }
      exists headerRes. fold hs.
      split; [reflexivity|]. split; [exact Hname|]. split; [exact Hemail|].
      split; [exact Hne|].
      destruct (Sheet.values_update api (S n) sheetId _ [missingColumns hs]) as [[]|e];
        cbn [snd In] in Hin.
      * destruct Hin as [Hin|[Hin|Hin]]; [discriminate| |exfalso; exact (Hrows _ _ Hin)].
        injection Hin as <- <- <-. repeat split.
      * destruct Hin as [Hin|[Hin|[]]]; [discriminate|].
        injection Hin as <- <- <-. repeat split.
    + cbn [snd In] in Hin. destruct Hin as [Hin|Hin]; [discriminate|].
      exfalso. exact (Hrows _ _ Hin).
  - intros hs x Hx. destruct (missing_not_in_header hs x Hx) as [_ Hnot].
    split; [apply indexOf_app_right; assumption|].
    destruct (indexOf_spec x (missingColumns hs)) as [[_ Habs]|[Hrange _]];
      [contradiction|lia].
  - intros hs x _ Hin. apply indexOf_app_left. exact Hin.
  - exact missingColumns_none.
Qed.

(** The theorem at a sheet with the header Nama Peserta | E-Mail: the
    four titles are written from column C on. *)
Lemma header_is_extended_once_witness :
  let reading := getSpreadsheetDataFlexible Sample2.newSheet "sheet-1" "Sheet1" 0 in
  In (Sheet.Update "sheet-1" "Sheet1!C1"
                   [["FolderId"; "isShared"; "isFolderExists"; "LastLog"]])
     (snd reading) /\
  (List.length (filter isUpdate (snd reading)) <= 1)%nat /\
  exists headerRes,
    Sheet.values_get Sample2.newSheet 0 "sheet-1" "Sheet1!1:1" = Ok headerRes /\
    missingColumns (firstRow headerRes) <> [].
Proof.
  cbv zeta.
  assert (Hin : In (Sheet.Update "sheet-1" "Sheet1!C1"
                      [["FolderId"; "isShared"; "isFolderExists"; "LastLog"]])
                   (snd (getSpreadsheetDataFlexible Sample2.newSheet "sheet-1" "Sheet1" 0))).
  { vm_compute. right. left. reflexivity. }
  split; [exact Hin|].
  pose proof (header_is_extended_once Sample2.newSheet "sheet-1" "Sheet1" 0) as H.
  cbv zeta in H. destruct H as [Hone [Hupd _]].
  split; [exact Hone|].
  destruct (Hupd _ _ _ Hin) as [headerRes [Hget [_ [_ [Hmissing _]]]]].
  exists headerRes. split; [exact Hget|exact Hmissing].
Defined.

(** ** A single pass over the sheet *)

Lemma batch_rows (cfg : Config) (columns : Columns) (rows : list (list string))
    (p : Participant) :
  In p (workingParticipants cfg (participantsOfRows columns rows)) ->
  2 <= rowIndex p < 2 + Z.of_nat (List.length rows).
Proof.
  intros Hp. destruct (working_members cfg _ p Hp) as [Hnorm _].
  apply in_map_iff in Hnorm. destruct Hnorm as [q [<- Hq]].
  apply participantsFrom_rows in Hq. cbn [rowIndex normalizeOne]. lia.
Qed.

(** X17. A single pass writes where the reading found its columns.  When
    the reading of the sheet gives no data the pass does nothing.  Else
    every cell that the pass writes is in a data row of the sheet, and in
    the column that the reading found for it: TRUE or FALSE under
    isShared or isFolderExists, a folder id under FolderId, a log line
    under LastLog.  The one exception is the duplicate notice, which goes
    to column F: no other write can land in the name or the email column,
    but the duplicate notice does when that column is F. *)
Theorem single_pass_writes_its_columns (api : Sheet.Api) (E : Env) (cfg : Config)
    (sheetId sheetName : string) (fuel : nat) (w : World) (r : Run (list Report))
    (Hrun : snd (singlePass api E cfg sheetId sheetName fuel) w = Some r) :
  fst (singlePass api E cfg sheetId sheetName fuel)
    = snd (getSpreadsheetDataFlexible api sheetId sheetName 0) /\
  match fst (getSpreadsheetDataFlexible api sheetId sheetName 0) with
  | None => r = mkRun (Normal []) w []
  | Some data =>
      forall row col value, In (EvValuesUpdate row col value) (events r) ->
        2 <= row < 2 + Z.of_nat (List.length (Sheet.participants data)) /\
        ((col = toCol (isSharedCol (Sheet.columns data)) /\
          (value = "TRUE" \/ value = "FALSE")) \/
         (col = toCol (isFolderExistsCol (Sheet.columns data)) /\
          (value = "TRUE" \/ value = "FALSE")) \/
         (col = toCol (folderIdCol (Sheet.columns data)) /\ truthy value = true) \/
         (col = toCol (lastLogCol (Sheet.columns data)) /\
          exists ts rest, value = ("[" ++ ts ++ "] " ++ rest)%string) \/
         (col = "F" /\ exists ts, value = Render.duplicateLog ts)) /\
        (col = toCol (nameCol (Sheet.columns data)) \/
         col = toCol (emailCol (Sheet.columns data)) ->
         col = "F" /\ exists ts, value = Render.duplicateLog ts)
  end.
Proof.
  unfold singlePass in *.
  destruct (getSpreadsheetDataFlexible api sheetId sheetName 0) as [[data|] calls] eqn:Hread;
    cbn [fst snd] in *.
  2:{ split; [reflexivity|]. injection Hrun as <-. reflexivity. }
  split; [reflexivity|].
  destruct (reading_inv _ _ _ _ _ _ Hread)
    as [headerRes [vals [k [_ [_ [_ [_ [_ [_ [_ [_ [Hparts _]]]]]]]]]]]].
  destruct (reading_columns _ _ _ _ _ _ Hread) as [Hrange [Hdistinct _]].
  rewrite Forall_forall in Hrange.
  assert (Hpos : forall c, In c (columnList (Sheet.columns data)) -> 0 <= c)
    by (intros c Hc; apply (Hrange c Hc)).
  unfold columnList in Hpos, Hdistinct. 
  intros row col value Hev. rewrite Hparts in Hrun.
  destruct (processParticipants_events E cfg _ fuel _ w r _ Hrun Hev)
    as [p [Hp [Hrow Hcell]]].
  split.
  { rewrite Hparts. unfold participantsOfRows. rewrite participantsFrom_length.
    rewrite Hrow. apply (batch_rows cfg _ _ p Hp). }
  unfold CellWrite in Hcell.
  rewrite !colOr_found in Hcell by (apply Hpos; cbn; tauto).
  split.
  { destruct Hcell as [H|[H|[H|[H|H]]]]; auto.
    destruct H as [H1 [_ [H2 _]]]. auto. }
  assert (Hin : forall a b, toCol a = toCol b -> 0 <= a -> 0 <= b -> a = b)
    by (intros a b Heq Ha Hb; apply toCol_injective; assumption).
  inversion Hdistinct as [|? ? Hn Hd1]; subst.
  inversion Hd1 as [|? ? He Hd2]; subst.
  cbn [In] in Hn, He.
  intros Hcol.
  destruct Hcell as [[H _]|[[H _]|[[H _]|[[H _]|H]]]]; [| | | |exact H]; exfalso;
    rewrite H in Hcol; destruct Hcol as [Hcol|Hcol];
    apply Hin in Hcol; try (apply Hpos; cbn; tauto);
    first [apply Hn; rewrite <- Hcol; tauto | apply He; rewrite <- Hcol; tauto].
Qed.

(** The theorem at the sheet with the header Nama Peserta | E-Mail and the
    row of Jane Doe. *)
Lemma single_pass_writes_its_columns_witness :
  exists r,
    snd (singlePass Sample2.newSheet Sample.flatDrive (Sample.config "P" true)
                    "sheet-1" "Sheet1" 10) Sample.world0 = Some r /\
    In (EvValuesUpdate 2 "C" "J") (events r) /\
    forall row col value, In (EvValuesUpdate row col value) (events r) ->
      row = 2 /\ col <> "A" /\ col <> "B".
Proof.
  eexists.
  eassert (Hrun : snd (singlePass Sample2.newSheet Sample.flatDrive
                         (Sample.config "P" true) "sheet-1" "Sheet1" 10)
                      Sample.world0 = Some _)
    by (vm_compute; reflexivity).
  split; [exact Hrun|]. split; [cbn; tauto|].
  intros row col value Hev.
  pose proof (proj2 (single_pass_writes_its_columns _ _ _ _ _ _ _ _ Hrun)) as Hpass.
  cbn in Hpass. destruct (Hpass row col value Hev) as [Hrow [_ Hcols]].
  split; [lia|]. split; intros ->.
  - destruct (Hcols (or_introl eq_refl)) as [Habs _]. discriminate.
  - destruct (Hcols (or_intror eq_refl)) as [Habs _]. discriminate.
Defined.

(** ** The countdown *)

Section Countdown.

Variable E : Env.
Variable totalSeconds : Z.

(** A pause of one second takes one second on the clock, or more. *)
Hypothesis clock_moves : forall n, clock E n + 1000 <= clock E (S n).



End Countdown.



(** ** The check before the grant *)

Lemma grantsChecked_none (evs : list Event) : Forall NoGrant evs -> GrantsChecked evs.
Proof.
  intros Hall before f e ro later Heq. subst evs.
  apply Forall_app in Hall. destruct Hall as [_ Hall].
  inversion Hall as [|? ? Habs _]. discriminate.
Qed.

Lemma grantsChecked_prefix (l1 l2 : list Event) :
  Forall NoGrant l1 -> GrantsChecked l2 -> GrantsChecked (l1 ++ l2).
Proof.
  intros Hall Hgc before f e ro later Heq.
  apply app_eq_app in Heq. destruct Heq as [m [[H1 H2]|[H1 H2]]].
  - destruct m as [|x m].
    + rewrite app_nil_r in H1. subst before. cbn in H2.
      symmetry in H2.
      exfalso. specialize (Hgc [] f e ro later H2). destruct Hgc.
    + cbn in H2. injection H2 as <- _. subst l1.
      apply Forall_app in Hall. destruct Hall as [_ Hall].
      inversion Hall as [|? ? Habs _]. discriminate.
  - subst before. apply in_or_app. right. apply (Hgc m f e ro later H2).
Qed.

Lemma grantsChecked_suffix (l1 l2 : list Event) :
  GrantsChecked l1 -> Forall NoGrant l2 -> GrantsChecked (l1 ++ l2).
Proof.
  intros Hgc Hall before f e ro later Heq.
  apply app_eq_app in Heq. destruct Heq as [m [[H1 H2]|[H1 H2]]].
  - destruct m as [|x m].
    + cbn in H2. subst l2. inversion Hall as [|? ? Habs _]. discriminate.
    + cbn in H2. injection H2 as <- _. apply (Hgc before f e ro m H1).
  - exfalso. subst l2. apply Forall_app in Hall. destruct Hall as [_ Hall].
    inversion Hall as [|? ? Habs _]. discriminate.
Qed.

Lemma grantsChecked_app (l1 l2 : list Event) :
  GrantsChecked l1 -> GrantsChecked l2 -> GrantsChecked (l1 ++ l2).
Proof.
  intros H1 H2 before f e ro later Heq.
  apply app_eq_app in Heq. destruct Heq as [m [[Ha Hb]|[Ha Hb]]].
  - destruct m as [|x m].
    + cbn in Hb. symmetry in Hb. destruct (H2 [] f e ro later Hb).
    + cbn in Hb. injection Hb as <- _. apply (H1 before f e ro m Ha).
  - subst before. apply in_or_app. right. apply (H2 m f e ro later Hb).
Qed.

Lemma grantsChecked_after (f : string) (chk rest : list Event) :
  In (EvPermissionsList f) chk -> Forall NoGrant chk -> Forall (GrantOn f) rest ->
  GrantsChecked (chk ++ rest).
Proof.
  intros Hin Hchk Hrest before f' e ro later Heq.
  apply app_eq_app in Heq. destruct Heq as [m [[H1 H2]|[H1 H2]]].
  - destruct m as [|x m].
    + rewrite app_nil_r in H1. subst before. cbn in H2. subst rest.
      inversion Hrest as [|? ? Hon _]. cbn in Hon. subst f'. exact Hin.
    + cbn in H2. injection H2 as <- _. subst chk.
      apply Forall_app in Hchk. destruct Hchk as [_ Hchk].
      inversion Hchk as [|? ? Habs _]. discriminate.
  - subst before rest. apply Forall_app in Hrest. destruct Hrest as [_ Hrest].
    inversion Hrest as [|? ? Hon _]. cbn in Hon. subst f'.
    apply in_or_app. left. exact Hin.
Qed.

Section Orders.

Variable E : Env.
Variable cfg : Config.
Variable columns : Columns.

Lemma checked_none {A} (m : M A) : Obeys anyWorld NoGrant m -> Checked m.
Proof. intros Hm w r H. apply grantsChecked_none. apply (Hm w r H). Qed.

Lemma checked_bind {A B} (m : M A) (k : A -> M B) :
  Obeys anyWorld NoGrant m -> (forall a, Checked (k a)) -> Checked (bind m k).
Proof.
  intros Hm Hk w r H. apply bind_inv in H. destruct H as [r1 [Hr1 H]].
  destruct (Hm w r1 Hr1) as [_ H1].
  destruct (result r1) as [a|e].
  - destruct H as [r2 [Hr2 ->]]. cbn. apply grantsChecked_prefix; [exact H1|].
    apply (Hk a _ _ Hr2).
  - subst r. cbn. apply grantsChecked_none. exact H1.
Qed.

Lemma checked_tryCatch {A} (m : M A) (h : JsError -> M A) :
  Checked m -> (forall e, Obeys anyWorld NoGrant (h e)) -> Checked (tryCatch m h).
Proof.
  intros Hm Hh w r H. apply tryCatch_inv in H. destruct H as [r1 [Hr1 H]].
  pose proof (Hm w r1 Hr1) as H1.
  destruct (result r1) as [a|e].
  - subst r. exact H1.
  - destruct H as [r2 [Hr2 ->]]. cbn. apply grantsChecked_suffix; [exact H1|].
    apply (Hh e _ _ Hr2).
Qed.

Lemma checked_after {A B} (f : string) (m : M A) (k : A -> M B) :
  (forall w r, m w = Some r ->
     In (EvPermissionsList f) (events r) /\ Forall NoGrant (events r)) ->
  (forall a, Obeys anyWorld (GrantOn f) (k a)) ->
  Checked (bind m k).
Proof.
  intros Hm Hk w r H. apply bind_inv in H. destruct H as [r1 [Hr1 H]].
  destruct (Hm w r1 Hr1) as [Hin H1].
  destruct (result r1) as [a|e].
  - destruct H as [r2 [Hr2 ->]]. cbn.
    apply (grantsChecked_after f); [exact Hin|exact H1|apply (Hk a _ _ Hr2)].
  - subst r. cbn. apply grantsChecked_none. exact H1.
Qed.

Lemma updateCell_any (P : Event -> Prop) (row : Z) (col value : string) :
  P (EvValuesUpdate row col value) -> P (EvWarn col row) ->
  Obeys anyWorld P (updateCell E row col value).
Proof.
  intros H1 H2 w r H. rewrite updateCell_run in H. injection H as <-.
  split; [exact I|]. unfold updateCellEvents.
  constructor; [exact H1|].
  destruct (valuesUpdate E (requests w) row col value); constructor;
    [exact H2|constructor].
Qed.

Lemma sleep_any (P : Event -> Prop) (ms : Z) :
  P (EvSleep ms) -> Obeys anyWorld P (sleep ms).
Proof.
  intros HP w r H. rewrite sleep_run in H. injection H as <-.
  split; [exact I|]. constructor; [exact HP|constructor].
Qed.

(** Walks steps that count, stamp, write and pause. *)
Ltac plain_steps :=
  repeat first
    [ any_rule @obeys_ret
    | apply bumpStats_quiet
    | apply timestamp_quiet
    | apply randomBelow_quiet
    | apply updateCell_any; [exact I|exact I]
    | apply updateCell_any; [reflexivity|reflexivity]
    | apply sleep_any; exact I
    | apply sleep_any; reflexivity
    | apply obeys_quiet; intros ?; eexists; eexists; reflexivity
    | any_rule @obeys_bind; [|intros ?] ].

Lemma hasPermission_called (fuel : nat) (fileId email role : string) (w : World)
    (r : Run bool) :
  hasPermission E cfg fuel fileId email role w = Some r ->
  In (EvPermissionsList fileId) (events r) /\ Forall NoGrant (events r).
Proof.
  intros H. split.
  - unfold hasPermission in H. apply tryCatch_inv in H. destruct H as [r1 [Hr1 H]].
    destruct (retryLoop_throws E cfg 5 "drive.permissions.list"
                (CtxPermission fileId email role) _
                (fun n => mapRes (existsb (permissionMatches email role))
                                 (permissionsList E n fileId))
                _ (permissionsListCall_run E fileId email role) fuel 0 w r1 Hr1)
      as [Hin _].
    destruct (result r1) as [a|e].
    + subst r. exact Hin.
    + destruct H as [r2 [_ ->]]. cbn. apply in_or_app. left. exact Hin.
  - destruct (hasPermission_obeys E cfg fuel fileId email role w r H) as [_ Hevs].
    eapply Forall_impl; [|exact Hevs].
    intros ev [Hev|Hev]; destruct ev; try discriminate; reflexivity.
Qed.

Lemma processCatch_none (p : Participant) (e : JsError) :
  Obeys anyWorld NoGrant (processCatch E columns p e).
Proof. unfold processCatch. plain_steps. Qed.

Lemma grantAndRecord_on (fuel : nat) (p : Participant) (f : string) :
  Obeys anyWorld (GrantOn f) (grantAndRecord E cfg columns fuel p f).
Proof.
  unfold grantAndRecord.
  any_rule @obeys_bind; [|intros _; plain_steps].
  eapply obeys_weaken; [apply grantPermission_obeys|intros; exact I|].
  intros ev [Hev| ->]; [destruct ev; try discriminate; exact I|reflexivity].
Qed.

Lemma processOne_checked (fuel : nat) (p : Participant) :
  Checked (processOne E cfg columns fuel p).
Proof.
  unfold processOne.
  apply checked_bind; [apply bumpStats_quiet|intros _].
  apply checked_tryCatch; [|intros e; apply processCatch_none].
  unfold processBody.
  destruct (negb (includes "@" (email p))); [apply checked_none; plain_steps|].
  apply checked_bind; [plain_steps|intros seenNow].
  destruct (existsb _ seenNow); [apply checked_none; plain_steps|].
  apply checked_bind; [plain_steps|intros _].
  destruct (truthy (isShared p) && _); [apply checked_none; plain_steps|].
  apply checked_bind.
  { eapply obeys_weaken; [apply resolveFolder_obeys|intros; exact I|].
    intros ev [Hev|Hev]; destruct ev; try discriminate; reflexivity. }
  intros found. unfold shareFolder, recordNotFound.
  destruct (negb (truthy (orEmpty found))); [apply checked_none; plain_steps|].
  apply checked_bind; [plain_steps|intros _].
  apply checked_bind.
  { destruct (negb (truthy (folderId p))); plain_steps. }
  intros _.
  apply (checked_after (orEmpty found)); [apply hasPermission_called|].
  intros has. destruct has; [|apply grantAndRecord_on].
  unfold recordAlreadyGranted. plain_steps.
Qed.

End Orders.

(** X19. No grant without a check.  In the turn of a record, every
    request to create a permission on a folder comes after a request to
    list the permissions of that same folder, made in the same turn; so
    the same holds of a whole pass. *)
Theorem grants_come_after_a_check (E : Env) (cfg : Config) (columns : Columns)
    (fuel : nat) (participants : list Participant) (w : World)
    (r : Run (list Report))
    (Hrun : processParticipants E cfg columns fuel participants w = Some r) :
  exists reports,
    result r = Normal reports /\
    events r = flat_map trail reports /\
    (forall rep, In rep reports -> GrantsChecked (trail rep)) /\
    GrantsChecked (events r).
Proof.
  destruct (processParticipants_trails E cfg columns (fun _ evs => GrantsChecked evs)
              fuel participants w r
              (fun p w0 r0 H0 => processOne_checked E cfg columns fuel p w0 r0 H0) Hrun)
    as [reports [Hres [_ [Hevs Hall]]]].
  exists reports. split; [exact Hres|]. split; [exact Hevs|]. split; [exact Hall|].
  rewrite Hevs. clear Hevs Hres. induction reports as [|rep rest IH].
  - intros before f e ro later Heq. destruct before; discriminate.
  - cbn [flat_map]. apply grantsChecked_app.
    + apply Hall. left. reflexivity.
    + apply IH. intros rep' Hin. apply Hall. right. exact Hin.
Qed.

(** The theorem at a pass over Jane Doe: the permissions of her folder are
    listed, then the grant is created. *)
Lemma grants_come_after_a_check_witness :
  exists r before later,
    processParticipants Sample.flatDrive (Sample.config "P" false) Sample.columns 10
                        [Sample.jane] Sample.world0 = Some r /\
    events r = before ++ EvPermissionsCreate "J" "jane@ex.com" "reader" :: later /\
    In (EvPermissionsList "J") before.
Proof.
  eexists.
  eassert (Hrun : processParticipants Sample.flatDrive (Sample.config "P" false)
                    Sample.columns 10 [Sample.jane] Sample.world0 = Some _)
    by (vm_compute; reflexivity).
  destruct (grants_come_after_a_check _ _ _ _ _ _ _ Hrun) as [reports [_ [_ [_ Hgc]]]].
  cbn [events] in Hgc.
  eexists (_ :: _ :: _ :: _ :: _ :: []). eexists.
  split; [exact Hrun|]. split; [reflexivity|].
  eapply Hgc. reflexivity.
Defined.

(** ** A grant that fails *)

Lemma returns_ret {A} (V : A -> Prop) (a : A) : V a -> Returns V (ret a).
Proof. intros HV w r a' H Ha. injection H as <-. injection Ha as <-. exact HV. Qed.

Lemma returns_bind {A B} (V : B -> Prop) (m : M A) (k : A -> M B) :
  (forall a, Returns V (k a)) -> Returns V (bind m k).
Proof.
  intros Hk w r b H Hb. apply bind_inv in H. destruct H as [r1 [_ H]].
  destruct (result r1) as [a|e].
  - destruct H as [r2 [Hr2 ->]]. exact (Hk a _ _ b Hr2 Hb).
  - subst r. discriminate.
Qed.

Ltac returns_steps :=
  repeat first
    [ apply returns_ret; reflexivity
    | apply returns_bind; intros ?
    | match goal with
      | |- Returns _ (if ?b then _ else _) => destruct b
      end ].

(** The [try] block of a turn does not end in the outcome Error. *)
Lemma processBody_returns (E : Env) (cfg : Config) (columns : Columns) (fuel : nat)
    (p : Participant) :
  Returns (fun o => isErrorOutcome o = false) (processBody E cfg columns fuel p).
Proof.
  unfold processBody, shareFolder, recordNotFound, recordAlreadyGranted, grantAndRecord.
  returns_steps.
Qed.

Lemma processCatch_run (E : Env) (columns : Columns) (p : Participant) (e : JsError)
    (w : World) :
  exists ts wa wb w',
    processCatch E columns p e w =
      Some (mkRun (Normal (Error e)) w'
              (updateCellEvents E wa (rowIndex p) (colOr (isSharedCol columns) "D") "FALSE"
               ++ updateCellEvents E wb (rowIndex p) (colOr (lastLogCol columns) "F")
                    (Render.errorLog ts e))) /\
    stats w' = incErrors (stats w).
Proof.
  assert (Hfin : finishes (processCatch E columns p e) w (fun r =>
            exists ts wa wb,
              r = mkRun (Normal (Error e)) (after r)
                    (updateCellEvents E wa (rowIndex p)
                       (colOr (isSharedCol columns) "D") "FALSE"
                     ++ updateCellEvents E wb (rowIndex p)
                          (colOr (lastLogCol columns) "F") (Render.errorLog ts e)) /\
              stats (after r) = incErrors (stats w))).
  { unfold processCatch.
    finish_with bumpStats_run. finish_with getCurrentTimestamp_run.
    finish_with updateCell_run. finish_with updateCell_run.
    apply finishes_ret. tidy.
    eexists. eexists. eexists. rewrite app_nil_r. split; reflexivity. }
  destruct Hfin as [r [Hrun [ts [wa [wb [Hr Hst]]]]]].
  exists ts, wa, wb, (after r). rewrite <- Hr. split; assumption.
Qed.

(** X20. A grant that fails is written down.  A turn ends in the outcome
    Error only through its [catch] block: the error is the one that
    grantPermission threw, with the operation drive.permissions.create and
    the folder, the email and the role attached; the turn adds one to
    [errors], and its last writes are FALSE to isShared and, to LastLog,
    the line that gives the time, the operation, the context as JSON and
    the summary of the error. *)
Theorem failed_grant_is_logged (E : Env) (cfg : Config) (columns : Columns)
    (fuel : nat) (p : Participant) (w : World) (r : Run Outcome) (e : JsError)
    (Hrun : processOne E cfg columns fuel p w = Some r)
    (Herr : result r = Normal (Error e)) :
  exists f ts before wa wb,
    __op e = Some "drive.permissions.create" /\
    __ctx e = Some (CtxPermission f (email p) "reader") /\
    events r =
      before
      ++ updateCellEvents E wa (rowIndex p) (colOr (isSharedCol columns) "D") "FALSE"
      ++ updateCellEvents E wb (rowIndex p) (colOr (lastLogCol columns) "F")
           (Render.errorLog ts e) /\
    In (EvPermissionsCreate f (email p) "reader") before /\
    Render.errorLog ts e =
      ("[" ++ ts ++ "] ERROR: op=drive.permissions.create ctx="
           ++ Render.jsonOfCtx (CtxPermission f (email p) "reader")
           ++ " " ++ Render.formatErrorSummary e)%string /\
    stats (after r) = incErrors (incTotal (stats w)).
Proof.
  destruct (processOne_ensures E cfg columns fuel p w r Hrun)
    as [o [Ho [Hst [_ [_ Hbranch]]]]].
  rewrite Herr in Ho. injection Ho as <-. cbn [BranchFacts tally] in Hbranch, Hst.
  destruct Hbranch as [_ [_ [Hop [[f [Hctx Hcall]] _]]]].
  assert (Hevs : exists ts before wa wb,
            events r =
              before
              ++ updateCellEvents E wa (rowIndex p) (colOr (isSharedCol columns) "D") "FALSE"
              ++ updateCellEvents E wb (rowIndex p) (colOr (lastLogCol columns) "F")
                   (Render.errorLog ts e)).
  { unfold processOne in Hrun. apply bind_inv in Hrun.
    destruct Hrun as [r1 [Hr1 Hrun]]. rewrite bumpStats_run in Hr1. injection Hr1 as <-.
    cbn [result after] in Hrun. destruct Hrun as [r2 [Hr2 ->]].
    unfold andThen in Herr |- *. cbn [result events] in Herr |- *.
    apply tryCatch_inv in Hr2. destruct Hr2 as [rb [Hrb Hr2]].
    destruct (result rb) as [o|e'] eqn:Hresb.
    { subst r2. rewrite Hresb in Herr. injection Herr as ->.
      pose proof (processBody_returns E cfg columns fuel p _ rb _ Hrb Hresb) as Habs.
      discriminate. }
    destruct Hr2 as [rc [Hrc ->]].
    destruct (processCatch_run E columns p e' (after rb))
      as [ts [wa [wb [w' [Hcatch _]]]]].
    rewrite Hcatch in Hrc. injection Hrc as <-.
    unfold andThen in Herr |- *. cbn [result events] in Herr |- *.
    injection Herr as ->.
    exists ts, (events rb), wa, wb. reflexivity. }
  destruct Hevs as [ts [before [wa [wb Hevs]]]].
  exists f, ts, before, wa, wb.
  split; [exact Hop|]. split; [exact Hctx|]. split; [exact Hevs|].
  split.
  { rewrite Hevs, !in_app_iff in Hcall.
    destruct Hcall as [Hcall|[Hcall|Hcall]]; [exact Hcall| |]; exfalso;
      unfold updateCellEvents in Hcall;
      [destruct (valuesUpdate E (requests wa) _ _ _)
      |destruct (valuesUpdate E (requests wb) _ _ _)];
      cbn in Hcall; intuition discriminate. }
  split; [|exact Hst].
  unfold Render.errorLog. rewrite Hop, Hctx. reflexivity.
Qed.

(** The theorem at a provider that refuses to create the grant of Jane
    Doe. *)
Lemma failed_grant_is_logged_witness :
  exists r e ts,
    processOne Sample2.lockedDrive (Sample.config "P" false) Sample.columns 6
               Sample.janeCached Sample.world0 = Some r /\
    result r = Normal (Error e) /\
    In (EvValuesUpdate 2 "F" (Render.errorLog ts e)) (events r) /\
    stats (after r) = mkStats 1 0 0 1.
Proof.
  eexists. eexists.
  eassert (Hrun : processOne Sample2.lockedDrive (Sample.config "P" false)
                    Sample.columns 6 Sample.janeCached Sample.world0 = Some _)
    by (vm_compute; reflexivity).
  destruct (failed_grant_is_logged _ _ _ _ _ _ _ _ Hrun eq_refl)
    as [f [ts [before [wa [wb [_ [_ [Hevs [_ [_ Hst]]]]]]]]]].
  exists ts. split; [exact Hrun|]. split; [reflexivity|]. split; [|exact Hst].
  rewrite Hevs. apply in_or_app. right. apply in_or_app. right. left. reflexivity.
Defined.

(** ** A pass comes to an end *)

Lemma terminates_ret {A} (a : A) : Terminates (ret a).
Proof. intros w. eexists. reflexivity. Qed.

Lemma terminates_bind {A B} (m : M A) (k : A -> M B) :
  Terminates m -> (forall a, Terminates (k a)) -> Terminates (bind m k).
Proof.
  intros Hm Hk w. destruct (Hm w) as [r Hr]. unfold bind. rewrite Hr.
  destruct (result r) as [a|e]; [|eexists; reflexivity].
  destruct (Hk a (after r)) as [r' Hr']. rewrite Hr'. eexists. reflexivity.
Qed.

Lemma terminates_tryCatch {A} (m : M A) (h : JsError -> M A) :
  Terminates m -> (forall e, Terminates (h e)) -> Terminates (tryCatch m h).
Proof.
  intros Hm Hh w. destruct (Hm w) as [r Hr]. unfold tryCatch. rewrite Hr.
  destruct (result r) as [a|e]; [eexists; reflexivity|].
  destruct (Hh e (after r)) as [r' Hr']. rewrite Hr'. eexists. reflexivity.
Qed.

Lemma terminates_listen {A} (m : M A) : Terminates m -> Terminates (listen m).
Proof.
  intros Hm w. destruct (Hm w) as [r Hr]. unfold listen. rewrite Hr.
  eexists. reflexivity.
Qed.

Lemma terminates_updateCell (E : Env) (row : Z) (col value : string) :
  Terminates (updateCell E row col value).
Proof. intros w. eexists. apply updateCell_run. Qed.

(** Walks steps that always come to an end. *)
Ltac ending_steps :=
  repeat first
    [ apply terminates_ret
    | apply terminates_updateCell
    | solve [intros ?; eexists; reflexivity]
    | apply terminates_bind; [|intros ?] ].

Section Endings.

Variable E : Env.
Variable cfg : Config.
Variable columns : Columns.
Variable fuel : nat.
Hypothesis enough : (6 <= fuel)%nat.

Lemma terminates_hasPermission (fileId email role : string) :
  Terminates (hasPermission E cfg fuel fileId email role).
Proof.
  intros w.
  destruct (hasPermission_run E cfg fuel fileId email role w ltac:(lia))
    as [k [w' [evs [Hrun _]]]].
  eexists. exact Hrun.
Qed.

Lemma terminates_grantPermission (fileId email : string) :
  Terminates (grantPermission E cfg fuel fileId email).
Proof.
  intros w. destruct (dryRun cfg) eqn:Hdry.
  - eexists. apply grantPermission_dryRun. exact Hdry.
  - apply grantPermission_finishes; assumption.
Qed.

Lemma terminates_processCatch (p : Participant) (e : JsError) :
  Terminates (processCatch E columns p e).
Proof. unfold processCatch. ending_steps. Qed.

(** A turn comes to an end when the lookup of the folder does. *)
Lemma terminates_processOne (p : Participant) :
  Terminates (resolveFolder E cfg fuel p) ->
  Terminates (processOne E cfg columns fuel p).
Proof.
  intros Hresolve. unfold processOne.
  apply terminates_bind; [ending_steps|intros _].
  apply terminates_tryCatch; [|intros e; apply terminates_processCatch].
  unfold processBody.
  destruct (negb (includes "@" (email p))); [ending_steps|].
  apply terminates_bind; [ending_steps|intros seenNow].
  destruct (existsb _ seenNow); [ending_steps|].
  apply terminates_bind; [ending_steps|intros _].
  destruct (truthy (isShared p) && _); [ending_steps|].
  apply terminates_bind; [exact Hresolve|intros found].
  unfold shareFolder, recordNotFound.
  destruct (negb (truthy (orEmpty found))); [ending_steps|].
  apply terminates_bind; [ending_steps|intros _].
  apply terminates_bind; [destruct (negb (truthy (folderId p))); ending_steps|intros _].
  apply terminates_bind; [apply terminates_hasPermission|intros has].
  destruct has; [unfold recordAlreadyGranted; ending_steps|].
  unfold grantAndRecord.
  apply terminates_bind; [apply terminates_grantPermission|intros _].
  ending_steps.
Qed.

Lemma terminates_processLoop (working : list Participant) :
  (forall p, In p working -> Terminates (resolveFolder E cfg fuel p)) ->
  Terminates (processLoop E cfg columns fuel working).
Proof.
  induction working as [|p rest IH]; intros Hresolve; cbn [processLoop].
  - apply terminates_ret.
  - apply terminates_bind.
    + apply terminates_listen. apply terminates_processOne.
      apply Hresolve. left. reflexivity.
    + intros r. apply terminates_bind; [|intros reports; apply terminates_ret].
      apply IH. intros q Hq. apply Hresolve. right. exact Hq.
Qed.

End Endings.

(** X21. A pass can only hang in the search for a folder.  With fuel for
    the six attempts of a grant, a pass comes to an end whenever the lookup
    of the folder does for every record of its batch: the check of the
    permissions, the grant, the write-backs and the handling of an error
    always end.  So a pass over records that all have a cached FolderId
    always comes to an end, and returns a report for every record of the
    batch. *)
Theorem pass_comes_to_an_end (E : Env) (cfg : Config) (columns : Columns)
    (fuel : nat) (participants : list Participant) (w : World)
    (Hfuel : (6 <= fuel)%nat)
    (Hresolve : forall p, In p (workingParticipants cfg participants) ->
       truthy (folderId p) = true \/
       forall w0, exists r0, resolveFolder E cfg fuel p w0 = Some r0) :
  exists r reports,
    processParticipants E cfg columns fuel participants w = Some r /\
    result r = Normal reports /\
    map subject reports = workingParticipants cfg participants.
Proof.
  assert (Hends : Terminates (processParticipants E cfg columns fuel participants)).
  { unfold processParticipants.
    apply terminates_bind; [intros w0; eexists; reflexivity|intros _].
    apply terminates_processLoop; [exact Hfuel|].
    intros p Hp. destruct (Hresolve p Hp) as [Hcached|Hends]; [|exact Hends].
    intros w0. unfold resolveFolder. rewrite Hcached. eexists. reflexivity. }
  destruct (Hends w) as [r Hrun].
  destruct (processParticipants_ensures E cfg columns fuel participants w r Hrun)
    as [reports [Hres [Hsubj _]]].
  exists r, reports. split; [exact Hrun|]. split; [exact Hres|exact Hsubj].
Qed.

(** The theorem at a pass over Jane Doe with a cached FolderId, at a
    provider that rate-limits every listing of folders. *)
Lemma pass_comes_to_an_end_witness :
  (6 <= 6)%nat /\
  exists r reports,
    processParticipants Sample2.jammedDrive (Sample.config "P" false) Sample.columns 6
                        [Sample.janeCached] Sample.world0 = Some r /\
    result r = Normal reports /\
    map subject reports = [Sample.janeCached].
Proof.
  split; [lia|].
  apply (pass_comes_to_an_end Sample2.jammedDrive (Sample.config "P" false)
           Sample.columns 6 [Sample.janeCached] Sample.world0); [lia|].
  intros p Hp. left. destruct Hp as [<-|[]]. reflexivity.
Defined.

(** ** The write-backs of a turn *)

Lemma sheetWrites_app (l1 l2 : list Event) :
  sheetWrites (l1 ++ l2) = sheetWrites l1 ++ sheetWrites l2.
Proof.
  induction l1 as [|ev l1 IH]; [reflexivity|].
  destruct ev; cbn [app sheetWrites]; rewrite IH; reflexivity.
Qed.

Lemma sheetWrites_updateCell (E : Env) (w : World) (row : Z) (col value : string) :
  sheetWrites (updateCellEvents E w row col value) = [(row, col, value)].
Proof.
  unfold updateCellEvents. destruct (valuesUpdate E (requests w) row col value);
    reflexivity.
Qed.

Lemma sheetWrites_none (P : Event -> Prop) (evs : list Event) :
  (forall row col value, ~ P (EvValuesUpdate row col value)) ->
  Forall P evs -> sheetWrites evs = [].
Proof.
  intros HP Hall. induction Hall as [|ev evs Hev _ IH]; [reflexivity|].
  destruct ev; cbn [sheetWrites]; try exact IH. exfalso. exact (HP _ _ _ Hev).
Qed.

Lemma resolution_no_write (evs : list Event) :
  Forall ResolutionEvent evs -> sheetWrites evs = [].
Proof.
  apply sheetWrites_none. intros row col value [H|H]; discriminate.
Qed.

Lemma check_no_write (evs : list Event) :
  Forall CheckEvent evs -> sheetWrites evs = [].
Proof.
  apply sheetWrites_none. intros row col value [H|H]; discriminate.
Qed.

Lemma grant_no_write (f e : string) (evs : list Event) :
  Forall (GrantEvent f e) evs -> sheetWrites evs = [].
Proof.
  apply sheetWrites_none. intros row col value [H|H]; discriminate.
Qed.

Section WriteBacks.

Variable E : Env.
Variable cfg : Config.
Variable columns : Columns.

(** Reads the writes off the events of a branch. *)
Ltac read_writes :=
  rewrite ?sheetWrites_app, ?sheetWrites_updateCell;
  repeat match goal with
         | H : sheetWrites ?evs = [] |- _ => rewrite H
         end;
  cbn [sheetWrites app].

Lemma processOne_writes (fuel : nat) (p : Participant) (w : World) :
  ensures (processOne E cfg columns fuel p) w
          (fun r => exists o, result r = Normal o /\
                              TurnWrites cfg columns p o (sheetWrites (events r))).
Proof.
  unfold processOne.
  run_with bumpStats_run.
  apply ensures_tryCatch.
  unfold processBody, shareFolder, recordNotFound, recordAlreadyGranted, grantAndRecord.
  destruct (includes "@" (email p)) eqn:Hvalid; cbn [negb].
  2:{ run_with bumpStats_run. run_with updateCell_run.
      run_with getCurrentTimestamp_run. run_with updateCell_run.
      apply ensures_ret. tidy.
      exists (Skipped InvalidEmail). split; [reflexivity|].
      cbn [TurnWrites]. eexists. read_writes. reflexivity. }
  eapply ensures_bind; eapply ensures_run; [reflexivity|]; tidy.
  destruct (existsb (String.eqb (dedupKey (nama p) (email p))) (seen w)).
  { run_with bumpStats_run. run_with getCurrentTimestamp_run.
    run_with updateCell_run. apply ensures_ret. tidy.
    exists (Skipped Duplicate). split; [reflexivity|].
    cbn [TurnWrites]. eexists. read_writes. reflexivity. }
  eapply ensures_bind; eapply ensures_run; [reflexivity|]; tidy.
  destruct (truthy (isShared p) && (toLowerCase (isShared p) =? "true")%string).
  { run_with bumpStats_run. run_with getCurrentTimestamp_run.
    run_with updateCell_run. apply ensures_ret. tidy.
    exists (Skipped AlreadyShared). split; [reflexivity|].
    cbn [TurnWrites]. eexists. read_writes. reflexivity. }
  eapply ensures_bind.
  eapply ensures_call; [apply resolveFolder_obeys|apply resolveFolder_noThrow|].
  intros found w1 evs1 _ Hevs1. tidy.
  apply resolution_no_write in Hevs1.
  destruct (negb (truthy (orEmpty found))) eqn:Hfound.
  { run_with bumpStats_run. run_with updateCell_run.
    run_with getCurrentTimestamp_run. run_with updateCell_run.
    apply ensures_ret. tidy.
    exists FolderNotFound. split; [reflexivity|].
    cbn [TurnWrites]. eexists. read_writes. reflexivity. }
  apply negb_false_iff in Hfound.
  run_with updateCell_run.
  assert (Hid : exists evs2 w2,
            (if negb (truthy (folderId p))
             then updateCell E (rowIndex p) (colOr (folderIdCol columns) "C") (orEmpty found)
             else ret tt) (bumpRequests w1) = Some (mkRun (Normal tt) w2 evs2) /\
            sheetWrites evs2 = folderIdWrite columns p (orEmpty found)).
  { unfold folderIdWrite. destruct (truthy (folderId p)); cbn [negb].
    - eexists. eexists. split; [reflexivity|reflexivity].
    - eexists. eexists. split; [apply updateCell_run|apply sheetWrites_updateCell]. }
  destruct Hid as [evs2 [w2 [Hrun2 Hevs2]]].
  eapply ensures_bind; eapply ensures_run; [exact Hrun2|]; tidy.
  eapply ensures_bind.
  eapply ensures_call; [apply hasPermission_obeys|apply hasPermission_noThrow|].
  intros has w3 evs3 _ Hevs3. tidy.
  apply check_no_write in Hevs3.
  destruct has.
  { run_with bumpStats_run. run_with updateCell_run.
    run_with getCurrentTimestamp_run. run_with updateCell_run.
    apply ensures_ret. tidy.
    exists AlreadyGranted. split; [reflexivity|].
    cbn [TurnWrites]. eexists. exists (orEmpty found). split; [exact Hfound|].
    read_writes. rewrite Hevs2. rewrite <- ?app_assoc. reflexivity. }
  eapply ensures_bind.
  intros rg Hrg.
  destruct (grantPermission_obeys E cfg fuel (orEmpty found) (email p) w3 rg Hrg)
    as [_ Hevs4].
  apply grant_no_write in Hevs4.
  destruct (result rg) as [g|err] eqn:Hres.
  { run_with bumpStats_run. run_with updateCell_run.
    run_with getCurrentTimestamp_run. run_with updateCell_run.
    run_with randomBelow_run. run_with sleep_run.
    apply ensures_ret. tidy.
    exists Granted. split; [reflexivity|].
    cbn [TurnWrites]. eexists. exists (orEmpty found). split; [exact Hfound|].
    read_writes. rewrite Hevs2. rewrite <- ?app_assoc. reflexivity. }
  tidy. unfold processCatch.
  run_with bumpStats_run. run_with getCurrentTimestamp_run.
  run_with updateCell_run. run_with updateCell_run.
  apply ensures_ret. tidy.
  exists (Error err). split; [reflexivity|].
  cbn [TurnWrites]. eexists. exists (orEmpty found). split; [exact Hfound|].
  read_writes. rewrite Hevs2. rewrite <- ?app_assoc. reflexivity.
Qed.

End WriteBacks.



(** ** A cached FolderId *)

Lemma sheetWrites_In (evs : list Event) (row : Z) (col value : string) :
  In (EvValuesUpdate row col value) evs -> In (row, col, value) (sheetWrites evs).
Proof.
  induction evs as [|ev evs IH]; intros H; [destruct H|].
  destruct H as [->|H]; [left; reflexivity|].
  destruct ev; cbn [sheetWrites]; try (apply IH; exact H).
  right. apply IH. exact H.
Qed.

(** X12. A turn trusts a cached FolderId.  For a record with a FolderId
    in the sheet, a finished turn lists no folder, names that id in every
    listing of permissions and in every request to create a grant, and
    writes no folder id: what it writes are flags, log lines and the
    duplicate notice.  The duplicate notice goes to the fixed column F:
    when the column of FolderId is none of the columns of isShared,
    isFolderExists and LastLog, the one write that can land in the
    FolderId cell is the duplicate notice of a turn that is skipped as a
    duplicate, and only when FolderId is column F. *)
Theorem cached_folder_is_trusted (E : Env) (cfg : Config) (columns : Columns)
    (fuel : nat) (p : Participant) (w : World) (r : Run Outcome)
    (Hcached : truthy (folderId p) = true)
    (Hrun : processOne E cfg columns fuel p w = Some r) :
  Forall (fun ev => isFolderListing ev = false) (events r) /\
  (forall f, In (EvPermissionsList f) (events r) -> f = folderId p) /\
  (forall f e ro, In (EvPermissionsCreate f e ro) (events r) -> f = folderId p) /\
  (forall row col value, In (EvValuesUpdate row col value) (events r) ->
     (col = colOr (isSharedCol columns) "D" /\ (value = "TRUE" \/ value = "FALSE")) \/
     (col = colOr (isFolderExistsCol columns) "E" /\ (value = "TRUE" \/ value = "FALSE")) \/
     (col = colOr (lastLogCol columns) "F" /\
      exists ts rest, value = ("[" ++ ts ++ "] " ++ rest)%string) \/
     (col = "F" /\ exists ts, value = Render.duplicateLog ts)) /\
  (colOr (folderIdCol columns) "C" <> colOr (isSharedCol columns) "D" ->
   colOr (folderIdCol columns) "C" <> colOr (isFolderExistsCol columns) "E" ->
   colOr (folderIdCol columns) "C" <> colOr (lastLogCol columns) "F" ->
   forall row col value, In (EvValuesUpdate row col value) (events r) ->
     col = colOr (folderIdCol columns) "C" ->
     col = "F" /\ result r = Normal (Skipped Duplicate) /\
     exists ts, value = Render.duplicateLog ts).
Proof.
  destruct (processOne_events E cfg columns fuel p w r Hrun) as [_ Hevs].
  rewrite Forall_forall in Hevs.
  split.
  { apply Forall_forall. intros ev Hev. specialize (Hevs ev Hev).
    destruct ev; try reflexivity. cbn in Hevs. congruence. }
  split.
  { intros f Hev. specialize (Hevs _ Hev). cbn in Hevs. unfold FolderOf in Hevs.
    rewrite Hcached in Hevs. exact Hevs. }
  split.
  { intros f e ro Hev. specialize (Hevs _ Hev). cbn in Hevs.
    destruct Hevs as [_ [_ [_ [_ Hfolder]]]]. unfold FolderOf in Hfolder.
    rewrite Hcached in Hfolder. exact Hfolder. }
  split.
  { intros row col value Hev. specialize (Hevs _ Hev). cbn in Hevs.
    destruct Hevs as [_ [H|[H|[H|[H|H]]]]]; auto.
    destruct H as [_ [Hno _]]. congruence. }
  intros HD HE HL row col value Hev Hcol.
  destruct (processOne_writes E cfg columns fuel p w r Hrun) as [o [Ho Hw]].
  apply sheetWrites_In in Hev. unfold TurnWrites, folderIdWrite in Hw.
  rewrite Hcached in Hw.
  destruct o as [reason| | | |e]; [destruct reason|..].
  all: repeat match goal with
              | H : exists _, _ |- _ => destruct H as [? H]
              | H : _ /\ _ |- _ => destruct H as [? H]
              end;
       rewrite Hw in Hev; cbn [app In] in Hev.
  all: repeat match goal with
              | H : _ \/ _ |- _ => destruct H as [H|H]
              | H : False |- _ => destruct H
              end.
  all: injection Hev; intros Hvalue Hcell Hrow.
  all: try (exfalso; congruence).
  split; [congruence|]. split; [exact Ho|]. eexists. symmetry. exact Hvalue.
Qed.

(** The theorem at Jane Doe with the cached id J, at a provider without
    folders. *)
Lemma cached_folder_is_trusted_witness :
  exists r,
    processOne Sample.emptyDrive (Sample.config "P" false) Sample.columns 10
               Sample.janeCached Sample.world0 = Some r /\
    result r = Normal Granted /\
    Forall (fun ev => isFolderListing ev = false) (events r) /\
    In (EvPermissionsCreate "J" "jane@ex.com" "reader") (events r) /\
    forall row value, ~ In (EvValuesUpdate row "C" value) (events r).
Proof.
  eexists.
  eassert (Hrun : processOne Sample.emptyDrive (Sample.config "P" false) Sample.columns
                    10 Sample.janeCached Sample.world0 = Some _)
    by (vm_compute; reflexivity).
  pose proof (cached_folder_is_trusted Sample.emptyDrive (Sample.config "P" false)
                Sample.columns 10 Sample.janeCached Sample.world0 _ eq_refl Hrun)
    as [Hnone [_ [_ [_ Hcell]]]].
  split; [exact Hrun|]. split; [reflexivity|].
  split; [exact Hnone|]. split; [cbn; tauto|].
  intros row value Hin.
  destruct (Hcell ltac:(discriminate) ltac:(discriminate) ltac:(discriminate)
              row "C" value Hin eq_refl) as [Hf _].
  discriminate.
Defined.

(** Where the duplicate notice lands in the FolderId cell: in a sheet with
    the columns Nama | Email | isShared | isFolderExists | LastLog |
    FolderId, the turn of a duplicate with the cached id J writes the
    notice over the id. *)
Lemma duplicate_notice_overwrites_folder_id :
  colOr (folderIdCol (mkColumns 0 1 5 2 3 4)) "C" = "F" /\
  exists r a b,
    processParticipants Sample.emptyDrive (Sample.config "P" true)
                        (mkColumns 0 1 5 2 3 4) 10
                        [Sample.janeCached;
                         mkParticipant 3 "Jane Doe" "jane@ex.com" "J" "" "" ""]
                        Sample.world0 = Some r /\
    result r = Normal [a; b] /\
    outcome b = Skipped Duplicate /\
    trail b = [EvValuesUpdate 3 "F" (Render.duplicateLog "1/1/2025 10.00.00")].
Proof.
  split; [reflexivity|].
  eexists. eexists. eexists. split; [vm_compute; reflexivity|].
  split; [reflexivity|]. split; reflexivity.
Qed.

(** ** The isShared cell after a pass *)

Lemma lastWritten_app (row : Z) (col : string) (a b : list (Z * string * string)) :
  lastWritten row col (a ++ b) =
  match lastWritten row col b with
  | Some v => Some v
  | None => lastWritten row col a
  end.
Proof.
  induction a as [|[[r c] v] a IH]; cbn [app lastWritten].
  - destruct (lastWritten row col b); reflexivity.
  - rewrite IH. destruct (lastWritten row col b); reflexivity.
Qed.

Lemma lastWritten_elsewhere (row : Z) (col : string) (ws : list (Z * string * string)) :
  (forall r c v, In (r, c, v) ws -> r <> row \/ c <> col) ->
  lastWritten row col ws = None.
Proof.
  induction ws as [|[[r c] v] ws IH]; intros H; [reflexivity|].
  cbn [lastWritten]. rewrite IH by (intros r0 c0 v0 H0; apply (H r0 c0 v0); right; exact H0).
  destruct (H r c v (or_introl eq_refl)) as [Hr|Hc].
  - apply Z.eqb_neq in Hr. rewrite Hr. reflexivity.
  - apply String.eqb_neq in Hc. rewrite Hc, andb_false_r. reflexivity.
Qed.

Lemma lastWritten_here (row : Z) (col v : string) (ws : list (Z * string * string)) :
  lastWritten row col ws = None ->
  lastWritten row col ((row, col, v) :: ws) = Some v.
Proof.
  intros H. cbn [lastWritten]. rewrite H, Z.eqb_refl, String.eqb_refl. reflexivity.
Qed.

Lemma lastWritten_skip (row : Z) (col : string) (r : Z) (c v : string)
    (ws : list (Z * string * string)) :
  c <> col ->
  lastWritten row col ((r, c, v) :: ws) = lastWritten row col ws.
Proof.
  intros Hc. cbn [lastWritten]. apply String.eqb_neq in Hc.
  rewrite Hc, andb_false_r. destruct (lastWritten row col ws); reflexivity.
Qed.

(** The writes of a turn go to the row of its record. *)
Lemma turnWrites_row (cfg : Config) (columns : Columns) (p : Participant)
    (o : Outcome) (ws : list (Z * string * string)) (r : Z) (c v : string) :
  TurnWrites cfg columns p o ws -> In (r, c, v) ws -> r = rowIndex p.
Proof.
  intros H Hin. unfold TurnWrites, folderIdWrite in H.
  destruct o as [reason| | | |e]; [destruct reason|..].
  all: repeat match goal with
              | H : exists _, _ |- _ => destruct H as [? H]
              | H : _ /\ _ |- _ => destruct H as [? H]
              end; subst ws.
  all: destruct (truthy (folderId p)); cbn [app In] in Hin.
  all: repeat match goal with
              | H : _ \/ _ |- _ => destruct H as [H|H]
              | H : False |- _ => destruct H
              | H : (_, _, _) = (_, _, _) |- _ => injection H as <- _ _
              end; reflexivity.
Qed.

(** What a turn sends last to the isShared cell of its row. *)
Lemma turnWrites_shared (cfg : Config) (columns : Columns) (p : Participant)
    (o : Outcome) (ws : list (Z * string * string)) :
  let shared := colOr (isSharedCol columns) "D" in
  shared <> colOr (folderIdCol columns) "C" ->
  shared <> colOr (isFolderExistsCol columns) "E" ->
  shared <> colOr (lastLogCol columns) "F" ->
  shared <> "F" ->
  TurnWrites cfg columns p o ws ->
  lastWritten (rowIndex p) shared ws = sharedCellAfter o.
Proof.
  intros shared HC HE HF HF' H. unfold TurnWrites, folderIdWrite in H.
  fold shared in H.
  destruct o as [reason| | | |e]; [destruct reason|..].
  all: repeat match goal with
              | H : exists _, _ |- _ => destruct H as [? H]
              | H : _ /\ _ |- _ => destruct H as [? H]
              end; subst ws.
  all: destruct (truthy (folderId p)); cbn [app sharedCellAfter].
  all: repeat first
         [ rewrite (lastWritten_skip (rowIndex p) shared)
             by (intros Heq; symmetry in Heq; contradiction)
         | rewrite (lastWritten_here (rowIndex p) shared)
             by (repeat rewrite (lastWritten_skip (rowIndex p) shared)
                   by (intros Heq; symmetry in Heq; contradiction);
                 reflexivity) ].
  all: reflexivity.
Qed.

Lemma sheetWrites_flat_map (reports : list Report) :
  sheetWrites (flat_map trail reports) =
  flat_map (fun rep => sheetWrites (trail rep)) reports.
Proof.
  induction reports as [|rep reports IH]; [reflexivity|].
  cbn [flat_map]. rewrite sheetWrites_app, IH. reflexivity.
Qed.

Lemma NoDup_map_filter {A B} (f : A -> B) (g : A -> bool) (l : list A) :
  NoDup (map f l) -> NoDup (map f (filter g l)).
Proof.
  induction l as [|a l IH]; intros H; [exact H|].
  cbn [map] in H. apply NoDup_cons_iff in H. destruct H as [Hnot H].
  cbn [filter]. destruct (g a); [|exact (IH H)].
  cbn [map]. apply NoDup_cons; [|exact (IH H)].
  intros Hin. apply Hnot. apply in_map_iff in Hin. destruct Hin as [x [Hx Hin]].
  apply filter_In in Hin. rewrite <- Hx. apply in_map. exact (proj1 Hin).
Qed.

Lemma NoDup_map_firstn {A B} (f : A -> B) (n : nat) (l : list A) :
  NoDup (map f l) -> NoDup (map f (firstn n l)).
Proof.
  revert l. induction n as [|n IH]; intros l H; [apply NoDup_nil|].
  destruct l as [|a l]; [apply NoDup_nil|].
  cbn [map] in H. apply NoDup_cons_iff in H. destruct H as [Hnot H].
  cbn [firstn map]. apply NoDup_cons; [|exact (IH l H)].
  intros Hin. apply Hnot. apply in_map_iff in Hin. destruct Hin as [x [Hx Hin]].
  rewrite <- Hx. apply in_map. exact (firstn_subset _ _ _ Hin).
Qed.

(** The records of the batch keep the rows of the records that were read. *)
Lemma working_rows (cfg : Config) (participants : list Participant) :
  NoDup (map rowIndex participants) ->
  NoDup (map rowIndex (workingParticipants cfg participants)).
Proof.
  intros H. unfold workingParticipants, slice0, applySharding.
  assert (Hnorm : NoDup (map rowIndex (map normalizeOne participants))).
  { rewrite map_map. exact H. }
  destruct (resolvedMaxPerRun cfg <? 0); apply NoDup_map_firstn.
  all: destruct (0 <? shardTotal cfg); repeat apply NoDup_map_filter; exact Hnorm.
Qed.

Section PassWrites.

Variable E : Env.
Variable cfg : Config.
Variable columns : Columns.

(** What holds of the outcome and the events of every turn holds of
    every report. *)
Lemma processLoop_turns (T : Participant -> Outcome -> list Event -> Prop)
    (fuel : nat) (working : list Participant) :
  (forall p w r, processOne E cfg columns fuel p w = Some r ->
                 exists o, result r = Normal o /\ T p o (events r)) ->
  forall w r,
    processLoop E cfg columns fuel working w = Some r ->
    exists reports,
      result r = Normal reports /\
      map subject reports = working /\
      events r = flat_map trail reports /\
      forall rep, In rep reports -> T (subject rep) (outcome rep) (trail rep).
Proof.
  intros Hturn. induction working as [|p rest IH]; intros w r H.
  - injection H as <-. exists []. repeat split. intros rep [].
  - destruct (processOne E cfg columns fuel p w) as [r1|] eqn:Hone.
    2:{ cbn [processLoop] in H. unfold bind at 1, listen in H.
        rewrite Hone in H. discriminate. }
    destruct (Hturn p w r1 Hone) as [o [Ho Hevs1]].
    destruct r1 as [res1 w1 evs1]. cbn in Ho, Hevs1. subst res1.
    rewrite (processLoop_cons E cfg columns fuel p rest w w1 o evs1 Hone) in H.
    unfold thenRest in H.
    destruct (processLoop E cfg columns fuel rest w1) as [r'|] eqn:Hrest;
      [|discriminate].
    destruct (IH w1 r' Hrest) as [reports [Hres [Hsubj [Hevs Hall]]]].
    rewrite Hres in H. injection H as <-.
    exists (mkReport p o evs1 :: reports). cbn.
    split; [reflexivity|]. split; [rewrite Hsubj; reflexivity|].
    split; [rewrite Hevs; reflexivity|].
    intros rep [<-|Hin]; [exact Hevs1|apply Hall; exact Hin].
Qed.

Lemma processParticipants_turns (T : Participant -> Outcome -> list Event -> Prop)
    (fuel : nat) (participants : list Participant) (w : World)
    (r : Run (list Report)) :
  (forall p w0 r0, processOne E cfg columns fuel p w0 = Some r0 ->
                   exists o, result r0 = Normal o /\ T p o (events r0)) ->
  processParticipants E cfg columns fuel participants w = Some r ->
  exists reports,
    result r = Normal reports /\
    map subject reports = workingParticipants cfg participants /\
    events r = flat_map trail reports /\
    forall rep, In rep reports -> T (subject rep) (outcome rep) (trail rep).
Proof.
  intros Hturn H. unfold processParticipants in H.
  apply bind_inv in H. destruct H as [r1 [Hr1 H]].
  injection Hr1 as <-. cbn [result after] in H.
  destruct H as [r2 [Hr2 ->]]. cbn [andThen events app result].
  exact (processLoop_turns T fuel _ Hturn _ r2 Hr2).
Qed.

(** Among reports on distinct rows, the cell of a report is the one its
    own turn left. *)
Lemma lastWritten_own_turn (col : string) (reports : list Report) (rep : Report) :
  NoDup (map rowIndex (map subject reports)) ->
  (forall rep0, In rep0 reports ->
     forall r c v, In (r, c, v) (sheetWrites (trail rep0)) ->
                   r = rowIndex (subject rep0)) ->
  In rep reports ->
  lastWritten (rowIndex (subject rep)) col
              (flat_map (fun rep0 => sheetWrites (trail rep0)) reports) =
  lastWritten (rowIndex (subject rep)) col (sheetWrites (trail rep)).
Proof.
  induction reports as [|a reports IH]; intros Hrows Hown Hin; [destruct Hin|].
  cbn [map] in Hrows. apply NoDup_cons_iff in Hrows. destruct Hrows as [Hnot Hrows].
  cbn [flat_map]. rewrite lastWritten_app.
  destruct Hin as [->|Hin].
  - rewrite lastWritten_elsewhere; [reflexivity|].
    intros r c v Hw. left. intros Heq.
    apply in_flat_map in Hw. destruct Hw as [rep0 [Hrep0 Hw]].
    apply Hnot. rewrite <- Heq, (Hown rep0 (or_intror Hrep0) _ _ _ Hw).
    apply in_map, in_map. exact Hrep0.
  - rewrite (IH Hrows (fun rep0 H0 => Hown rep0 (or_intror H0)) Hin).
    destruct (lastWritten (rowIndex (subject rep)) col (sheetWrites (trail rep)));
      [reflexivity|].
    apply lastWritten_elsewhere. intros r c v Hw. left. intros Heq.
    apply Hnot. rewrite <- (Hown a (or_introl eq_refl) _ _ _ Hw), Heq.
    apply in_map, in_map. exact Hin.
Qed.

End PassWrites.

(** X23. After a pass the isShared cell tells the outcome.  When the
    records are on distinct rows and the column of isShared is none of
    the columns of FolderId, isFolderExists and LastLog nor column F,
    the value that a finished pass sent last to the isShared cell of the
    row of a report is TRUE when the access was granted or was there,
    FALSE when the grant failed or the email was invalid, and the pass
    sent nothing to that cell in the other cases. *)
Theorem isShared_cell_follows_outcome (E : Env) (cfg : Config) (columns : Columns)
    (fuel : nat) (participants : list Participant) (w : World)
    (r : Run (list Report)) (reports : list Report) (rep : Report)
    (Hrows : NoDup (map rowIndex participants))
    (HC : colOr (isSharedCol columns) "D" <> colOr (folderIdCol columns) "C")
    (HE : colOr (isSharedCol columns) "D" <> colOr (isFolderExistsCol columns) "E")
    (HL : colOr (isSharedCol columns) "D" <> colOr (lastLogCol columns) "F")
    (HF : colOr (isSharedCol columns) "D" <> "F")
    (Hrun : processParticipants E cfg columns fuel participants w = Some r)
    (Hres : result r = Normal reports)
    (Hin : In rep reports) :
  lastWritten (rowIndex (subject rep)) (colOr (isSharedCol columns) "D")
              (sheetWrites (events r)) =
  sharedCellAfter (outcome rep).
Proof.
  destruct (processParticipants_turns E cfg columns
              (fun p o evs => TurnWrites cfg columns p o (sheetWrites evs))
              fuel participants w r
              (processOne_writes E cfg columns fuel) Hrun)
    as [reports' [Hres' [Hsubj [Hevs Hall]]]].
  rewrite Hres in Hres'. injection Hres' as <-.
  rewrite Hevs, sheetWrites_flat_map.
  rewrite (lastWritten_own_turn (colOr (isSharedCol columns) "D") reports rep).
  - exact (turnWrites_shared cfg columns _ _ _ HC HE HL HF (Hall rep Hin)).
  - rewrite Hsubj. apply working_rows. exact Hrows.
  - intros rep0 H0 r0 c v Hw. exact (turnWrites_row _ _ _ _ _ _ _ _ (Hall rep0 H0) Hw).
  - exact Hin.
Qed.

(** The theorem at a pass over Jane Doe and Bob Johnson, whose folder
    does not exist. *)
Lemma isShared_cell_follows_outcome_witness :
  exists r rep,
    processParticipants Sample.flatDrive (Sample.config "P" false) Sample.columns 10
                        [Sample.jane; Sample.bob] Sample.world0 = Some r /\
    subject rep = Sample.jane /\ outcome rep = Granted /\
    lastWritten 2 "D" (sheetWrites (events r)) = Some "TRUE".
Proof.
  assert (Hrows : NoDup (map rowIndex [Sample.jane; Sample.bob])).
  { cbn. apply NoDup_cons; [intros [H|[]]; discriminate|].
    apply NoDup_cons; [intros []|apply NoDup_nil]. }
  assert (HC : colOr (isSharedCol Sample.columns) "D" <> colOr (folderIdCol Sample.columns) "C")
    by (vm_compute; discriminate).
  assert (HE : colOr (isSharedCol Sample.columns) "D" <> colOr (isFolderExistsCol Sample.columns) "E")
    by (vm_compute; discriminate).
  assert (HL : colOr (isSharedCol Sample.columns) "D" <> colOr (lastLogCol Sample.columns) "F")
    by (vm_compute; discriminate).
  assert (HF : colOr (isSharedCol Sample.columns) "D" <> "F")
    by (vm_compute; discriminate).
  eassert (Hrun : processParticipants Sample.flatDrive (Sample.config "P" false)
                    Sample.columns 10 [Sample.jane; Sample.bob] Sample.world0 = Some _)
    by (vm_compute; reflexivity).
  match type of Hrun with
  | _ = Some (mkRun (Normal (?rep :: ?rest)) ?w ?evs) =>
      pose proof (isShared_cell_follows_outcome _ _ _ _ _ _ _ (rep :: rest) rep
                    Hrows HC HE HL HF Hrun eq_refl (or_introl eq_refl)) as H;
      exists (mkRun (Normal (rep :: rest)) w evs); exists rep
  end.
  split; [exact Hrun|].
  split; [reflexivity|]. split; [reflexivity|]. exact H.
Defined.
